(* ===== verification/_CoqProject ===== *)
-Q . S2P
Prelude.v
Memory.v
Text.v
Matching.v
ServerList.v
GroupInfo.v
Article.v
OverviewFmt.v
Container.v
Heap.v
Alloc.v
Nvalloc.v
Nvfree.v
ContainerSpec.v
NVlist.v
Records.v
NVHash.v
ActiveDB.v
RServer.v
Sstream.v
DbLaws.v
RSafe.v
RNews.v
RActive.v
RTalk.v
RPost.v
RNewsgroup.v
CServer.v
NVArray.v
ArrayLaws.v
ArrayMap.v
NVNewsgroup.v
NgLaws.v
NgSize.v
CNewsgroup.v
CSafe.v
CSpool.v
SpoolLock.v
NgBig.v
CacheHit.v
Md5.v
AccessList.v
Config.v
Spooldir.v
Clean.v
NnrpAuth.v
AuthPam.v
Calendar.v
ClientData.v
CClient.v
Servers.v
Updatenews.v
Nnrp.v
Nntpd.v
Nnrpd.v
NnrpdKeeps.v
NnrpdSafe.v
Connect.v
NnrpdReads.v
LocalGroup.v
Session.v
Logger.v
Exceptions.v
Process.v
Programs.v
