(* ===== verification/Prelude.v ===== *)
(** * NewsCache: a verification development

    NewsCache is a caching NNTP server: news readers connect to it, it serves them from
    databases on disk and fills these from news servers.  This library is a model of
    it, function by function, with the theorems that make it correct.  It follows the
    sources under src/: NVClasses-0.9.1 (databases in memory-mapped files),
    NServer-0.9.1 (articles, newsgroups, news servers), md5lib, and src (the programs
    nnrpd/nntpd, updatenews, NewsCacheClean).

    ** How code is modelled

    This file holds the vocabulary of all others.  A function of the program that
    changes an object is a computation of the monad [M S A] on the state [S] of that
    object.  Its outcomes are [Ret] (a value and the new state), [Throw] (a C++
    exception, with the state at the [throw]: what was written stays), [Abort]
    (undefined behaviour: an access outside a mapping or an array, a null or dangling
    pointer, an uninitialized variable) and [Spin] (the fuel of a loop is used up).
    [wp] is total correctness: it excludes the last three, [runs] excludes [Abort] and
    [Spin] and allows for exceptions, [may] is partial correctness.  Every loop whose
    recursion is not structural takes fuel computed from its input (the rest of a
    stream, the size of a table, a range of numbers, the retries left), so that [Spin]
    means a loop that does not end; the theorems that state [wp] or [runs] prove that
    the fuel is enough.

    Integers are Z with the wrap-around of their types written out ([w64], [w32],
    [s32]): LP64, as in the default build.  Bytes are [ascii], strings and files lists of
    bytes, objects that are stored in files their bytes.  Pointers into a mapping are
    offsets, pointers into C strings the rest of the string.

    ** The parts

    Databases (src/NVClasses-0.9.1):
    - Memory.v: the bytes of a file, words in them.
    - Container.v: NVcontainer, its mapping, locks and allocator; the virtual
      make_current is the class [VTable], the system calls the class [Os].  Heap.v is
      the abstract allocator (a tiling of blocks, first fit, coalescing), Alloc.v the
      invariant and the rules of lock and resize, Nvalloc.v and Nvfree.v the proofs that
      nvalloc and nvfree refine it, ContainerSpec.v the theorems.
    - NVlist.v (NVlist, NVList), Records.v, NVHash.v: lists of records and the table of
      such lists.
    - NVArray.v: the array of records; ArrayLaws.v its invariant and rules, ArrayMap.v
      that it refines a list of optional records.
    - Logger.v: the log.

    Texts (src/NServer-0.9.1, src/md5lib):
    - Text.v: readline and the Lexer.  Matching.v: matchgroup, wildmat, NewsgroupFilter.
    - ServerList.v: MPList, the news servers of the configuration.  GroupInfo.v.
    - Article.v, OverviewFmt.v.  Md5.v: md5 and md5crypt.

    Newsgroups and news servers (src/NServer-0.9.1):
    - ActiveDB.v: NVActiveDB, the map from names to descriptions.  DbLaws.v: that it
      obeys the laws of the class [ActiveDB], which RServer uses.
    - Sstream.v: the stream RServer talks on.
    - RServer.v: connect, issue, selectgroup; RNews.v: active, groupinfo, articles,
      post.  The network is a script of what each connection delivers.  RSafe.v: the
      dialogue ends on every script; RTalk.v: what an exchange achieves; RPost.v: post.
    - RNewsgroup.v: newsgroups that are not cached.
    - CServer.v: CServer and the spool.  RActive.v: retrieving the list of groups talks
      to one server at a time, whatever becomes of the database; CSafe.v: when the cache
      is used, and that offline servers are left alone.  CSpool.v: the spool is a bag,
      from which the order of readdir picks.  SpoolLock.v: ObjLock, and the functions of
      ArtSpooler as steps of many processes.
      Spooldir.v: mkpdir and the directories of the spool.
    - NVNewsgroup.v: a newsgroup in a database file.  NgLaws.v: records and articles
      are found again; NgBig.v: articles in files of their own; NgSize.v: a new range.
      CNewsgroup.v: a newsgroup of the cache; CacheHit.v: what is cached is not asked for
      again.  CClient.v: CServer::getgroup, and the server with the newsgroups it gave
      out as an instance of [NewsServer].  Servers.v: how the servers are made and
      deleted.

    The programs (src/src):
    - AccessList.v, Config.v: the configuration.  NnrpAuth.v: authinfo; AuthPam.v: with
      PAM and plain passwords.  Calendar.v: the C library's calendar, for newgroups and
      date.
    - ClientData.v: a client and its commands, and the class [NewsServer] of what the
      commands use of the caching server.  Nnrp.v: the functions ns_*.  Nnrpd.v: the
      session.  NnrpdKeeps.v: a walk through the commands for relations they keep;
      NnrpdSafe.v: what a client cannot do; NnrpdReads.v: what it is shown; Connect.v:
      how it connects;
      LocalGroup.v: newsgroups of the database obey what NnrpdReads.v relies on;
      Session.v: sessions that run on the caching server.
    - Nntpd.v: the daemon and its children as a transition system.
    - Clean.v: NewsCacheClean.  Updatenews.v: updatenews.
    - Exceptions.v: the classes of exceptions, and the handlers of a child of nntpd.
    - Process.v: programs as sequences of effects that end with a value, exit or crash;
      setugid, the start of nntpd, signals.  Programs.v: main of the three programs.

    The parts meet in interfaces.  [VTable] is what a container needs of its subclass
    (instances for NVHash and NVArray); [ActiveDB] is what RServer needs of the
    database; [NewsServer] is what the commands need of the server; [walkable] is what
    next and last need of a newsgroup; [FileLocks] and [Os] are the kernel's side.  The
    theorems on a client of an interface are proved from its laws, and the
    implementation is proved to obey them.

    ** The theorems

    Each carries its number as a claim in front of its statement.
    - What a client is given (NnrpdReads.v, NnrpdSafe.v): it is only in newsgroups its
      entry lets it read; where a login is asked for, a client whose passwords are all
      rejected gets nothing; its commands are those of its flags; each form of the lists
      shows the groups its rules tell; next and last find the
      nearest article; requests that fail are answered and change nothing.
    - What is cached (CacheHit.v, NgLaws.v, NgBig.v, NgSize.v, ArrayMap.v): an article
      crosses the network once; articles and overview records come back as they were
      stored, every record has a type, an expiry keeps what is in the new range and the
      files with it, the array is a list of records.
    - What the news servers are asked (RSafe.v, RTalk.v, RPost.v, CSafe.v): dialogues
      end, the numbers of a reply are stored (and the posting flag is lost), a post that
      succeeds was taken by all servers, or they had its Message-ID, a fresh entry is
      served without a question, and servers marked offline get none.
    - The spool (CSpool.v, SpoolLock.v): every article comes back once, in whatever order
      readdir gives the files; many processes are one after the other.
    - Databases (ContainerSpec.v, NVHash.v, ActiveDB.v): allocation and release refine
      the abstract allocator, locks nest, opening establishes the invariant, the hash
      table keeps its records, the database of the newsgroups is a map that can be
      printed and read.
    - Texts: patterns mean what their specification says, the server list can be printed
      and read when its entries are printable, texts are read up to their end, fields of
      articles and overview records are the right ones, MD5 does not depend on the pieces,
      with words of 32 bits and with the 64 of LP64, where it cannot digest a block.
    - Who is served (Connect.v, AuthPam.v, Programs.v): by the first entry that matches
      and allows something; rights change with a proof of the user only; no client is
      served, and no port listened to, with the rights of root.
    - Processes (Nntpd.v, Clean.v, Programs.v, Servers.v): at most MaxConnections
      children; a run of NewsCacheClean removes the least recently used files and no
      more than needed, articles before their database; the constructor of the server
      restores the database earlier ones left and establishes the invariant its operations
      need.
    - The log (Logger.v, Exceptions.v): it holds the lines that were written, however
      they are put together, with the priority of their message when that ends its lines,
      and else with that of the next; every exception that ends a session of a child of
      nntpd is reported in it.
    Places where the code does not do what it means to are lemmas of their own, on
    concrete inputs where that is clearer ([Session.listgroup_escapes],
    [NnrpdReads.post_never_posts], [Nntpd.lost_decrement],
    [Spooldir.mkpdir_uninitialized], [ArrayMap.setsize_frees_first],
    [RTalk.selectgroup_loses_flag], [Md5.md5crypt_lp64] and others).

    ** Bounds and assumptions

    The theorems on files assume that a file stays below [limit] (2^31 bytes, the range
    of the int in which nvalloc computes the missing size), that places are left on the
    lock stack, and that the system calls obey [OsOk].  Those on newsgroups take ranges
    below 2^32.  The kernel's locks obey [FileLocksOk], stat and mkdir [FsOk]; readdir
    gives every file once, in an order that may be another one each time.  The
    witnesses apply each theorem at concrete files, networks and clients.

    ** Not modelled

    What the functions write to the log, but for the reports of exceptions; the
    effects of the socket++ and C libraries, the resolver, PAM and the password database
    (parameters where their answers matter); signals in the middle of a function (but
    for SIGCHLD in nntpd, the alarm and the end of a session); names that are longer than
    the arrays for options; two objects of one process on the same newsgroup database;
    failures of the file system beyond a missing file, and of fcntl on the lock file of
    the spool.  PostResult of NServer.h is never compiled.  cConfig and the check
    programs call the classes and print; Debug.h, VirtualIterator.h and ActiveDB.cc have
    no behaviour of their own. *)
From Stdlib Require Export ZArith Lia Ascii String.
From stdpp Require Export base gmap list strings.

#[global] Set Default Goal Selector "!".

(** ** Bytes and C strings

    A byte of memory, of a [char] array or of a [std::string] is an [ascii];
    byte sequences are lists of them.  [bs] turns a Rocq string literal into
    such a list, [NUL] is the terminator of a C string. *)
Abbreviation bytes := (list ascii).

Definition bs (s : string) : bytes := list_ascii_of_string s.
Definition NUL : ascii := "000"%char.
Definition TAB : ascii := "009"%char.
Definition LF : ascii := "010"%char.
Definition CR : ascii := "013"%char.

(** [zc c] is the value of an [unsigned char]; [schar c] the value of a plain
    [char], which is signed on the platforms the program is built for. *)
Definition zc (c : ascii) : Z := Z.of_N (N_of_ascii c).
Definition schar (c : ascii) : Z := if decide (zc c < 128)%Z then zc c else (zc c - 256)%Z.
Definition cz (z : Z) : ascii := ascii_of_N (Z.to_N (z mod 256)).

(** [p[j]] for a NUL-terminated array: reading at the terminator gives [NUL]. *)
Definition at_ (s : bytes) (j : nat) : ascii := nth j s NUL.

(** ** Machine integers: LP64, as in the default build *)
Open Scope Z_scope.
Definition w64 (z : Z) : Z := z mod 2 ^ 64.
Definition w32 (z : Z) : Z := z mod 2 ^ 32.
Definition s32 (z : Z) : Z := (z + 2 ^ 31) mod 2 ^ 32 - 2 ^ 31.
Definition s64 (z : Z) : Z := (z + 2 ^ 63) mod 2 ^ 64 - 2 ^ 63.

(** Decimal output, as [ostream << unsigned long] and [printf] do it. *)
Fixpoint digits (fuel : nat) (z : Z) (acc : bytes) : bytes :=
  match fuel with
  | O => acc
  | S f => let acc' := cz (48 + z mod 10) :: acc in
           if (z / 10 =? 0)%Z then acc' else digits f (z / 10) acc'
  end.
Definition dec (z : Z) : bytes :=
  if (z <? 0)%Z then "-"%char :: digits (S (Z.to_nat (Z.log2 (- z)))) (- z) []
  else digits (S (Z.to_nat (Z.log2 z))) z [].

(** A text that ends its line, as some exceptions have it. *)
Definition ln (s : string) : string := (s ++ String "010" "")%string.
Arguments ln s%_string.

(** ** Exceptions: the classes of Error.h and NSError.h *)
Inductive exn :=
| Error (txt : string)
| SystemError (txt : string) (errno : Z)
| IOError (txt : string)
| AssertionError (txt : string)
| SyntaxError (txt : string)
| NSError (txt : string)
| NoSuchFieldError (txt : bytes)
| InvalidArticleError (txt : string)
| NoNewsServerError
| NoSuchGroupError
| NoSuchArticleError
| DuplicateArticleError
| NotAllowedError
| PostingFailedError
| ResponseError (cmd expected got : bytes)
| UsageError
| CharPtr (txt : string)
| StdException (txt : string).

#[export] Instance exn_eq_dec : EqDecision exn.
Proof. solve_decision. Defined.

(** ** The computation monad

    A computation maps a state to a value and a new state, to a C++ exception
    (the state keeps what was written before the [throw]), to [Abort] (undefined
    behaviour such as an access outside the mapping, or a killed process), or to
    [Spin] when the fuel of a loop is used up. *)
Inductive outcome (S A : Type) :=
| Ret (a : A) (s : S)
| Throw (e : exn) (s : S)
| Abort (why : string)
| Spin.
Arguments Ret {S A} a s.
Arguments Throw {S A} e s.
Arguments Abort {S A} why.
Arguments Spin {S A}.

Definition M (S A : Type) : Type := S -> outcome S A.

Definition ret {S A} (a : A) : M S A := fun s => Ret a s.
Definition bind {S A B} (c : M S A) (k : A -> M S B) : M S B := fun s =>
  match c s with
  | Ret a s' => k a s'
  | Throw e s' => Throw e s'
  | Abort w => Abort w
  | Spin => Spin
  end.
Definition throw {S A} (e : exn) : M S A := fun s => Throw e s.
Definition abort {S A} (why : string) : M S A := fun _ => Abort why.
Definition spin {S A} : M S A := fun _ => Spin.
Definition get {S} : M S S := fun s => Ret s s.
Definition gets {S A} (f : S -> A) : M S A := fun s => Ret (f s) s.
Definition modify {S} (f : S -> S) : M S unit := fun s => Ret tt (f s).
Definition catch {S A} (c : M S A) (h : exn -> M S A) : M S A := fun s =>
  match c s with
  | Throw e s' => h e s'
  | o => o
  end.
Definition when {S} (b : bool) (c : M S unit) : M S unit := if b then c else ret tt.

Declare Scope prog_scope.
Delimit Scope prog_scope with prog.
Notation "x <- c ;; k" := (bind c (fun x => k))
  (at level 100, c at next level, right associativity) : prog_scope.
Notation "c ;;; k" := (bind c (fun _ => k))
  (at level 100, k at level 200, right associativity) : prog_scope.
Notation "'raise' e" := (throw e) (at level 10) : prog_scope.
Open Scope prog_scope.

(** ** Total correctness

    [wp c Q s]: from [s], [c] returns (no exception, no undefined behaviour, no
    lack of fuel) a value and a state that satisfy [Q]. *)
Definition wp {S A} (c : M S A) (Q : A -> S -> Prop) (s : S) : Prop :=
  match c s with
  | Ret a s' => Q a s'
  | _ => False
  end.

(** [runs c Q E s]: from [s], [c] returns with [Q] or raises an exception with [E];
    no undefined behaviour, no lack of fuel. *)
Definition runs {S A} (c : M S A) (Q : A -> S -> Prop) (E : exn -> S -> Prop) (s : S) : Prop :=
  match c s with
  | Ret a s' => Q a s'
  | Throw e s' => E e s'
  | _ => False
  end.

(** [may c Q E s]: as [runs], where undefined behaviour is not excluded. *)
Definition may {S A} (c : M S A) (Q : A -> S -> Prop) (E : exn -> S -> Prop) (s : S) : Prop :=
  match c s with
  | Ret a s' => Q a s'
  | Throw e s' => E e s'
  | _ => True
  end.

(** [throws c e s]: from [s], [c] raises [e]. *)
Definition throws {S A} (c : M S A) (e : exn) (s : S) : Prop :=
  exists s', c s = Throw e s'.
Definition aborts {S A} (c : M S A) (s : S) : Prop :=
  exists w, c s = Abort w.

Section wp_rules.
Context {S : Type}.
Implicit Types s : S.

Lemma wp_bind {A B} (c : M S A) (k : A -> M S B) Q s :
  wp c (fun a s' => wp (k a) Q s') s -> wp (bind c k) Q s.
Proof. unfold wp, bind. by destruct (c s). Qed.

Lemma wp_unbind {A B} (c : M S A) (k : A -> M S B) Q s :
  wp (bind c k) Q s -> wp c (fun a s' => wp (k a) Q s') s.
Proof. unfold wp, bind. by destruct (c s). Qed.

Lemma wp_ret {A} (a : A) Q s : Q a s -> wp (ret a) Q s.
Proof. done. Qed.

Lemma wp_get Q s : Q s s -> wp get Q s.
Proof. done. Qed.

Lemma wp_gets {A} (f : S -> A) Q s : Q (f s) s -> wp (gets f) Q s.
Proof. done. Qed.

Lemma wp_modify (f : S -> S) Q s : Q tt (f s) -> wp (modify f) Q s.
Proof. done. Qed.

Lemma wp_mono {A} (c : M S A) (P Q : A -> S -> Prop) s :
  wp c P s -> (forall a s', P a s' -> Q a s') -> wp c Q s.
Proof. unfold wp. destruct (c s); eauto. Qed.

Lemma wp_inv {A} (c : M S A) Q s :
  wp c Q s -> exists a s', c s = Ret a s' /\ Q a s'.
Proof. unfold wp. destruct (c s); naive_solver. Qed.

Lemma wp_of_eq {A} (c : M S A) Q s a s' : c s = Ret a s' -> Q a s' -> wp c Q s.
Proof. unfold wp. by intros ->. Qed.

Lemma wp_catch {A} (c : M S A) h Q s : wp c Q s -> wp (catch c h) Q s.
Proof. unfold wp, catch. by destruct (c s). Qed.

Lemma wp_when_true c Q s : wp c Q s -> wp (when true c) Q s.
Proof. done. Qed.

Lemma bind_assoc {A B C} (c : M S A) (f : A -> M S B) (g : B -> M S C) s :
  bind (bind c f) g s = bind c (fun a => bind (f a) g) s.
Proof. unfold bind. by destruct (c s). Qed.

Lemma wp_assoc {A B C D} (c0 : M S D) (c : M S A) (f : A -> M S B) (g : B -> M S C) Q s :
  wp (bind c0 (fun _ => bind (bind c f) g)) Q s -> wp (bind c0 (fun _ => bind c (fun a => bind (f a) g))) Q s.
Proof. unfold wp, bind. destruct (c0 s) as [? s1| | |]; try done. by destruct (c s1). Qed.

Lemma bind_ret {A B} (c : M S A) (k : A -> M S B) a s s' :
  c s = Ret a s' -> bind c k s = k a s'.
Proof. unfold bind. by intros ->. Qed.

Lemma bind_throw {A B} (c : M S A) (k : A -> M S B) e s s' :
  c s = Throw e s' -> bind c k s = Throw e s'.
Proof. unfold bind. by intros ->. Qed.
End wp_rules.

Section runs_rules.
Context {S : Type}.
Implicit Types s : S.

Lemma runs_bind {A B} (c : M S A) (k : A -> M S B) Q E s :
  runs c (fun a s' => runs (k a) Q E s') E s -> runs (bind c k) Q E s.
Proof. unfold runs, bind. by destruct (c s). Qed.

Lemma runs_ret {A} (a : A) Q E s : Q a s -> runs (ret a) Q E s.
Proof. done. Qed.

Lemma runs_throw {A} e (Q : A -> S -> Prop) E s : E e s -> runs (throw e) Q E s.
Proof. done. Qed.

Lemma runs_gets {A} (f : S -> A) Q E s : Q (f s) s -> runs (gets f) Q E s.
Proof. done. Qed.

Lemma runs_modify (f : S -> S) Q E s : Q tt (f s) -> runs (modify f) Q E s.
Proof. done. Qed.

Lemma runs_catch {A} (c : M S A) h Q E s :
  runs c Q (fun e s' => runs (h e) Q E s') s -> runs (catch c h) Q E s.
Proof. unfold runs, catch. by destruct (c s). Qed.

Lemma runs_when (b : bool) (c : M S unit) Q E s :
  (b = true -> runs c Q E s) -> (b = false -> Q tt s) -> runs (when b c) Q E s.
Proof. destruct b; [intros H _; by apply H|intros _ H; by apply H]. Qed.

Lemma runs_mono {A} (c : M S A) (P Q : A -> S -> Prop) (E F : exn -> S -> Prop) s :
  runs c P E s -> (forall a s', P a s' -> Q a s') -> (forall e s', E e s' -> F e s') -> runs c Q F s.
Proof. unfold runs. destruct (c s); eauto. Qed.

Lemma runs_wp {A} (c : M S A) Q E s : wp c Q s -> runs c Q E s.
Proof. unfold runs, wp. by destruct (c s). Qed.

Lemma wp_runs {A} (c : M S A) Q s : runs c Q (fun _ _ => False) s -> wp c Q s.
Proof. unfold runs, wp. by destruct (c s). Qed.
End runs_rules.

(** [rstep] takes one step of a [runs] goal. *)
Ltac rstep :=
  lazymatch goal with
  | |- runs (bind _ _) _ _ _ => apply runs_bind
  | |- runs (ret _) _ _ _ => apply runs_ret
  | |- runs (throw _) _ _ _ => apply runs_throw
  | |- runs (gets _) _ _ _ => apply runs_gets
  | |- runs (modify _) _ _ _ => apply runs_modify
  | |- runs (catch _ _) _ _ _ => apply runs_catch
  | |- runs (when _ _) _ _ _ => apply runs_when; intros ?
  end.

Section may_rules.
Context {S : Type}.
Implicit Types s : S.

Lemma may_bind {A B} (c : M S A) (k : A -> M S B) Q E s :
  may c (fun a s' => may (k a) Q E s') E s -> may (bind c k) Q E s.
Proof. unfold may, bind. by destruct (c s). Qed.

Lemma may_catch {A} (c : M S A) h Q E s :
  may c Q (fun e s' => may (h e) Q E s') s -> may (catch c h) Q E s.
Proof. unfold may, catch. by destruct (c s). Qed.

Lemma may_mono {A} (c : M S A) (P Q : A -> S -> Prop) (E F : exn -> S -> Prop) s :
  may c P E s -> (forall a s', P a s' -> Q a s') -> (forall e s', E e s' -> F e s') -> may c Q F s.
Proof. unfold may. destruct (c s); eauto. Qed.

Lemma may_and {A} (c : M S A) (P Q : A -> S -> Prop) (E F : exn -> S -> Prop) s :
  may c P E s -> may c Q F s -> may c (fun a s' => P a s' /\ Q a s') (fun e s' => E e s' /\ F e s') s.
Proof. unfold may. by destruct (c s). Qed.

Lemma may_ret {A} (a : A) Q E s : Q a s -> may (ret a) Q E s.
Proof. done. Qed.
Lemma may_throw {A} e (Q : A -> S -> Prop) E s : E e s -> may (throw e) Q E s.
Proof. done. Qed.
Lemma may_gets {A} (f : S -> A) Q E s : Q (f s) s -> may (gets f) Q E s.
Proof. done. Qed.
Lemma may_modify (f : S -> S) Q E s : Q tt (f s) -> may (modify f) Q E s.
Proof. done. Qed.

Lemma may_then {A B} (c : M S A) (k : A -> M S B) Q (E : exn -> S -> Prop) s :
  (forall e s', E e s') -> (forall a s', may (k a) Q E s') -> may (bind c k) Q E s.
Proof. intros HE Hk. unfold may, bind. destruct (c s) as [a s'|e s'| |]; [apply Hk|apply HE|done..]. Qed.

Lemma runs_may {A} (c : M S A) Q E s : runs c Q E s -> may c Q E s.
Proof. unfold runs, may. by destruct (c s). Qed.
End may_rules.

(** [pstep] takes one step of a [may] goal. *)
Ltac pstep :=
  lazymatch goal with
  | |- may (bind _ _) _ _ _ => apply may_bind
  | |- may (ret _) _ _ _ => apply may_ret
  | |- may (throw _) _ _ _ => apply may_throw
  | |- may (abort _) _ _ _ => exact I
  | |- may spin _ _ _ => exact I
  | |- may (gets _) _ _ _ => apply may_gets
  | |- may (modify _) _ _ _ => apply may_modify
  | |- may (catch _ _) _ _ _ => apply may_catch
  end.

Create HintDb prog discriminated.
Create Rewrite HintDb prog.
#[export] Hint Resolve wp_ret wp_get wp_gets wp_modify : prog.

(** [wstep] takes one step of a [wp] goal. *)
Ltac wstep :=
  lazymatch goal with
  | |- wp (bind _ _) _ _ => apply wp_bind
  | |- wp (ret _) _ _ => apply wp_ret
  | |- wp get _ _ => apply wp_get
  | |- wp (gets _) _ _ => apply wp_gets
  | |- wp (modify _) _ _ => apply wp_modify
  | |- wp (when true _) _ _ => apply wp_when_true
  | |- wp (when false _) _ _ => apply wp_ret
  end.

(** ** Integers that do not wrap *)
Lemma w64_small v : 0 <= v < 2 ^ 64 -> w64 v = v.
Proof. intros. by apply Z.mod_small. Qed.
Lemma w32_small v : 0 <= v < 2 ^ 32 -> w32 v = v.
Proof. intros. by apply Z.mod_small. Qed.

(** ** Lists *)
Lemma at_cons_0 c s : at_ (c :: s) 0 = c.
Proof. done. Qed.

Lemma at_cons_S c s j : at_ (c :: s) (Datatypes.S j) = at_ s j.
Proof. done. Qed.

Lemma at_nil j : at_ [] j = NUL.
Proof. by destruct j. Qed.

Lemma at_beyond s j : (length s <= j)%nat -> at_ s j = NUL.
Proof. intros. by apply nth_overflow. Qed.

#[export] Hint Rewrite at_cons_0 at_cons_S at_nil : prog.
