(* ===== verification/Memory.v ===== *)
(** * Memory.v: the bytes of a database file

    The NVContainer classes work on a file mapped with [MAP_SHARED], so the
    memory they read and write is the content of the file.  It is a finite map
    from offsets to bytes whose absent entries are zero, as [ftruncate] leaves
    them.  Words ([unsigned long], [nvoff_t], [nvtime_t]) are eight bytes, least
    significant byte first. *)
From S2P Require Import Prelude.

Abbreviation mem := (gmap Z ascii).

(** ** Reading and writing *)
Definition ld8 (m : mem) (a : Z) : ascii := default NUL (m !! a).
Definition st8 (m : mem) (a : Z) (c : ascii) : mem := <[a := c]> m.

Fixpoint ldn (m : mem) (a : Z) (n : nat) : bytes :=
  match n with
  | O => []
  | S n' => ld8 m a :: ldn m (a + 1) n'
  end.

Fixpoint stn (m : mem) (a : Z) (l : bytes) : mem :=
  match l with
  | [] => m
  | c :: l' => stn (st8 m a c) (a + 1) l'
  end.

(** The value of a little-endian byte sequence, and the [n] bytes of a value. *)
Fixpoint le_val (l : bytes) : Z :=
  match l with
  | [] => 0
  | c :: l' => zc c + 256 * le_val l'
  end.

Fixpoint le_bytes (n : nat) (v : Z) : bytes :=
  match n with
  | O => []
  | S n' => cz v :: le_bytes n' (v / 256)
  end.

Definition ld64 (m : mem) (a : Z) : Z := le_val (ldn m a 8).
Definition st64 (m : mem) (a v : Z) : mem := stn m a (le_bytes 8 v).
Definition ld32 (m : mem) (a : Z) : Z := le_val (ldn m a 4).
Definition st32 (m : mem) (a v : Z) : mem := stn m a (le_bytes 4 v).

(** The C string at [a]: bytes up to the first NUL, within [n] bytes. *)
Fixpoint ldstr (m : mem) (a : Z) (n : nat) : bytes :=
  match n with
  | O => []
  | S n' => if decide (ld8 m a = NUL) then [] else ld8 m a :: ldstr m (a + 1) n'
  end.

(** Two memories with the same bytes in [lo, hi). *)
Definition same_on (m m' : mem) (lo hi : Z) : Prop :=
  forall a, lo <= a < hi -> ld8 m a = ld8 m' a.

(** ** Byte values *)
Lemma zc_range c : 0 <= zc c < 256.
Proof. unfold zc. pose proof (N_ascii_bounded c). lia. Qed.

Lemma zc_cz z : zc (cz z) = z mod 256.
Proof.
  unfold zc, cz. pose proof (Z.mod_pos_bound z 256).
  rewrite N_ascii_embedding; lia.
Qed.

Lemma cz_zc c : cz (zc c) = c.
Proof.
  unfold zc, cz. pose proof (N_ascii_bounded c).
  rewrite Z.mod_small by lia. rewrite N2Z.id. apply ascii_N_embedding.
Qed.

(** ** Little-endian words *)
Lemma length_le_bytes n v : length (le_bytes n v) = n.
Proof. revert v. by induction n; intros; simpl; f_equal. Qed.

Lemma le_val_bytes n v : le_val (le_bytes n v) = v mod 256 ^ Z.of_nat n.
Proof.
  revert v. induction n as [|n IH]; intros v; cbn [le_bytes le_val].
  - by rewrite Z.mod_1_r.
  - rewrite IH, zc_cz, Nat2Z.inj_succ, Z.pow_succ_r by lia.
    rewrite Z.rem_mul_r by lia. lia.
Qed.

Lemma le_val_range l : 0 <= le_val l < 256 ^ Z.of_nat (length l).
Proof.
  induction l as [|c l IH]; cbn [le_val length]; [lia|].
  pose proof (zc_range c). rewrite Nat2Z.inj_succ, Z.pow_succ_r by lia. lia.
Qed.

Lemma length_ldn m a n : length (ldn m a n) = n.
Proof. revert a. by induction n; intros; simpl; f_equal. Qed.

Lemma ld64_range m a : 0 <= ld64 m a < 2 ^ 64.
Proof.
  unfold ld64. pose proof (le_val_range (ldn m a 8)) as H.
  rewrite length_ldn in H. exact H.
Qed.

(** ** Frame properties *)
Lemma ld8_st8_eq m a c : ld8 (st8 m a c) a = c.
Proof. unfold ld8, st8. by rewrite lookup_insert_eq. Qed.

Lemma ld8_st8_ne m a b c : a <> b -> ld8 (st8 m a c) b = ld8 m b.
Proof. intros. unfold ld8, st8. by rewrite lookup_insert_ne. Qed.

Lemma ld8_stn_out m a l b :
  b < a \/ a + Z.of_nat (length l) <= b -> ld8 (stn m a l) b = ld8 m b.
Proof.
  revert m a. induction l as [|c l IH]; intros m a H; cbn [stn length] in *; [done|].
  rewrite IH by lia. rewrite ld8_st8_ne; [done|lia].
Qed.

Lemma ldn_stn_same m a l : ldn (stn m a l) a (length l) = l.
Proof.
  revert m a. induction l as [|c l IH]; intros m a; cbn [stn ldn length]; [done|].
  rewrite IH. f_equal. rewrite ld8_stn_out by lia. apply ld8_st8_eq.
Qed.

Lemma ldn_same m m' a n :
  same_on m m' a (a + Z.of_nat n) -> ldn m a n = ldn m' a n.
Proof.
  revert a. induction n as [|n IH]; intros a H; cbn [ldn]; [done|]. f_equal.
  - apply H. lia.
  - apply IH. intros b Hb. apply H. lia.
Qed.

Lemma ld64_same m m' a : same_on m m' a (a + 8) -> ld64 m a = ld64 m' a.
Proof. intros. unfold ld64. f_equal. by apply ldn_same. Qed.

Lemma ld32_same m m' a : same_on m m' a (a + 4) -> ld32 m a = ld32 m' a.
Proof. intros. unfold ld32. f_equal. by apply ldn_same. Qed.

Lemma same_on_refl m lo hi : same_on m m lo hi.
Proof. done. Qed.

Lemma same_on_sym m m' lo hi : same_on m m' lo hi -> same_on m' m lo hi.
Proof. intros H a Ha. symmetry. by apply H. Qed.

Lemma same_on_trans m1 m2 m3 lo hi :
  same_on m1 m2 lo hi -> same_on m2 m3 lo hi -> same_on m1 m3 lo hi.
Proof. intros H1 H2 a Ha. rewrite H1 by done. by apply H2. Qed.

Lemma same_on_mono m m' lo hi lo' hi' :
  same_on m m' lo hi -> lo <= lo' -> hi' <= hi -> same_on m m' lo' hi'.
Proof. intros H ?? a ?. apply H. lia. Qed.

Lemma same_on_stn m a l lo hi :
  hi <= a \/ a + Z.of_nat (length l) <= lo -> same_on (stn m a l) m lo hi.
Proof. intros H b Hb. apply ld8_stn_out. lia. Qed.

Lemma same_on_st64 m a v lo hi :
  hi <= a \/ a + 8 <= lo -> same_on (st64 m a v) m lo hi.
Proof. intros. apply same_on_stn. rewrite length_le_bytes. lia. Qed.

Lemma same_on_st64_r m m1 a v lo hi :
  same_on m m1 lo hi -> hi <= a \/ a + 8 <= lo -> same_on m (st64 m1 a v) lo hi.
Proof. intros H ? b Hb. rewrite H by done. symmetry. by apply same_on_st64 with (lo := lo) (hi := hi). Qed.

Lemma ld64_st64_eq m a v : ld64 (st64 m a v) a = w64 v.
Proof.
  unfold ld64, st64, w64.
  pose proof (ldn_stn_same m a (le_bytes 8 v)) as H. rewrite length_le_bytes in H.
  rewrite H, le_val_bytes. done.
Qed.

Lemma ld64_st64 m a v : 0 <= v < 2 ^ 64 -> ld64 (st64 m a v) a = v.
Proof. intros. rewrite ld64_st64_eq. by apply w64_small. Qed.

Lemma ld64_st64_ne m a b v :
  b + 8 <= a \/ a + 8 <= b -> ld64 (st64 m a v) b = ld64 m b.
Proof. intros. apply ld64_same, same_on_st64. lia. Qed.

Lemma ld64_stn_ne m a b l :
  b + 8 <= a \/ a + Z.of_nat (length l) <= b -> ld64 (stn m a l) b = ld64 m b.
Proof. intros. by apply ld64_same, same_on_stn. Qed.

Lemma ld32_st64_ne m a b v :
  b + 4 <= a \/ a + 8 <= b -> ld32 (st64 m a v) b = ld32 m b.
Proof. intros. by apply ld32_same, same_on_st64. Qed.

Lemma ldn_stn_out m a l b n :
  b + Z.of_nat n <= a \/ a + Z.of_nat (length l) <= b ->
  ldn (stn m a l) b n = ldn m b n.
Proof. intros. by apply ldn_same, same_on_stn. Qed.

Lemma ldn_st64_out m a v b n :
  b + Z.of_nat n <= a \/ a + 8 <= b -> ldn (st64 m a v) b n = ldn m b n.
Proof. intros. by apply ldn_same, same_on_st64. Qed.

Lemma stn_app m a l1 l2 : stn m a (l1 ++ l2) = stn (stn m a l1) (a + Z.of_nat (length l1)) l2.
Proof.
  revert m a. induction l1 as [|c l1 IH]; intros m a; cbn [stn app length].
  - by rewrite Z.add_0_r.
  - rewrite IH. f_equal. lia.
Qed.

Lemma ldn_add m a n1 n2 : ldn m a (n1 + n2) = ldn m a n1 ++ ldn m (a + Z.of_nat n1) n2.
Proof.
  revert a. induction n1 as [|n1 IH]; intros a; cbn [ldn Nat.add app].
  - by rewrite Z.add_0_r.
  - rewrite IH. by replace (a + 1 + Z.of_nat n1) with (a + Z.of_nat (S n1)) by lia.
Qed.

(** Reading inside what was written. *)
Lemma ldn_stn_in m a l i n :
  (i + n <= length l)%nat -> ldn (stn m a l) (a + Z.of_nat i) n = take n (drop i l).
Proof.
  intros H. rewrite <- (take_drop i l) at 1. rewrite stn_app, length_take, Nat.min_l by lia.
  rewrite <- (take_drop n (drop i l)) at 1. rewrite stn_app.
  assert (length (take n (drop i l)) = n) as Hl by (rewrite length_take, length_drop; lia).
  rewrite ldn_stn_out by lia.
  pose proof (ldn_stn_same (stn m a (take i l)) (a + Z.of_nat i) (take n (drop i l))) as Hs.
  by rewrite Hl in Hs.
Qed.

Lemma ldstr_same m m' a n :
  same_on m m' a (a + Z.of_nat n) -> ldstr m a n = ldstr m' a n.
Proof.
  revert a. induction n as [|n IH]; intros a H; cbn [ldstr]; [done|].
  assert (ld8 m a = ld8 m' a) as -> by (apply H; lia).
  rewrite (IH (a + 1)); [done|]. intros b Hb. apply H. lia.
Qed.

(** [mem_simpl] reads through writes at disjoint addresses, [frame] shows that
    writes leave a range alone. *)
Create Rewrite HintDb memory.
#[export] Hint Rewrite ld64_st64_ne ld64_stn_ne ld32_st64_ne ldn_stn_out ldn_st64_out
  using lia : memory.
Create HintDb memory discriminated.
#[export] Hint Resolve same_on_refl same_on_sym : memory.
Ltac mem_simpl := autorewrite with memory.
Ltac frame := repeat (apply same_on_st64_r; [|lia]); first [apply same_on_refl | done].

#[export] Instance same_on_equiv lo hi : Equivalence (fun m m' => same_on m m' lo hi).
Proof.
  split.
  - intros m. apply same_on_refl.
  - intros m m'. apply same_on_sym.
  - intros m1 m2 m3. apply same_on_trans.
Qed.
