(* ===== verification/Text.v ===== *)
(** * Text.v: characters, numbers and lines of text

    The C library functions the program uses on text (isspace, strtol), streams
    and lines as NServer-0.9.1/readline.cc reads them, and the tokens of the
    configuration file (NServer-0.9.1/Lexer.h). *)
From S2P Require Import Prelude.

(** ** Characters and numbers *)
Definition isspace (c : ascii) : bool := (zc c =? 32) || ((9 <=? zc c) && (zc c <=? 13)).
Definition isdigit (c : ascii) : bool := (48 <=? zc c) && (zc c <=? 57).
Definition isalpha (c : ascii) : bool :=
  ((65 <=? zc c) && (zc c <=? 90)) || ((97 <=? zc c) && (zc c <=? 122)).

Definition ch (s : string) : ascii := match s with String c _ => c | EmptyString => NUL end.

Fixpoint skip_while (f : ascii -> bool) (s : bytes) : bytes :=
  match s with c :: r => if f c then skip_while f r else s | [] => [] end.
Fixpoint take_while (f : ascii -> bool) (s : bytes) : bytes :=
  match s with c :: r => if f c then c :: take_while f r else [] | [] => [] end.

(** A C string as the characters in front of the first NUL. *)
Definition cstr (s : bytes) : bytes := take_while (fun c => negb (zc c =? 0)) s.

Definition LONG_MAX : Z := 2 ^ 63 - 1.
Definition LONG_MIN : Z := - 2 ^ 63.

Fixpoint digits_value (acc : Z) (s : bytes) : Z :=
  match s with c :: r => digits_value (10 * acc + (zc c - 48)) r | [] => acc end.

(** [strtol(s, &end, 10)]: the value and the rest at [end]; without digits the
    rest is the whole string. *)
Definition strtol (s : bytes) : Z * bytes :=
  let s1 := skip_while isspace s in
  let '(neg, s2) := match s1 with
    | "-"%char :: r => (true, r) | "+"%char :: r => (false, r) | _ => (false, s1) end in
  match take_while isdigit s2 with
  | [] => (0, s)
  | ds => let v := digits_value 0 ds in
          (Z.max LONG_MIN (Z.min LONG_MAX (if neg then - v else v)), skip_while isdigit s2)
  end.
Definition atoi (s : bytes) : Z := s32 (fst (strtol s)).

(** ** Input streams *)
Record istream := IStream { s_rest : bytes; s_eof : bool; s_fail : bool }.
Definition good (ist : istream) : bool := negb (s_eof ist) && negb (s_fail ist).

(** [std::getline(is, strg)]: the string and the stream after it. *)
Definition getline (ist : istream) (strg : bytes) : bytes * istream :=
  if good ist then
    let l := take_while (fun c => negb (bool_decide (c = LF))) (s_rest ist) in
    match skip_while (fun c => negb (bool_decide (c = LF))) (s_rest ist) with
    | _ :: r => (l, IStream r false false)
    | [] => (l, IStream [] true (bool_decide (l = [])))
    end
  else (strg, IStream (s_rest ist) (s_eof ist) true).

(** *** readline.cc *)

(** The loop over [pos]: the length without the trailing CR and LF. *)
Fixpoint nl_pos (strg : bytes) (pos : nat) : nat :=
  match pos with
  | O => O
  | S pos => if bool_decide (at_ strg pos <> CR /\ at_ strg pos <> LF) then S pos else nl_pos strg pos
  end.

Definition nlreadline (ist : istream) (strg : bytes) (keepnl : bool) : bytes * istream :=
  let '(strg, ist) := getline ist strg in
  let pos := nl_pos strg (length strg) in
  (take pos strg ++ if keepnl then [CR; LF] else [], ist).

(** [readtext]: the text read is appended to [strg]; the last component counts
    the lines.  Every round that goes on takes a character off the stream. *)
Fixpoint readtext_loop (fuel : nat) (ist : istream) (line strg : bytes) (keepnl : bool) (eot : bytes)
    (lines : Z) : option (bytes * Z * istream) :=
  match fuel with
  | O => None
  | S fuel =>
      let '(line, ist) := nlreadline ist line keepnl in
      if bool_decide (line = eot) then Some (strg, lines, ist)
      else if negb (good ist) then Some (strg, lines, ist)
      else readtext_loop fuel ist line (strg ++ line) keepnl eot (lines + 1)
  end.
Definition readtext (ist : istream) (strg : bytes) (keepnl : bool) (eot : bytes) :
    option (bytes * Z * istream) :=
  readtext_loop (S (length (s_rest ist))) ist [] strg keepnl eot 0.

(** ** Lexer.h *)

(** [_cbuf] is the start of [_buf]; [l_pos] is [_cbufp - _cbuf], or [None] when
    [_buf] has been overwritten since the pointer was set. *)
Record lexer := Lexer { l_is : istream; l_tok : bytes; l_buf : bytes; l_line : Z; l_pos : option nat }.

Definition MLex := M lexer.

Definition lex_open (content : bytes) : lexer := Lexer (IStream content false false) [] [] 0 (Some 0%nat).

Definition l_cur (l : lexer) : option bytes := (fun p => drop p (l_buf l)) <$> l_pos l.

(** The loop over the lines up to one that has a token. *)
Fixpoint lex_fill (fuel : nat) : MLex bool :=
  match fuel with
  | O => spin
  | S fuel =>
      l <- get ;;
      match l_cur l with
      | None => abort "stale buffer pointer"
      | Some (_ :: _) => ret true
      | Some [] =>
          if negb (good (l_is l)) then raise (IOError "Stream bad") else
          let '(buf, ist) := nlreadline (l_is l) (l_buf l) false in
          modify (fun l => Lexer ist (l_tok l) buf (l_line l + 1) None) ;;;
          if s_eof ist then ret false
          else if negb (good ist) then raise (IOError "Stream bad")
          else
            let sp := (length buf - length (skip_while isspace buf))%nat in
            let pos := if bool_decide (at_ buf sp = "#"%char) then length buf else sp in
            modify (fun l => Lexer (l_is l) (l_tok l) (l_buf l) (l_line l) (Some pos)) ;;;
            lex_fill fuel
      end
  end.

Definition getToken : MLex bytes :=
  l <- get ;;
  more <- lex_fill (S (S (length (s_rest (l_is l))))) ;;
  if negb more then ret [] else
  l <- get ;;
  match l_pos l with
  | None => abort "stale buffer pointer"
  | Some pos =>
      let tok := take_while (fun c => negb (isspace c)) (drop pos (l_buf l)) in
      let rest := skip_while isspace (drop (pos + length tok) (l_buf l)) in
      modify (fun l => Lexer (l_is l) tok (l_buf l) (l_line l) (Some (length (l_buf l) - length rest)%nat)) ;;;
      ret tok
  end.

Definition putbackToken (token : bytes) : MLex unit :=
  l <- get ;;
  match l_pos l with
  | None => abort "stale buffer pointer"
  | Some pos =>
      modify (fun l => Lexer (l_is l) (l_tok l) (token ++ [" "%char] ++ drop pos (l_buf l)) (l_line l)
                         (Some 0%nat))
  end.

(** isFlag: the value of [flag] when the token is the flag or its negation. *)
Definition isFlag (token strg : bytes) : option bool :=
  if bool_decide (token = strg) then Some true
  else if bool_decide (take 4 token = bs "not-") && bool_decide (drop 4 token = strg) then Some false
  else None.

(** ** Lemmas *)
Lemma take_skip_while f s : take_while f s ++ skip_while f s = s.
Proof. induction s as [|c s IH]; cbn; [done|]. destruct (f c); cbn; [by rewrite IH|done]. Qed.

Lemma take_while_app f s c r :
  Forall (fun c => f c = true) s -> f c = false ->
  take_while f (s ++ c :: r) = s /\ skip_while f (s ++ c :: r) = c :: r.
Proof.
  intros Hs Hc. induction Hs as [|x s Hx _ [IH1 IH2]]; cbn; [by rewrite Hc|]. by rewrite Hx, IH1, IH2.
Qed.

Lemma take_while_all f s :
  Forall (fun c => f c = true) s -> take_while f s = s /\ skip_while f s = [].
Proof. intros Hs. induction Hs as [|x s Hx _ [IH1 IH2]]; cbn; [done|]. by rewrite Hx, IH1, IH2. Qed.

Lemma skip_while_suffix f s : exists p, s = p ++ skip_while f s.
Proof. exists (take_while f s). by rewrite take_skip_while. Qed.

Lemma skip_while_length f s : (length (skip_while f s) <= length s)%nat.
Proof. destruct (skip_while_suffix f s) as [p E]. rewrite E at 2. rewrite length_app. lia. Qed.

Lemma drop_suffix {A} (b p q : list A) : b = p ++ q -> drop (length b - length q) b = q.
Proof.
  intros ->. rewrite length_app. replace (length p + length q - length q)%nat with (length p) by lia.
  by rewrite drop_app_length.
Qed.

Lemma drop_skip_while f s : drop (length s - length (skip_while f s)) s = skip_while f s.
Proof. destruct (skip_while_suffix f s) as [p E]. by apply drop_suffix in E. Qed.

(** *** Decimal numbers *)
Lemma isdigit_digit z : 0 <= z < 10 -> isdigit (cz (48 + z)) = true /\ zc (cz (48 + z)) = 48 + z.
Proof.
  intros Hz. unfold isdigit. assert (zc (cz (48 + z)) = 48 + z) as ->; [|split; [lia|done]].
  unfold zc, cz. rewrite N_ascii_embedding; rewrite Z.mod_small by lia; lia.
Qed.

Lemma digits_value_app acc l1 l2 : digits_value acc (l1 ++ l2) = digits_value (digits_value acc l1) l2.
Proof. revert acc. induction l1 as [|c l1 IH]; intros acc; cbn; [done|apply IH]. Qed.

Lemma digits_spec fuel : forall z acc, 0 <= z < 2 ^ Z.of_nat fuel ->
  exists ds, digits fuel z acc = ds ++ acc /\ (fuel <> 0%nat -> ds <> []) /\
    Forall (fun c => isdigit c = true) ds /\ digits_value 0 ds = z.
Proof.
  induction fuel as [|fuel IH]; intros z acc Hz; cbn [digits].
  - exists []. split_and!; try done. cbn in *. lia.
  - pose proof (Z.mod_pos_bound z 10 ltac:(lia)) as Hm.
    destruct (isdigit_digit (z mod 10) Hm) as [Hd Hv].
    destruct (Z.eqb_spec (z / 10) 0) as [E|E].
    + exists [cz (48 + z mod 10)]. split_and!; try done; [by constructor|].
      cbn [digits_value]. rewrite Hv. Z.div_mod_to_equations. lia.
    + destruct (IH (z / 10) (cz (48 + z mod 10) :: acc)) as (ds & -> & _ & Hf & Hds).
      { rewrite Nat2Z.inj_succ, Z.pow_succ_r in Hz by lia.
        split; [Z.div_mod_to_equations; lia|]. apply Z.div_lt_upper_bound; lia. }
      exists (ds ++ [cz (48 + z mod 10)]). split_and!.
      * by rewrite <- app_assoc.
      * intros _. by destruct ds.
      * apply Forall_app. split; [done|]. by constructor.
      * rewrite digits_value_app, Hds. cbn [digits_value]. rewrite Hv. Z.div_mod_to_equations. lia.
Qed.

Lemma dec_spec z : 0 <= z ->
  dec z <> [] /\ Forall (fun c => isdigit c = true) (dec z) /\ digits_value 0 (dec z) = z.
Proof.
  intros Hz. unfold dec. assert ((z <? 0) = false) as -> by lia.
  destruct (digits_spec (S (Z.to_nat (Z.log2 z))) z []) as (ds & E & Hne & Hf & Hv).
  - split; [done|]. rewrite Nat2Z.inj_succ, Z2Nat.id by apply Z.log2_nonneg.
    destruct (decide (z = 0)) as [->|]; [done|]. apply Z.log2_spec. lia.
  - rewrite E, app_nil_r. split_and!; [by apply Hne|done|done].
Qed.

Lemma isdigit_not_space c : isdigit c = true -> isspace c = false.
Proof. unfold isdigit, isspace. lia. Qed.

(** strtol reads back a number in decimal behind white space. *)
Lemma strtol_dec sp z r :
  0 <= z <= LONG_MAX -> Forall (fun c => isspace c = true) sp ->
  match r with c :: _ => isdigit c = false | [] => True end ->
  strtol (sp ++ dec z ++ r) = (z, r).
Proof.
  intros Hz Hsp Hr. destruct (dec_spec z) as (Hne & Hf & Hv); [lia|].
  assert (skip_while isspace (sp ++ dec z ++ r) = dec z ++ r) as Hs.
  { destruct (dec z) as [|c l] eqn:E; [done|]. apply Forall_cons in Hf as [Hc _].
    cbn [app]. apply take_while_app; [done|by apply isdigit_not_space]. }
  assert (take_while isdigit (dec z ++ r) = dec z /\ skip_while isdigit (dec z ++ r) = r) as [Ht Hk].
  { destruct r as [|c r]; [rewrite app_nil_r; by apply take_while_all|by apply take_while_app]. }
  unfold strtol. rewrite Hs. destruct (dec z) as [|c l] eqn:E; [done|].
  assert (match c :: l ++ r with
          | "-"%char :: r0 => (true, r0) | "+"%char :: r0 => (false, r0)
          | _ => (false, c :: l ++ r) end = (false, c :: l ++ r)) as Hsg.
  { apply Forall_cons in Hf as [Hc _]. clear - Hc. destruct c as [[] [] [] [] [] [] [] []]; done. }
  cbn [app] in *. rewrite Hsg, Ht, Hk, Hv. unfold LONG_MIN, LONG_MAX in *. f_equal. lia.
Qed.

(** ** Reading a text *)

(** [t] is the line [l] without the CR and LF at its end. *)
Definition nl (c : ascii) : Prop := c = CR \/ c = LF.
Definition stripped (l t : bytes) : Prop :=
  exists cr, l = t ++ cr /\ Forall nl cr /\ (forall c, last t = Some c -> ~ nl c).

Lemma nl_pos_app t cr : Forall nl cr -> (forall c, last t = Some c -> ~ nl c) ->
  nl_pos (t ++ cr) (length (t ++ cr)) = length t.
Proof.
  intros Hcr Ht. induction cr as [|c cr IH] using rev_ind.
  - rewrite app_nil_r. destruct t as [|x t _] using rev_ind; [done|].
    rewrite length_app, Nat.add_comm. cbn [length nl_pos Nat.add].
    unfold at_. rewrite nth_middle. rewrite bool_decide_eq_true_2; [lia|].
    specialize (Ht x). rewrite last_snoc in Ht. specialize (Ht eq_refl). unfold nl in Ht. tauto.
  - apply Forall_app in Hcr as [Hcr Hc]. apply Forall_cons in Hc as [Hc _]. rewrite app_assoc.
    rewrite length_app, Nat.add_comm. cbn [length nl_pos Nat.add].
    unfold at_. rewrite nth_middle. rewrite bool_decide_eq_false_2; [|unfold nl in Hc; tauto].
    rewrite <- IH by done.
    assert (forall n, (n <= length (t ++ cr))%nat ->
      nl_pos ((t ++ cr) ++ [c]) n = nl_pos (t ++ cr) n) as Hpre; [|by apply Hpre].
    intros n. induction n as [|n IHn]; intros Hn; [done|]. cbn [nl_pos]. unfold at_ in *.
    rewrite app_nth1 by lia. destruct (bool_decide _); [done|]. apply IHn. lia.
Qed.

Lemma no_lf l : LF ∉ l -> Forall (fun c => negb (bool_decide (c = LF)) = true) l.
Proof.
  intros H. apply Forall_forall. intros c Hc. rewrite bool_decide_eq_false_2; [done|]. by intros ->.
Qed.

(** One line of a stream. *)
Lemma nlreadline_line l t r strg keepnl :
  LF ∉ l -> stripped l t ->
  nlreadline (IStream (l ++ LF :: r) false false) strg keepnl =
    (t ++ (if keepnl then [CR; LF] else []), IStream r false false).
Proof.
  intros Hlf (cr & -> & Hcr & Ht). unfold nlreadline, getline. cbn [good s_eof s_fail negb andb s_rest].
  destruct (take_while_app (fun c => negb (bool_decide (c = LF))) (t ++ cr) LF r) as [-> ->];
    [by apply no_lf|done|].
  by rewrite nl_pos_app, take_app_length.
Qed.

Lemma nlreadline_end strg keepnl : exists l,
  nlreadline (IStream [] false false) strg keepnl = (l, IStream [] true true).
Proof. by eexists. Qed.

Lemma readtext_loop_spec eot tdot tl r : LF ∉ eot -> stripped eot tdot ->
  forall raws ls, Forall2 stripped raws ls -> Forall (fun l => LF ∉ l) raws ->
  Forall (fun l => l <> tdot) ls ->
  forall fuel line strg n, (length raws < fuel)%nat -> tl = tdot ++ [CR; LF] ->
    readtext_loop fuel (IStream (concat (map (fun l => l ++ [LF]) raws) ++ eot ++ LF :: r) false false)
      line strg true tl n =
    Some (strg ++ concat (map (fun l => l ++ [CR; LF]) ls), n + Z.of_nat (length raws),
          IStream r false false).
Proof.
  intros Hlf Heot raws ls Hs. induction Hs as [|l t raws ls Hl Hs IH]; intros Hraws Hls [|fuel] line strg n Hf Htl;
    cbn in Hf; try lia; cbn [readtext_loop].
  - cbn [map concat app]. rewrite (nlreadline_line eot tdot) by done. rewrite Htl.
    rewrite bool_decide_eq_true_2 by done. rewrite app_nil_r. do 3 f_equal. cbn. lia.
  - apply Forall_cons in Hraws as [Hl0 Hraws]. apply Forall_cons in Hls as [Ht Hls].
    cbn [map concat]. rewrite <- !app_assoc. cbn [app]. rewrite (nlreadline_line l t) by done.
    rewrite bool_decide_eq_false_2; [|rewrite Htl; intros E; by apply app_inv_tail in E].
    cbn [good s_eof s_fail negb andb]. rewrite IH; [|done|done|lia|done].
    do 3 f_equal; [by rewrite <- !app_assoc|]. cbn [length]. lia.
Qed.

Lemma readtext_lines raws ls eot strg r :
  Forall2 stripped raws ls -> Forall (fun l => LF ∉ l) raws -> Forall (fun l => l <> bs ".") ls ->
  LF ∉ eot -> stripped eot (bs ".") ->
  readtext (IStream (concat (map (fun l => l ++ [LF]) raws) ++ eot ++ LF :: r) false false) strg true
    (bs "." ++ [CR; LF]) =
  Some (strg ++ concat (map (fun l => l ++ [CR; LF]) ls), Z.of_nat (length ls), IStream r false false).
Proof.
  intros Hs Hraws Hls Heot1 Heot. unfold readtext.
  rewrite (readtext_loop_spec eot (bs ".") _ r Heot1 Heot raws ls); try done.
  - by rewrite (Forall2_length _ _ _ Hs).
  - cbn [s_rest]. rewrite length_app. clear. induction raws as [|l raws IH]; [cbn; lia|].
    cbn [map concat length]. rewrite !length_app in *. cbn in *. lia.
Qed.

(** Readtext reads the lines up to the line with the end mark, appends each
    with CR LF whatever its line end was, counts them, and leaves the stream
    behind the end mark; it ends on every such stream. *)
Theorem readtext_spec raws ls eot strg r :
  Forall2 stripped raws ls -> Forall (fun l => LF ∉ l) raws -> Forall (fun l => l <> bs ".") ls ->
  LF ∉ eot -> stripped eot (bs ".") ->
  readtext (IStream (concat (map (fun l => l ++ [LF]) raws) ++ eot ++ LF :: r) false false) strg true
    (bs "." ++ [CR; LF]) =
  Some (strg ++ concat (map (fun l => l ++ [CR; LF]) ls), Z.of_nat (length ls), IStream r false false).
Proof. apply readtext_lines. Qed.

(** A character is not in a concrete list. *)
Ltac notin := cbn; let H := fresh in intros H;
  repeat (apply elem_of_cons in H as [H|H]; [discriminate H|]); by apply not_elem_of_nil in H.

Lemma readtext_spec_witness :
  readtext (IStream (bs "a" ++ [CR; LF] ++ bs "b" ++ [LF] ++ bs "." ++ [CR; LF] ++ bs "rest") false false)
    [] true (bs "." ++ [CR; LF]) =
  Some (bs "a" ++ [CR; LF] ++ bs "b" ++ [CR; LF], 2, IStream (bs "rest") false false).
Proof.
  apply (readtext_spec [bs "a" ++ [CR]; bs "b"] [bs "a"; bs "b"] (bs "." ++ [CR]) [] (bs "rest")).
  - repeat constructor.
    + exists [CR]. split_and!; [done|repeat constructor|]. intros c [= <-] [|]; done.
    + exists []. split_and!; [done|repeat constructor|]. intros c [= <-] [|]; done.
  - repeat apply Forall_cons_2; [notin..|apply Forall_nil_2].
  - repeat apply Forall_cons_2; [discriminate..|apply Forall_nil_2].
  - notin.
  - exists [CR]. split_and!; [done|repeat constructor|]. intros c [= <-] [|]; done.
Defined.

(** ** The tokens of a configuration file *)
Definition nonspace (c : ascii) : bool := negb (isspace c).

Fixpoint words_n (n : nat) (s : bytes) : list bytes :=
  match n with
  | O => []
  | S n => match skip_while isspace s with
           | [] => []
           | t => take_while nonspace t :: words_n n (skip_while nonspace t)
           end
  end.
Definition words (s : bytes) : list bytes := words_n (length s) s.

(** The words of a line, unless its first is a comment. *)
Definition line_tokens (l : bytes) : list bytes :=
  let s := skip_while isspace l in if bool_decide (at_ s 0 = "#"%char) then [] else words s.

(** All tokens up to the end of the file. *)
Fixpoint lex_all (fuel : nat) : MLex (list bytes) :=
  match fuel with
  | O => spin
  | S f => t <- getToken ;;
           if bool_decide (t = []) then ret [] else rest <- lex_all f ;; ret (t :: rest)
  end.

Lemma skip_while_idem f s : skip_while f (skip_while f s) = skip_while f s.
Proof. induction s as [|c s IH]; cbn; [done|]. destruct (f c) eqn:E; [done|]. cbn. by rewrite E. Qed.

Lemma words_n_enough : forall n m s, (length s <= n)%nat -> (length s <= m)%nat -> words_n n s = words_n m s.
Proof.
  induction n as [|n IH]; intros m s Hn Hm.
  - destruct s; [|cbn in Hn; lia]. by destruct m.
  - destruct m as [|m]; [destruct s; [done|cbn in Hm; lia]|]. cbn [words_n].
    pose proof (skip_while_length isspace s) as Hl.
    destruct (skip_while isspace s) as [|c t] eqn:E; [done|]. f_equal.
    assert (isspace c = false) as Hc.
    { pose proof (skip_while_idem isspace s) as Hi. rewrite E in Hi. cbn in Hi.
      destruct (isspace c); [|done]. pose proof (skip_while_length isspace t) as Hlt. rewrite Hi in Hlt. cbn in Hlt. lia. }
    assert (nonspace c = true) as Hns by (unfold nonspace; by rewrite Hc).
    cbn [skip_while]. rewrite Hns.
    pose proof (skip_while_length nonspace t). apply IH; cbn in Hl; lia.
Qed.

Lemma words_skip s : words (skip_while isspace s) = words s.
Proof.
  unfold words. rewrite (words_n_enough (length (skip_while isspace s)) (length s)); [|done|apply skip_while_length].
  destruct (length s); [done|]. cbn [words_n]. by rewrite skip_while_idem.
Qed.

Lemma words_cons c s : isspace c = false ->
  words (c :: s) = take_while nonspace (c :: s) :: words (skip_while nonspace (c :: s)).
Proof.
  intros Hc. unfold words at 1. cbn [length words_n skip_while]. rewrite Hc. f_equal.
  assert (nonspace c = true) as Hns by (unfold nonspace; by rewrite Hc).
  unfold words. apply words_n_enough; [|done]. cbn [skip_while]. rewrite Hns.
  apply skip_while_length.
Qed.

(** The lexer has the text [cur] of the current line and the lines [ls] ahead. *)
Definition headed (cur : bytes) : Prop := match cur with c :: _ => isspace c = false | [] => True end.
Definition lex_at (l : lexer) (cur : bytes) (ls : list bytes) : Prop :=
  l_cur l = Some cur /\ headed cur /\
  exists raws, Forall2 stripped raws ls /\ Forall (fun l => LF ∉ l) raws /\
    l_is l = IStream (concat (map (fun l => l ++ [LF]) raws)) false false.
Definition ahead (cur : bytes) (ls : list bytes) : list bytes := words cur ++ concat (map line_tokens ls).

Lemma headed_skip s : headed (skip_while isspace s).
Proof. induction s as [|c s IH]; [done|]. cbn. destruct (isspace c) eqn:E; [done|exact E]. Qed.

Lemma line_cur t : let s := skip_while isspace t in
  words (if bool_decide (at_ s 0 = "#"%char) then [] else s) = line_tokens t.
Proof. unfold line_tokens. by destruct (bool_decide _). Qed.

Lemma wp_lex_fill ls : forall fuel l cur (Q : bool -> lexer -> Prop),
  (length ls + 1 < fuel)%nat -> lex_at l cur ls ->
  (forall l', ahead cur ls = [] -> Q false l') ->
  (forall l' cur' ls', cur' <> [] -> lex_at l' cur' ls' -> ahead cur ls = ahead cur' ls' -> Q true l') ->
  wp (lex_fill fuel) Q l.
Proof.
  induction ls as [|t ls IH]; intros [|fuel] l cur Q Hf (Hc & Hh & raws & Hs & Hlf & Hi) HF HT; cbn in Hf; try lia;
    cbn [lex_fill]; wstep; wstep; rewrite Hc;
    (destruct cur as [|c cur]; [|wstep; eapply (HT _ (c :: cur)); [done|by split_and!; [..|exists raws]|done]]).
  - apply Forall2_nil_inv_r in Hs as ->. rewrite Hi. cbn [map concat good s_eof s_fail negb andb].
    unfold nlreadline, getline. cbn [good s_eof s_fail negb andb s_rest take_while skip_while].
    wstep. wstep. cbn [s_eof]. wstep. by apply HF.
  - apply Forall2_cons_inv_r in Hs as (r & raws' & Hr & Hs & ->). apply Forall_cons in Hlf as [Hlf0 Hlf].
    rewrite Hi. cbn [map concat good s_eof s_fail negb andb]. rewrite <- app_assoc. cbn [app].
    rewrite (nlreadline_line r t) by done. rewrite app_nil_r. do 2 wstep. cbn [s_eof good s_fail negb andb].
    wstep. wstep.
    set (cur' := if bool_decide (at_ (skip_while isspace t) 0 = "#"%char) then [] else skip_while isspace t).
    eapply (IH fuel _ cur'); [lia| | |].
    + split_and!.
      * unfold l_cur. cbn [l_pos l_buf fmap option_fmap option_map]. unfold cur'.
        assert (at_ t (length t - length (skip_while isspace t)) = at_ (skip_while isspace t) 0) as ->.
        { unfold at_. rewrite <- (drop_skip_while isspace t) at 2. by rewrite nth_skipn, Nat.add_0_r. }
        destruct (bool_decide _); f_equal; [apply drop_all|apply drop_skip_while].
      * unfold cur'. destruct (bool_decide _); [done|apply headed_skip].
      * by exists raws'.
    + intros l' E. apply HF. unfold ahead in *. cbn [map concat app]. unfold cur' in E.
      by rewrite (line_cur t) in E.
    + intros l' c2 ls' Hne Hat E. eapply HT; [done..|]. rewrite <- E. unfold ahead. cbn [map concat app].
      unfold cur'. by rewrite (line_cur t).
Qed.

Lemma lines_fuel raws : (length raws <= length (concat (map (fun l => l ++ [LF]) raws)))%nat.
Proof. induction raws as [|l raws IH]; cbn; [lia|]. rewrite !length_app. cbn. lia. Qed.

Lemma wp_getToken l cur ls (Q : bytes -> lexer -> Prop) :
  lex_at l cur ls -> (forall l', ahead cur ls = [] -> Q [] l') ->
  (forall l' t cur' ls', t <> [] -> lex_at l' cur' ls' -> ahead cur ls = t :: ahead cur' ls' -> Q t l') ->
  wp getToken Q l.
Proof.
  intros Hat HF HT. unfold getToken. repeat wstep. pose proof Hat as (_ & _ & raws & Hs & _ & Hi).
  eapply (wp_lex_fill ls _ l cur); [|done|intros l' E; cbn [negb]; wstep; by apply HF|].
  { rewrite Hi. cbn [s_rest]. pose proof (lines_fuel raws). pose proof (Forall2_length _ _ _ Hs). lia. }
  intros l' c2 ls' Hne (Hc & Hh & raws' & Hs' & Hlf & Hi') E. cbn [negb]. repeat wstep.
  unfold l_cur in Hc. destruct (l_pos l') as [pos|]; [|done]. injection Hc as Hc. rewrite Hc.
  destruct c2 as [|c c2]; [done|]. cbn in Hh. set (tok := take_while _ (c :: c2)).
  assert (drop (pos + length tok) (l_buf l') = skip_while nonspace (c :: c2)) as Hd.
  { rewrite <- drop_drop, Hc. unfold tok. rewrite <- (take_skip_while nonspace (c :: c2)) at 2.
    by rewrite drop_app_length. }
  rewrite Hd. repeat wstep. eapply (HT _ tok (skip_while isspace (skip_while nonspace (c :: c2))) ls').
  - unfold tok. cbn [take_while]. rewrite Hh. done.
  - split_and!; [|apply headed_skip|by exists raws']. unfold l_cur. cbn [l_pos l_buf]. cbn. f_equal.
    set (b := l_buf l') in *. change (if nonspace c then skip_while nonspace c2 else c :: c2)
      with (skip_while nonspace (c :: c2)). set (r := skip_while nonspace (c :: c2)) in *.
    rewrite <- Hd. set (k := (pos + length tok)%nat).
    destruct (skip_while_suffix isspace (drop k b)) as [p Ep].
    assert (b = (take k b ++ p) ++ skip_while isspace (drop k b)) as Eb
      by (rewrite <- app_assoc, <- Ep; by rewrite take_drop).
    by apply drop_suffix in Eb.
  - rewrite E. unfold ahead. rewrite words_cons by done. cbn [app]. by rewrite words_skip.
Qed.

(** The lexer delivers exactly the words of the file's lines, in order,
    without the lines whose first word starts with "#", and then the empty
    token. *)
Theorem lexer_tokens raws ls fuel :
  Forall2 stripped raws ls -> Forall (fun l => LF ∉ l) raws ->
  (length (concat (map line_tokens ls)) < fuel)%nat ->
  wp (lex_all fuel) (fun ts _ => ts = concat (map line_tokens ls))
    (lex_open (concat (map (fun l => l ++ [LF]) raws))).
Proof.
  intros Hs Hlf Hf.
  assert (forall fuel l cur ls, lex_at l cur ls -> (length (ahead cur ls) < fuel)%nat ->
    wp (lex_all fuel) (fun ts _ => ts = ahead cur ls) l) as H.
  { clear. induction fuel as [|fuel IH]; intros l cur ls Hat Hf; [lia|]. cbn [lex_all]. wstep.
    eapply wp_getToken; [done| |].
    - intros l' E. rewrite bool_decide_eq_true_2 by done. by wstep.
    - intros l' t cur' ls' Hne Hat' E. rewrite bool_decide_eq_false_2 by done. wstep.
      rewrite E in Hf. cbn in Hf. eapply wp_mono; [eapply IH; [done|lia]|].
      intros ts s' ->. by wstep. }
  apply (H fuel _ [] ls); [|done]. split_and!; [done|done|by exists raws].
Qed.

Lemma lexer_tokens_witness :
  wp (lex_all 4) (fun ts _ => ts = [bs "Server"; bs "news"; bs "{"])
    (lex_open (bs "Server news" ++ [CR; LF] ++ bs " # x" ++ [LF] ++ bs " {" ++ [LF])).
Proof.
  apply (lexer_tokens [bs "Server news" ++ [CR]; bs " # x"; bs " {"] [bs "Server news"; bs " # x"; bs " {"] 4).
  - repeat apply Forall2_cons_2; [| | |apply Forall2_nil_2].
    + exists [CR]. split_and!; [done|repeat constructor|]. intros c [= <-] [|]; done.
    + exists []. split_and!; [done|repeat constructor|]. intros c [= <-] [|]; done.
    + exists []. split_and!; [done|repeat constructor|]. intros c [= <-] [|]; done.
  - repeat apply Forall_cons_2; [notin..|apply Forall_nil_2].
  - vm_compute. lia.
Defined.

(** A token that is put back is the next one, and the lexer then goes on
    where it was. *)
Theorem lexer_putback l cur ls t :
  lex_at l cur ls -> t <> [] -> Forall (fun c => isspace c = false) t ->
  wp (putbackToken t ;;; getToken) (fun t' l' => t' = t /\ l_cur l' = Some cur /\ l_is l' = l_is l) l.
Proof.
  intros (Hc & Hh & _) Hne Ht. unfold putbackToken. repeat wstep. unfold l_cur in Hc.
  destruct (l_pos l) as [pos|]; [|done]. injection Hc as Hc. repeat wstep. unfold getToken. repeat wstep.
  cbn [lex_fill]. repeat wstep. unfold l_cur. cbn [l_pos l_buf fmap option_fmap option_map drop].
  destruct t as [|c t]; [done|]. cbn [app].
  do 3 (repeat wstep; cbn [negb l_pos l_buf drop Nat.add]).
  change (c :: t ++ " "%char :: drop pos (l_buf l)) with ((c :: t) ++ " "%char :: drop pos (l_buf l)).
  destruct (take_while_app (fun c => negb (isspace c)) (c :: t) " "%char (drop pos (l_buf l))) as [-> _];
    [by eapply Forall_impl; [exact Ht|cbn; intros ? ->]|done|].
  repeat wstep. split_and!; [done| |done]. f_equal. cbn [l_pos l_buf].
  rewrite drop_app_length. rewrite Hc. cbn [skip_while].
  change (isspace " ") with true. cbn [skip_while].
  assert (skip_while isspace cur = cur) as -> by (destruct cur as [|x cur]; [done|cbn in *; by rewrite Hh]).
  rewrite length_app. cbn [length].
  replace (S (length t) + S (length cur) - length cur)%nat with (length (c :: t) + 1)%nat by (cbn; lia).
  cbn [fmap option_fmap option_map]. by rewrite <- drop_drop, drop_app_length.
Qed.

Lemma lexer_putback_witness :
  wp (putbackToken (bs "ab") ;;; getToken) (fun t' _ => t' = bs "ab")
    (Lexer (IStream [] false false) [] (bs "x y") 1 (Some 2%nat)).
Proof.
  eapply wp_mono; [apply (lexer_putback _ (bs "y") [])|by intros ? ? (? & _)].
  - split_and!; [done|done|]. exists []. by split_and!.
  - done.
  - repeat apply Forall_cons_2; done.
Defined.
