(* ===== verification/Matching.v ===== *)
(** * Matching.v: newsgroup patterns

    matchgroup of NServer-0.9.1/util.cc, the shell patterns of wildmat.c and the
    class NewsgroupFilter.  A pointer into a C string is the rest of the string;
    the strings hold no NUL. *)
From S2P Require Import Prelude Text.

Definition c_star : ascii := "*"%char.
Definition c_comma : ascii := ","%char.
Definition c_bang : ascii := "!"%char.

(** ** matchgroup *)

(** [while ((c = pattern[j]) && c == group[clen]) { clen++; j++; }] *)
Fixpoint mg_common (pattern group : bytes) (clen : nat) : bytes * nat :=
  match pattern with
  | [] => ([], clen)
  | c :: r => if bool_decide (c = at_ group clen) then mg_common r group (S clen) else (pattern, clen)
  end.

(** The [switch (c)]. *)
Definition mg_score (pattern group : bytes) (clen : nat) : Z :=
  match pattern with
  | c :: _ =>
      if bool_decide (c = c_comma) then
        if bool_decide (at_ group clen <> NUL) && negb (isspace (at_ group clen)) then -1
        else Z.of_nat clen + 1
      else if bool_decide (c = c_star) then Z.of_nat clen + 1 else -1
  | [] =>
      if bool_decide (at_ group clen <> NUL) && negb (isspace (at_ group clen)) then -1
      else Z.of_nat clen + 1
  end.

Fixpoint mg_skip (pattern : bytes) : bytes :=
  match pattern with
  | [] => []
  | c :: r => if bool_decide (c = c_comma) then pattern else mg_skip r
  end.

(** The do loop: the length and the sign of the best match. *)
Fixpoint mg_loop (fuel : nat) (pattern group : bytes) (bmlen : Z) (bmrej : bool) : option (Z * bool) :=
  match fuel with
  | O => None
  | S fuel =>
      let '(rejrule, p1) := match pattern with
        | c :: r => if bool_decide (c = c_bang) then (true, r) else (false, pattern)
        | [] => (false, []) end in
      let '(p2, clen) := mg_common p1 group 0 in
      let clen := mg_score p2 group clen in
      let '(bmlen, bmrej) := if bmlen <? clen then (clen, rejrule) else (bmlen, bmrej) in
      match mg_skip p2 with
      | [] => Some (bmlen, bmrej)
      | _ :: r => mg_loop fuel r group bmlen bmrej
      end
  end.
Definition mg_best (pattern group : bytes) : Z * bool :=
  default (0, false) (mg_loop (S (length pattern)) pattern group 0 false).

Definition matchgroup (pattern group : bytes) : Z :=
  let '(bmlen, bmrej) := mg_best pattern group in if bmrej then - bmlen else bmlen.

(** ** wildmat *)
Inductive wm := WTrue | WFalse | WAbort | WCrash.

#[export] Instance wm_eq_dec : EqDecision wm.
Proof. solve_decision. Defined.

(** The loop over a character class, from behind [p] on; [last] is [*p].  The
    result is [matched] and the pattern at the closing bracket or at the end;
    [None] when the loop runs past the end of the pattern. *)
Fixpoint wm_class (q : bytes) (last text : ascii) (matched : bool) : option (bool * bytes) :=
  match q with
  | [] => Some (matched, [])
  | c :: q1 =>
      if bool_decide (c = "]"%char) then Some (matched, q)
      else if bool_decide (c = "-"%char /\ at_ q1 0 <> "]"%char) then
        match q1 with
        | [] => None
        | hi :: q2 =>
            wm_class q2 hi text (matched || ((schar text <=? schar hi) && (schar last <=? schar text)))
        end
      else wm_class q1 c text (matched || bool_decide (text = c))
  end.

(** The class behind "[": the inversion, the characters in front of the loop,
    and what the loop starts from. *)
Definition wm_head (p : bytes) : bool * list ascii * ascii * bytes :=
  let reverse := bool_decide (at_ p 0 = "^"%char) in
  let p1 := if reverse then tail p else p in
  let last := if reverse then "^"%char else "["%char in
  match p1 with
  | c :: q => if bool_decide (c = "]"%char \/ c = "-"%char) then (reverse, [c], c, q)
              else (reverse, [], last, p1)
  | [] => (reverse, [], last, [])
  end.

Fixpoint DoMatch (fuel : nat) (text p : bytes) : wm :=
  match fuel with
  | O => WCrash
  | S fuel =>
      match p with
      | [] => match text with [] => WTrue | _ => WFalse end
      | c :: p1 =>
          if bool_decide (c = "*"%char) then
            let p2 := skip_while (fun c => bool_decide (c = "*"%char)) p1 in
            match p2 with
            | [] => WTrue
            | _ =>
                (fix star (text : bytes) : wm :=
                   match text with
                   | [] => WAbort
                   | _ :: text' => match DoMatch fuel text p2 with WFalse => star text' | r => r end
                   end) text
            end
          else match text with
          | [] => WAbort
          | t :: text1 =>
              if bool_decide (c = "?"%char) then DoMatch fuel text1 p1
              else if bool_decide (c = "["%char) then
                let '(reverse, first, last, q) := wm_head p1 in
                match wm_class q last t (bool_decide (t ∈ first)) with
                | None => WCrash
                | Some (matched, q') =>
                    if bool_decide (matched = reverse) then WFalse
                    else match q' with [] => WCrash | _ :: p2 => DoMatch fuel text1 p2 end
                end
              else
                let '(c, p1) := if bool_decide (c = "\"%char)
                  then match p1 with [] => (NUL, []) | d :: p2 => (d, p2) end else (c, p1) in
                if bool_decide (t <> c) then WFalse else DoMatch fuel text1 p1
          end
      end
  end.

(** [None]: the pattern is read past its end. *)
Definition wildmat (text p : bytes) : option bool :=
  if bool_decide (p = bs "*") then Some true
  else match DoMatch (S (length p)) text p with
       | WTrue => Some true
       | WCrash => None
       | _ => Some false
       end.

(** ** NewsgroupFilter *)
Record NewsgroupFilter := Filter { rulelist : bytes; Wildmat : bytes; WildmatSearch : bool }.

Definition new_filter (rules : bytes) : NewsgroupFilter := Filter rules [] false.
(** The copy constructor drops the wildmat search, the assignment keeps it. *)
Definition copy_filter (f : NewsgroupFilter) : NewsgroupFilter := Filter (rulelist f) [] false.
Definition assign_filter (f g : NewsgroupFilter) : NewsgroupFilter :=
  Filter (rulelist g) (if WildmatSearch g then Wildmat g else Wildmat f) (WildmatSearch g).
Definition assign_rules (f : NewsgroupFilter) (rules : bytes) : NewsgroupFilter :=
  Filter rules (Wildmat f) (WildmatSearch f).
Definition setWildmat (f : NewsgroupFilter) (p : bytes) : NewsgroupFilter := Filter (rulelist f) p true.

(** [None] when the wildmat pattern is read past its end. *)
Definition matches (f : NewsgroupFilter) (newsgroup : bytes) : option Z :=
  let '(bmlen, bmrej) := mg_best (rulelist f) newsgroup in
  if bmrej then Some (- bmlen)
  else if negb (WildmatSearch f) then Some bmlen
  else (fun b : bool => if b then 1 else 0) <$> wildmat newsgroup (Wildmat f).

(** The rules the RuleIterator delivers. *)
Fixpoint rules_of (s : bytes) : list bytes :=
  match s with
  | [] => [[]]
  | c :: r => if bool_decide (c = c_comma) then [] :: rules_of r
              else match rules_of r with h :: t => (c :: h) :: t | [] => [[c]] end
  end.

(** The loop over the common characters; [None] when both strings end together, for
    then the loop reads on behind their ends. *)
Fixpoint ar_common (p q : bytes) : option (bytes * bytes) :=
  match p, q with
  | [], [] => None
  | a :: p', b :: q' => if bool_decide (a = b) then ar_common p' q' else Some (p, q)
  | _, _ => Some (p, q)
  end.

(** Whether the rule is already contained. *)
Fixpoint ar_contained (fuel : nat) (p rule : bytes) : option bool :=
  match fuel with
  | O => None
  | S fuel =>
      match ar_common p rule with
      | None => None
      | Some (p, q) =>
          if bool_decide (q = []) && (bool_decide (p = []) || bool_decide (at_ p 0 = c_comma)) then Some true
          else match tail (skip_while (fun c => negb (bool_decide (c = c_comma))) p) with
               | [] => Some false
               | p => ar_contained fuel p rule
               end
      end
  end.
Definition add_rule_to_rulelist (rulelist rule : bytes) : option bytes :=
  ar_contained (S (length rulelist)) rulelist rule ≫= fun contained =>
  Some (if contained : bool then rulelist else rulelist ++ rule ++ [c_comma]).

(** One loop over the rules of a filter: those that satisfy [keep] are added. *)
Fixpoint add_rules (keep : bytes -> option bool) (rules : list bytes) (acc : bytes) : option bytes :=
  match rules with
  | [] => Some acc
  | r :: rest =>
      keep r ≫= fun k =>
      (if k : bool then add_rule_to_rulelist acc r else Some acc) ≫= fun acc =>
      add_rules keep rest acc
  end.

Definition is_reject (r : bytes) : bool := bool_decide (at_ r 0 = c_bang).
Definition drop_last (s : bytes) : bytes := take (length s - 1) s.

Definition filter_or (f g : NewsgroupFilter) : option NewsgroupFilter :=
  add_rules (fun r => if is_reject r then (fun m => m <=? 0) <$> matches g (drop 1 r) else Some true)
           (rules_of (rulelist f)) [] ≫= fun acc =>
  add_rules (fun r => (fun m => m <=? 0) <$> matches f (if is_reject r then drop 1 r else r))
           (rules_of (rulelist g)) acc ≫= fun acc =>
  Some (Filter (drop_last acc) (Wildmat f) (WildmatSearch f)).

Definition filter_and (f g : NewsgroupFilter) : option NewsgroupFilter :=
  add_rules (fun r => if is_reject r then Some true else (fun m => 0 <? m) <$> matches g r)
           (rules_of (rulelist f)) [] ≫= fun acc =>
  add_rules (fun r => (fun m => 0 <? m) <$> matches f (if is_reject r then drop 1 r else r))
           (rules_of (rulelist g)) acc ≫= fun acc =>
  Some (Filter (drop_last acc) (Wildmat f) (WildmatSearch f)).

(** ** One rule *)

(** The number of characters of the group the rule covers, plus one: the rule is
    followed up to its first star, or up to its end where the group's name must
    end as well (in white space or at the end of the string). *)
Fixpoint score (rule group : bytes) : option nat :=
  match rule with
  | [] => match group with
          | [] => Some 1%nat
          | d :: _ => if isspace d then Some 1%nat else None
          end
  | c :: r =>
      if bool_decide (c = c_star) then Some 1%nat
      else match group with
           | d :: g => if bool_decide (c = d) then S <$> score r g else None
           | [] => None
           end
  end.
Definition body (r : bytes) : bytes := if is_reject r then drop 1 r else r.

(** [r] is the first of the rules that cover most of the group. *)
Definition decisive (rules : list bytes) (group r : bytes) (n : nat) : Prop :=
  exists l1 l2, rules = l1 ++ r :: l2 /\ score (body r) group = Some n /\
    (forall r' m, r' ∈ l1 -> score (body r') group = Some m -> (m < n)%nat) /\
    (forall r' m, r' ∈ l2 -> score (body r') group = Some m -> (m <= n)%nat).

(** A name as the program passes it: no NUL, no comma and no star. *)
Definition plain (group : bytes) : Prop := (NUL ∉ group) /\ (c_comma ∉ group) /\ (c_star ∉ group).

Definition zscore (o : option nat) (k : nat) : Z :=
  match o with Some n => Z.of_nat (n + k) | None => -1 end.

Lemma at_drop group k : at_ group k = match drop k group with d :: _ => d | [] => NUL end.
Proof.
  unfold at_. rewrite <- (Nat.add_0_r k) at 1. rewrite <- nth_skipn. by destruct (drop k group).
Qed.

Lemma at_plain group k c : plain group -> c = c_comma \/ c = c_star -> c <> at_ group k.
Proof.
  intros (H0 & H1 & H2) Hc E. rewrite at_drop in E. destruct (drop k group) as [|d l] eqn:Ed.
  - destruct Hc; subst; discriminate.
  - assert (d ∈ group) as Hd by (rewrite <- (take_drop k group), Ed; apply elem_of_app; right; by left).
    destruct Hc as [-> | ->]; by subst.
Qed.

Lemma mg_skip_app b rest : c_comma ∉ b -> rest = [] \/ (exists r, rest = c_comma :: r) ->
  mg_skip (b ++ rest) = rest.
Proof.
  intros Hb Hr. induction b as [|c b IH]; cbn [app mg_skip].
  - destruct Hr as [-> | [r ->]]; [done|]. cbn [mg_skip]. by rewrite bool_decide_eq_true_2.
  - apply not_elem_of_cons in Hb as [Hc Hb]. rewrite bool_decide_eq_false_2 by done. by apply IH.
Qed.

Lemma mg_common_score group rest : plain group -> rest = [] \/ (exists r, rest = c_comma :: r) ->
  forall b k, c_comma ∉ b -> NUL ∉ b ->
    let '(p2, clen) := mg_common (b ++ rest) group k in
    mg_score p2 group clen = zscore (score b (drop k group)) k /\ mg_skip p2 = rest.
Proof.
  intros Hg Hr. induction b as [|c b IH]; intros k Hc Hn.
  - assert (mg_common ([] ++ rest) group k = (rest, k)) as ->.
    { destruct Hr as [-> | [r ->]]; [done|]. cbn [app mg_common].
      rewrite bool_decide_eq_false_2; [done|]. apply at_plain; auto. }
    split; [|apply (mg_skip_app []); [apply not_elem_of_nil|done]].
    assert (mg_score rest group k = if bool_decide (at_ group k <> NUL) && negb (isspace (at_ group k))
      then -1 else Z.of_nat k + 1) as ->.
    { destruct Hr as [-> | [r ->]]; [done|]. cbn [mg_score]. by rewrite bool_decide_eq_true_2. }
    rewrite at_drop. cbn [score]. destruct (drop k group) as [|d l] eqn:Ed.
    + rewrite bool_decide_eq_false_2 by tauto. cbn. lia.
    + rewrite bool_decide_eq_true_2.
      * cbn [andb]. destruct (isspace d); cbn; lia.
      * intros ->. destruct Hg as [Hg _]. apply Hg. rewrite <- (take_drop k group), Ed.
        apply elem_of_app. right. by left.
  - apply not_elem_of_cons in Hc as [Hc1 Hc]. apply not_elem_of_cons in Hn as [Hn1 Hn].
    assert (mg_skip ((c :: b) ++ rest) = rest) as Hsk.
    { apply mg_skip_app; [|done]. apply not_elem_of_cons. done. }
    cbn [app mg_common score]. destruct (decide (c = c_star)) as [->|Hst].
    + rewrite bool_decide_eq_false_2 by (apply at_plain; auto). split; [|done].
      cbn [mg_score]. rewrite bool_decide_eq_false_2 by done. rewrite !bool_decide_eq_true_2 by done.
      cbn. lia.
    + rewrite (bool_decide_eq_false_2 (c = c_star)) by done. rewrite at_drop.
      assert (mg_score (c :: b ++ rest) group k = -1) as Hmiss.
      { cbn [mg_score]. by rewrite !bool_decide_eq_false_2. }
      destruct (drop k group) as [|d l] eqn:Ed.
      * rewrite bool_decide_eq_false_2 by done. by split.
      * destruct (decide (c = d)) as [->|Hd].
        -- rewrite !bool_decide_eq_true_2 by done. specialize (IH (S k) Hc Hn).
           assert (drop (S k) group = l) as El.
           { rewrite <- Nat.add_1_r, <- drop_drop, Ed. done. }
           rewrite El in IH. destruct (mg_common (b ++ rest) group (S k)) as [p2 clen].
           destruct IH as [-> ->]. split; [|done]. destruct (score b l); cbn; [lia|done].
        -- rewrite !bool_decide_eq_false_2 by done. by split.
Qed.

(** ** The list of rules *)
Lemma rules_of_split p : exists r rest, p = r ++ rest /\ (c_comma ∉ r) /\
  (rest = [] /\ rules_of p = [r] \/
   (exists p', rest = c_comma :: p' /\ rules_of p = r :: rules_of p')).
Proof.
  induction p as [|c p (r & rest & -> & Hr & H)].
  - exists [], []. split_and!; [done|apply not_elem_of_nil|by left].
  - cbn [rules_of]. destruct (decide (c = c_comma)) as [->|Hc].
    + rewrite bool_decide_eq_true_2 by done. exists [], (c_comma :: r ++ rest).
      split_and!; [done|apply not_elem_of_nil|]. right. by exists (r ++ rest).
    + rewrite bool_decide_eq_false_2 by done. exists (c :: r), rest.
      split_and!; [done|by apply not_elem_of_cons|].
      destruct H as [[-> ->]|(p' & -> & ->)]; [by left|right; by exists p'].
Qed.

Definition mg_step (group : bytes) (best : Z * bool) (r : bytes) : Z * bool :=
  let s := zscore (score (body r) group) 0 in if fst best <? s then (s, is_reject r) else best.

Lemma mg_loop_spec group : plain group -> forall fuel pattern bl br,
  (length pattern < fuel)%nat -> NUL ∉ pattern ->
  mg_loop fuel pattern group bl br = Some (foldl (mg_step group) (bl, br) (rules_of pattern)).
Proof.
  intros Hg. induction fuel as [|fuel IH]; intros pattern bl br Hf Hn; [lia|]. cbn [mg_loop].
  destruct (rules_of_split pattern) as (r & rest & Hp & Hr & Hrest).
  assert (rest = [] \/ (exists q, rest = c_comma :: q)) as Hrest'
    by (destruct Hrest as [[-> _]|(p' & -> & _)]; eauto).
  assert (match pattern with
    | c :: r0 => if bool_decide (c = c_bang) then (true, r0) else (false, pattern)
    | [] => (false, []) end = (is_reject r, body r ++ rest)) as ->.
  { subst pattern. unfold body, is_reject. destruct r as [|c r].
    - by destruct Hrest' as [-> | [q ->]].
    - cbn [app at_ nth]. destruct (bool_decide (c = c_bang)); done. }
  assert ((c_comma ∉ body r) /\ (NUL ∉ body r)) as [Hb1 Hb2].
  { assert (forall x, x ∉ r -> x ∉ body r) as Hsub.
    { intros x Hx. unfold body. destruct (is_reject r); [|done]. destruct r; [done|].
      by apply not_elem_of_cons in Hx as [_ ?]. }
    split; apply Hsub; [done|]. subst pattern. by apply not_elem_of_app in Hn as [? _]. }
  pose proof (mg_common_score group rest Hg Hrest' (body r) 0 Hb1 Hb2) as Hc.
  destruct (mg_common (body r ++ rest) group 0) as [p2 clen]. destruct Hc as [-> ->].
  change (drop 0 group) with group.
  assert ((if bl <? zscore (score (body r) group) 0 then (zscore (score (body r) group) 0, is_reject r)
    else (bl, br)) = mg_step group (bl, br) r) as -> by done.
  destruct Hrest as [[-> ->]|(p' & -> & ->)]; [cbn [foldl]; by destruct (mg_step group (bl, br) r)|].
  cbn [foldl]. destruct (mg_step group (bl, br) r) as [bl' br']. apply IH.
  - subst pattern. rewrite length_app in Hf. cbn in Hf. lia.
  - subst pattern. apply not_elem_of_app in Hn as [_ Hn]. by apply not_elem_of_cons in Hn as [_ ?].
Qed.

Lemma fold_best group rules bl br : 0 <= bl ->
  (foldl (mg_step group) (bl, br) rules = (bl, br) /\
   forall r n, r ∈ rules -> score (body r) group = Some n -> Z.of_nat n <= bl) \/
  exists r n, decisive rules group r n /\ bl < Z.of_nat n /\
    foldl (mg_step group) (bl, br) rules = (Z.of_nat n, is_reject r).
Proof.
  revert bl br. induction rules as [|r rules IH]; intros bl br Hbl.
  - left. split; [done|]. by intros r n ?%not_elem_of_nil.
  - cbn [foldl]. unfold mg_step at 2 4. cbn [fst].
    destruct (Z.ltb_spec bl (zscore (score (body r) group) 0)) as [Hlt|Hge].
    + destruct (score (body r) group) as [n|] eqn:En; cbn [zscore] in *; [|lia].
      rewrite Nat.add_0_r in *. right.
      destruct (IH (Z.of_nat n) (is_reject r)) as [[-> Hall]|(r' & m & (l1 & l2 & -> & Hm & H1 & H2) & Hlt' & ->)]; [lia| |].
      * exists r, n. split_and!; try done. exists [], rules. split_and!; try done.
        -- by intros r' m ?%not_elem_of_nil.
        -- intros r' m Hr' Hm. specialize (Hall r' m Hr' Hm). lia.
      * exists r', m. split_and!; [|lia|done]. exists (r :: l1), l2. split_and!; try done.
        intros r0 m0 [->|Hr0]%elem_of_cons Hm0; [|by eapply H1].
        rewrite En in Hm0. injection Hm0 as <-. lia.
    + destruct (IH bl br Hbl) as [[-> Hall]|(r' & m & (l1 & l2 & -> & Hm & H1 & H2) & Hlt' & ->)].
      * left. split; [done|]. intros r0 n0 [->|Hr0]%elem_of_cons Hn0; [|by eapply Hall].
        rewrite Hn0 in Hge. cbn in Hge. lia.
      * right. exists r', m. split_and!; [|lia|done]. exists (r :: l1), l2. split_and!; try done.
        intros r0 m0 [->|Hr0]%elem_of_cons Hm0; [|by eapply H1].
        rewrite Hm0 in Hge. cbn in Hge. lia.
Qed.

Lemma score_pos b : forall group n, score b group = Some n -> (0 < n)%nat.
Proof.
  induction b as [|c b IH]; intros group n; cbn [score].
  - destruct group as [|d g]; [intros [= <-]; lia|]. destruct (isspace d); [intros [= <-]; lia|done].
  - destruct (bool_decide _); [intros [= <-]; lia|]. destruct group as [|d g]; [done|].
    destruct (bool_decide _); [|done]. destruct (score b g) as [m|] eqn:E; [|done].
    intros [= <-]. lia.
Qed.

Lemma mg_loop_nonneg group : forall fuel pattern bl br r, 0 <= bl -> mg_loop fuel pattern group bl br = Some r -> 0 <= fst r.
Proof.
  induction fuel as [|fuel IH]; intros pattern bl br r Hb; cbn [mg_loop]; [done|].
  destruct (match pattern with [] => _ | _ => _ end) as [rej p1]. destruct (mg_common p1 group 0) as [p2 n].
  destruct (Z.ltb_spec bl (mg_score p2 group n)); cbn match; (destruct (mg_skip p2); [intros [= <-]; cbn; lia|apply IH; lia]).
Qed.
Lemma mg_best_nonneg pattern group : 0 <= fst (mg_best pattern group).
Proof.
  unfold mg_best. destruct (mg_loop _ _ _ _ _) as [r|] eqn:E; [|done]. by eapply mg_loop_nonneg in E.
Qed.

Lemma mg_best_spec pattern group : plain group -> NUL ∉ pattern ->
  (mg_best pattern group = (0, false) /\
   forall r, r ∈ rules_of pattern -> score (body r) group = None) \/
  exists r n, decisive (rules_of pattern) group r n /\ 0 < Z.of_nat n /\
    mg_best pattern group = (Z.of_nat n, is_reject r).
Proof.
  intros Hg Hn. unfold mg_best. rewrite mg_loop_spec by (done || lia). cbn [default].
  destruct (fold_best group (rules_of pattern) 0 false) as [[-> Hall]|H]; [done| |by right].
  left. split; [done|]. intros r Hr. destruct (score (body r) group) as [n|] eqn:E; [|done].
  specialize (Hall r n Hr E). pose proof (score_pos _ _ _ E). lia.
Qed.

(** C38: matchgroup answers 0 when no rule of the pattern covers the group, and
    else plus or minus the length of the first rule that covers most of it, with
    the sign of that rule. *)
Theorem matchgroup_spec pattern group :
  plain group -> NUL ∉ pattern ->
  (matchgroup pattern group = 0 /\
   forall r, r ∈ rules_of pattern -> score (body r) group = None) \/
  exists r n, decisive (rules_of pattern) group r n /\ 0 < Z.of_nat n /\
    matchgroup pattern group = if is_reject r then - Z.of_nat n else Z.of_nat n.
Proof.
  intros Hg Hn. unfold matchgroup.
  destruct (mg_best_spec pattern group Hg Hn) as [[-> H]|(r & n & Hd & Hp & ->)]; [by left|].
  right. by exists r, n.
Qed.

Lemma matchgroup_spec_witness :
  exists r n, decisive [bs "comp.*"; bs "!comp.os.win*"] (bs "comp.os.windows") r n /\
    matchgroup (bs "comp.*,!comp.os.win*") (bs "comp.os.windows") =
      if is_reject r then - Z.of_nat n else Z.of_nat n.
Proof.
  destruct (matchgroup_spec (bs "comp.*,!comp.os.win*") (bs "comp.os.windows")) as [[H _]|(r & n & Hd & _ & H)].
  - split_and!; notin.
  - notin.
  - vm_compute in H. discriminate.
  - by exists r, n.
Defined.

Lemma filter_and_search f g h : filter_and f g = Some h -> WildmatSearch h = WildmatSearch f.
Proof.
  unfold filter_and. destruct (add_rules _ _ []) as [a|]; [|done]. cbn. destruct (add_rules _ _ a); [|done]. by intros [= <-].
Qed.

(** Operator&= can accept a group that one of the filters rejects: a name
    and the name with a star cover it equally, and the first rule wins. *)
Theorem filter_and_unsafe : exists f g h x,
  filter_and f g = Some h /\ matches g x = Some (-4) /\ matches h x = Some 4.
Proof.
  exists (new_filter (bs "a.b*")), (new_filter (bs "*,!a.b")), (new_filter (bs "a.b*,!a.b")), (bs "a.b").
  by vm_compute.
Qed.

(** With a wildmat pattern, a group that no rule of the filter covers is
    accepted whenever it matches the wildmat pattern. *)
Theorem wildmat_unlisted f p g :
  mg_best (rulelist f) g = (0, false) -> wildmat g p = Some true ->
  matches f g = (if WildmatSearch f then matches f g else Some 0) /\ matches (setWildmat f p) g = Some 1.
Proof.
  intros Hm Hw. unfold matches. cbn [rulelist setWildmat WildmatSearch Wildmat]. rewrite Hm, Hw.
  split; [by destruct (WildmatSearch f)|done].
Qed.

Lemma wildmat_unlisted_witness :
  matches (new_filter (bs "comp.*")) (bs "alt.x") = Some 0 /\
  matches (setWildmat (new_filter (bs "comp.*")) (bs "alt.*")) (bs "alt.x") = Some 1.
Proof. by apply (wildmat_unlisted (new_filter (bs "comp.*")) (bs "alt.*") (bs "alt.x")). Defined.

(** Combining with an empty filter by operator|= reads past the end of the
    rule list, whatever the other filter is. *)
Theorem filter_or_empty g : filter_or (new_filter []) g = None.
Proof. done. Qed.

(** ** What a shell pattern means *)
Inductive wtok :=
| WChar (c : ascii)
| WAny
| WStar
| WClass (reverse : bool) (items : list (ascii * ascii)).

Definition in_range (t : ascii) (r : ascii * ascii) : bool :=
  (schar (fst r) <=? schar t) && (schar t <=? schar (snd r)).

Definition tok_ok (k : wtok) (t : ascii) : bool :=
  match k with
  | WChar c => bool_decide (t = c)
  | WAny => true
  | WStar => false
  | WClass reverse items => xorb (existsb (in_range t) items) reverse
  end.

(** A star stands for any text, each other token for one character. *)
Fixpoint gmatch (ks : list wtok) (text : bytes) : bool :=
  match ks with
  | [] => match text with [] => true | _ => false end
  | WStar :: ks =>
      (fix star (text : bytes) : bool :=
         gmatch ks text || match text with [] => false | _ :: t => star t end) text
  | k :: ks => match text with [] => false | t :: text => tok_ok k t && gmatch ks text end
  end.

(** The ranges of a class; a single character is a range. *)
Fixpoint class_items (q : bytes) (last : ascii) : option (list (ascii * ascii) * bytes) :=
  match q with
  | [] => None
  | c :: q1 =>
      if bool_decide (c = "]"%char) then Some ([], q1)
      else if bool_decide (c = "-"%char /\ at_ q1 0 <> "]"%char) then
        match q1 with
        | [] => None
        | hi :: q2 => prod_map (cons (last, hi)) id <$> class_items q2 hi
        end
      else prod_map (cons (c, c)) id <$> class_items q1 c
  end.

Definition special (c : ascii) : Prop :=
  c = "\"%char \/ c = "?"%char \/ c = "*"%char \/ c = "["%char.

(** The patterns that are well formed, with their tokens. *)
Inductive wpat : bytes -> list wtok -> Prop :=
| wpat_nil : wpat [] []
| wpat_char c p ks : ~ special c -> wpat p ks -> wpat (c :: p) (WChar c :: ks)
| wpat_esc c p ks : wpat p ks -> wpat ("\"%char :: c :: p) (WChar c :: ks)
| wpat_any p ks : wpat p ks -> wpat ("?"%char :: p) (WAny :: ks)
| wpat_star p ks : wpat p ks -> wpat ("*"%char :: p) (WStar :: ks)
| wpat_class p reverse first last q items p' ks :
    wm_head p = (reverse, first, last, q) -> class_items q last = Some (items, p') -> wpat p' ks ->
    wpat ("["%char :: p) (WClass reverse (map (fun c => (c, c)) first ++ items) :: ks).

Lemma schar_inj a b : schar a = schar b -> a = b.
Proof.
  unfold schar. pose proof (N_ascii_bounded a). pose proof (N_ascii_bounded b). unfold zc in *.
  intros H'. assert (N_of_ascii a = N_of_ascii b) as E by (repeat destruct (decide _); lia).
  rewrite <- (ascii_N_embedding a), E. apply ascii_N_embedding.
Qed.

Lemma in_single t c : in_range t (c, c) = bool_decide (t = c).
Proof.
  unfold in_range. cbn [fst snd]. destruct (decide (t = c)) as [->|Hne].
  - rewrite bool_decide_eq_true_2 by done. lia.
  - rewrite bool_decide_eq_false_2 by done. destruct (decide (schar t = schar c)) as [E|]; [|lia].
    by apply schar_inj in E.
Qed.

Lemma wm_class_spec t : forall n q last items rest m, (length q <= n)%nat ->
  class_items q last = Some (items, rest) ->
  exists c, wm_class q last t m = Some (m || existsb (in_range t) items, c :: rest) /\
    (length rest < length q)%nat.
Proof.
  induction n as [|n IH]; intros q last items rest m Hn; (destruct q as [|c q1]; [done|]);
    [cbn in Hn; lia|]. cbn [class_items wm_class length] in *.
  destruct (bool_decide (c = "]"%char)).
  { intros [= <- <-]. exists c. cbn. rewrite orb_false_r. split; [done|lia]. }
  destruct (bool_decide (c = "-"%char /\ at_ q1 0 <> "]"%char)).
  - destruct q1 as [|hi q2]; [done|]. cbn [length] in *.
    destruct (class_items q2 hi) as [[its r]|] eqn:E; [|done]. intros [= <- <-].
    destruct (IH q2 hi its r (m || ((schar t <=? schar hi) && (schar last <=? schar t))) ltac:(lia) E)
      as (d & -> & Hl). exists d. cbn [existsb]. split; [|cbn; lia]. unfold id, in_range at 2. cbn [fst snd].
    f_equal. f_equal. rewrite <- orb_assoc. f_equal. f_equal. apply andb_comm.
  - destruct (class_items q1 c) as [[its r]|] eqn:E; [|done]. intros [= <- <-].
    destruct (IH q1 c its r (m || bool_decide (t = c)) ltac:(lia) E) as (d & -> & Hl).
    exists d. cbn [existsb]. rewrite in_single, <- orb_assoc. split; [done|cbn; lia].
Qed.

(** A star is matched by a suffix. *)
Lemma gmatch_star ks text :
  gmatch (WStar :: ks) text = true <-> exists a b, text = a ++ b /\ gmatch ks b = true.
Proof.
  change (gmatch (WStar :: ks) text) with ((fix star (text : bytes) : bool :=
         gmatch ks text || match text with [] => false | _ :: t => star t end) text).
  induction text as [|t text IH].
  - rewrite orb_false_r. split; [intros H; by exists [], []|].
    intros (a & b & E & H). symmetry in E. by apply app_nil in E as [-> ->].
  - rewrite orb_true_iff, IH. split.
    + intros [H|(a & b & -> & H)]; [by exists [], (t :: text)|by exists (t :: a), b].
    + intros (a & b & E & H). destruct a as [|x a]; cbn in E; [subst; by left|].
      injection E as -> ->. right. by exists a, b.
Qed.

(** Consecutive stars are one. *)
Lemma wpat_skip p ks : wpat p ks ->
  exists ks', wpat (skip_while (fun c => bool_decide (c = "*"%char)) p) ks' /\
    match ks' with WStar :: _ => False | _ => True end /\
    forall text, gmatch (WStar :: ks) text = true <-> gmatch (WStar :: ks') text = true.
Proof.
  induction 1 as [|c p ks Hs Hp _|c p ks Hp _|p ks Hp _|p ks Hp IH|p rv first last q items p' ks Hh Hc Hp _].
  - exists []. by split_and!; [constructor|..].
  - exists (WChar c :: ks). cbn [skip_while]. rewrite bool_decide_eq_false_2 by (unfold special in Hs; tauto).
    by split_and!; [constructor|..].
  - exists (WChar c :: ks). by split_and!; [constructor|..].
  - exists (WAny :: ks). by split_and!; [constructor|..].
  - destruct IH as (ks' & Hw & Hns & Heq). exists ks'. cbn [skip_while].
    rewrite bool_decide_eq_true_2 by done. split_and!; [done|done|].
    intros text. rewrite <- Heq. rewrite (gmatch_star (WStar :: ks)). split.
    + intros (a & b & -> & (a' & b' & -> & Hm)%gmatch_star). apply gmatch_star.
      exists (a ++ a'), b'. by rewrite <- app_assoc.
    + intros Hm. by exists [], text.
  - eexists. split_and!; [cbn [skip_while]; rewrite bool_decide_eq_false_2 by done; by eapply wpat_class|done|done].
Qed.

(** DoMatch decides the match; ABORT says that no suffix of the text matches. *)
Definition wm_right (r : wm) (ks : list wtok) (text : bytes) : Prop :=
  match r with
  | WTrue => gmatch ks text = true
  | WFalse => gmatch ks text = false
  | WAbort => forall a b, text = a ++ b -> gmatch ks b = false
  | WCrash => False
  end.

Lemma wm_right_tok r k ks t text : k <> WStar -> tok_ok k t = true -> wm_right r ks text ->
  wm_right r (k :: ks) (t :: text).
Proof.
  intros Hk Ht Hr. assert (forall x l, gmatch (k :: ks) (x :: l) = tok_ok k x && gmatch ks l) as Hg
    by (by destruct k).
  destruct r; cbn [wm_right] in *; try done; [by rewrite Hg, Ht|by rewrite Hg, Ht, Hr|].
  intros a b E. destruct b as [|x b]; [by destruct k|]. rewrite Hg.
  destruct a as [|y a]; cbn in E; injection E as <- ->.
  - rewrite (Hr [] b) by done. apply andb_false_r.
  - rewrite (Hr (a ++ [x]) b) by (by rewrite <- app_assoc). apply andb_false_r.
Qed.

Lemma wm_right_abort k ks : k <> WStar -> wm_right WAbort (k :: ks) [].
Proof. intros Hk a b E. symmetry in E. apply app_nil in E as [_ ->]. by destruct k. Qed.

(** A character of the pattern. *)
Lemma wm_right_char c ks t text r : wm_right r ks text ->
  wm_right (if bool_decide (t <> c) then WFalse else r) (WChar c :: ks) (t :: text).
Proof.
  intros Hr. destruct (decide (t = c)) as [->|Hne].
  - rewrite bool_decide_eq_false_2 by tauto. apply wm_right_tok; [done| |done]. cbn. by rewrite bool_decide_eq_true_2.
  - rewrite bool_decide_eq_true_2 by done. cbn. by rewrite bool_decide_eq_false_2.
Qed.

(** The loop over the text behind a star: the rest of the pattern does not begin with
    one, and is decided by [d] where it is tried. *)
Section star_loop.
Variable d : bytes -> wm.
Fixpoint star_loop (text : bytes) : wm :=
  match text with
  | [] => WAbort
  | _ :: text' => match d text with WFalse => star_loop text' | r => r end
  end.
End star_loop.
Lemma star_loop_right d ks : gmatch ks [] = false -> (forall text, wm_right (d text) ks text) ->
  forall text, wm_right (star_loop d text) (WStar :: ks) text.
Proof.
  intros Hnil Hd text. induction text as [|t text IHt]; cbn [star_loop].
  - intros a b E. symmetry in E. apply app_nil in E as [_ ->]. destruct (gmatch (WStar :: ks) []) eqn:Eg; [|done].
    apply gmatch_star in Eg as (a' & b' & Eb & Hg). symmetry in Eb. apply app_nil in Eb as [_ ->]. congruence.
  - specialize (Hd (t :: text)). destruct (d (t :: text)); cbn [wm_right] in Hd; [| | |done].
    + apply gmatch_star. by exists [], (t :: text).
    + assert (forall b, gmatch (WStar :: ks) (t :: b) = gmatch ks (t :: b) || gmatch (WStar :: ks) b) as Hst by done.
      destruct (star_loop d text); cbn [wm_right] in *; [by rewrite Hst, Hd, IHt..| |done].
      intros a b E. destruct a as [|x a]; cbn in E; [|injection E as -> ->; by eapply IHt].
      rewrite <- E, Hst, Hd. by eapply (IHt []).
    + intros a b E. destruct (gmatch (WStar :: ks) b) eqn:Eg; [|done].
      apply gmatch_star in Eg as (a' & b' & -> & Hg). rewrite (Hd (a ++ a') b') in Hg; [done|]. by rewrite <- app_assoc.
Qed.

(** The class of a bracket. *)
Lemma tok_ok_class rv first items t : tok_ok (WClass rv (map (fun c => (c, c)) first ++ items)) t =
  xorb (bool_decide (t ∈ first) || existsb (in_range t) items) rv.
Proof.
  cbn [tok_ok]. rewrite existsb_app. do 2 f_equal. induction first as [|x l IHl]; [done|].
  cbn [map existsb]. rewrite in_single, IHl. rewrite <- bool_decide_or. apply bool_decide_ext. by rewrite elem_of_cons.
Qed.
Lemma wm_head_length p rv first last q : wm_head p = (rv, first, last, q) -> (length q <= length p)%nat.
Proof.
  unfold wm_head. intros Hh. assert (length (tail p) <= length p)%nat by (destruct p; cbn; lia).
  destruct (bool_decide _); [destruct (tail p)|destruct p]; repeat case_bool_decide; simplify_eq; cbn in *; lia.
Qed.
Lemma wm_right_class rv m items ks t text r : tok_ok (WClass rv items) t = xorb m rv -> wm_right r ks text ->
  wm_right (if bool_decide (m = rv) then WFalse else r) (WClass rv items :: ks) (t :: text).
Proof.
  intros Ht Hr. destruct m, rv; cbn [xorb] in Ht; [|by apply wm_right_tok..|];
    rewrite bool_decide_eq_true_2 by done; cbn [wm_right gmatch]; by rewrite Ht.
Qed.

Lemma wm_right_ext r ks ks' text : (forall b, gmatch ks b = gmatch ks' b) -> wm_right r ks' text -> wm_right r ks text.
Proof. intros E. destruct r; cbn [wm_right]; rewrite ?E; try done. intros H a b Eb. rewrite E. by eapply H. Qed.

Lemma DoMatch_spec : forall fuel text p ks,
  (length p < fuel)%nat -> wpat p ks -> wm_right (DoMatch fuel text p) ks text.
Proof.
  induction fuel as [|fuel IH]; intros text p ks Hf Hp; [lia|].
  destruct Hp as [|c p ks Hs Hp|c p ks Hp|p ks Hp|p ks Hp|p rv first last q items p' ks Hh Hc Hp];
    cbn [length] in Hf; cbn [DoMatch].
  - by destruct text.
  - assert (c <> "*"%char /\ c <> "?"%char /\ c <> "["%char /\ c <> "\"%char) as (H1 & H2 & H3 & H4)
      by (unfold special in Hs; tauto).
    rewrite bool_decide_eq_false_2 by done. destruct text as [|t text]; [by apply wm_right_abort|].
    rewrite !bool_decide_eq_false_2 by done. apply wm_right_char. by apply IH; [lia|].
  - rewrite bool_decide_eq_false_2 by done. destruct text as [|t text]; [by apply wm_right_abort|].
    rewrite !bool_decide_eq_false_2 by done. rewrite bool_decide_eq_true_2 by done.
    apply wm_right_char. by apply IH; [cbn in Hf; lia|].
  - rewrite bool_decide_eq_false_2 by done. destruct text as [|t text]; [by apply wm_right_abort|].
    rewrite bool_decide_eq_true_2 by done. apply wm_right_tok; [done|done|]. by apply IH; [lia|].
  - rewrite bool_decide_eq_true_2 by done. destruct (wpat_skip _ _ Hp) as (ks' & Hw & Hns & Heq).
    pose proof (skip_while_length (fun c => bool_decide (c = "*"%char)) p) as Hl. set (p2 := skip_while _ p) in *.
    apply (wm_right_ext _ _ (WStar :: ks')); [intros b; apply eq_true_iff_eq, Heq|]. destruct p2 as [|c2 p2'] eqn:Ep2.
    + inversion Hw; subst. cbn [wm_right]. apply gmatch_star. exists text, []. by rewrite app_nil_r.
    + apply (star_loop_right (fun text => DoMatch fuel text (c2 :: p2'))); [|by intros; apply IH; [lia|]].
      clear - Hw Hns. by inversion Hw; subst.
  - rewrite bool_decide_eq_false_2 by done. destruct text as [|t text]; [by apply wm_right_abort|].
    rewrite bool_decide_eq_false_2 by done. rewrite bool_decide_eq_true_2 by done. rewrite Hh.
    destruct (wm_class_spec t (length q) q last items p' (bool_decide (t ∈ first)) (le_n _) Hc) as (d & -> & Hl).
    apply wm_head_length in Hh. apply wm_right_class; [apply tok_ok_class|]. by apply IH; [lia|].
Qed.

(** C39: on a well-formed pattern wildmat answers whether the text matches it; the
    shortcut ABORT takes loses no match. *)
Theorem wildmat_spec text p ks : wpat p ks -> wildmat text p = Some (gmatch ks text).
Proof.
  intros Hp. unfold wildmat. case_bool_decide as Hst.
  - subst p. inversion Hp as [|? ? ? Hs| | |? ? Hp'|]; subst; [unfold special in Hs; cbn in Hs; tauto|].
    inversion Hp'; subst. f_equal. symmetry. apply gmatch_star. exists text, []. by rewrite app_nil_r.
  - pose proof (DoMatch_spec (S (length p)) text p ks ltac:(lia) Hp) as H.
    destruct (DoMatch _ _ _); cbn [wm_right] in H; [by rewrite H..| |done].
    by rewrite (H [] text).
Qed.

Lemma wildmat_spec_witness :
  wildmat (bs "comp.os.x-y") (bs "c*.[!o-p]*") = Some true /\
  wildmat (bs "comp.os.x-y") (bs "c*.[^a-x]*\-?") = Some false.
Proof.
  split.
  - etransitivity; [apply (wildmat_spec _ _
      [WChar "c"; WStar; WChar "."; WClass false [("!", "!"); ("o", "o"); ("o", "p")]%char; WStar])|reflexivity].
    apply wpat_char; [unfold special; intuition discriminate|]. apply wpat_star.
    apply wpat_char; [unfold special; intuition discriminate|].
    apply (wpat_class (bs "!o-p]*") false [] "["%char (bs "!o-p]*") [("!", "!"); ("o", "o"); ("o", "p")]%char (bs "*"));
      [done|done|apply wpat_star, wpat_nil].
  - etransitivity; [apply (wildmat_spec _ _
      [WChar "c"; WStar; WChar "."; WClass true [("a", "a"); ("a", "x")]%char; WStar; WChar "-"; WAny])|reflexivity].
    apply wpat_char; [unfold special; intuition discriminate|]. apply wpat_star.
    apply wpat_char; [unfold special; intuition discriminate|].
    apply (wpat_class (bs "^a-x]*\-?") true [] "^"%char (bs "a-x]*\-?") [("a", "a"); ("a", "x")]%char
      (bs "*\-?")); [done|done|apply wpat_star, wpat_esc, wpat_any, wpat_nil].
Defined.
