(* ===== verification/ServerList.v ===== *)
(** * ServerList.v: the news servers and which of them has a group

    NServer-0.9.1/MPList.{h,cc}: the list of servers read from the configuration
    file, the choice of the server for a group, and the printed form of the list.
    The char arrays of an entry hold the bytes up to their terminator. *)
From S2P Require Import Prelude Text Matching.

(** ** Data *)
Definition F_SETPOSTFLAG : Z := 1.
Definition F_CACHED : Z := 2.
Definition F_OFFLINE : Z := 4.
Definition F_SEMIOFFLINE : Z := 8.
Definition F_LIST_ACTIVE_WILDMAT : Z := 1.
Definition F_LIST_OVERVIEW_FMT : Z := 2.
Definition F_LISTGROUP : Z := 4.
Definition F_MODE_READER : Z := 8.
Definition F_OVER : Z := 16.
Definition F_XOVER : Z := 32.
Definition F_POST : Z := 64.

Record MPListEntry := Entry {
  hostname : bytes; servicename : bytes; user : bytes; passwd : bytes;
  e_read : bytes; postTo : bytes; bindFrom : bytes;
  groupTimeout : Z; flags : Z; nntpflags : Z; retries : Z
}.

(** MPListEntry::init *)
Definition init_entry : MPListEntry :=
  Entry [] [] [] [] [] [] [] 600 (Z.lor F_SETPOSTFLAG F_CACHED) (2 ^ 32 - 1) 3.

Definition set_host (h s : bytes) (e : MPListEntry) : MPListEntry :=
  Entry h s (user e) (passwd e) (e_read e) (postTo e) (bindFrom e) (groupTimeout e) (flags e)
    (nntpflags e) (retries e).
Definition set_user (u p : bytes) (e : MPListEntry) : MPListEntry :=
  Entry (hostname e) (servicename e) u p (e_read e) (postTo e) (bindFrom e) (groupTimeout e) (flags e)
    (nntpflags e) (retries e).
Definition set_groups (r p b : bytes) (e : MPListEntry) : MPListEntry :=
  Entry (hostname e) (servicename e) (user e) (passwd e) r p b (groupTimeout e) (flags e)
    (nntpflags e) (retries e).
Definition set_nums (t f n r : Z) (e : MPListEntry) : MPListEntry :=
  Entry (hostname e) (servicename e) (user e) (passwd e) (e_read e) (postTo e) (bindFrom e) t f n r.

(** ** The server of a group *)
Fixpoint best_server (field : MPListEntry -> bytes) (entries : list MPListEntry) (group : bytes)
    (i bm : Z) (bmlen : Z) : Z :=
  match entries with
  | [] => bm
  | e :: rest =>
      let clen := matchgroup (field e) group in
      if bmlen <? clen then best_server field rest group (i + 1) i clen
      else best_server field rest group (i + 1) bm bmlen
  end.
Definition find_server (field : MPListEntry -> bytes) (entries : list MPListEntry) (group : bytes)
    : option nat :=
  let bm := best_server field entries group 0 (-1) 0 in
  if 0 <=? bm then
    match entries !! Z.to_nat bm with
    | Some e => if bool_decide (hostname e <> []) then Some (Z.to_nat bm) else None
    | None => None
    end
  else None.

Definition server (entries : list MPListEntry) (group : bytes) : option nat :=
  find_server e_read entries group.
Definition postserver (entries : list MPListEntry) (group : bytes) : option nat :=
  find_server postTo entries group.

(** ** makeFilter *)
Definition comma_bang : bytes := bs ",!".

(** The loop over the expressions of another server. *)
Definition reject_rules (rules : bytes) : bytes := concat (map (fun r => comma_bang ++ r) (rules_of rules)).

(** The second loop: [i] and the pointers [p], [q] into [entries[i].read], the
    pointer [listp] (its rest) and the character [c] ([None] for NUL). *)
Fixpoint mf_loop (fuel : nat) (entries : list MPListEntry) (servernbr i : nat) (p q : nat)
    (listp : bytes) (c : option ascii) (filter : bytes) : option bytes :=
  match fuel with
  | O => None
  | S fuel =>
      match entries !! i with
      | None => Some filter
      | Some e =>
          let rd := e_read e in
          let '(p, q) := match c with None => (O, O) | Some _ => (p, q) end in
          let '(listp, n) := mg_common listp (drop p rd) 0 in
          let p := (p + n)%nat in
          let pend := (p + length (take_while (fun c => negb (bool_decide (c = c_comma))) (drop p rd)))%nat in
          let filter := if bool_decide (at_ listp 0 = c_star)
                        then filter ++ comma_bang ++ take (pend - q) (drop q rd) else filter in
          match rd !! pend with
          | None =>
              let i := S i in let i := if (i =? servernbr)%nat then S i else i in
              mf_loop fuel entries servernbr i pend q listp None filter
          | Some c => mf_loop fuel entries servernbr i (S pend) (S pend) listp (Some c) filter
          end
      end
  end.

Definition makeFilter (entries : list MPListEntry) (servernbr : nat) (listarg : bytes) : option bytes :=
  if bool_decide (listarg = bs "*") then
    match entries !! servernbr with
    | None => None
    | Some e =>
        Some (e_read e ++ concat (imap (fun i e' => if (i =? servernbr)%nat then [] else reject_rules (e_read e'))
                                    entries))
    end
  else
    let fuel := (1 + length entries + sum_list_with (fun e => S (length (e_read e))) entries)%nat in
    mf_loop fuel entries servernbr (if (servernbr =? 0)%nat then 1 else 0)%nat 0 0 listarg None (bs "*").

(** ** Reading the list *)
Definition MAXHOSTNAMELEN : nat := 64.

(** [strcpy] into an array of [n] bytes. *)
Definition strcpy (n : nat) (s : bytes) : MLex bytes :=
  if (length s <? n)%nat then ret s else abort "buffer overflow".

Definition set_flag (v bit : Z) (on : bool) : Z := if on then Z.lor v bit else Z.ldiff v bit.

Definition next : MLex bytes := getToken.

(** The loops behind Options and Commands. *)
Fixpoint read_options (fuel : nat) (f : Z) : MLex Z :=
  match fuel with
  | O => spin
  | S fuel =>
      a1 <- getToken ;;
      match isFlag a1 (bs "setpostflag") with
      | Some b => read_options fuel (set_flag f F_SETPOSTFLAG b)
      | None =>
      match isFlag a1 (bs "cached") with
      | Some b => read_options fuel (set_flag f F_CACHED b)
      | None =>
      match isFlag a1 (bs "offline") with
      | Some b => read_options fuel (set_flag f F_OFFLINE b)
      | None =>
      if bool_decide (a1 = bs "semioffline") then read_options fuel (Z.lor f F_SEMIOFFLINE)
      else putbackToken a1 ;;; ret f
      end end end
  end.
Fixpoint read_commands (fuel : nat) (f : Z) : MLex Z :=
  match fuel with
  | O => spin
  | S fuel =>
      a1 <- getToken ;;
      match isFlag a1 (bs "listgroup") with
      | Some b => read_commands fuel (set_flag f F_LISTGROUP b)
      | None =>
      match isFlag a1 (bs "over") with
      | Some b => read_commands fuel (set_flag f F_OVER b)
      | None => putbackToken a1 ;;; ret f
      end end
  end.

(** The declarations of a server up to the closing brace.  Every round takes a
    token, the text left over bounds their number. *)
Fixpoint readServer_loop (fuel : nat) (havePostTo : bool) (cur : MPListEntry) : MLex MPListEntry :=
  match fuel with
  | O => spin
  | S n =>
      tok <- getToken ;;
      if bool_decide (tok = bs "Read") then
        a1 <- getToken ;;
        if (2048 <=? length a1)%nat then raise (SyntaxError "group description too long") else
        readServer_loop n havePostTo (set_groups a1 (if havePostTo then postTo cur else a1) (bindFrom cur) cur)
      else if bool_decide (tok = bs "BindFrom") then
        a1 <- getToken ;;
        if (2048 <=? length a1)%nat then raise (SyntaxError "BindFrom field is too long") else
        readServer_loop n havePostTo (set_groups (e_read cur) (postTo cur) a1 cur)
      else if bool_decide (tok = bs "PostTo") then
        a1 <- getToken ;;
        if (2048 <=? length a1)%nat then raise (SyntaxError "group description too long") else
        readServer_loop n havePostTo (set_groups (e_read cur) a1 (bindFrom cur) cur)
      else if bool_decide (tok = bs "GroupTimeout") then
        a1 <- getToken ;;
        readServer_loop n havePostTo (set_nums (atoi a1) (flags cur) (nntpflags cur) (retries cur) cur)
      else if bool_decide (tok = bs "Retries") then
        a1 <- getToken ;;
        readServer_loop n havePostTo (set_nums (groupTimeout cur) (flags cur) (nntpflags cur) (atoi a1) cur)
      else if bool_decide (tok = bs "User") then
        a1 <- getToken ;; readServer_loop n havePostTo (set_user (take 64 a1) (passwd cur) cur)
      else if bool_decide (tok = bs "Password") then
        a1 <- getToken ;; readServer_loop n havePostTo (set_user (user cur) (take 64 a1) cur)
      else if bool_decide (tok = bs "Options") then
        f <- read_options (S n) (flags cur) ;;
        readServer_loop n havePostTo (set_nums (groupTimeout cur) f (nntpflags cur) (retries cur) cur)
      else if bool_decide (tok = bs "Commands") then
        f <- read_commands (S n) (nntpflags cur) ;;
        readServer_loop n havePostTo (set_nums (groupTimeout cur) (flags cur) f (retries cur) cur)
      else if bool_decide (tok = bs "}") then ret cur
      else raise (SyntaxError "expected declaration or '}'")
  end.

Definition lex_left (l : lexer) : nat := (2 + length (l_buf l) + length (s_rest (l_is l)))%nat.

Definition readServer (host : option (bytes * bytes)) : MLex MPListEntry :=
  cur <- (match host with
          | Some (h, p) => h <- strcpy MAXHOSTNAMELEN h ;; p <- strcpy 256 p ;; ret (set_host h p init_entry)
          | None => ret init_entry
          end) ;;
  tok <- getToken ;;
  if bool_decide (tok <> bs "{") then raise (SyntaxError "expected '{'") else
  l <- get ;;
  readServer_loop (lex_left l) false cur.

Fixpoint read_loop (fuel : nat) (entries : list MPListEntry) : MLex (list MPListEntry) :=
  match fuel with
  | O => spin
  | S fuel =>
      tok <- getToken ;;
      if bool_decide (tok = bs "Server") then
        host <- getToken ;; port <- getToken ;;
        e <- readServer (Some (host, port)) ;; read_loop fuel (entries ++ [e])
      else if bool_decide (tok = bs "NoServer") then
        e <- readServer None ;; read_loop fuel (entries ++ [e])
      else if bool_decide (tok = bs "}") then ret entries
      else raise (SyntaxError "expected declaration or '}'")
  end.
Definition read_list (entries : list MPListEntry) : MLex (list MPListEntry) :=
  tok <- getToken ;;
  if bool_decide (tok <> bs "{") then raise (SyntaxError "expected '{'") else
  l <- get ;;
  read_loop (lex_left l) entries.

(** ** Printing *)
Definition opt_line (name v : bytes) : bytes :=
  if bool_decide (v = []) then [] else [TAB; TAB] ++ name ++ bs " " ++ v ++ [LF].
Definition flag_word (v bit : Z) (w : bytes) : bytes := if Z.land v bit =? 0 then [] else bs " " ++ w.

Definition print_commands (nntpflags : Z) : bytes :=
  let off := Z.lxor nntpflags (2 ^ 32 - 1) in
  if off =? 0 then [] else
  [TAB; TAB] ++ bs "Commands" ++
  flag_word off F_LIST_ACTIVE_WILDMAT (bs "list_active_wildmat") ++
  flag_word off F_LIST_OVERVIEW_FMT (bs "list_overview_fmt") ++
  flag_word off F_LISTGROUP (bs "not-listgroup") ++
  flag_word off F_MODE_READER (bs "not-mode_reader") ++
  flag_word off F_OVER (bs "not-over") ++
  flag_word off F_XOVER (bs "not-xover") ++
  flag_word off F_POST (bs "not-post") ++ [LF].

Definition print_entry (e : MPListEntry) : bytes :=
  (if bool_decide (hostname e = []) then [TAB] ++ bs "NoServer  {" ++ [LF]
   else [TAB] ++ bs "Server " ++ hostname e ++ bs " " ++ servicename e ++ bs " {" ++ [LF]) ++
  opt_line (bs "User") (user e) ++
  opt_line (bs "Password") (passwd e) ++
  opt_line (bs "Read") (e_read e) ++
  opt_line (bs "PostTo") (postTo e) ++
  opt_line (bs "BindFrom") (bindFrom e) ++
  [TAB; TAB] ++ bs "GroupTimeout " ++ dec (groupTimeout e) ++ [LF] ++
  [TAB; TAB] ++ bs "Options" ++
  flag_word (flags e) F_SETPOSTFLAG (bs "setpostflag") ++
  flag_word (flags e) F_CACHED (bs "cached") ++
  flag_word (flags e) F_OFFLINE (bs "offline") ++
  flag_word (flags e) F_SEMIOFFLINE (bs "semioffline") ++ [LF] ++
  print_commands (nntpflags e) ++
  [TAB; TAB] ++ bs "Retries " ++ dec (retries e) ++ [LF] ++
  [TAB] ++ bs "}" ++ [LF].

Definition print_list (entries : list MPListEntry) : bytes :=
  bs "NewsServerList {" ++ [LF] ++ concat (map print_entry entries) ++ bs "}" ++ [LF].

(** ** The choice of a server *)
Lemma best_server_spec field group : forall entries i bm bmlen, 0 <= bmlen ->
  (best_server field entries group i bm bmlen = bm /\
   Forall (fun e => matchgroup (field e) group <= bmlen) entries) \/
  exists l1 e l2, entries = l1 ++ e :: l2 /\ bmlen < matchgroup (field e) group /\
    Forall (fun e' => matchgroup (field e') group < matchgroup (field e) group) l1 /\
    Forall (fun e' => matchgroup (field e') group <= matchgroup (field e) group) l2 /\
    best_server field entries group i bm bmlen = i + Z.of_nat (length l1).
Proof.
  induction entries as [|e entries IH]; intros i bm bmlen Hb; cbn [best_server].
  - left. by split; [|constructor].
  - destruct (Z.ltb_spec bmlen (matchgroup (field e) group)) as [Hlt|Hge].
    + right. destruct (IH (i + 1) i (matchgroup (field e) group)) as [[-> Hall]|
        (l1 & e' & l2 & -> & Hlt' & H1 & H2 & ->)]; [lia| |].
      * exists [], e, entries. split_and!; try done; cbn; lia.
      * exists (e :: l1), e', l2. split_and!; try done; [lia|by constructor|cbn [length]; lia].
    + destruct (IH (i + 1) bm bmlen Hb) as [[-> Hall]|(l1 & e' & l2 & -> & Hlt' & H1 & H2 & ->)].
      * left. split; [done|by constructor].
      * right. exists (e :: l1), e', l2. split_and!; try done; [constructor; [lia|done]|cbn [length]; lia].
Qed.

(** The server (or posting server) of a group is the first of the entries
    whose pattern covers most of its name; there is none when no pattern accepts
    the group or when that entry is a NoServer entry. *)
Theorem find_server_spec field entries group :
  (find_server field entries group = None /\
   Forall (fun e => matchgroup (field e) group <= 0) entries) \/
  exists l1 e l2, entries = l1 ++ e :: l2 /\ 0 < matchgroup (field e) group /\
    Forall (fun e' => matchgroup (field e') group < matchgroup (field e) group) l1 /\
    Forall (fun e' => matchgroup (field e') group <= matchgroup (field e) group) l2 /\
    find_server field entries group = if bool_decide (hostname e = []) then None else Some (length l1).
Proof.
  unfold find_server.
  destruct (best_server_spec field group entries 0 (-1) 0) as [[-> Hall]|(l1 & e & l2 & -> & Hlt & H1 & H2 & ->)];
    [done|by left|right].
  exists l1, e, l2. split_and!; try done.
  assert ((0 <=? 0 + Z.of_nat (length l1)) = true) as -> by (clear; apply Z.leb_le; lia).
  replace (Z.to_nat (0 + Z.of_nat (length l1))) with (length l1) by (clear; lia).
  rewrite list_lookup_middle by done. by repeat case_bool_decide.
Qed.

(** ** The lexer as a list of tokens *)
Definition is_tok (t : bytes) : Prop := t <> [] /\ Forall (fun c => isspace c = false) t.
Definition toks (l : lexer) (ts : list bytes) : Prop := exists cur ls, lex_at l cur ls /\ ahead cur ls = ts.

Lemma wp_tok l t ts (Q : bytes -> lexer -> Prop) :
  toks l (t :: ts) -> (forall l', toks l' ts -> Q t l') -> wp getToken Q l.
Proof.
  intros (cur & ls & Hat & E) HQ. eapply wp_getToken; [done| |].
  - intros l' E'. congruence.
  - intros l' t' cur' ls' _ Hat' E'. rewrite E in E'. injection E' as -> ->. apply HQ. by exists cur', ls'.
Qed.

Lemma words_tok t c s : is_tok t -> isspace c = true -> words (t ++ c :: s) = t :: words s.
Proof.
  intros [Hne Ht] Hc. destruct t as [|x t]; [done|]. cbn [app]. apply Forall_cons in Ht as [Hx Ht].
  rewrite words_cons by done.
  assert (Forall (fun c => nonspace c = true) (x :: t)) as Hns.
  { constructor; [unfold nonspace; by rewrite Hx|]. eapply Forall_impl; [done|]. unfold nonspace. by intros ? ->. }
  destruct (take_while_app nonspace (x :: t) c s Hns) as [E1 E2]; [unfold nonspace; by rewrite Hc|].
  cbn [app] in E1, E2. rewrite E1, E2. f_equal. rewrite <- (words_skip (c :: s)). cbn [skip_while].
  rewrite Hc. apply words_skip.
Qed.

Lemma words_one t : is_tok t -> words t = [t].
Proof.
  intros [Hne Ht]. destruct t as [|x t]; [done|]. pose proof Ht as Ht'. apply Forall_cons in Ht' as [Hx _].
  rewrite words_cons by done. destruct (take_while_all nonspace (x :: t)) as [-> ->]; [|done].
  eapply Forall_impl; [done|]. unfold nonspace. by intros ? ->.
Qed.

Lemma words_sp c s : isspace c = true -> words (c :: s) = words s.
Proof. intros Hc. rewrite <- words_skip. cbn [skip_while]. by rewrite Hc, words_skip. Qed.

Lemma wp_putback l t ts (Q : unit -> lexer -> Prop) :
  toks l ts -> is_tok t -> (forall l', toks l' (t :: ts) -> Q tt l') -> wp (putbackToken t) Q l.
Proof.
  intros (cur & ls & (Hc & Hh & raws & Hs & Hlf & Hi) & E) Ht HQ. unfold putbackToken. repeat wstep.
  unfold l_cur in Hc. destruct (l_pos l) as [pos|]; [|done]. injection Hc as Hc. wstep.
  apply HQ. exists (t ++ " "%char :: cur), ls. split.
  - split_and!; [by unfold l_cur; cbn; rewrite Hc| |by exists raws].
    destruct Ht as [Hne Ht]. destruct t as [|x t]; [done|]. by apply Forall_cons in Ht as [? _].
  - unfold ahead in *. rewrite words_tok by done. cbn [app]. by rewrite E.
Qed.

Lemma length_words_n n : forall s, (length (words_n n s) <= length s)%nat.
Proof.
  induction n as [|n IH]; intros s; cbn [words_n]; [cbn; lia|].
  pose proof (skip_while_length isspace s) as Hl. pose proof (headed_skip s) as Hh.
  destruct (skip_while isspace s) as [|c t]; [cbn; lia|]. cbn [headed] in Hh. cbn [length skip_while].
  assert (nonspace c = true) as -> by (unfold nonspace; by rewrite Hh).
  pose proof (IH (skip_while nonspace t)). pose proof (skip_while_length nonspace t). cbn in Hl. lia.
Qed.

(** There are fewer tokens than characters. *)
Lemma toks_left l ts : toks l ts -> (length ts + 2 <= lex_left l)%nat.
Proof.
  intros (cur & ls & (Hc & _ & raws & Hs & _ & Hi) & <-). unfold ahead, lex_left. rewrite length_app, Hi.
  cbn [s_rest]. assert (length (words cur) <= length (l_buf l))%nat.
  { unfold l_cur in Hc. destruct (l_pos l) as [pos|]; [|done]. injection Hc as <-.
    unfold words. pose proof (length_words_n (length (drop pos (l_buf l))) (drop pos (l_buf l))).
    rewrite length_drop in *. lia. }
  assert (length (concat (map line_tokens ls)) <= length (concat (map (fun l => l ++ [LF]) raws)))%nat; [|lia].
  clear - Hs. induction Hs as [|r t raws ls (cr & -> & _) _ IH]; [done|].
  cbn [map concat]. rewrite !length_app. unfold line_tokens at 1.
  pose proof (length_words_n (length (skip_while isspace t)) (skip_while isspace t)).
  pose proof (skip_while_length isspace t). fold (words (skip_while isspace t)) in *.
  destruct (bool_decide _); cbn [length]; lia.
Qed.

(** ** Reading a printed list *)
Definition field_ok (n : nat) (v : bytes) : Prop := (v = [] \/ is_tok v) /\ (length v < n)%nat.

(** The entries whose printed form keeps everything. *)
Record printable (e : MPListEntry) : Prop := {
  pr_host : (hostname e = [] /\ servicename e = []) \/
            (is_tok (hostname e) /\ (length (hostname e) < 64)%nat /\
             is_tok (servicename e) /\ (length (servicename e) < 256)%nat);
  pr_user : field_ok 65 (user e);
  pr_passwd : field_ok 65 (passwd e);
  pr_read : field_ok 2048 (e_read e);
  pr_post : field_ok 2048 (postTo e) /\ (postTo e = [] -> e_read e = []);
  pr_bind : field_ok 2048 (bindFrom e);
  pr_timeout : 0 <= groupTimeout e < 2 ^ 31;
  pr_retries : 0 <= retries e < 2 ^ 31;
  pr_flags : exists off semi : bool, flags e = 3 + (if off then 4 else 0) + (if semi then 8 else 0);
  pr_nntp : exists lg ov : bool,
              nntpflags e = 2 ^ 32 - 1 - (if lg then 4 else 0) - (if ov then 16 else 0)
}.

Definition opt_toks (name : string) (v : bytes) : list bytes :=
  if bool_decide (v = []) then [] else [bs name; v].
Definition flag_toks (b : bool) (w : string) : list bytes := if b then [bs w] else [].

Definition field_toks (e : MPListEntry) : list bytes :=
  opt_toks "User" (user e) ++ opt_toks "Password" (passwd e) ++ opt_toks "Read" (e_read e) ++
  opt_toks "PostTo" (postTo e) ++ opt_toks "BindFrom" (bindFrom e) ++
  [bs "GroupTimeout"; dec (groupTimeout e)] ++
  [bs "Options"; bs "setpostflag"; bs "cached"] ++
  flag_toks (Z.testbit (flags e) 2) "offline" ++ flag_toks (Z.testbit (flags e) 3) "semioffline" ++
  (if nntpflags e =? 2 ^ 32 - 1 then []
   else bs "Commands" :: flag_toks (negb (Z.testbit (nntpflags e) 2)) "not-listgroup" ++
                         flag_toks (negb (Z.testbit (nntpflags e) 4)) "not-over") ++
  [bs "Retries"; dec (retries e)] ++ [bs "}"].
Definition entry_toks (e : MPListEntry) : list bytes :=
  (if bool_decide (hostname e = []) then [bs "NoServer"] else [bs "Server"; hostname e; servicename e]) ++
  bs "{" :: field_toks e.

(** Comparisons with concrete tokens. *)
Ltac tokdec := repeat match goal with
  | |- context [bool_decide (?a = ?b)] =>
      first [rewrite (bool_decide_eq_true_2 (a = b)) by reflexivity
            |rewrite (bool_decide_eq_false_2 (a = b)) by discriminate]
  | |- context [isFlag ?a ?b] => let v := eval vm_compute in (isFlag a b) in change (isFlag a b) with v
  end; cbv match.
Ltac tok l H := wstep; eapply wp_tok; [exact H|]; clear H; intros l H.

Lemma atoi_dec z : 0 <= z < 2 ^ 31 -> atoi (dec z) = z.
Proof.
  intros Hz. unfold atoi. pose proof (strtol_dec [] z []) as E. rewrite app_nil_r in E. cbn [app] in E.
  rewrite E; [|unfold LONG_MAX; lia|constructor|done]. cbn [fst]. unfold s32. rewrite Z.mod_small; lia.
Qed.

Section reading.
Variable Q : MPListEntry -> lexer -> Prop.

(** Reading on with the tokens [ts] and the entry [cur]. *)
Definition goes_on (ts : list bytes) (cur : MPListEntry) : Prop :=
  forall l n, toks l ts -> (length ts < n)%nat -> wp (readServer_loop n false cur) Q l.

Lemma go_user v ts cur : field_ok 65 v -> user cur = [] ->
  goes_on ts (set_user v (passwd cur) cur) -> goes_on (opt_toks "User" v ++ ts) cur.
Proof.
  intros [Hv Hl] Hc HK l n Ht Hn. unfold opt_toks in *. case_bool_decide as Hnil.
  - subst v. destruct cur; cbn in *; subst. by apply HK.
  - cbn [app length] in *. destruct n as [|n]; [lia|]. cbn [readServer_loop]. tok l1 Ht. tokdec. tok l2 Ht.
    rewrite take_ge by lia. apply HK; [done|lia].
Qed.

Lemma go_passwd v ts cur : field_ok 65 v -> passwd cur = [] ->
  goes_on ts (set_user (user cur) v cur) -> goes_on (opt_toks "Password" v ++ ts) cur.
Proof.
  intros [Hv Hl] Hc HK l n Ht Hn. unfold opt_toks in *. case_bool_decide as Hnil.
  - subst v. destruct cur; cbn in *; subst. by apply HK.
  - cbn [app length] in *. destruct n as [|n]; [lia|]. cbn [readServer_loop]. tok l1 Ht. tokdec. tok l2 Ht.
    rewrite take_ge by lia. apply HK; [done|lia].
Qed.

Lemma go_read v ts cur : field_ok 2048 v -> e_read cur = [] -> postTo cur = [] ->
  goes_on ts (set_groups v v (bindFrom cur) cur) -> goes_on (opt_toks "Read" v ++ ts) cur.
Proof.
  intros [Hv Hl] Hc Hc' HK l n Ht Hn. unfold opt_toks in *. case_bool_decide as Hnil.
  - subst v. destruct cur; cbn in *; subst. by apply HK.
  - cbn [app] in *. cbn [length] in Hn. destruct n as [|n]; [lia|]. cbn [readServer_loop].
    tok l1 Ht. tokdec. tok l2 Ht.
    destruct (Nat.leb_spec 2048 (length v)); [lia|]. apply HK; [done|lia].
Qed.

Lemma go_post v ts cur : field_ok 2048 v -> (v = [] -> postTo cur = []) ->
  goes_on ts (set_groups (e_read cur) v (bindFrom cur) cur) -> goes_on (opt_toks "PostTo" v ++ ts) cur.
Proof.
  intros [Hv Hl] Hc HK l n Ht Hn. unfold opt_toks in *. case_bool_decide as Hnil.
  - specialize (Hc Hnil). subst v. destruct cur; cbn in *; subst. by apply HK.
  - cbn [app] in *. cbn [length] in Hn. destruct n as [|n]; [lia|]. cbn [readServer_loop].
    tok l1 Ht. tokdec. tok l2 Ht.
    destruct (Nat.leb_spec 2048 (length v)); [lia|]. apply HK; [done|lia].
Qed.

Lemma go_bind v ts cur : field_ok 2048 v -> bindFrom cur = [] ->
  goes_on ts (set_groups (e_read cur) (postTo cur) v cur) -> goes_on (opt_toks "BindFrom" v ++ ts) cur.
Proof.
  intros [Hv Hl] Hc HK l n Ht Hn. unfold opt_toks in *. case_bool_decide as Hnil.
  - subst v. destruct cur; cbn in *; subst. by apply HK.
  - cbn [app] in *. cbn [length] in Hn. destruct n as [|n]; [lia|]. cbn [readServer_loop].
    tok l1 Ht. tokdec. tok l2 Ht.
    destruct (Nat.leb_spec 2048 (length v)); [lia|]. apply HK; [done|lia].
Qed.

Lemma go_timeout z ts cur : 0 <= z < 2 ^ 31 ->
  goes_on ts (set_nums z (flags cur) (nntpflags cur) (retries cur) cur) ->
  goes_on ([bs "GroupTimeout"; dec z] ++ ts) cur.
Proof.
  intros Hz HK l n Ht Hn. cbn [app] in *. cbn [length] in Hn. destruct n as [|n]; [lia|].
  cbn [readServer_loop]. tok l1 Ht. tokdec. tok l2 Ht. rewrite atoi_dec by done. apply HK; [done|lia].
Qed.

Lemma go_retries z ts cur : 0 <= z < 2 ^ 31 ->
  goes_on ts (set_nums (groupTimeout cur) (flags cur) (nntpflags cur) z cur) ->
  goes_on ([bs "Retries"; dec z] ++ ts) cur.
Proof.
  intros Hz HK l n Ht Hn. cbn [app] in *. cbn [length] in Hn. destruct n as [|n]; [lia|].
  cbn [readServer_loop]. tok l1 Ht. tokdec. tok l2 Ht. rewrite atoi_dec by done. apply HK; [done|lia].
Qed.

(** The word behind the options and the commands. *)
Definition stops (t : bytes) : Prop := t = bs "Commands" \/ t = bs "Retries".
Lemma is_tok_stops t : stops t -> is_tok t.
Proof. intros [-> | ->]; (split; [done|]); repeat constructor. Qed.

Lemma go_options (off semi : bool) t ts cur : stops t -> flags cur = 3 ->
  goes_on (t :: ts) (set_nums (groupTimeout cur) (3 + (if off then 4 else 0) + (if semi then 8 else 0))
                       (nntpflags cur) (retries cur) cur) ->
  goes_on ([bs "Options"; bs "setpostflag"; bs "cached"] ++ flag_toks off "offline" ++
           flag_toks semi "semioffline" ++ t :: ts) cur.
Proof.
  intros Hs Hf HK l n Ht Hn. cbn [app] in Ht. cbn [app length] in Hn. rewrite !length_app in Hn.
  cbn [length] in Hn. destruct n as [|n]; [lia|]. cbn [readServer_loop]. tok l1 Ht. tokdec.
  wstep. do 2 (destruct n as [|n]; [lia|]).
  cbn [read_options]. tok l2 Ht. tokdec. cbn [read_options]. tok l3 Ht. tokdec. rewrite Hf.
  cbn [set_flag]. set (f0 := Z.lor (Z.lor 3 F_SETPOSTFLAG) F_CACHED).
  destruct off; cbn [flag_toks app length] in Ht, Hn; [destruct n as [|n]; [lia|]; tok l4 Ht; tokdec; cbn [read_options]|];
    (destruct semi; cbn [flag_toks app length] in Ht, Hn; [destruct n as [|n]; [lia|]; tok l5 Ht; tokdec; cbn [read_options]|]);
    tok l6 Ht; (destruct Hs as [Hs|Hs]; subst t; tokdec; wstep;
      (eapply wp_putback; [exact Ht|apply is_tok_stops; first [by left|by right]|]; intros l7 Ht7; wstep; apply HK; [exact Ht7|cbn [length]; lia])).
Qed.

Lemma go_commands (lg ov : bool) ts cur : nntpflags cur = 2 ^ 32 - 1 ->
  goes_on (bs "Retries" :: ts)
    (set_nums (groupTimeout cur) (flags cur) (2 ^ 32 - 1 - (if lg then 4 else 0) - (if ov then 16 else 0))
       (retries cur) cur) ->
  goes_on ((if lg || ov then bs "Commands" :: flag_toks lg "not-listgroup" ++ flag_toks ov "not-over" else [])
           ++ bs "Retries" :: ts) cur.
Proof.
  intros Hf HK l n Ht Hn. destruct (lg || ov) eqn:E.
  - cbn [app] in Ht. cbn [app length] in Hn. rewrite !length_app in Hn. cbn [length] in Hn.
    destruct n as [|n]; [lia|]. cbn [readServer_loop]. tok l1 Ht. tokdec. wstep. rewrite Hf.
    cbn [read_commands].
    destruct lg; cbn [flag_toks app length] in Ht, Hn; [destruct n as [|n]; [lia|]; tok l4 Ht; tokdec; cbn [read_commands]|];
    (destruct ov; cbn [flag_toks app length] in Ht, Hn; [destruct n as [|n]; [lia|]; tok l5 Ht; tokdec; cbn [read_commands]|]);
    try done;
    tok l6 Ht; tokdec; wstep;
      (eapply wp_putback; [exact Ht|by apply is_tok_stops; right|]; intros l7 Ht7; wstep; apply HK; [exact Ht7|cbn [length]; lia]).
  - apply orb_false_iff in E as [-> ->]. destruct cur; cbn in Hf; subst. by apply HK.
Qed.

Lemma go_end ts cur : (forall l, toks l ts -> Q cur l) -> goes_on (bs "}" :: ts) cur.
Proof.
  intros HQ l n Ht Hn. destruct n as [|n]; [cbn in Hn; lia|].
  cbn [readServer_loop]. tok l1 Ht. tokdec. wstep. by apply HQ.
Qed.

(** The declarations of a printed entry give it back. *)
Lemma go_entry e ts : printable e -> (forall l, toks l ts -> Q e l) ->
  goes_on (field_toks e ++ ts) (set_host (hostname e) (servicename e) init_entry).
Proof.
  intros [_ Hu Hp Hr [Hpo Hpo'] Hb Ht Hre (off & semi & Hf) (lg & ov & Hn)] HQ. unfold field_toks.
  rewrite <- !app_assoc.
  apply go_user; [done|done|]. apply go_passwd; [done|done|]. apply go_read; [done|done|done|].
  apply go_post; [done|by intros E; apply Hpo' in E|]. apply go_bind; [done|done|]. apply go_timeout; [done|].
  assert (Z.testbit (flags e) 2 = off /\ Z.testbit (flags e) 3 = semi) as [-> ->]
    by (rewrite Hf; by destruct off, semi).
  assert ((if nntpflags e =? 2 ^ 32 - 1 then []
   else bs "Commands" :: flag_toks (negb (Z.testbit (nntpflags e) 2)) "not-listgroup" ++
                         flag_toks (negb (Z.testbit (nntpflags e) 4)) "not-over") =
   if lg || ov then bs "Commands" :: flag_toks lg "not-listgroup" ++ flag_toks ov "not-over" else []) as ->
    by (rewrite Hn; by destruct lg, ov).
  assert (exists t rest, stops t /\ t :: rest =
    (if lg || ov then bs "Commands" :: flag_toks lg "not-listgroup" ++ flag_toks ov "not-over" else []) ++
    [bs "Retries"; dec (retries e)] ++ [bs "}"] ++ ts) as (t & rest & Hst & E).
  { destruct (lg || ov); [|by exists (bs "Retries"), (dec (retries e) :: bs "}" :: ts); split; [right|]].
    eexists (bs "Commands"), _. split; [by left|done]. }
  rewrite <- E. apply go_options; [done|done|]. rewrite E. apply go_commands; [done|].
  apply (go_retries (retries e) (bs "}" :: ts)); [done|].
  match goal with |- goes_on _ ?c => assert (c = e) as -> end; [|by apply go_end].
  cbn. rewrite <- Hf, <- Hn. by destruct e.
Qed.

Lemma wp_readServer e ts l : printable e -> toks l (bs "{" :: field_toks e ++ ts) ->
  (forall l, toks l ts -> Q e l) ->
  wp (readServer (if bool_decide (hostname e = []) then None else Some (hostname e, servicename e))) Q l.
Proof.
  intros Hpr Ht HQ. pose proof (pr_host _ Hpr) as Hh. unfold readServer. wstep.
  assert (forall K : MPListEntry -> lexer -> Prop, K (set_host (hostname e) (servicename e) init_entry) l ->
    wp (match (if bool_decide (hostname e = []) then None else Some (hostname e, servicename e)) with
        | Some (h, p) => h <- strcpy MAXHOSTNAMELEN h ;; p <- strcpy 256 p ;; ret (set_host h p init_entry)
        | None => ret init_entry
        end) K l) as Hhost.
  { intros K HK. destruct Hh as [[E1 E2]|([Hn1 _] & Hl1 & _ & Hl2)].
    - rewrite E1, E2 in *. rewrite bool_decide_eq_true_2 by done. by wstep.
    - rewrite bool_decide_eq_false_2 by done. unfold strcpy, MAXHOSTNAMELEN.
      apply Nat.ltb_lt in Hl1, Hl2. rewrite Hl1. do 2 wstep. wstep. rewrite Hl2. wstep. by wstep. }
  apply Hhost. tok l1 Ht. rewrite bool_decide_eq_false_2 by tauto. do 2 wstep.
  apply (go_entry e ts); [done|done|done|]. apply toks_left in Ht. lia.
Qed.
End reading.

Lemma wp_read_loop : forall es acc l fuel ts (Q : list MPListEntry -> lexer -> Prop),
  (length es < fuel)%nat -> Forall printable es -> toks l (concat (map entry_toks es) ++ bs "}" :: ts) ->
  (forall l', toks l' ts -> Q (acc ++ es) l') -> wp (read_loop fuel acc) Q l.
Proof.
  induction es as [|e es IH]; intros acc l [|fuel] ts Q Hf Hes Ht HQ; cbn [length] in Hf; try lia;
    cbn [read_loop map concat app] in *.
  - tok l1 Ht. tokdec. wstep. specialize (HQ l1 Ht). by rewrite app_nil_r in HQ.
  - apply Forall_cons in Hes as [He Hes]. unfold entry_toks in Ht at 1. rewrite <- !app_assoc in Ht.
    assert (forall l2, toks l2 (bs "{" :: field_toks e ++ concat (map entry_toks es) ++ bs "}" :: ts) ->
      wp (readServer (if bool_decide (hostname e = []) then None else Some (hostname e, servicename e)))
         (fun e s' => wp (read_loop fuel (acc ++ [e])) Q s') l2) as Hrest.
    { intros l2 Ht2. eapply wp_readServer; [done|done|]. intros l3 Ht3. eapply IH; [lia|done|done|].
      intros l4 Ht4. rewrite <- app_assoc. by apply HQ. }
    case_bool_decide as Hh; cbn [app] in Ht.
    + tok l1 Ht. tokdec. wstep. by apply Hrest.
    + tok l1 Ht. tokdec. tok l2 Ht. tok l3 Ht. wstep. by apply Hrest.
Qed.

(** ** The tokens of the printed list *)

(** Concrete lists and words. *)
Ltac forall_cons := repeat apply Forall_cons_2; try apply Forall_nil_2; try done.
Ltac istok := split; [discriminate|forall_cons].
Definition text_toks (s : bytes) (ts : list bytes) : Prop :=
  exists ls, s = concat (map (fun l => l ++ [LF]) ls) /\
    Forall (fun l => (LF ∉ l) /\ stripped l l) ls /\ concat (map line_tokens ls) = ts.

Lemma text_nil : text_toks [] [].
Proof. by exists []. Qed.

Lemma text_app s1 s2 ts1 ts2 : text_toks s1 ts1 -> text_toks s2 ts2 -> text_toks (s1 ++ s2) (ts1 ++ ts2).
Proof.
  intros (l1 & -> & H1 & <-) (l2 & -> & H2 & <-). exists (l1 ++ l2). rewrite !map_app, !concat_app.
  split_and!; [done|by apply Forall_app|done].
Qed.

Lemma text_open s ts : text_toks s ts -> toks (lex_open s) ts.
Proof.
  intros (ls & -> & H & <-). exists [], ls. split; [|done]. split_and!; [done|done|]. exists ls.
  split_and!; [|by eapply Forall_impl; [exact H|intros ? [? _]]|done].
  clear - H. induction H as [|l ls [_ Hl] _ IH]; constructor; done.
Qed.

Lemma last_tok s t c : is_tok t -> last (s ++ t) = Some c -> isspace c = false.
Proof.
  intros [Hne Ht] Hl. destruct t as [|x t _] using rev_ind; [done|]. rewrite app_assoc, last_snoc in Hl.
  injection Hl as <-. apply Forall_app in Ht as [_ Ht]. by apply Forall_cons in Ht as [? _].
Qed.

Definition spaced (ws : list bytes) : bytes := concat (map (fun v => bs " " ++ v) ws).

Lemma words_spaced w ws : is_tok w -> Forall is_tok ws -> words (w ++ spaced ws) = w :: ws.
Proof.
  intros Hw Hws. revert w Hw. induction Hws as [|v ws Hv _ IH]; intros w Hw; unfold spaced; cbn [map concat].
  - rewrite app_nil_r. by apply words_one.
  - change (bs " ") with [" "%char]. cbn [app]. rewrite words_tok by done. f_equal. by apply IH.
Qed.

(** A printed line: words behind tabs. *)
Lemma text_line tabs w ws : Forall (fun c => c = TAB) tabs -> is_tok w -> Forall is_tok ws ->
  at_ w 0 <> "#"%char -> text_toks (tabs ++ w ++ spaced ws ++ [LF]) (w :: ws).
Proof.
  intros Htab Hw Hws Hne. exists [tabs ++ w ++ spaced ws].
  assert (forall t, is_tok t -> LF ∉ t) as Hlf.
  { intros t [_ Ht] Hin. rewrite Forall_forall in Ht. by specialize (Ht LF Hin). }
  assert (LF ∉ spaced ws) as Hlfs.
  { unfold spaced. clear - Hlf Hws. induction Hws as [|v ws Hv _ IH]; [apply not_elem_of_nil|]. cbn [map concat].
    rewrite !not_elem_of_app. split_and!; [notin|by apply Hlf|done]. }
  split_and!.
  - cbn [map concat]. by rewrite app_nil_r, <- !app_assoc.
  - constructor; [|constructor]. split.
    + rewrite !not_elem_of_app. split_and!; [|by apply Hlf|done].
      intros Hin. rewrite Forall_forall in Htab. by specialize (Htab LF Hin).
    + exists []. rewrite app_nil_r. split_and!; [done|constructor|]. intros c Hc.
      assert (isspace c = false) as Hsp.
      { destruct ws as [|v ws' _] using rev_ind; unfold spaced in Hc.
        - cbn [map concat] in Hc. rewrite app_nil_r in Hc. by eapply last_tok.
        - apply Forall_app in Hws as [_ Hv]. apply Forall_cons in Hv as [Hv _].
          rewrite map_app, concat_app in Hc. cbn [map concat] in Hc. rewrite app_nil_r, !app_assoc in Hc.
          by eapply last_tok. }
      intros [-> | ->]; done.
  - cbn [map concat]. rewrite app_nil_r. unfold line_tokens.
    assert (skip_while isspace (tabs ++ w ++ spaced ws) = w ++ spaced ws) as ->.
    { clear - Htab Hw. induction Htab as [|c tabs -> _ IH]; [|done].
      destruct Hw as [Hne Ht]. destruct w as [|x w]; [done|]. apply Forall_cons in Ht as [Hx _].
      cbn [app skip_while]. by rewrite Hx. }
    rewrite bool_decide_eq_false_2; [by apply words_spaced|]. destruct Hw as [Hn _]. by destruct w.
Qed.

Lemma text_opt name v : is_tok (bs name) -> at_ (bs name) 0 <> "#"%char -> v = [] \/ is_tok v ->
  text_toks (opt_line (bs name) v) (opt_toks name v).
Proof.
  intros Hn Hh Hv. unfold opt_line, opt_toks. case_bool_decide; [apply text_nil|].
  destruct Hv as [|Hv]; [done|].
  assert ([TAB; TAB] ++ bs name ++ bs " " ++ v ++ [LF] = [TAB; TAB] ++ bs name ++ spaced [v] ++ [LF]) as ->.
  { unfold spaced. cbn [map concat]. by rewrite app_nil_r, <- app_assoc. }
  apply text_line; [by forall_cons|done|by forall_cons|done].
Qed.

Lemma is_tok_dec z : 0 <= z -> is_tok (dec z).
Proof.
  intros Hz. destruct (dec_spec z Hz) as (Hne & Hf & _). split; [done|].
  eapply Forall_impl; [exact Hf|]. intros c. apply isdigit_not_space.
Qed.

(** The lines of an entry. *)
Lemma text_head h sv : h = [] \/ is_tok h /\ is_tok sv ->
  text_toks (if bool_decide (h = []) then [TAB] ++ bs "NoServer  {" ++ [LF]
     else [TAB] ++ bs "Server " ++ h ++ bs " " ++ sv ++ bs " {" ++ [LF])
    ((if bool_decide (h = []) then [bs "NoServer"] else [bs "Server"; h; sv]) ++ [bs "{"]).
Proof.
  intros Hh. case_bool_decide as E.
  - exists [[TAB] ++ bs "NoServer  {"]. split_and!; [done| |reflexivity]. constructor; [|constructor].
    split; [notin|]. exists []. split_and!; [done|constructor|]. intros c [= <-] [|]; done.
  - destruct Hh as [?|[H1 H2]]; [done|].
    assert ([TAB] ++ bs "Server " ++ h ++ bs " " ++ sv ++ bs " {" ++ [LF] =
      [TAB] ++ bs "Server" ++ spaced [h; sv; bs "{"] ++ [LF]) as ->.
    { unfold spaced. cbn [map concat]. change (bs "Server ") with (bs "Server" ++ bs " ").
      change (bs " {") with (bs " " ++ bs "{"). by rewrite app_nil_r, <- !app_assoc. }
    apply text_line; [by forall_cons|istok|forall_cons; istok|done].
Qed.
Lemma text_number name z : is_tok (bs name) -> at_ (bs name) 0 <> "#"%char -> 0 <= z ->
  text_toks ([TAB; TAB] ++ (bs name ++ bs " ") ++ dec z ++ [LF]) [bs name; dec z].
Proof.
  intros H1 H2 H3.
  assert ([TAB; TAB] ++ (bs name ++ bs " ") ++ dec z ++ [LF] = [TAB; TAB] ++ bs name ++ spaced [dec z] ++ [LF]) as ->.
  { unfold spaced. cbn [map concat]. by rewrite app_nil_r, <- !app_assoc. }
  apply text_line; [by forall_cons|done|constructor; [by apply is_tok_dec|constructor]|done].
Qed.
Lemma text_commands nf lg ov : nf = 2 ^ 32 - 1 - (if lg : bool then 4 else 0) - (if ov : bool then 16 else 0) ->
  text_toks (print_commands nf) (if nf =? 2 ^ 32 - 1 then []
   else bs "Commands" :: flag_toks (negb (Z.testbit nf 2)) "not-listgroup" ++
                         flag_toks (negb (Z.testbit nf 4)) "not-over").
Proof.
  intros ->. unfold print_commands. destruct lg, ov; cbn -[text_toks spaced]; [| | |apply text_nil].
  - apply (text_line [TAB; TAB] (bs "Commands") [bs "not-listgroup"; bs "not-over"]);
      [by forall_cons|istok|forall_cons; istok|done].
  - apply (text_line [TAB; TAB] (bs "Commands") [bs "not-listgroup"]);
      [by forall_cons|istok|forall_cons; istok|done].
  - apply (text_line [TAB; TAB] (bs "Commands") [bs "not-over"]);
      [by forall_cons|istok|forall_cons; istok|done].
Qed.

Lemma text_entry e : printable e -> text_toks (print_entry e) (entry_toks e).
Proof.
  intros [Hh [Hu _] [Hp _] [Hr _] [[Hpo _] _] [Hb _] Ht Hre (off & semi & Hf) (lg & ov & Hn)].
  unfold print_entry, entry_toks, field_toks.
  match goal with |- text_toks (?h ++ ?r) (?t ++ ?o :: ?f) =>
    replace (t ++ o :: f) with ((t ++ [o]) ++ f) by (by rewrite <- app_assoc) end.
  apply text_app; [apply text_head; destruct Hh as [[? _]|(? & _ & ? & _)]; [by left|by right]|].
  do 5 (apply text_app; [apply text_opt; [istok|done|done]|]).
  match goal with |- text_toks ?s _ =>
    replace s with (([TAB; TAB] ++ (bs "GroupTimeout" ++ bs " ") ++ dec (groupTimeout e) ++ [LF]) ++
      ([TAB; TAB] ++ bs "Options" ++ spaced ([bs "setpostflag"; bs "cached"] ++
        flag_toks off "offline" ++ flag_toks semi "semioffline") ++ [LF]) ++
      print_commands (nntpflags e) ++
      ([TAB; TAB] ++ (bs "Retries" ++ bs " ") ++ dec (retries e) ++ [LF]) ++ [TAB] ++ bs "}" ++ spaced [] ++ [LF])
  end.
  2: { rewrite Hf. rewrite <- !app_assoc. by destruct off, semi. }
  apply text_app; [apply text_number; [istok|done|lia]|].
  match goal with |- text_toks _ (?a ++ ?b ++ ?c ++ ?d) =>
    replace (a ++ b ++ c ++ d) with ((a ++ b ++ c) ++ d) by (by rewrite <- !app_assoc) end.
  apply text_app.
  { assert (Z.testbit (flags e) 2 = off /\ Z.testbit (flags e) 3 = semi) as [-> ->]
      by (rewrite Hf; by destruct off, semi).
    apply (text_line [TAB; TAB] (bs "Options")); [by forall_cons|istok| |done].
    destruct off, semi; forall_cons; istok. }
  apply text_app.
  { exact (text_commands (nntpflags e) lg ov Hn). }
  apply (text_app _ _ [bs "Retries"; dec (retries e)] [bs "}"]); [apply text_number; [istok|done|lia]|].
  apply (text_line [TAB] (bs "}") []); [by forall_cons|istok|constructor|done].
Qed.

Lemma text_list es : Forall printable es ->
  text_toks (print_list es) (bs "NewsServerList" :: bs "{" :: concat (map entry_toks es) ++ [bs "}"]).
Proof.
  intros Hes. unfold print_list.
  apply (text_app (bs "NewsServerList {" ++ [LF]) _ [bs "NewsServerList"; bs "{"]).
  { apply (text_line [] (bs "NewsServerList") [bs "{"]); [constructor|istok|forall_cons; istok|done]. }
  apply text_app.
  - induction Hes as [|e es He _ IH]; [apply text_nil|]. cbn [map concat]. apply text_app; [by apply text_entry|done].
  - apply (text_line [] (bs "}") []); [constructor|istok|constructor|done].
Qed.

(** C40: reading the printed form of a server list gives the list back, for every
    list of entries whose printed form is complete (both default options set, no
    commands disabled but listgroup and over). *)
Theorem print_read_list es : Forall printable es ->
  wp (t <- getToken ;; l <- read_list [] ;; ret (t, l)) (fun r _ => r = (bs "NewsServerList", es))
    (lex_open (print_list es)).
Proof.
  intros Hes. pose proof (text_open _ _ (text_list es Hes)) as Ht. tok l1 Ht. unfold read_list. wstep.
  tok l2 Ht. rewrite bool_decide_eq_false_2 by tauto. do 2 wstep.
  eapply (wp_read_loop es [] l2 _ []); [|done|done|by intros; wstep].
  apply toks_left in Ht. rewrite length_app in Ht. cbn [length] in Ht.
  assert (length es <= length (concat (map entry_toks es)))%nat; [|lia].
  clear. induction es as [|e es IH]; [done|]. cbn [map concat length]. rewrite length_app. unfold entry_toks at 1.
  rewrite length_app. cbn [length]. lia.
Qed.

Definition ex_entry : MPListEntry :=
  Entry (bs "news.x.org") (bs "nntp") [] [] (bs "comp.*,!comp.os.win*") (bs "comp.*") [] 600 7
    (2 ^ 32 - 1 - 16) 3.

Lemma print_read_list_witness :
  wp (t <- getToken ;; l <- read_list [] ;; ret (t, l)) (fun r _ => r = (bs "NewsServerList", [ex_entry]))
    (lex_open (print_list [ex_entry])).
Proof.
  apply print_read_list. constructor; [|constructor]. split; cbn.
  - right. split_and!; [istok|lia|istok|lia].
  - split; [by left|cbn; lia].
  - split; [by left|cbn; lia].
  - split; [right; istok|cbn; lia].
  - split; [split; [right; istok|cbn; lia]|done].
  - split; [by left|cbn; lia].
  - lia.
  - lia.
  - by exists true, false.
  - by exists false, true.
Defined.

(** Entries that are not printable come back changed: a server that is not
    cached is read back as cached. *)
Theorem print_read_cached :
  wp (_ <- getToken ;; l <- read_list [] ;; ret (flags <$> l, flags <$> [set_nums 600 1 (2 ^ 32 - 1) 3 ex_entry]))
    (fun r _ => r = ([3], [1])) (lex_open (print_list [set_nums 600 1 (2 ^ 32 - 1) 3 ex_entry])).
Proof. vm_compute. reflexivity. Qed.

(** PostTo in front of Read is lost: Read sets both, because the flag
    [havePostTo] is never raised. *)
Theorem read_overwrites_postto :
  wp (read_list []) (fun es _ => (fun e => (e_read e, postTo e)) <$> es = [(bs "b.*", bs "b.*")])
    (lex_open (bs "{ Server h 119 {" ++ [LF] ++ bs "PostTo a.*" ++ [LF] ++ bs "Read b.*" ++ [LF] ++ bs "} }" ++ [LF])).
Proof. vm_compute. reflexivity. Qed.
