(* ===== verification/GroupInfo.v ===== *)
(** * GroupInfo.v: the description of a newsgroup

    NServer-0.9.1/GroupInfo.h.  An object is its bytes, as setraw and getraw copy
    them: two 8-byte times, three 4-byte numbers, the flag and the name (LP64). *)
From S2P Require Import Prelude Memory Text.

Abbreviation GroupInfo := bytes.
Definition sizeof_GroupInfo : nat := 541.
Definition off_ctime : nat := 0.
Definition off_mtime : nat := 8.
Definition off_fst : nat := 16.
Definition off_lst : nat := 20.
Definition off_n : nat := 24.
Definition off_flag : nat := 28.
Definition off_name : nat := 29.

(** Bytes [off, off + n) of an object, and overwriting them. *)
Definition sub (g : GroupInfo) (off n : nat) : bytes := take n (drop off g).
Definition put (g : GroupInfo) (off : nat) (b : bytes) : GroupInfo :=
  take off g ++ b ++ drop (off + length b) g.

Definition gi_ctime (g : GroupInfo) : Z := le_val (sub g off_ctime 8).
Definition gi_mtime (g : GroupInfo) : Z := le_val (sub g off_mtime 8).
Definition gi_first (g : GroupInfo) : Z := le_val (sub g off_fst 4).
Definition gi_last (g : GroupInfo) : Z := le_val (sub g off_lst 4).
Definition gi_n (g : GroupInfo) : Z := le_val (sub g off_n 4).
Definition gi_flags (g : GroupInfo) : ascii := at_ g off_flag.
Definition gi_name (g : GroupInfo) : bytes := cstr (drop off_name g).

Definition set_u64 (off : nat) (v : Z) (g : GroupInfo) : GroupInfo := put g off (le_bytes 8 v).
Definition set_u32 (off : nat) (v : Z) (g : GroupInfo) : GroupInfo := put g off (le_bytes 4 v).

(** GroupInfo::init *)
Definition gi_init (g : GroupInfo) : GroupInfo :=
  put (put (put (set_u64 off_mtime 0 (set_u64 off_ctime 0 g)) off_name [NUL]) (off_name + 511) [NUL])
    off_flag ["y"%char].

Definition setctime (v : Z) (g : GroupInfo) : GroupInfo := set_u64 off_ctime v g.
Definition setflag (c : ascii) (g : GroupInfo) : GroupInfo := put g off_flag [c].

Definition setraw {S} (buf : bytes) (g : GroupInfo) : M S GroupInfo :=
  if (sizeof_GroupInfo <? length buf)%nat then raise (Error "GroupInfo(24230): setraw buf too big")
  else ret (put g 0 buf).
Definition getraw (g : GroupInfo) : bytes := take (off_name + length (gi_name g) + 1) g.

(** The loop over the name in set: the characters copied and the rest, [None]
    when the line ends without white space and the loop runs past it. *)
Fixpoint set_name_loop (n : nat) (p : bytes) : option (bytes * bytes) :=
  match n with
  | O => Some ([], p)
  | S n =>
      match p with
      | [] => if (n =? 0)%nat then Some ([NUL], []) else None
      | c :: r => if isspace c then Some ([], p)
                  else (fun '(q, e) => (c :: q, e)) <$> set_name_loop n r
      end
  end.

Definition gi_count (fst lst : Z) : Z := if lst <? fst then 0 else w32 (lst - fst + 1).

(** GroupInfo::set of a line "name last first flag". *)
Definition gi_set {S} (now : Z) (gd : bytes) (g : GroupInfo) : M S GroupInfo :=
  match set_name_loop 512 gd with
  | None => abort "name runs past the end of the line"
  | Some (nm, p) =>
      if (length nm =? 512)%nat then raise (Error "Name of newsgroup too long") else
      let g := put g off_name (nm ++ [NUL]) in
      let '(lst, e) := strtol p in
      let '(fst, p) := strtol e in
      let g := set_u32 off_lst lst g in
      let g := set_u32 off_fst fst g in
      if (length p =? length e)%nat then raise (NSError "gd not in form name int int flag") else
      let g := set_u32 off_n (gi_count (w32 fst) (w32 lst)) g in
      let p := skip_while isspace p in
      let g := put g off_flag [match p with c :: _ => c | [] => "y"%char end] in
      ret (set_u64 off_mtime now g)
  end.

(** setfln: first, last, number and flag of a group. *)
Definition setfln (now first last n : Z) (fl : ascii) (g : GroupInfo) : GroupInfo :=
  let g := set_u32 off_n n (set_u32 off_lst last (set_u32 off_fst first g)) in
  let g := if decide (fl = NUL) then g else setflag fl g in
  set_u64 off_mtime now g.

(** GroupInfo::set of a name and its numbers; [strncpy] pads with NUL. *)
Definition gi_set_group {S} (now : Z) (group : bytes) (first last n : Z) (fl : ascii) (g : GroupInfo)
    : M S GroupInfo :=
  let nm := take 512 group ++ replicate (512 - length group) NUL in
  let g := put g off_name nm in
  if negb (bool_decide (at_ nm 511 = NUL)) then raise (Error "Name of newsgroup too long")
  else ret (setfln now first last n fl g).

(** operator<< *)
Definition gi_print (g : GroupInfo) : bytes :=
  gi_name g ++ bs " " ++ dec (gi_last g) ++ bs " " ++ dec (gi_first g) ++ bs " " ++ [gi_flags g].

(** ** Lemmas *)

(** An object: all its bytes, with a terminated name. *)
Definition gi_ok (g : GroupInfo) : Prop :=
  length g = sizeof_GroupInfo /\ (length (gi_name g) < 512)%nat.

(** A record of the database: what getraw gives for some object. *)
Definition rec_ok (d : bytes) : Prop :=
  length d = (off_name + length (gi_name d) + 1)%nat /\ (length d <= sizeof_GroupInfo)%nat.

Lemma cstr_prefix s : exists r, s = cstr s ++ r /\ match r with c :: _ => c = NUL | [] => True end.
Proof.
  exists (skip_while (fun c => negb (zc c =? 0)) s). split; [by rewrite <- take_skip_while at 1|].
  induction s as [|c s IH]; cbn [skip_while]; [done|]. destruct (zc c =? 0) eqn:E; cbn [negb]; [|done].
  apply Z.eqb_eq in E. rewrite <- (cz_zc c), E. done.
Qed.

Lemma cstr_app s r : NUL ∉ s -> cstr (s ++ NUL :: r) = s.
Proof.
  intros Hs. apply take_while_app; [|done]. apply Forall_forall. intros c Hc.
  destruct (Z.eqb_spec (zc c) 0) as [E|]; [|done]. rewrite <- (cz_zc c), E in Hc. done.
Qed.

Lemma NUL_notin_cstr s : NUL ∉ cstr s.
Proof.
  unfold cstr. induction s as [|c s IH]; cbn [take_while]; [apply not_elem_of_nil|].
  destruct (zc c =? 0) eqn:E; cbn [negb]; [apply not_elem_of_nil|].
  apply not_elem_of_cons. split; [|done]. intros <-. done.
Qed.

Lemma length_put g off b : (off + length b <= length g)%nat -> length (put g off b) = length g.
Proof. intros H. unfold put. rewrite !length_app, length_take, length_drop. lia. Qed.

Lemma sub_put_same g off b : (off + length b <= length g)%nat -> sub (put g off b) off (length b) = b.
Proof.
  intros H. unfold sub, put. rewrite drop_app_length' by (rewrite length_take; lia).
  by rewrite take_app_length.
Qed.

Lemma sub_put_other g off b off' n :
  (off + length b <= length g)%nat -> (off' + n <= off \/ off + length b <= off')%nat ->
  sub (put g off b) off' n = sub g off' n.
Proof.
  intros H Hd. unfold sub, put. destruct Hd as [Hd|Hd].
  - rewrite drop_app_le by (rewrite length_take; lia).
    rewrite take_app_le by (rewrite length_drop, length_take; lia).
    rewrite skipn_firstn_comm, take_take. f_equal. lia.
  - rewrite drop_app_ge by (rewrite length_take; lia). rewrite length_take, Nat.min_l by lia.
    rewrite drop_app_ge by lia. rewrite drop_drop. do 2 f_equal. lia.
Qed.

Lemma drop_put g off b k : (off + length b <= length g)%nat -> (off + length b <= k)%nat ->
  drop k (put g off b) = drop k g.
Proof.
  intros H Hd. unfold put.
  rewrite drop_app_ge by (rewrite length_take; lia). rewrite length_take, Nat.min_l by lia.
  rewrite drop_app_ge by lia. rewrite drop_drop. f_equal. lia.
Qed.

(** The name is behind the other fields. *)
Lemma name_put g off b : (off + length b <= off_name)%nat -> (off_name <= length g)%nat ->
  gi_name (put g off b) = gi_name g.
Proof. intros H Hl. unfold gi_name. by rewrite drop_put by lia. Qed.

Lemma gi_name_len g : gi_ok g -> (off_name + length (gi_name g) + 1 <= length g)%nat.
Proof. intros [Hl Hn]. rewrite Hl. unfold off_name, sizeof_GroupInfo. lia. Qed.

Lemma getraw_name g : gi_ok g -> gi_name (getraw g) = gi_name g /\
  length (getraw g) = (off_name + length (gi_name g) + 1)%nat.
Proof.
  intros Hg. pose proof (gi_name_len g Hg) as Hl. split; [|unfold getraw; rewrite length_take; lia].
  unfold getraw, gi_name at 1. rewrite skipn_firstn_comm.
  destruct (cstr_prefix (drop off_name g)) as (r & E & Hr). fold (gi_name g) in E.
  replace (off_name + length (gi_name g) + 1 - off_name)%nat with (length (gi_name g) + 1)%nat by lia.
  destruct r as [|c r].
  { apply (f_equal length) in E. rewrite app_nil_r, length_drop in E. lia. }
  subst c. rewrite E. rewrite take_app_ge by lia.
  replace (length (gi_name g) + 1 - length (gi_name g))%nat with 1%nat by lia.
  apply (cstr_app _ []). apply NUL_notin_cstr.
Qed.

Lemma rec_ok_getraw g : gi_ok g -> rec_ok (getraw g).
Proof.
  intros Hg. destruct (getraw_name g Hg) as [En El]. pose proof (gi_name_len g Hg). destruct Hg as [Hl _].
  split; [by rewrite En|rewrite El; lia].
Qed.

(** The fields getraw keeps. *)
Lemma put_raw_sub d g off n : rec_ok d -> length g = sizeof_GroupInfo -> (off + n <= length d)%nat ->
  sub (put g 0 d) off n = sub d off n.
Proof.
  intros [_ Hd] Hg Hn. unfold sub, put. rewrite take_0. cbn [app]. rewrite drop_app_le by lia.
  by rewrite take_app_le by (rewrite length_drop; lia).
Qed.

Lemma put_raw_name d g : rec_ok d -> length g = sizeof_GroupInfo -> gi_name (put g 0 d) = gi_name d.
Proof.
  intros [Hd Hl] Hg. unfold gi_name at 1, put. rewrite take_0. cbn [app].
  rewrite drop_app_le by (unfold off_name in *; lia).
  destruct (cstr_prefix (drop off_name d)) as (r & E & Hr). fold (gi_name d) in E.
  destruct r as [|c r].
  { apply (f_equal length) in E. rewrite app_nil_r, length_drop in E. unfold off_name in *. lia. }
  subst c. rewrite E, <- app_assoc. cbn [app]. apply cstr_app, NUL_notin_cstr.
Qed.

(** What getraw gives restores every field of the description (and nothing
    else) when it is given to setraw of another object. *)
Theorem setraw_getraw {S} (g g' : GroupInfo) (s : S) : gi_ok g -> length g' = sizeof_GroupInfo ->
  wp (setraw (getraw g) g') (fun r s' => s' = s /\ gi_ok r /\ gi_name r = gi_name g /\
    gi_ctime r = gi_ctime g /\ gi_mtime r = gi_mtime g /\ gi_first r = gi_first g /\
    gi_last r = gi_last g /\ gi_n r = gi_n g /\ gi_flags r = gi_flags g) s.
Proof.
  intros Hg Hg'. pose proof (rec_ok_getraw g Hg) as Hr. pose proof Hr as [Hr1 Hr2].
  destruct (getraw_name g Hg) as [En El]. pose proof (gi_name_len g Hg) as Hl.
  unfold setraw. destruct (Nat.ltb_spec sizeof_GroupInfo (length (getraw g))); [lia|]. wstep.
  assert (forall off n, (off + n <= off_name)%nat -> sub (put g' 0 (getraw g)) off n = sub g off n) as Hs.
  { intros off n Hn. rewrite put_raw_sub by (done || lia). unfold sub, getraw.
    rewrite skipn_firstn_comm, take_take. f_equal. lia. }
  assert (forall g, at_ g off_flag = match sub g off_flag 1 with c :: _ => c | [] => NUL end) as Hf.
  { intros x. unfold at_, sub. rewrite <- (Nat.add_0_r off_flag) at 1. rewrite <- nth_skipn.
    by destruct (drop off_flag x). }
  assert (gi_name (put g' 0 (getraw g)) = gi_name g) as Hnm by (rewrite put_raw_name by done; exact En).
  split_and!; [done| |exact Hnm|..].
  - split; [rewrite length_put by lia; done|]. rewrite Hnm. apply Hg.
  - unfold gi_ctime. by rewrite Hs by (unfold off_ctime, off_name; lia).
  - unfold gi_mtime. by rewrite Hs by (unfold off_mtime, off_name; lia).
  - unfold gi_first. by rewrite Hs by (unfold off_fst, off_name; lia).
  - unfold gi_last. by rewrite Hs by (unfold off_lst, off_name; lia).
  - unfold gi_n. by rewrite Hs by (unfold off_n, off_name; lia).
  - unfold gi_flags. by rewrite !Hf, Hs by (unfold off_flag, off_name; lia).
Qed.

Lemma ex_gi_ok : gi_ok (put (gi_init (replicate sizeof_GroupInfo "x"%char)) off_name (bs "comp.x" ++ [NUL])).
Proof. split; [vm_compute; reflexivity|vm_compute; lia]. Qed.

Lemma setraw_getraw_witness :
  wp (setraw (getraw (put (gi_init (replicate sizeof_GroupInfo "x"%char)) off_name (bs "comp.x" ++ [NUL])))
    (replicate sizeof_GroupInfo NUL)) (fun r _ => gi_name r = bs "comp.x") tt.
Proof.
  eapply wp_mono; [apply setraw_getraw; [apply ex_gi_ok|reflexivity]|].
  intros r s' (_ & _ & -> & _). vm_compute. reflexivity.
Defined.

(** ** Reading a printed description *)
Lemma set_name_loop_word nm r : forall n, (length nm < n)%nat ->
  Forall (fun c => isspace c = false) nm -> (exists c l, r = c :: l /\ isspace c = true) ->
  set_name_loop n (nm ++ r) = Some (nm, r).
Proof.
  induction nm as [|c nm IH]; intros [|n] Hn Hnm (x & l & -> & Hx); cbn [length] in Hn; try lia.
  - cbn [app set_name_loop]. by rewrite Hx.
  - apply Forall_cons in Hnm as [Hc Hnm]. cbn [app set_name_loop]. rewrite Hc.
    rewrite IH; [done|lia|done|by exists x, l].
Qed.

Lemma length_set_u32 off v g : (off + 4 <= length g)%nat -> length (set_u32 off v g) = length g.
Proof. intros. unfold set_u32. by rewrite length_put by (rewrite length_le_bytes; lia). Qed.
Lemma length_set_u64 off v g : (off + 8 <= length g)%nat -> length (set_u64 off v g) = length g.
Proof. intros. unfold set_u64. by rewrite length_put by (rewrite length_le_bytes; lia). Qed.

Lemma sub_set_u32 off v g : (off + 4 <= length g)%nat -> le_val (sub (set_u32 off v g) off 4) = w32 v.
Proof.
  intros. unfold set_u32. pose proof (sub_put_same g off (le_bytes 4 v)) as E.
  rewrite length_le_bytes in E. rewrite E by lia. by rewrite le_val_bytes.
Qed.
Lemma sub_set_u64 off v g : (off + 8 <= length g)%nat -> le_val (sub (set_u64 off v g) off 8) = w64 v.
Proof.
  intros. unfold set_u64. pose proof (sub_put_same g off (le_bytes 8 v)) as E.
  rewrite length_le_bytes in E. rewrite E by lia. by rewrite le_val_bytes.
Qed.

Lemma sub_put_u32 off v g : (off + 4 <= length g)%nat -> le_val (sub (put g off (le_bytes 4 v)) off 4) = w32 v.
Proof. apply sub_set_u32. Qed.
Lemma sub_put_u64 off v g : (off + 8 <= length g)%nat -> le_val (sub (put g off (le_bytes 8 v)) off 8) = w64 v.
Proof. apply sub_set_u64. Qed.

Lemma at_sub g k : at_ g k = match sub g k 1 with c :: _ => c | [] => NUL end.
Proof.
  unfold at_, sub. rewrite <- (Nat.add_0_r k) at 1. rewrite <- nth_skipn. by destruct (drop k g).
Qed.

(** Lengths and fields through writes. *)
Ltac gi_off := unfold off_ctime, off_mtime, off_fst, off_lst, off_n, off_flag, off_name, sizeof_GroupInfo in *.
Ltac gi_len := repeat first [rewrite length_set_u32 | rewrite length_set_u64 | rewrite length_put];
  rewrite ?length_le_bytes, ?length_app; gi_off; cbn [length]; try lia.
Ltac gi_get := unfold set_u32, set_u64;
  repeat (rewrite sub_put_other by (rewrite ?length_le_bytes; cbn [length]; gi_len)).

Lemma cstr_app_nul s r : cstr (s ++ NUL :: r) = cstr s.
Proof.
  unfold cstr. induction s as [|c s IH]; [done|]. cbn [app take_while].
  destruct (negb _); [by rewrite IH|done].
Qed.

Lemma cstr_all s : (NUL ∉ s) -> cstr s = s.
Proof. intros H. rewrite <- (cstr_app_nul s []). by apply cstr_app. Qed.

Lemma length_cstr s : (length (cstr s) <= length s)%nat.
Proof. destruct (cstr_prefix s) as (r & E & _). apply (f_equal length) in E. rewrite length_app in E. lia. Qed.

Lemma length_init g : length g = sizeof_GroupInfo -> length (gi_init g) = sizeof_GroupInfo.
Proof. intros H. unfold gi_init. gi_len. Qed.

Lemma name_init g : length g = sizeof_GroupInfo -> gi_name (gi_init g) = [].
Proof.
  intros H. assert (at_ (gi_init g) off_name = NUL) as E.
  { rewrite at_sub. unfold gi_init. gi_get.
    pose proof (sub_put_same (set_u64 off_mtime 0 (set_u64 off_ctime 0 g)) off_name [NUL]) as E.
    unfold set_u64 in E. cbn [length] in E. rewrite E; [done|gi_len]. }
  unfold gi_name. unfold at_ in E. rewrite <- (Nat.add_0_r off_name), <- nth_skipn in E.
  destruct (drop off_name (gi_init g)) as [|c r]; [done|]. cbn in E. by subst c.
Qed.

Lemma gi_name_padded group g : length g = sizeof_GroupInfo -> (length group <= 512)%nat ->
  gi_name (put g off_name (take 512 group ++ replicate (512 - length group) NUL)) = cstr group.
Proof.
  intros Hg Hn. rewrite take_ge by lia. unfold gi_name, put.
  rewrite drop_app_length' by (rewrite length_take; gi_off; lia).
  rewrite (drop_ge g) by (rewrite length_app, length_replicate; gi_off; lia). rewrite app_nil_r.
  destruct (512 - length group)%nat; [by rewrite app_nil_r|apply cstr_app_nul].
Qed.

(** set with a name that fits: the fields it stores; the time of creation stays. *)
Lemma gi_set_group_fields {S} now group f l n fl g (s : S) :
  length g = sizeof_GroupInfo -> (length group <= 512)%nat -> fl <> NUL ->
  runs (gi_set_group now group f l n fl g) (fun r s' => s' = s /\ gi_ok r /\ gi_name r = cstr group /\
    gi_first r = w32 f /\ gi_last r = w32 l /\ gi_n r = w32 n /\ gi_flags r = fl /\
    gi_mtime r = w64 now /\ gi_ctime r = gi_ctime g) (fun e s' => s' = s /\ (length group = 512%nat /\ e = Error "Name of newsgroup too long")) s.
Proof.
  intros Hg Hgr Hfl. unfold gi_set_group. rewrite take_ge by lia.
  set (nm := group ++ replicate (512 - length group) NUL). assert (length nm = 512%nat) as Hnm.
  { subst nm. rewrite length_app, length_replicate. lia. }
  set (g1 := put g off_name nm).
  assert (length g1 = sizeof_GroupInfo) as Hg1 by (subst g1; gi_len).
  assert (gi_name g1 = cstr group) as En1.
  { pose proof (gi_name_padded group g Hg Hgr) as E. by rewrite take_ge in E by lia. }
  assert (cstr nm = cstr group) as Ec.
  { subst nm. destruct (512 - length group)%nat; [by rewrite app_nil_r|apply cstr_app_nul]. }
  case_bool_decide as H511; cbn [negb].
  - rstep. split; [done|].
    assert (gi_name (setfln now f l n fl g1) = cstr group) as Ename.
    { rewrite <- En1. unfold setfln. rewrite decide_False by done. unfold setflag, set_u32, set_u64.
      repeat (rewrite name_put by gi_len). done. }
    assert (length (cstr nm) < 512)%nat as Hlt.
    { destruct (cstr_prefix nm) as (r & E & _). destruct r as [|c r].
      - exfalso. rewrite app_nil_r in E. apply (NUL_notin_cstr nm). rewrite <- E, <- H511.
        apply list_elem_of_In, nth_In. lia.
      - apply (f_equal length) in E. rewrite length_app in E. cbn [length] in E. lia. }
    split_and!; [split; [|by rewrite Ename, <- Ec]|done|..].
    1: unfold setfln, setflag; rewrite decide_False by done; gi_len.
    all: unfold setfln; rewrite decide_False by done; unfold setflag.
    + unfold gi_first. gi_get. by rewrite sub_put_u32 by gi_len.
    + unfold gi_last. gi_get. by rewrite sub_put_u32 by gi_len.
    + unfold gi_n. gi_get. by rewrite sub_put_u32 by gi_len.
    + unfold gi_flags. rewrite at_sub. gi_get.
      pose proof (sub_put_same (set_u32 off_n n (set_u32 off_lst l (set_u32 off_fst f g1))) off_flag [fl]) as E.
      unfold set_u32 in E. cbn [length] in E. rewrite E; [done|gi_len].
    + unfold gi_mtime, set_u64. by rewrite sub_put_u64 by gi_len.
    + unfold gi_ctime. gi_get. unfold g1. rewrite sub_put_other; [done|gi_off; lia|gi_off; lia].
  - rstep. split; [done|split; [|done]]. destruct (decide (length group = 512%nat)); [done|]. exfalso. apply H511.
    unfold at_, nm. rewrite app_nth2 by lia. rewrite nth_lookup.
    by rewrite lookup_replicate_2 by lia.
Qed.

(** setctime leaves the other fields alone. *)
Lemma setctime_keeps v g : gi_ok g -> gi_ok (setctime v g) /\ gi_name (setctime v g) = gi_name g /\
  gi_first (setctime v g) = gi_first g /\ gi_last (setctime v g) = gi_last g /\ gi_n (setctime v g) = gi_n g /\
  gi_flags (setctime v g) = gi_flags g /\ gi_mtime (setctime v g) = gi_mtime g.
Proof.
  intros [Hl Hn]. unfold setctime, set_u64.
  assert (gi_name (put g off_ctime (le_bytes 8 v)) = gi_name g) as En by (apply name_put; gi_len).
  split_and!; [split; [gi_len|by rewrite En]|done|..].
  - unfold gi_first. by rewrite sub_put_other by gi_len.
  - unfold gi_last. by rewrite sub_put_other by gi_len.
  - unfold gi_n. by rewrite sub_put_other by gi_len.
  - unfold gi_flags. rewrite !at_sub. by rewrite sub_put_other by gi_len.
  - unfold gi_mtime. by rewrite sub_put_other by gi_len.
Qed.

Lemma setctime_ctime v g : gi_ok g -> gi_ctime (setctime v g) = w64 v.
Proof. intros [Hl _]. unfold gi_ctime, setctime, set_u64. apply sub_put_u64. gi_len. Qed.

(** A line operator<< prints is read back by set: same name, numbers and flag, and
    the number of articles is recomputed from first and last. *)
Lemma wp_print_set {S} now (g : bytes) (g0 : GroupInfo) (s : S) :
  (length (gi_name g) < 512)%nat -> gi_ok g0 -> Forall (fun c => isspace c = false) (gi_name g) ->
  isspace (gi_flags g) = false -> gi_flags g <> NUL ->
  wp (gi_set now (gi_print g) g0) (fun r s' => s' = s /\ gi_ok r /\ gi_name r = gi_name g /\
    gi_first r = gi_first g /\ gi_last r = gi_last g /\ gi_flags r = gi_flags g /\
    gi_n r = gi_count (gi_first g) (gi_last g) /\ gi_mtime r = w64 now /\ gi_ctime r = gi_ctime g0) s.
Proof.
  intros Hn [Hl0 Hn0] Hnm Hfl Hfl0.
  assert (forall x, 0 <= le_val (sub x off_fst 4) < 2 ^ 32 /\ 0 <= le_val (sub x off_lst 4) < 2 ^ 32) as Hr.
  { assert (forall x k, 0 <= le_val (sub x k 4) < 2 ^ 32) as Hr; [|by split; apply Hr].
    intros x k. pose proof (le_val_range (sub x k 4)) as H.
    assert (length (sub x k 4) <= 4)%nat by (unfold sub; rewrite length_take; lia).
    split; [lia|]. eapply Z.lt_le_trans; [apply H|]. change (2 ^ 32) with (256 ^ 4). apply Z.pow_le_mono_r; lia. }
  destruct (Hr g) as [Hfst Hlst]. fold (gi_first g) in Hfst. fold (gi_last g) in Hlst.
  unfold gi_set, gi_print. rewrite set_name_loop_word by (done || (by eexists _, _)).
  destruct (Nat.eqb_spec (length (gi_name g)) 512); [lia|].
  pose proof (strtol_dec (bs " ") (gi_last g) (bs " " ++ dec (gi_first g) ++ bs " " ++ [gi_flags g])) as E1.
  rewrite E1; [|unfold LONG_MAX; lia|by apply Forall_cons_2|done].
  pose proof (strtol_dec (bs " ") (gi_first g) (bs " " ++ [gi_flags g])) as E2.
  rewrite E2; [|unfold LONG_MAX; lia|by apply Forall_cons_2|done]. clear E1 E2.
  assert ((length (bs " " ++ [gi_flags g]) =? length (bs " " ++ dec (gi_first g) ++ bs " " ++ [gi_flags g]))%nat
    = false) as ->.
  { apply Nat.eqb_neq. rewrite !length_app. cbn [length bs list_ascii_of_string].
    destruct (dec_spec (gi_first g)) as (Hne & _); [lia|]. destruct (dec (gi_first g)); [done|]. cbn. lia. }
  assert (skip_while isspace (bs " " ++ [gi_flags g]) = [gi_flags g]) as -> by (cbn; by rewrite Hfl).
  rewrite !(w32_small (gi_first g)), !(w32_small (gi_last g)) by lia. wstep.
  set (g1 := put g0 off_name (gi_name g ++ [NUL])).
  assert (length g1 = sizeof_GroupInfo) as Hl1.
  { unfold g1. rewrite length_put; [done|]. rewrite length_app, Hl0. gi_off. cbn [length]. lia. }
  assert (gi_name g1 = gi_name g) as Hn1.
  { unfold gi_name at 1, g1, put. rewrite drop_app_length' by (rewrite length_take, Hl0; gi_off; lia).
    rewrite <- app_assoc. apply cstr_app, NUL_notin_cstr. }
  split_and!; [done|split; [gi_len|]| | | | | | |].
  - unfold set_u32, set_u64. rewrite !name_put by (rewrite ?length_le_bytes; gi_len). by rewrite Hn1.
  - unfold set_u32, set_u64. by rewrite !name_put by (rewrite ?length_le_bytes; gi_len).
  - unfold gi_first at 1. gi_get. rewrite sub_put_u32 by gi_len. apply Z.mod_small. lia.
  - unfold gi_last at 1. gi_get. rewrite sub_put_u32 by gi_len. apply Z.mod_small. lia.
  - unfold gi_flags at 1. rewrite at_sub. gi_get.
    pose proof (sub_put_same (set_u32 off_n (gi_count (gi_first g) (gi_last g))
      (set_u32 off_fst (gi_first g) (set_u32 off_lst (gi_last g) g1))) off_flag [gi_flags g]) as E.
    unfold set_u32 in E. cbn [length] in E. rewrite E; [done|gi_len].
  - unfold gi_n at 1. gi_get. rewrite sub_put_u32 by gi_len. unfold gi_count, w32.
    destruct (gi_last g <? gi_first g); [done|]. by rewrite Z.mod_mod.
  - unfold gi_mtime, set_u64. rewrite sub_put_u64 by gi_len. done.
  - unfold gi_ctime. gi_get. unfold g1. rewrite sub_put_other; [done| |gi_off; lia].
    rewrite length_app, Hl0. gi_off. cbn [length]. lia.
Qed.

(** A line without white space is read past its end. *)
Theorem set_overrun {S} now gd g (s : S) :
  (length gd < 511)%nat -> Forall (fun c => isspace c = false) gd -> aborts (gi_set now gd g) s.
Proof.
  intros Hl Hs. unfold gi_set, aborts. assert (forall n, (length gd < n - 1)%nat -> set_name_loop n gd = None) as ->;
    [|by eexists|lia].
  clear Hl. induction Hs as [|c gd Hc _ IH]; intros [|n] Hn; cbn [length] in Hn; try lia; cbn [set_name_loop].
  - destruct (Nat.eqb_spec n 0); [lia|done].
  - rewrite Hc, IH; [done|lia].
Qed.
