(* ===== verification/Article.v ===== *)
(** * Article.v: news articles

    NServer-0.9.1/Article.{h,cc}.  An article is its number and its text; a
    pointer into [_ctext] is the rest of the C string behind it. *)
From S2P Require Import Prelude Memory Text.

(** tolower in the C locale; strcasecmp and strncasecmp compare with it. *)
Definition tolower (c : ascii) : ascii :=
  if (65 <=? zc c) && (zc c <=? 90) then cz (zc c + 32) else c.
Definition lower (s : bytes) : bytes := tolower <$> s.
Definition strcaseeq (a b : bytes) : bool := bool_decide (lower a = lower b).
Definition strncaseeq (a b : bytes) (n : nat) : bool := bool_decide (lower (take n a) = lower (take n b)).

Record Article := MkArticle { a_nbr : Z; a_text : bytes }.
Definition Head : Z := 1.
Definition Body : Z := 2.

Definition a_setnbr (nbr : Z) (a : Article) : Article := MkArticle nbr (a_text a).
Definition a_clear : Article := MkArticle 0 [].
Definition a_settext (text : bytes) (a : Article) : Article := MkArticle (a_nbr a) text.
Definition a_length (a : Article) : Z := Z.of_nat (length (a_text a)).

(** read; [None] when the text never ends (the stream is finite, so it does). *)
Definition a_read (ist : istream) (a : Article) : option (Article * istream) :=
  (fun '(t, _, ist) => (a_settext t a, ist)) <$> readtext ist [] true (bs "." ++ [CR; LF]).

Definition eol (c : ascii) : bool := bool_decide (c = CR) || bool_decide (c = LF).
Definition not_eol (c : ascii) : bool := negb (eol c).
Definition blank (c : ascii) : bool := bool_decide (c = " "%char) || bool_decide (c = TAB).

(** The copy of the name of a field in lower case, cut at the buffer's size. *)
Definition hdrbuf (ifld : bytes) : bytes :=
  if (length ifld <? 512)%nat then lower ifld else take 511 (lower ifld).

(** [while ( *p && *p == tolower( *q)) { p++; q++; }] *)
Fixpoint match_field (p q : bytes) : bytes * bytes :=
  match p, q with
  | c :: p', d :: q' => if bool_decide (c = tolower d) then match_field p' q' else (p, q)
  | _, _ => (p, q)
  end.

Section ops.
Context {S : Type}.

Fixpoint find_field_loop (fuel : nat) (hdr q : bytes) : M S bytes :=
  match fuel with
  | O => spin
  | Datatypes.S fuel =>
      let fld := q in
      let '(p, q) := match_field hdr q in
      match p with
      | [] => ret fld
      | _ :: _ =>
          let q := skip_while not_eol q in
          match q with
          | [] => raise (InvalidArticleError "unterminated header, no body")
          | c :: q1 =>
              q <- (if bool_decide (c = CR) && bool_decide (at_ q1 0 = LF) then ret (drop 1 q1)
                    else if bool_decide (c = LF) then ret q1
                    else raise (InvalidArticleError "line not terminated with CRLF/LF")) ;;
              if eol (at_ q 0) then ret q else find_field_loop fuel hdr q
          end
      end
  end.
Definition find_field (ifld : bytes) (a : Article) : M S bytes :=
  let ctext := cstr (a_text a) in find_field_loop (Datatypes.S (length ctext)) (hdrbuf ifld) ctext.

Definition has_field (ifld : bytes) (a : Article) : M S bool :=
  q <- find_field ifld a ;;
  let c := at_ q 0 in ret (negb (bool_decide (c = NUL) || eol c)).

(** Over the end of a line, in getfield. *)
Definition next_line (p : bytes) : M S bytes :=
  p <- match p with
       | c :: p1 =>
           if bool_decide (c = LF) then ret p1
           else if bool_decide (c = CR) then
             if negb (bool_decide (at_ p1 0 = LF))
             then raise (InvalidArticleError "illegaly terminated line, neither <lf> nor <cr><lf>")
             else ret (drop 1 p1)
           else ret p
       | [] => ret p
       end ;;
  match p with [] => raise (InvalidArticleError "article without body") | _ => ret p end.

(** The continuation lines. *)
Fixpoint getfield_multi (fuel : nat) (rfld p : bytes) : M S bytes :=
  match fuel with
  | O => spin
  | Datatypes.S fuel =>
      if blank (at_ p 0) then
        let fld := skip_while blank p in
        p <- next_line (skip_while not_eol fld) ;;
        getfield_multi fuel (rfld ++ take_while not_eol fld) p
      else ret rfld
  end.

Definition getfield (ifld : bytes) (Full : bool) (a : Article) : M S bytes :=
  if strcaseeq ifld (bs "bytes:") then ret (dec (a_length a)) else
  fld <- find_field ifld a ;;
  if eol (at_ fld 0) then raise (NoSuchFieldError ifld) else
  let p := skip_while blank (drop (length ifld) fld) in
  let e := skip_while not_eol p in
  let start := if Full then fld else p in
  let rfld := take (length start - length e) start in
  p <- next_line e ;;
  getfield_multi (Datatypes.S (length p)) rfld p.

(** Over the end of a line, in setfield. *)
Definition over_eol (p : bytes) : bytes :=
  let p := if bool_decide (at_ p 0 = LF) then drop 1 p else p in
  if bool_decide (at_ p 0 = CR) && bool_decide (at_ p 1 = LF) then drop 2 p else p.

Fixpoint setfield_multi (fuel : nat) (p : bytes) : M S bytes :=
  match fuel with
  | O => spin
  | Datatypes.S fuel =>
      if isspace (at_ p 0) && negb (eol (at_ p 0)) then
        match skip_while not_eol (skip_while isspace p) with
        | [] => abort "header runs past the end of the text"
        | p => setfield_multi fuel (over_eol p)
        end
      else ret p
  end.

Definition setfield (ifld field_data : bytes) (a : Article) : M S Article :=
  let ctext := cstr (a_text a) in
  fld <- find_field ifld a ;;
  let off := (length ctext - length fld)%nat in
  if eol (at_ fld 0) then
    ret (a_settext (take off (a_text a) ++ field_data ++ drop off (a_text a)) a)
  else
    let p := skip_while not_eol (skip_while isspace (drop (length ifld) fld)) in
    p <- setfield_multi (Datatypes.S (length p)) (over_eol p) ;;
    let e := (length ctext - length p)%nat in
    ret (a_settext (take off (a_text a) ++ field_data ++ drop e (a_text a)) a).
End ops.

(** The end of the header, in write. *)
Fixpoint head_end (fuel : nat) (q : bytes) : bytes :=
  match fuel with
  | O => q
  | S fuel =>
      match skip_while not_eol q with
      | [] => []
      | q =>
          if bool_decide (at_ q 0 = CR /\ at_ q 1 = LF /\ at_ q 2 = CR /\ at_ q 3 = LF) then drop 2 q
          else if bool_decide (at_ q 0 = LF /\ at_ q 1 = LF) then drop 1 q
          else head_end fuel (skip_while eol q)
      end
  end.

(** write: what is sent to the stream.  With a line feed only, [p] and not [q] is
    moved, so the length is one too much and the terminating NUL is written. *)
Definition a_write (flags : Z) (a : Article) : bytes :=
  if Z.land flags (Z.lor Head Body) =? Z.lor Head Body then a_text a else
  let ctext := cstr (a_text a) in
  let q := head_end (S (length ctext)) ctext in
  let n := (length ctext - length q)%nat in
  if negb (Z.land flags Head =? 0) then take n ctext
  else if negb (Z.land flags Body =? 0) then
    if bool_decide (at_ q 0 = LF) then drop n (a_text a) ++ [NUL]
    else if bool_decide (at_ q 0 = CR /\ at_ q 1 = LF) then drop (n + 2) (a_text a)
    else drop n (a_text a)
  else [].

(** ** What a header means

    A text made of header lines, an empty line and a body. *)
Definition header_line (l : bytes) : Prop := l <> [] /\ Forall (fun c => not_eol c = true /\ c <> NUL) l.
Definition lines_text (ls : list bytes) : bytes := concat ((fun l => l ++ [CR; LF]) <$> ls).
Definition art_text (ls : list bytes) (body : bytes) : bytes := lines_text ls ++ CR :: LF :: body.

(** The name of a field: not empty, and it fits the buffer. *)
Definition field_name (f : bytes) : Prop :=
  f <> [] /\ (length f < 512)%nat /\ Forall (fun c => not_eol c = true /\ c <> NUL) f.

Definition is_field (f l : bytes) : bool := bool_decide (lower (take (length f) l) = lower f).

(** The lines from the field on, and the value of a field with its continuation lines. *)
Fixpoint lines_from (f : bytes) (ls : list bytes) : list bytes :=
  match ls with [] => [] | l :: r => if is_field f l then ls else lines_from f r end.
Fixpoint continued (ls : list bytes) : bytes :=
  match ls with
  | l :: r => if blank (at_ l 0) then skip_while blank l ++ continued r else []
  | [] => []
  end.
Definition field_value (f : bytes) (Full : bool) (ls : list bytes) : option bytes :=
  match lines_from f ls with
  | [] => None
  | l :: r => Some ((if Full then l else skip_while blank (drop (length f) l)) ++ continued r)
  end.

Lemma tolower_eol c : not_eol c = true /\ c <> NUL -> tolower c <> CR /\ tolower c <> NUL.
Proof. destruct c as [[][][][][][][][]]; vm_compute; intros [? ?]; split; congruence. Qed.

Lemma not_eol_spec c : not_eol c = true <-> c <> CR /\ c <> LF.
Proof.
  unfold not_eol, eol. rewrite negb_true_iff, orb_false_iff, !bool_decide_eq_false. done.
Qed.

Lemma match_field_spec : forall f l r, Forall (fun c => not_eol c = true /\ c <> NUL) f ->
  (is_field f l = true /\ fst (match_field (lower f) (l ++ CR :: r)) = []) \/
  (is_field f l = false /\ exists c p l1 l2, l = l1 ++ l2 /\ match_field (lower f) (l ++ CR :: r) = (c :: p, l2 ++ CR :: r)).
Proof.
  induction f as [|c f IH]; intros l r Hf.
  - left. split; [done|]. by destruct l.
  - apply Forall_cons in Hf as [Hc Hf]. destruct (tolower_eol c Hc) as [Hcr _]. cbn [lower fmap list_fmap].
    destruct l as [|d l].
    + right. split; [by apply bool_decide_eq_false_2|]. eexists _, _, [], []. split; [done|].
      cbn [app match_field]. rewrite bool_decide_eq_false_2; [done|exact Hcr].
    + cbn [app match_field]. case_bool_decide as E.
      * destruct (IH l r Hf) as [[H1 H2]|(H1 & c' & p & l1 & l2 & -> & H2)].
        -- left. split; [|done]. unfold is_field in *. apply bool_decide_eq_true in H1. apply bool_decide_eq_true.
           cbn [length take lower fmap list_fmap]. unfold lower in *. by rewrite H1, E.
        -- right. split; [|exists c', p, (d :: l1), l2; by split]. unfold is_field in *.
           apply bool_decide_eq_false in H1. apply bool_decide_eq_false. unfold lower in *.
           cbn [length take fmap list_fmap]. intros [= _ H]. done.
      * right. split; [|by exists (tolower c), (lower f), [], (d :: l)].
        apply bool_decide_eq_false. unfold lower. cbn [length take fmap list_fmap]. intros [= H _]. done.
Qed.

Lemma skip_eol l r : Forall (fun c => not_eol c = true /\ c <> NUL) l ->
  skip_while not_eol (l ++ CR :: r) = CR :: r /\ take_while not_eol (l ++ CR :: r) = l.
Proof.
  intros Hl. destruct (take_while_app not_eol l CR r) as [? ?]; [|done|done].
  eapply Forall_impl; [exact Hl|]. by intros c [? _].
Qed.

Lemma lines_text_cons l ls : lines_text (l :: ls) = l ++ CR :: LF :: lines_text ls.
Proof. unfold lines_text. cbn. by rewrite <- app_assoc. Qed.

Lemma art_text_cons l ls body : art_text (l :: ls) body = l ++ CR :: LF :: art_text ls body.
Proof. unfold art_text. rewrite lines_text_cons, <- app_assoc. done. Qed.

Lemma cstr_art_text ls body : Forall header_line ls -> cstr (art_text ls body) = art_text ls (cstr body).
Proof.
  assert (forall s r, Forall (fun c => c <> NUL) s -> cstr (s ++ r) = s ++ cstr r) as Happ.
  { intros s r Hs. induction Hs as [|c s Hc _ IH]; [done|]. cbn. fold (cstr (s ++ r)). rewrite IH.
    destruct (Z.eqb_spec (zc c) 0) as [E|]; [|done]. by rewrite <- (cz_zc c), E in Hc. }
  induction 1 as [|l ls [_ Hl] _ IH]; [apply (Happ [CR; LF]); repeat (apply Forall_cons_2; [done|]); by apply Forall_nil_2|].
  rewrite !art_text_cons, Happ.
  - f_equal. change (CR :: LF :: ?x) with ([CR; LF] ++ x). rewrite Happ; [by rewrite IH|].
    repeat (apply Forall_cons_2; [done|]). by apply Forall_nil_2.
  - eapply Forall_impl; [exact Hl|]. by intros c [_ ?].
Qed.

Lemma header_line_head l r : header_line l -> eol (at_ (l ++ r) 0) = false /\ at_ (l ++ r) 0 <> NUL.
Proof.
  intros [Hl Hc]. destruct l as [|c l]; [done|]. apply Forall_cons in Hc as [[Hc ?] _]. cbn. split; [|done].
  unfold not_eol in Hc. by apply negb_true_iff in Hc.
Qed.

Section spec.
Context {S : Type}.
Implicit Types s : S.

Lemma find_field_loop_spec f body : field_name f -> forall ls fuel (s : S), Forall header_line ls ->
  (length ls < fuel)%nat ->
  (ls = [] -> False) ->
  find_field_loop fuel (lower f) (art_text ls body) s = Ret (art_text (lines_from f ls) body) s.
Proof.
  intros (Hf0 & _ & Hf). induction ls as [|l ls IH]; intros [|fuel] s Hls Hfuel Hne; cbn [length] in Hfuel; try lia; [done|].
  apply Forall_cons in Hls as [Hl Hls]. cbn [find_field_loop lines_from]. rewrite art_text_cons.
  destruct (match_field_spec f l (LF :: art_text ls body) Hf) as [[-> E]|(-> & c & p & l1 & l2 & -> & E)].
  - destruct (match_field _ _) as [p q]. cbn in E. subst p. by rewrite art_text_cons.
  - rewrite E. destruct Hl as [_ Hl]. apply Forall_app in Hl as [_ Hl2].
    destruct (skip_eol l2 (LF :: art_text ls body) Hl2) as [-> _].
    assert (at_ (LF :: art_text ls body) 0 = LF) as -> by done.
    rewrite !bool_decide_eq_true_2 by done. cbn [andb]. unfold bind, ret.
    change (drop 1 (LF :: art_text ls body)) with (art_text ls body).
    destruct ls as [|l' ls]; [done|]. pose proof Hls as Hls'. apply Forall_cons in Hls' as [Hl' _].
    assert (eol (at_ (art_text (l' :: ls) body) 0) = false) as ->.
    { rewrite art_text_cons. by apply header_line_head. }
    apply IH; [done|lia|done].
Qed.

Lemma find_field_spec f ls body n s : field_name f -> Forall header_line ls -> ls <> [] ->
  find_field f (MkArticle n (art_text ls body)) s = Ret (art_text (lines_from f ls) (cstr body)) s.
Proof.
  intros Hf Hls Hne. unfold find_field, hdrbuf. cbn [a_text]. destruct Hf as (? & Hl & ?).
  destruct (Nat.ltb_spec (length f) 512); [|lia]. rewrite cstr_art_text by done.
  apply find_field_loop_spec; [done|done| |done].
  unfold art_text. rewrite length_app. clear. induction ls as [|l ls IH]; [cbn; lia|].
  rewrite lines_text_cons, length_app. cbn [length] in *. lia.
Qed.

Lemma next_line_spec ls body s : next_line (CR :: LF :: art_text ls body) s = Ret (art_text ls body) s.
Proof.
  unfold next_line, bind. cbn -[art_text]. by destruct ls as [|[|c l] ls].
Qed.

Lemma blank_head c : blank c = true -> eol c = false.
Proof.
  unfold blank, eol. rewrite orb_true_iff, !bool_decide_eq_true. by intros [-> | ->].
Qed.

Lemma skip_blank l r : Forall (fun c => not_eol c = true /\ c <> NUL) l ->
  skip_while blank (l ++ CR :: r) = skip_while blank l ++ CR :: r /\
  Forall (fun c => not_eol c = true /\ c <> NUL) (skip_while blank l).
Proof.
  induction 1 as [|c l Hc Hl [IH1 IH2]]; [by split|]. cbn. destruct (blank c); [by split|]. split; [done|].
  by apply Forall_cons_2.
Qed.

Lemma getfield_multi_spec body : forall ls fuel rfld s, Forall header_line ls -> (length ls < fuel)%nat ->
  getfield_multi fuel rfld (art_text ls body) s = Ret (rfld ++ continued ls) s.
Proof.
  induction ls as [|l ls IH]; intros [|fuel] rfld s Hls Hf; cbn [length] in Hf; try lia; cbn [getfield_multi continued].
  - change (blank (at_ (art_text [] body) 0)) with false. unfold ret. by rewrite app_nil_r.
  - apply Forall_cons in Hls as [[Hne Hl] Hls]. rewrite art_text_cons.
    assert (at_ (l ++ CR :: LF :: art_text ls body) 0 = at_ l 0) as -> by (by destruct l).
    destruct (blank (at_ l 0)); [|unfold ret; by rewrite app_nil_r].
    destruct (skip_blank l (LF :: art_text ls body) Hl) as [-> Hb].
    destruct (skip_eol _ (LF :: art_text ls body) Hb) as [-> ->].
    unfold bind. rewrite next_line_spec, IH by (done || lia). by rewrite <- app_assoc.
Qed.

(** Getfield gives the value of the first header line of that name, with its
    continuation lines appended, and raises NoSuchFieldError when there is none;
    has_field answers which. *)
Theorem getfield_spec f Full ls body n s :
  field_name f -> strcaseeq f (bs "bytes:") = false -> Forall header_line ls -> ls <> [] ->
  getfield f Full (MkArticle n (art_text ls body)) s =
    match field_value f Full ls with Some v => Ret v s | None => Throw (NoSuchFieldError f) s end /\
  has_field f (MkArticle n (art_text ls body)) s =
    Ret (bool_decide (is_Some (field_value f Full ls))) s.
Proof.
  intros Hf Hb Hls Hne. unfold getfield, has_field. rewrite Hb. unfold bind.
  rewrite find_field_spec by done. unfold field_value.
  assert (Forall header_line (lines_from f ls)) as Hfrom.
  { clear Hne. induction Hls as [|l ls Hl Hls IH]; [done|]. cbn. destruct (is_field f l); [by apply Forall_cons_2|done]. }
  assert (match lines_from f ls with l :: _ => is_field f l = true | [] => True end) as Hfst.
  { clear. induction ls as [|l ls IH]; [done|]. cbn. destruct (is_field f l) eqn:E; [done|exact IH]. }
  destruct (lines_from f ls) as [|l r].
  - change (eol (at_ (art_text [] (cstr body)) 0)) with true. by rewrite orb_true_r, bool_decide_eq_false_2 by (by intros [? ?]).
  - apply Forall_cons in Hfrom as [Hl Hr]. rewrite art_text_cons.
    destruct (header_line_head l (CR :: LF :: art_text r (cstr body)) Hl) as [-> Hn].
    rewrite bool_decide_eq_false_2 by done. split; [|by rewrite bool_decide_eq_true_2].
    destruct Hl as [Hl0 Hl].
    assert (length f <= length l)%nat as Hlen.
    { unfold is_field in Hfst. apply bool_decide_eq_true, (f_equal length) in Hfst.
      unfold lower in Hfst. rewrite !length_fmap, length_take in Hfst. lia. }
    rewrite drop_app_le by done. assert (Forall (fun c => not_eol c = true /\ c <> NUL) (drop (length f) l)) as Hd
      by (by apply Forall_drop).
    destruct (skip_blank _ (LF :: art_text r (cstr body)) Hd) as [-> Hsb].
    destruct (skip_eol _ (LF :: art_text r (cstr body)) Hsb) as [-> _].
    rewrite next_line_spec, getfield_multi_spec.
    + do 2 f_equal. destruct Full.
      * rewrite length_app. rewrite Nat.add_sub. by rewrite take_app_length.
      * rewrite length_app. rewrite Nat.add_sub. by rewrite take_app_length.
    + done.
    + unfold art_text. rewrite length_app. clear. induction r as [|x r IH]; [cbn; lia|].
      rewrite lines_text_cons, length_app. cbn [length] in *. lia.
Qed.
End spec.

(** A check of the characters of a line. *)
Lemma plain_chars l : forallb (fun c => not_eol c && negb (bool_decide (c = NUL))) l = true ->
  Forall (fun c => not_eol c = true /\ c <> NUL) l.
Proof.
  induction l as [|c l IH]; cbn; [constructor|]. rewrite !andb_true_iff, negb_true_iff, bool_decide_eq_false.
  intros [[? ?] ?]. apply Forall_cons_2; auto.
Qed.
Lemma plain_header_line l : l <> [] -> forallb (fun c => not_eol c && negb (bool_decide (c = NUL))) l = true ->
  header_line l.
Proof. intros ? ?. split; [done|by apply plain_chars]. Qed.

Lemma getfield_spec_witness :
  getfield (bs "Subject:") false (MkArticle 1 (bs "From: a" ++ CR :: LF :: bs "subject: x" ++ CR :: LF :: bs " y" ++
    CR :: LF :: CR :: LF :: bs "body")) tt = Ret (bs "xy") tt /\
  has_field (bs "Subject:") (MkArticle 1 (bs "From: a" ++ CR :: LF :: bs "subject: x" ++ CR :: LF :: bs " y" ++
    CR :: LF :: CR :: LF :: bs "body")) tt = Ret true tt.
Proof.
  apply (getfield_spec (bs "Subject:") false [bs "From: a"; bs "subject: x"; bs " y"] (bs "body") 1 tt).
  - split_and!; [done|cbn; lia|by apply plain_chars].
  - reflexivity.
  - repeat (apply Forall_cons_2; [by apply plain_header_line|]). by apply Forall_nil_2.
  - done.
Defined.

(** ** setfield and write *)
Lemma lines_from_none f ls : field_value f false ls = None -> lines_from f ls = [].
Proof. unfold field_value. by destruct (lines_from f ls). Qed.

(** A field that is not there is inserted behind the last header line, the other
    fields stay. *)
Theorem setfield_missing {S} f l ls body n (s : S) :
  field_name f -> Forall header_line ls -> ls <> [] -> header_line l -> field_value f false ls = None ->
  NUL ∉ body ->
  setfield f (l ++ [CR; LF]) (MkArticle n (art_text ls body)) s =
    Ret (MkArticle n (art_text (ls ++ [l]) body)) s.
Proof.
  intros Hf Hls Hne Hl Hnone Hb. unfold setfield, bind. rewrite find_field_spec by done.
  rewrite (lines_from_none _ _ Hnone). change (eol (at_ (art_text [] (cstr body)) 0)) with true.
  cbn [a_text]. rewrite cstr_art_text by done.
  assert (forall b, length (art_text ls b) - length (art_text [] b) = length (lines_text ls))%nat as E.
  { intros b. unfold art_text. rewrite !length_app. cbn. lia. }
  rewrite E. unfold ret, a_settext, art_text. cbn [a_nbr a_text]. rewrite take_app_length, drop_app_length.
  do 2 f_equal. unfold lines_text. rewrite fmap_app, concat_app. cbn. by rewrite app_nil_r, <- !app_assoc.
Qed.

(** An empty field makes setfield replace the line behind it, too. *)
Example setfield_empty :
  setfield (bs "Subject:") (bs "Subject: x" ++ [CR; LF])
    (MkArticle 1 (art_text [bs "Subject:"; bs "From: a"] (bs "b"))) tt =
  Ret (MkArticle 1 (art_text [bs "Subject: x"] (bs "b"))) tt.
Proof. vm_compute. reflexivity. Qed.

(** Head and body of an article with CRLF are what is in front of and behind the
    empty line. *)
Example write_crlf :
  a_write Head (MkArticle 1 (art_text [bs "Subject: x"; bs "From: a"] (bs "b"))) = lines_text [bs "Subject: x"; bs "From: a"] /\
  a_write Body (MkArticle 1 (art_text [bs "Subject: x"; bs "From: a"] (bs "b"))) = bs "b".
Proof. split; vm_compute; reflexivity. Qed.

(** With LF the body starts with the empty line and ends with a NUL. *)
Example write_lf :
  a_write Body (MkArticle 1 (bs "Subject: x" ++ [LF; LF] ++ bs "b")) = LF :: bs "b" ++ [NUL].
Proof. vm_compute. reflexivity. Qed.
