(* ===== verification/OverviewFmt.v ===== *)
(** * OverviewFmt.v: the format of overview records

    NServer-0.9.1/OverviewFmt.{h,cc}: the fields of the local records, and how the
    records of a news server with another format are converted. *)
From S2P Require Import Prelude Memory Text Article.

(** CONF_OverviewFmt: name and whether the record holds the full header. *)
Definition over_desc : Type := bytes * bool.
Definition CONF_OverviewFmt : list over_desc :=
  [(bs "Subject:", false); (bs "From:", false); (bs "Date:", false); (bs "Message-ID:", false);
   (bs "References:", false); (bs "Bytes:", false); (bs "Lines:", false); (bs "Xref:", true)].

(** [f_trans]: for each local field its position in the incoming records, -1 when
    there is none, and whether they hold the full header. *)
Record OverviewFmt := Fmt { f_over : list over_desc; f_trans : list (Z * bool); dotrans : bool }.

Definition new_fmt (junk : list (Z * bool)) : OverviewFmt := Fmt CONF_OverviewFmt junk false.

(** The line number [fn] of the format names the local field [o]. *)
Definition match_over (field : bytes) (fn : Z) (o : over_desc) (t : Z * bool) : Z * bool :=
  let '(name, _) := o in
  if (length name <=? length field)%nat && strncaseeq field name (length name) then
    (fn, (length field =? length name + 4)%nat && strncaseeq (bs "full") (drop (length name) field) 4)
  else t.

(** The loop over the lines of [is]. *)
Fixpoint readxoin_loop (n : nat) (over : list over_desc) (ist : istream) (field : bytes) (fn : Z)
    (trans : list (Z * bool)) : option (Z * list (Z * bool) * istream) :=
  match n with
  | O => None
  | S n =>
      let '(field, ist) := nlreadline ist field false in
      if bool_decide (field = bs ".") || s_eof ist then Some (fn, trans, ist)
      else readxoin_loop n over ist field (fn + 1) (zip_with (match_over field fn) over trans)
  end.

Definition needs_trans (over : list over_desc) (trans : list (Z * bool)) (fn : Z) : bool :=
  negb (Z.of_nat (length over) =? fn) ||
  negb (forallb id (imap (fun i ot => let '((_, full), (t, f)) := ot in (t =? Z.of_nat i) && eqb f full)
                      (zip over trans))).

(** readxoin, on a stream that is still good or at its end. *)
Definition readxoin (ist : istream) (f : OverviewFmt) : option (OverviewFmt * istream) :=
  '(fn, trans, ist) ← readxoin_loop (S (S (length (s_rest ist)))) (f_over f) ist [] 0
                        ((fun t => (-1, snd t)) <$> f_trans f);
  Some (Fmt (f_over f) trans (needs_trans (f_over f) trans fn), ist).

(** [i] tabs further on. *)
Fixpoint skip_tabs (j : nat) (p : bytes) : bytes :=
  match j, p with
  | S j', c :: r => if bool_decide (c = TAB) then skip_tabs j' r else skip_tabs j r
  | _, _ => p
  end.
Definition no_tab (c : ascii) : bool := negb (bool_decide (c = TAB)).

Definition full_num (b : bool) : Z := if b then 1 else 0.

(** getfield of a record; full -1: as it is, 0: without, 1: with the name.  The
    result is [None] when the stripped field would start behind its end. *)
Fixpoint over_getfield_loop {S} (i : nat) (over : list over_desc) (rec fld : bytes) (full : Z) : M S bytes :=
  match over with
  | [] => raise (NoSuchFieldError fld)
  | (name, ofull) :: rest =>
      if strcaseeq fld name then
        let p := skip_tabs (Datatypes.S i) rec in
        let q := skip_while no_tab p in
        if (full =? -1) || (full =? full_num ofull) then ret (take_while no_tab p)
        else if full <? full_num ofull then
          let p := skip_while (fun c => negb (bool_decide (c = ":"%char))) p in
          let p := skip_while isspace p in
          if (length p <? length q)%nat then abort "field without a name"
          else ret (take (length p - length q) p)
        else ret (name ++ bs " " ++ take_while no_tab p)
      else over_getfield_loop (Datatypes.S i) rest rec fld full
  end.
Definition over_getfield {S} (f : OverviewFmt) (over fld : bytes) (full : Z) : M S bytes :=
  over_getfield_loop 0 (f_over f) over fld full.

(** The fields between the tabs of a record. *)
Fixpoint tab_split (s : bytes) : list bytes :=
  match s with
  | [] => [[]]
  | c :: r =>
      if bool_decide (c = TAB) then [] :: tab_split r
      else match tab_split r with x :: l => (c :: x) :: l | [] => [[c]] end
  end.

(** What convert appends for one field: [rin] are the fields of the incoming
    record behind its number. *)
Definition conv_piece (rin : list bytes) (o : over_desc) (t : Z * bool) : bytes :=
  let '(name, full) := o in
  let '(j, tfull) := t in
  if Z.of_nat (length rin) <=? j then [TAB]
  else if 0 <=? j then
    let x := default [] (rin !! Z.to_nat j) in
    if eqb tfull full then TAB :: x
    else if tfull then
      match skip_while (fun c => negb (bool_decide (c = ":"%char))) x with
      | [] => TAB :: x
      | k => TAB :: skip_while isspace k
      end
    else TAB :: name ++ bs " " ++ x
  else [TAB].

(** convert of a record; the positions of its tabs are kept in 256 cells. *)
Definition convert {S} (f : OverviewFmt) (recin : bytes) : M S bytes :=
  if negb (dotrans f) then ret recin else
  let fields := tab_split recin in
  if (256 <? length fields)%nat then abort "more than 255 tabs" else
  ret (concat (default [] (head fields) :: zip_with (conv_piece (tail fields)) (f_over f) (f_trans f))).

(** convert of an article. *)
Fixpoint convert_fields {S} (over : list over_desc) (a : Article) : M S bytes :=
  match over with
  | [] => ret []
  | (name, full) :: rest =>
      x <- catch (getfield name full a) (fun e =>
             match e with
             | NoSuchFieldError _ =>
                 ret (if strcaseeq name (bs "bytes:") then dec (s32 (a_length a)) else [])
             | e => raise e
             end) ;;
      r <- convert_fields rest a ;;
      ret (TAB :: x ++ r)
  end.
Definition convert_article {S} (f : OverviewFmt) (a : Article) : M S bytes :=
  r <- convert_fields (f_over f) a ;; ret (dec (a_nbr a) ++ r).

(** operator<< *)
Definition print_fmt (f : OverviewFmt) : bytes :=
  concat ((fun '(name, full) => name ++ (if full : bool then bs "full" else []) ++ [CR; LF]) <$> f_over f).

(** ** Converting a record *)
Lemma tab_split_nonempty s : tab_split s <> [].
Proof. destruct s as [|c s]; cbn; [done|]. case_bool_decide; [done|]. by destruct (tab_split s). Qed.

Lemma tab_split_app s r : TAB ∉ s -> tab_split (s ++ TAB :: r) = s :: tab_split r.
Proof.
  induction s as [|c s IH]; intros Hs; cbn [app tab_split].
  - by rewrite bool_decide_eq_true_2.
  - apply not_elem_of_cons in Hs as [Hc Hs]. rewrite bool_decide_eq_false_2 by done. by rewrite IH.
Qed.

Lemma tab_split_plain s : TAB ∉ s -> tab_split s = [s].
Proof.
  induction s as [|c s IH]; intros Hs; cbn [tab_split]; [done|].
  apply not_elem_of_cons in Hs as [Hc Hs]. rewrite bool_decide_eq_false_2 by done. by rewrite IH.
Qed.

Lemma tab_split_no_tab s : Forall (fun x => TAB ∉ x) (tab_split s).
Proof.
  induction s as [|c s IH]; cbn [tab_split]; [repeat constructor; apply not_elem_of_nil|].
  case_bool_decide as E; [constructor; [apply not_elem_of_nil|done]|].
  destruct (tab_split s) as [|x l]; [by repeat constructor; apply not_elem_of_cons; split; [|apply not_elem_of_nil]|].
  apply Forall_cons in IH as [Hx IH]. constructor; [|done]. by apply not_elem_of_cons.
Qed.

(** Joining fields with tabs, and splitting what was joined. *)
Definition tab_join (fs : list bytes) : bytes := concat ((cons TAB) <$> fs).

Lemma tab_split_join x fs : TAB ∉ x -> Forall (fun y => TAB ∉ y) fs -> tab_split (x ++ tab_join fs) = x :: fs.
Proof.
  intros Hx Hfs. revert x Hx. induction Hfs as [|y fs Hy Hfs IH]; intros x Hx.
  - rewrite app_nil_r. by apply tab_split_plain.
  - unfold tab_join. cbn. rewrite tab_split_app by done. f_equal. apply IH, Hy.
Qed.

(** The content of a field in the record convert makes. *)
Definition conv_value (rin : list bytes) (o : over_desc) (t : Z * bool) : bytes := drop 1 (conv_piece rin o t).

Lemma conv_piece_tab rin o t : Forall (fun x => TAB ∉ x) rin -> TAB ∉ fst o ->
  conv_piece rin o t = TAB :: conv_value rin o t /\ (TAB ∉ conv_value rin o t).
Proof.
  intros Hr Ho. unfold conv_value, conv_piece. destruct o as [name full], t as [j tfull]. cbn [fst] in Ho.
  pose proof (not_elem_of_nil TAB) as Hnil.
  destruct (Z.of_nat (length rin) <=? j); [by split|]. destruct (0 <=? j); [|by split].
  assert (TAB ∉ default [] (rin !! Z.to_nat j)) as Hx.
  { destruct (rin !! Z.to_nat j) as [x|] eqn:E; [|done]. cbn. rewrite Forall_forall in Hr.
    apply Hr. by eapply list_elem_of_lookup_2. }
  assert (forall p s, TAB ∉ s -> TAB ∉ skip_while p s) as Hskip.
  { intros p s Hs Hin. apply Hs. destruct (skip_while_suffix p s) as [q E]. rewrite E. apply elem_of_app. by right. }
  destruct (eqb tfull full); [by split|]. destruct tfull.
  - destruct (skip_while _ _) as [|k ks] eqn:Ek; [by split|]. split; [done|].
    change (drop 1 (TAB :: ?l)) with l. apply Hskip. rewrite <- Ek. by apply Hskip.
  - split; [done|]. assert (TAB ∉ bs " ") by notin. change (drop 1 (TAB :: ?l)) with l.
    rewrite !elem_of_app. by intros [?|[?|?]].
Qed.

(** A converted record has the number of the incoming one and exactly the
    local fields, in the local order; each is the incoming field the format names,
    with the header name added or stripped, and empty when there is none. *)
Theorem convert_fields_spec {X} f rec (s : X) :
  dotrans f = true -> length (f_trans f) = length (f_over f) -> (length (tab_split rec) <= 256)%nat ->
  Forall (fun o => TAB ∉ fst o) (f_over f) ->
  wp (convert f rec) (fun out s' => s' = s /\
    tab_split out = default [] (head (tab_split rec)) ::
      zip_with (conv_value (tail (tab_split rec))) (f_over f) (f_trans f) /\
    length (tab_split out) = S (length (f_over f))) s.
Proof.
  intros Hd Hlen Htab Hnames. unfold convert. rewrite Hd. cbn [negb].
  destruct (Nat.ltb_spec 256 (length (tab_split rec))); [lia|]. apply wp_ret. split; [done|].
  pose proof (tab_split_no_tab rec) as Hno. destruct (tab_split rec) as [|x rin] eqn:E; [by destruct (tab_split_nonempty rec)|].
  apply Forall_cons in Hno as [Hx Hrin]. cbn [head tail default concat].
  assert (forall over trans, Forall (fun o => TAB ∉ fst o) over ->
    concat (zip_with (conv_piece rin) over trans) = tab_join (zip_with (conv_value rin) over trans) /\
    Forall (fun y => TAB ∉ y) (zip_with (conv_value rin) over trans)) as Hzip.
  { intros over. induction over as [|o over IH]; intros [|t trans] Ho; try by split.
    apply Forall_cons in Ho as [Ho Hover]. destruct (conv_piece_tab rin o t Hrin Ho) as [Ep Hp].
    destruct (IH trans Hover) as [E1 H1]. unfold tab_join in *. cbn. rewrite E1, Ep. split; [done|by constructor]. }
  destruct (Hzip (f_over f) (f_trans f) Hnames) as [-> Hz].
  unfold id. rewrite (tab_split_join x _ Hx Hz). split; [done|]. cbn [length]. by rewrite length_zip_with, Hlen, Nat.min_id.
Qed.

(** The local format, printed and read, needs no conversion. *)
Lemma readxoin_print junk rest : length junk = 8%nat ->
  exists trans, readxoin (IStream (print_fmt (new_fmt junk) ++ bs "." ++ CR :: LF :: rest) false false) (new_fmt junk) =
    Some (Fmt CONF_OverviewFmt trans false, IStream rest false false).
Proof.
  intros H. do 8 (destruct junk as [|? junk]; [done|]). destruct junk; [|done]. eexists. vm_compute. reflexivity.
Qed.

(** A stripped field keeps its colon. *)
Example strip_keeps_colon :
  convert (S := unit) (Fmt [(bs "Subject:", false)] [(0, true)] true) (bs "1" ++ TAB :: bs "Subject: x") tt =
    Ret (bs "1" ++ TAB :: bs ": x") tt.
Proof. vm_compute. reflexivity. Qed.

Lemma convert_fields_spec_witness :
  wp (convert (Fmt [(bs "Subject:", false); (bs "Xref:", true)] [(1, false); (0, false)] true)
       (bs "7" ++ TAB :: bs "a" ++ TAB :: bs "b"))
    (fun out _ => tab_split out = [bs "7"; bs "b"; bs "Xref: a"]) tt.
Proof.
  eapply wp_mono; [apply convert_fields_spec; [reflexivity|reflexivity|vm_compute; lia|]|].
  - apply Forall_cons_2; [notin|]. apply Forall_cons_2; [notin|]. by apply Forall_nil_2.
  - intros out s' (_ & -> & _). vm_compute. reflexivity.
Defined.
