(* ===== verification/Container.v ===== *)
(** * Container.v: NVcontainer, the memory-mapped database file

    Translation of NVClasses-0.9.1/NVcontainer.{h,cc}, with assertions enabled,
    debug output disabled and fcntl locks (the default build).  Pointers into
    the mapping are offsets from [mem_p]; offset 0 is the null pointer of
    [o2fl].  A dereference outside the mapping is [Abort].

    [make_current] is virtual: the classes NVHash and NVArray override it, and
    [lock] and [resize] call the override.  The class [VTable] stands for the
    virtual table, [Os] for the system calls. *)
From S2P Require Import Prelude Memory.

(** ** Constants and layout of the structs Header and FreeList (LP64) *)
Definition LOCKSTACKSIZE : nat := 16.
Definition sizeof_ulong : Z := 8.
Definition sizeof_Header : Z := 48.
Definition sizeof_FreeList : Z := 16.
Definition h_hlen : Z := 0.
Definition h_version : Z := 4.
Definition h_size : Z := 8.
Definition h_mtime : Z := 16.
Definition h_freelist : Z := 24.
Definition h_bytes_free : Z := 32.
Definition h_userdata : Z := 40.

Inductive lockcmd := UnLock | ShrdLock | ExclLock.
Inductive blockmode := Block | NoBlock.

#[export] Instance lockcmd_eq_dec : EqDecision lockcmd.
Proof. solve_decision. Defined.
#[export] Instance blockmode_eq_dec : EqDecision blockmode.
Proof. solve_decision. Defined.

(** ** State *)
Record file := File { f_data : mem; f_size : Z }.

(** [mem_p]: null, a live mapping of [mem_sz] bytes, or a pointer to a mapping
    that has been removed. *)
Inductive mapping := NullMap | Mapped | Unmapped.

#[export] Instance mapping_eq_dec : EqDecision mapping.
Proof. solve_decision. Defined.

(** The data members of NVcontainer, the file behind [mem_fd] ([cur], linked
    under [cur_name]), the other files of the directory and the record lock the
    kernel grants this process. *)
Record container := Container {
  lck_stack : list lockcmd;
  lck_stackp : nat;
  mem_fn : string;
  mem_fd : bool;
  mem_p : mapping;
  mem_sz : Z;
  cur : file;
  cur_name : option string;
  files : gmap string file;
  held : lockcmd
}.

(** An object: the NVcontainer part and the members of the derived class. *)
Record obj (X : Type) := Obj { core : container; ext : X }.
Arguments Obj {X} core ext.
Arguments core {X} _.
Arguments ext {X} _.

Definition set_stack (l : list lockcmd) (p : nat) (c : container) : container :=
  Container l p (mem_fn c) (mem_fd c) (mem_p c) (mem_sz c) (cur c) (cur_name c) (files c) (held c).
Definition set_held (h : lockcmd) (c : container) : container :=
  Container (lck_stack c) (lck_stackp c) (mem_fn c) (mem_fd c) (mem_p c) (mem_sz c) (cur c)
    (cur_name c) (files c) h.
Definition set_map (p : mapping) (sz : Z) (c : container) : container :=
  Container (lck_stack c) (lck_stackp c) (mem_fn c) (mem_fd c) p sz (cur c) (cur_name c)
    (files c) (held c).
Definition set_cur (f : file) (c : container) : container :=
  Container (lck_stack c) (lck_stackp c) (mem_fn c) (mem_fd c) (mem_p c) (mem_sz c) f
    (cur_name c) (files c) (held c).
Definition set_data (m : mem) (c : container) : container :=
  set_cur (File m (f_size (cur c))) c.
Definition set_name (n : option string) (fs : gmap string file) (c : container) : container :=
  Container (lck_stack c) (lck_stackp c) (mem_fn c) (mem_fd c) (mem_p c) (mem_sz c) (cur c)
    n fs (held c).
Definition set_fd (fn : string) (fd : bool) (c : container) : container :=
  Container (lck_stack c) (lck_stackp c) fn fd (mem_p c) (mem_sz c) (cur c) (cur_name c)
    (files c) (held c).

Definition data (c : container) : mem := f_data (cur c).
Definition hdr (c : container) (fld : Z) : Z := ld64 (data c) fld.

(** NVcontainer::NVcontainer() *)
Definition new_container (fs : gmap string file) : container :=
  Container (replicate LOCKSTACKSIZE UnLock) LOCKSTACKSIZE "" false NullMap 0
    (File ∅ 0) None fs UnLock.

(** ** System calls: [None] is success, [Some errno] failure *)
Class Os := {
  os_lock : blockmode -> lockcmd -> option Z;
  os_ftruncate : Z -> option Z;
  os_fstat : option Z;
  os_mmap : Z -> option Z;
  os_open : string -> option Z;
  os_write : Z -> option Z;
  os_rename : string -> string -> option Z;
  os_time : Z
}.
Definition EAGAIN : Z := 11.
Definition EWOULDBLOCK : Z := 11.
Definition EACCES : Z := 13.

(** A platform on which every call succeeds. *)
Definition good_os : Os :=
  Build_Os (fun _ _ => None) (fun _ => None) None (fun _ => None) (fun _ => None)
    (fun _ => None) (fun _ _ => None) 1000000000.

(** The documented behaviour the total-correctness theorems rely on: waiting
    locks are granted, and the other calls succeed. *)
Class OsOk (o : Os) : Prop := {
  ok_lock : forall l, os_lock Block l = None;
  ok_ftruncate : forall n, os_ftruncate n = None;
  ok_fstat : os_fstat = None;
  ok_mmap : forall n, os_mmap n = None
}.

#[export] Instance good_os_ok : OsOk good_os.
Proof. by split. Qed.

Section with_os.
Context {os : Os} {X : Type}.
Abbreviation MC := (M (obj X)).

(** *** Access to the mapping *)
Definition getc {A} (f : container -> A) : MC A := gets (fun s => f (core s)).
Definition modc (f : container -> container) : MC unit :=
  modify (fun s => Obj (f (core s)) (ext s)).

Definition in_map (c : container) (a n : Z) : bool :=
  bool_decide (mem_p c = Mapped) && (0 <=? a) && (a + n <=? mem_sz c).

Definition guard (b : bool) (why : string) : MC unit :=
  if b then ret tt else abort why.

Definition ldw (a : Z) : MC Z :=
  c <- getc id ;; guard (in_map c a 8) "read outside the mapping" ;;; ret (ld64 (data c) a).
Definition stw (a v : Z) : MC unit :=
  c <- getc id ;; guard (in_map c a 8) "write outside the mapping" ;;;
  modc (set_data (st64 (data c) a v)).
Definition ldmem (a n : Z) : MC bytes :=
  c <- getc id ;; guard (in_map c a n) "read outside the mapping" ;;;
  ret (ldn (data c) a (Z.to_nat n)).
Definition stmem (a : Z) (l : bytes) : MC unit :=
  c <- getc id ;; guard (in_map c a (Z.of_nat (length l))) "write outside the mapping" ;;;
  modc (set_data (stn (data c) a l)).

(** A dereference of a FreeList or Record pointer, the result of [o2fl]. *)
Definition deref (o : Z) : MC unit := guard (negb (o =? 0)) "null pointer".
Definition fl_next (o : Z) : MC Z := deref o ;;; ldw o.
Definition fl_size (o : Z) : MC Z := deref o ;;; ldw (o + 8).
Definition set_fl_next (o v : Z) : MC unit := deref o ;;; stw o v.
Definition set_fl_size (o v : Z) : MC unit := deref o ;;; stw (o + 8) v.

(** *** nvflock, with fcntl: the old lock is dropped before the new one is
    requested.  The result is [None] for 0 and [Some errno] for -1. *)
Definition nvflock (cmnd : lockcmd) (block : blockmode) : MC (option Z) :=
  r <- (if decide (cmnd = UnLock) then ret None
        else match os_lock block UnLock with
             | Some e => ret (Some e)
             | None => modc (set_held UnLock) ;;; ret None
             end) ;;
  match r with
  | Some e => ret (Some e)
  | None =>
      match os_lock block cmnd with
      | Some e => ret (Some (if (e =? EACCES) || (e =? EAGAIN) then EWOULDBLOCK else e))
      | None => modc (set_held cmnd) ;;; ret None
      end
  end.

(** *** getdata, getdatap, setdata *)
Definition getdata : MC Z := ldw h_userdata.
Definition getdatap : MC Z := ret h_userdata.
Definition setdata (d : Z) : MC unit := stw h_userdata d.

(** *** close and rename_to_bad_and_close *)
Definition flush_cur (c : container) : gmap string file :=
  match cur_name c with Some n => <[n := cur c]> (files c) | None => files c end.

Definition close : MC unit :=
  fd <- getc mem_fd ;;
  if negb fd then ret tt else
  modc (fun c => set_held UnLock (set_name None (flush_cur c) c)) ;;;
  modc (fun c => set_stack (lck_stack c) LOCKSTACKSIZE c) ;;;
  modc (fun c => set_map NullMap (mem_sz c) (set_fd "" false c)).

Definition rename_file (old new : string) (c : container) : container :=
  if decide (cur_name c = Some old) then set_name (Some new) (delete new (files c)) c
  else match files c !! old with
       | Some f => set_name (cur_name c) (<[new := f]> (delete old (files c))) c
       | None => c
       end.

Definition rename_to_bad_and_close : MC unit :=
  fn <- getc mem_fn ;;
  (match os_rename fn (fn ++ ".bad") with
   | None => modc (rename_file fn (fn ++ ".bad"))
   | Some _ => ret tt
   end) ;;;
  close.

(** *** make_current *)
Definition is_current : MC bool :=
  sz <- getc mem_sz ;; h <- ldw h_size ;; ret (sz =? h).

Definition base_make_current : MC unit :=
  p <- getc mem_p ;;
  cur_ok <- (if decide (p = NullMap) then ret false
             else b <- is_current ;;
                  (if (b : bool) then ret true
                   else modc (fun c => set_map Unmapped (mem_sz c) c) ;;; ret false)) ;;
  if (cur_ok : bool) then ret tt else
  match os_fstat with
  | Some e => raise (SystemError "fstat failed" e)
  | None =>
    c <- getc id ;;
    if f_size (cur c) <=? sizeof_Header + sizeof_FreeList
    then raise (Error "info-record shrunk") else
    match os_mmap (f_size (cur c)) with
    | Some e => modc (fun c => set_map NullMap (f_size (cur c)) c) ;;;
                raise (SystemError "mmap failed" e)
    | None =>
      modc (fun c => set_map Mapped (f_size (cur c)) c) ;;;
      if negb (ld32 (data c) h_hlen =? sizeof_Header)
      then rename_to_bad_and_close ;;; raise (Error "wrong header size")
      else if negb (ld32 (data c) h_version =? 2)
      then rename_to_bad_and_close ;;; raise (Error "wrong header version")
      else ret tt
    end
  end.

End with_os.

(** ** The virtual table *)
Class VTable {os : Os} (X : Type) := {
  make_current : M (obj X) unit
}.

(** Classes that do not override make_current (NVList). *)
#[export] Instance base_vtable {os : Os} : VTable unit := {| make_current := base_make_current |}.

Section with_vtable.
Context {os : Os} {X : Type} {vt : VTable X}.
Abbreviation MC := (M (obj X)).

(** *** lock and get_lock *)
Definition top_lock (c : container) : lockcmd :=
  if decide (lck_stackp c < LOCKSTACKSIZE)%nat
  then nth (lck_stackp c) (lck_stack c) UnLock else UnLock.

Definition get_lock : MC lockcmd := getc top_lock.

Definition lock (command : lockcmd) (block : blockmode) : MC Z :=
  curLock <- getc top_lock ;;
  sp <- getc lck_stackp ;;
  command <-
    (if decide (command = UnLock) then
       if decide (LOCKSTACKSIZE <= sp)%nat then raise (Error "Lock Stack underflow")
       else modc (fun c => set_stack (lck_stack c) (lck_stackp c + 1) c) ;;; getc top_lock
     else
       if decide (sp = 0)%nat then raise (Error "Lock Stack overflow")
       else
         let command := if decide (curLock = ExclLock) then ExclLock else command in
         modc (fun c => set_stack (<[lck_stackp c - 1 := command]> (lck_stack c))%nat
                          (lck_stackp c - 1) c) ;;;
         ret command) ;;
  if decide (curLock = command) then ret 0 else
  res <- nvflock command block ;;
  match res with
  | Some e =>
      if (e =? EWOULDBLOCK) && bool_decide (block = NoBlock)
      then modc (fun c => set_stack (lck_stack c) (lck_stackp c + 1) c) ;;; ret (-1)
      else raise (SystemError "flock failed" e)
  | None => (if decide (command = UnLock) then ret tt else make_current) ;;; ret 0
  end.

Definition lock_ (command : lockcmd) : MC unit := lock command Block ;;; ret tt.

(** *** resize *)
Definition page_round (n : Z) : Z := Z.land (w64 (n + 65536)) (w64 (Z.lnot 65535)).

Definition resize (nsz : Z) : MC Z :=
  sz <- getc mem_sz ;;
  if nsz <? sz then ret sz else
  lock_ ExclLock ;;;
  flhead <- ldw h_freelist ;;
  let nsz := page_round nsz in
  match os_ftruncate nsz with
  | Some e => raise (SystemError "ftruncate failed" e)
  | None =>
    modc (fun c => set_cur (File (data c) nsz) c) ;;;
    bf <- ldw h_bytes_free ;; sz <- getc mem_sz ;;
    stw h_bytes_free (w64 (bf + (nsz - sz))) ;;;
    fs <- fl_size flhead ;;
    set_fl_size flhead (w64 (fs + (nsz - sz))) ;;;
    stw h_size nsz ;;;
    make_current ;;;
    lock_ UnLock ;;;
    getc mem_sz
  end.

(** *** nvalloc *)

(** The first-fit loop
    [while (cur->size < rsz && cur != flhead) { prv = cur; cur = cur->next; }] *)
Fixpoint fl_search (fuel : nat) (rsz flhead prv cur : Z) : MC (Z * Z) :=
  match fuel with
  | O => spin
  | S fuel' =>
      sz <- fl_size cur ;;
      if (sz <? rsz) && negb (cur =? flhead)
      then nxt <- fl_next cur ;; fl_search fuel' rsz flhead cur nxt
      else ret (prv, cur)
  end.

(** The free list has fewer nodes than the mapping has 16-byte units. *)
Definition fl_fuel : MC nat := getc (fun c => S (Z.to_nat (mem_sz c / 16))).

Definition alloc_round (rsz : Z) : Z :=
  Z.land (w64 (w64 (rsz + sizeof_ulong) + 15)) (w64 (Z.lnot 15)).

(** The resize of the last free block when the search ends there; the result is
    [(prv, cur, flhead)]. *)
Definition nvalloc_extend (rsz prv cur flhead : Z) : MC (Z * Z * Z) :=
  fsz <- fl_size flhead ;;
  if (cur =? flhead) && (fsz <? w64 (rsz + sizeof_FreeList)) then
    let needsz := s32 (rsz + sizeof_FreeList - fsz) in
    sz <- getc mem_sz ;;
    resize (w64 (sz + needsz)) ;;;
    flhead <- ldw h_freelist ;;
    csz <- fl_size flhead ;;
    if csz <? w64 (rsz + sizeof_FreeList)
    then raise (AssertionError "nvalloc: resize failed")
    else ret (prv, flhead, flhead)
  else ret (prv, cur, flhead).

(** Taking [rsz] bytes of the free block [res]: the whole block is unlinked, or
    it is split.  The result is the size taken. *)
Definition nvalloc_take (rsz prv res flhead : Z) : MC Z :=
  csz <- fl_size res ;;
  if csz <? rsz then raise (AssertionError "nvalloc: no large enough free memory block") else
  if csz <? w64 (rsz + sizeof_FreeList) then
    if res =? flhead
    then raise (AssertionError "nvalloc: Cannot split block at tail") else
    cnext <- fl_next res ;;
    set_fl_next prv cnext ;;;
    ret csz
  else
    let cur := res + rsz in
    rs <- fl_size res ;;
    set_fl_size cur (w64 (rs - rsz)) ;;;
    (if negb (prv =? res) then
       rn <- fl_next res ;;
       set_fl_next cur rn ;;;
       set_fl_next prv cur ;;;
       (if res =? flhead then stw h_freelist cur else ret tt)
     else
       if negb (res =? flhead)
       then raise (AssertionError "nvalloc: Lost block of free memory at tail")
       else set_fl_next cur cur ;;; stw h_freelist cur) ;;;
    ret rsz.

(** The accounting, the unlock and the size word. *)
Definition nvalloc_finish (rsz prv res flhead : Z) : MC Z :=
  rsz <- nvalloc_take rsz prv res flhead ;;
  bf <- ldw h_bytes_free ;;
  stw h_bytes_free (w64 (bf - rsz)) ;;;
  lock_ UnLock ;;;
  stw res rsz ;;;
  ret (res + sizeof_ulong).

Definition nvalloc (rsz : Z) : MC Z :=
  lock_ ExclLock ;;;
  flhead <- ldw h_freelist ;;
  let rsz := alloc_round rsz in
  if flhead =? 0 then raise (Error "Database file corrupted (freelist==NULL)") else
  cur <- fl_next flhead ;;
  fuel <- fl_fuel ;;
  pc <- fl_search fuel rsz flhead flhead cur ;;
  pcf <- nvalloc_extend rsz (fst pc) (snd pc) flhead ;;
  nvalloc_finish rsz (fst (fst pcf)) (snd (fst pcf)) (snd pcf).

(** *** nvfree *)

(** [while (cur < pb && cur != flhead) { prv = cur; cur = cur->next; ASSERT }] *)
Fixpoint fl_find (fuel : nat) (pb flhead prv cur : Z) : MC (Z * Z) :=
  match fuel with
  | O => spin
  | S fuel' =>
      if (cur <? pb) && negb (cur =? flhead) then
        nxt <- fl_next cur ;;
        if nxt <=? cur then raise (AssertionError "nvfree: freelist out of order!")
        else fl_find fuel' pb flhead cur nxt
      else ret (prv, cur)
  end.

(** Linking the block [pb] of [psz] bytes between [prv] and [cur], merging it
    with those that touch it. *)
Definition nvfree_link (pb psz prv cur flhead : Z) : MC unit :=
  let pe := pb + psz in
  prvsz <- fl_size prv ;;
  if prv + prvsz =? pb then
    set_fl_size prv (w64 (prvsz + psz)) ;;;
    (if pe =? cur then
       (if cur =? flhead then stw h_freelist prv else ret tt) ;;;
       ps <- fl_size prv ;; cs <- fl_size cur ;;
       set_fl_size prv (w64 (ps + cs)) ;;;
       cn <- fl_next cur ;;
       set_fl_next prv cn
     else ret tt)
  else if pe =? cur then
    cn <- fl_next cur ;;
    if cn =? cur then
      if negb (flhead =? cur)
      then raise (AssertionError "nvfree: flhead lost trailing block of free memory") else
      set_fl_next pb pb ;;;
      stw h_freelist pb ;;;
      cs <- fl_size cur ;;
      set_fl_size pb (w64 (psz + cs))
    else
      set_fl_next pb cn ;;;
      cs <- fl_size cur ;;
      set_fl_size pb (w64 (psz + cs)) ;;;
      set_fl_next prv pb ;;;
      (if cur =? flhead then stw h_freelist pb else ret tt)
  else
    set_fl_next pb cur ;;;
    set_fl_size pb (w64 psz) ;;;
    set_fl_next prv pb.

Definition nvfree (p : Z) : MC unit :=
  lock_ ExclLock ;;;
  flhead <- ldw h_freelist ;;
  let pb := p - sizeof_ulong in
  deref pb ;;;
  psz <- ldw pb ;;
  let psz := s32 psz in
  let pe := pb + psz in
  c <- getc id ;;
  if (pb <? 0) || (mem_sz c <? pe)
  then close ;;; raise (AssertionError "nvfree: tried to free illegal memory block") else
  cur <- fl_next flhead ;;
  fuel <- fl_fuel ;;
  pc <- fl_find fuel pb flhead flhead cur ;;
  let prv := fst pc in let cur := snd pc in
  if cur <? pb
  then close ;;; raise (AssertionError "nvfree: tried to free unallocated memory block") else
  nvfree_link pb psz prv cur flhead ;;;
  bf <- ldw h_bytes_free ;;
  stw h_bytes_free (w64 (bf + psz)) ;;;
  lock_ UnLock.

(** *** open, is_open *)
Definition fresh_header : bytes :=
  le_bytes 4 48 ++ le_bytes 4 2 ++ le_bytes 8 65536 ++ le_bytes 8 0 ++
  le_bytes 8 48 ++ le_bytes 8 (65536 - 48) ++ le_bytes 8 0.
Definition fresh_freelist : bytes := le_bytes 8 48 ++ le_bytes 8 (65536 - 48).

Definition unlink_cur (c : container) : container := set_name None (files c) c.

Definition init_file : MC unit :=
  match os_ftruncate 65536 with
  | Some e => modc unlink_cur ;;; raise (SystemError "ftruncate failed, unlinked" e)
  | None =>
    modc (fun c => set_cur (File (data c) 65536) c) ;;;
    match os_write sizeof_Header with
    | Some e => modc unlink_cur ;;; raise (SystemError "write(info-record) failed, unlinked" e)
    | None =>
      modc (fun c => set_data (stn (data c) 0 fresh_header) c) ;;;
      match os_write sizeof_FreeList with
      | Some e => modc unlink_cur ;;; raise (SystemError "write(free-record) failed unlinked" e)
      | None => modc (fun c => set_data (stn (data c) sizeof_Header fresh_freelist) c)
      end
    end
  end.

Definition open_file (dbname : string) (c : container) : container :=
  let f := default (File ∅ 0) (files c !! dbname) in
  set_cur f (set_name (Some dbname) (delete dbname (files c)) (set_fd dbname true c)).

Definition open (dbname : string) : MC unit :=
  fn <- getc mem_fn ;;
  if decide (fn = dbname) then ret tt else
  fd <- getc mem_fd ;;
  (if (fd : bool) then close else ret tt) ;;;
  match os_open dbname with
  | Some e => modc (set_fd dbname false) ;;; raise (SystemError "cannot open" e)
  | None =>
    modc (open_file dbname) ;;;
    nvflock ExclLock Block ;;;
    match os_fstat with
    | Some e => raise (SystemError "fstat failed" e)
    | None =>
      sz <- getc (fun c => f_size (cur c)) ;;
      (if sz =? 0 then init_file else ret tt) ;;;
      nvflock UnLock Block ;;;
      make_current
    end
  end.

Definition is_open : MC bool := getc mem_fd.

(** *** setmtime, getmtime *)
Definition setmtime (tm : Z) (force : bool) : MC unit :=
  lock_ ExclLock ;;;
  ctm <- ldw h_mtime ;;
  (if force || (ctm <? tm) then stw h_mtime tm else ret tt) ;;;
  lock_ UnLock.

Definition getmtime : MC Z :=
  lock_ ShrdLock ;;;
  tm <- ldw h_mtime ;;
  lock_ UnLock ;;;
  ret tm.

End with_vtable.
