(* ===== verification/Heap.v ===== *)
(** * Heap.v: the abstract allocator

    A database file of NVcontainer is a header followed by a tiling of blocks,
    live or free.  The free blocks form a circular list in address order whose
    tail, the last block of the file, is what [Header::freelist] points to.
    This file holds the tiling, the circular list in memory, the abstract
    first-fit allocator on tilings, and their lemmas. *)
From S2P Require Import Prelude Memory Container.

(** ** Tilings *)
Record blk := Blk { b_off : Z; b_sz : Z; b_live : bool }.

Definition b_end (b : blk) : Z := b_off b + b_sz b.

#[export] Instance blk_eq_dec : EqDecision blk.
Proof. solve_decision. Defined.

(** The blocks cover [lo, hi) without gaps, in multiples of 16 bytes. *)
Fixpoint tiles (bl : list blk) (lo hi : Z) : Prop :=
  match bl with
  | [] => lo = hi
  | b :: r => b_off b = lo /\ 16 <= b_sz b /\ b_sz b mod 16 = 0 /\ tiles r (b_end b) hi
  end.

Definition is_free (b : blk) : Prop := b_live b = false.
#[export] Instance is_free_dec b : Decision (is_free b).
Proof. unfold is_free. apply _. Defined.

Definition frees (bl : list blk) : list blk := filter is_free bl.
Definition total (l : list blk) : Z := foldr (fun b z => b_sz b + z) 0 l.

(** No two free blocks are neighbours (nvfree coalesces). *)
Fixpoint apart (bl : list blk) : Prop :=
  match bl with
  | b :: r =>
      match r with
      | b' :: _ => b_live b = true \/ b_live b' = true
      | [] => True
      end /\ apart r
  | [] => True
  end.

(** ** The free list in memory *)
Definition hd_off (l : list blk) (d : Z) : Z :=
  match l with [] => d | b :: _ => b_off b end.

(** The nodes of [l] hold their sizes and point each to the next, the last to [nxt]. *)
Fixpoint lseg (m : mem) (l : list blk) (nxt : Z) : Prop :=
  match l with
  | [] => True
  | b :: r => ld64 m (b_off b) = hd_off r nxt /\ ld64 m (b_off b + 8) = b_sz b /\ lseg m r nxt
  end.

Definition circ (m : mem) (l : list blk) : Prop := lseg m l (hd_off l 0).

(** ** The abstract allocator *)

(** What nvalloc leaves of a free block of which it takes [r] bytes. *)
Definition carve (b : blk) (r : Z) : list blk :=
  if decide (b_sz b < r + 16) then [Blk (b_off b) (b_sz b) true]
  else [Blk (b_off b) r true; Blk (b_off b + r) (b_sz b - r) false].

(** First fit in address order; the last block is only ever split. *)
Definition room_for (r : Z) (rest : list blk) : Z :=
  match rest with [] => r + 16 | _ => r end.

Fixpoint alloc_abs (r : Z) (bl : list blk) : option (Z * list blk) :=
  match bl with
  | [] => None
  | b :: rest =>
      if decide (is_free b /\ room_for r rest <= b_sz b)
      then Some (b_off b, carve b r ++ rest)
      else '(p, rest') ← alloc_abs r rest; Some (p, b :: rest')
  end.

(** Growing the file enlarges the last block. *)
Fixpoint grow (n : Z) (bl : list blk) : list blk :=
  match bl with
  | [] => []
  | [b] => [Blk (b_off b) (b_sz b + n) (b_live b)]
  | b :: rest => b :: grow n rest
  end.

(** Freeing the live block at [o] merges it with its free neighbours. *)
Definition merge_right (b : blk) (post : list blk) : list blk :=
  match post with
  | n :: post' =>
      if b_live n then Blk (b_off b) (b_sz b) false :: post
      else Blk (b_off b) (b_sz b + b_sz n) false :: post'
  | [] => [Blk (b_off b) (b_sz b) false]
  end.

Fixpoint free_abs (o : Z) (bl : list blk) : list blk :=
  match bl with
  | [] => []
  | b :: rest =>
      if decide (b_off b = o) then merge_right b rest
      else match rest with
           | n :: rest' =>
               if decide (b_off n = o /\ b_live b = false) then
                 match merge_right n rest' with
                 | f :: r => Blk (b_off b) (b_sz b + b_sz f) false :: r
                 | [] => bl
                 end
               else b :: free_abs o rest
           | [] => [b]
           end
  end.

(** ** Lemmas on tilings *)
Lemma tiles_app l1 l2 lo hi :
  tiles (l1 ++ l2) lo hi <-> exists mid, tiles l1 lo mid /\ tiles l2 mid hi.
Proof.
  revert lo. induction l1 as [|b l1 IH]; intros lo; cbn [app tiles].
  - split; [intros H; by exists lo | intros (mid & -> & H); done].
  - rewrite IH. split; [intros (? & ? & ? & mid & ? & ?) | intros (mid & (? & ? & ? & ?) & ?)];
      by eauto 10.
Qed.

Lemma tiles_le bl lo hi : tiles bl lo hi -> lo <= hi.
Proof.
  revert lo. induction bl as [|b bl IH]; intros lo; cbn [tiles].
  - lia.
  - intros (<- & ? & ? & H%IH). unfold b_end in *. lia.
Qed.

Lemma tiles_in bl lo hi b :
  tiles bl lo hi -> b ∈ bl -> lo <= b_off b /\ b_end b <= hi /\ 16 <= b_sz b /\ b_sz b mod 16 = 0.
Proof.
  revert lo. induction bl as [|b' bl IH]; intros lo Ht Hb; [by apply not_elem_of_nil in Hb|].
  cbn [tiles] in Ht. destruct Ht as (<- & ? & ? & Ht).
  apply elem_of_cons in Hb as [->|Hb].
  - apply tiles_le in Ht. lia.
  - destruct (IH _ Ht Hb) as (? & ? & ? & ?). unfold b_end in *. lia.
Qed.

(** The blocks before and after one block of a tiling. *)
Lemma tiles_mid p1 b p2 lo hi :
  tiles (p1 ++ b :: p2) lo hi ->
  tiles p1 lo (b_off b) /\ tiles p2 (b_end b) hi /\ 16 <= b_sz b /\ b_sz b mod 16 = 0.
Proof.
  intros (mid & H1 & H2)%tiles_app. cbn [tiles] in H2.
  destruct H2 as (<- & ? & ? & ?). done.
Qed.

Lemma tiles_mid_intro p1 b p2 lo hi :
  tiles p1 lo (b_off b) -> 16 <= b_sz b -> b_sz b mod 16 = 0 -> tiles p2 (b_end b) hi ->
  tiles (p1 ++ b :: p2) lo hi.
Proof. intros. apply tiles_app. exists (b_off b). by repeat split. Qed.

Lemma tiles_disjoint bl lo hi x y :
  tiles bl lo hi -> x ∈ bl -> y ∈ bl -> x = y \/ b_end x <= b_off y \/ b_end y <= b_off x.
Proof.
  intros Ht (p1 & p2 & ->)%list_elem_of_split Hy.
  apply tiles_mid in Ht as (H1 & H2 & ? & ?).
  apply elem_of_app in Hy as [Hy|Hy]; [|apply elem_of_cons in Hy as [->|Hy]].
  - destruct (tiles_in _ _ _ _ H1 Hy) as (? & ? & ? & ?). right. right. lia.
  - by left.
  - destruct (tiles_in _ _ _ _ H2 Hy) as (? & ? & ? & ?). right. left. lia.
Qed.

Lemma tiles_off_inj bl lo hi x y :
  tiles bl lo hi -> x ∈ bl -> y ∈ bl -> b_off x = b_off y -> x = y.
Proof.
  intros Ht Hx Hy Ho. destruct (tiles_disjoint _ _ _ _ _ Ht Hx Hy) as [->|H]; [done|].
  destruct (tiles_in _ _ _ _ Ht Hx) as (? & ? & ? & ?).
  destruct (tiles_in _ _ _ _ Ht Hy) as (? & ? & ? & ?). unfold b_end in *. lia.
Qed.

Lemma tiles_mod bl lo hi : tiles bl lo hi -> (hi - lo) mod 16 = 0.
Proof.
  revert lo. induction bl as [|b bl IH]; intros lo; cbn [tiles].
  - intros ->. by rewrite Z.sub_diag.
  - intros (<- & ? & Hm & H%IH). unfold b_end in *. Z.div_mod_to_equations. lia.
Qed.

Lemma tiles_length bl lo hi : tiles bl lo hi -> 16 * Z.of_nat (length bl) <= hi - lo.
Proof.
  revert lo. induction bl as [|b bl IH]; intros lo; cbn [tiles length].
  - lia.
  - intros (<- & ? & ? & H%IH). unfold b_end in *. lia.
Qed.

(** ** Lemmas on the free blocks *)
Lemma frees_app l1 l2 : frees (l1 ++ l2) = frees l1 ++ frees l2.
Proof. apply filter_app. Qed.

Lemma frees_cons_free b l : b_live b = false -> frees (b :: l) = b :: frees l.
Proof. intros. unfold frees. by rewrite filter_cons_True. Qed.

Lemma frees_cons_live b l : b_live b = true -> frees (b :: l) = frees l.
Proof. intros H. unfold frees. rewrite filter_cons_False; [done|]. unfold is_free. by rewrite H. Qed.

Lemma elem_of_frees b bl : b ∈ frees bl <-> b_live b = false /\ b ∈ bl.
Proof. unfold frees. by rewrite list_elem_of_filter. Qed.

Lemma frees_length bl : (length (frees bl) <= length bl)%nat.
Proof. apply length_filter. Qed.

Lemma frees_split bl l1 b l2 :
  frees bl = l1 ++ b :: l2 -> exists p1 p2, bl = p1 ++ b :: p2 /\ frees p1 = l1 /\ frees p2 = l2.
Proof.
  revert l1. induction bl as [|x bl IH]; intros l1 Hf; [by destruct l1|].
  destruct (b_live x) eqn:Hx.
  - rewrite frees_cons_live in Hf by done. destruct (IH _ Hf) as (p1 & p2 & -> & <- & <-).
    exists (x :: p1), p2. by rewrite frees_cons_live.
  - rewrite frees_cons_free in Hf by done. destruct l1 as [|y l1]; simplify_eq/=.
    + by exists [], bl.
    + destruct (IH l1) as (p1 & p2 & -> & <- & <-); [done|]. exists (y :: p1), p2.
      by rewrite frees_cons_free.
Qed.

Lemma total_app l1 l2 : total (l1 ++ l2) = total l1 + total l2.
Proof. induction l1 as [|b l1 IH]; cbn; [done|]. unfold total in *. lia. Qed.

Lemma total_cons b l : total (b :: l) = b_sz b + total l.
Proof. done. Qed.

Lemma total_frees_le bl lo hi : tiles bl lo hi -> 0 <= total (frees bl) <= hi - lo.
Proof.
  revert lo. induction bl as [|b bl IH]; intros lo; cbn [tiles].
  - intros ->. cbn. lia.
  - intros (<- & ? & ? & H%IH). unfold b_end in *. destruct (b_live b) eqn:Hb.
    + rewrite frees_cons_live by done. lia.
    + rewrite frees_cons_free by done. rewrite total_cons. lia.
Qed.

Lemma NoDup_frees_off bl lo hi : tiles bl lo hi -> NoDup (b_off <$> frees bl).
Proof.
  revert lo. induction bl as [|b bl IH]; intros lo; cbn [tiles]; [constructor|].
  intros (<- & ? & ? & Ht). destruct (b_live b) eqn:Hb.
  - rewrite frees_cons_live by done. eauto.
  - rewrite frees_cons_free by done. rewrite fmap_cons. constructor; [|eauto].
    intros (x & Hx & [_ Hin]%elem_of_frees)%list_elem_of_fmap.
    destruct (tiles_in _ _ _ _ Ht Hin) as (? & ? & ? & ?). unfold b_end in *. lia.
Qed.

(** ** Lemmas on the free list in memory *)
Lemma hd_off_app l1 l2 d : hd_off (l1 ++ l2) d = hd_off l1 (hd_off l2 d).
Proof. by destruct l1. Qed.

Lemma lseg_app m l1 l2 nxt :
  lseg m (l1 ++ l2) nxt <-> lseg m l1 (hd_off l2 nxt) /\ lseg m l2 nxt.
Proof.
  induction l1 as [|b l1 IH]; cbn [app lseg]; [tauto|].
  rewrite IH, hd_off_app. tauto.
Qed.

Lemma lseg_frame m m' l nxt :
  lseg m l nxt -> (forall b, b ∈ l -> same_on m m' (b_off b) (b_off b + 16)) -> lseg m' l nxt.
Proof.
  induction l as [|b l IH]; cbn [lseg]; [done|]. intros (H1 & H2 & H3) Hf.
  assert (same_on m m' (b_off b) (b_off b + 16)) as Hb by (apply Hf; left).
  repeat split.
  - rewrite <- H1. symmetry. apply ld64_same. eapply same_on_mono; [done|lia..].
  - rewrite <- H2. symmetry. apply ld64_same. eapply same_on_mono; [done|lia..].
  - apply IH; [done|]. intros b' Hb'. apply Hf. by right.
Qed.

(** A circular list can start anywhere. *)
Lemma circ_rotate m l1 l2 : circ m (l1 ++ l2) <-> circ m (l2 ++ l1).
Proof.
  unfold circ. rewrite !lseg_app, !hd_off_app. destruct l1 as [|b1 l1], l2 as [|b2 l2]; cbn; tauto.
Qed.

Lemma circ_rotate_cons m l1 b l2 : circ m (l1 ++ b :: l2) <-> circ m (b :: l2 ++ l1).
Proof. rewrite circ_rotate. by rewrite <- app_comm_cons. Qed.

Lemma circ_node m l b : circ m l -> b ∈ l -> ld64 m (b_off b + 8) = b_sz b.
Proof.
  unfold circ. generalize (hd_off l 0). induction l as [|x l IH]; intros nxt Hc Hb.
  - by apply not_elem_of_nil in Hb.
  - cbn [lseg] in Hc. destruct Hc as (? & ? & ?).
    apply elem_of_cons in Hb as [->|Hb]; eauto.
Qed.

Lemma circ_next m b k : circ m (b :: k) -> ld64 m (b_off b) = hd_off k (b_off b).
Proof. unfold circ. cbn [lseg hd_off]. by intros (? & _). Qed.

(** The last node of a list that starts at [b]. *)
Lemma circ_last m k p : circ m (k ++ [p]) -> ld64 m (b_off p) = hd_off k (b_off p).
Proof.
  intros H%circ_rotate. cbn [app] in H. by apply circ_next in H.
Qed.

(** Replacing, removing and inserting the first node: only the last node [p]
    of the others and the new node are written. *)
Lemma circ_replace m m' b b' k p :
  circ m (b :: k ++ [p]) ->
  (forall x, x ∈ k -> same_on m m' (b_off x) (b_off x + 16)) ->
  ld64 m' (b_off p) = b_off b' -> ld64 m' (b_off p + 8) = b_sz p ->
  ld64 m' (b_off b') = hd_off (k ++ [p]) 0 -> ld64 m' (b_off b' + 8) = b_sz b' ->
  circ m' (b' :: k ++ [p]).
Proof.
  unfold circ. cbn [lseg hd_off]. rewrite !lseg_app. cbn [lseg hd_off].
  intros (? & ? & Hk & ? & ? & _) Hf ? ? Hn ?.
  rewrite !hd_off_app in *. cbn [hd_off] in *.
  repeat split; try done. by eapply lseg_frame.
Qed.

Lemma circ_remove m m' b k p :
  circ m (b :: k ++ [p]) ->
  (forall x, x ∈ k -> same_on m m' (b_off x) (b_off x + 16)) ->
  ld64 m' (b_off p) = hd_off (k ++ [p]) 0 -> ld64 m' (b_off p + 8) = b_sz p ->
  circ m' (k ++ [p]).
Proof.
  unfold circ. cbn [lseg hd_off]. rewrite !lseg_app. cbn [lseg hd_off].
  intros (? & ? & Hk & ? & ? & _) Hf Hn ?.
  repeat split; try done. by eapply lseg_frame.
Qed.

Lemma circ_insert m m' b k p :
  circ m (k ++ [p]) ->
  (forall x, x ∈ k -> same_on m m' (b_off x) (b_off x + 16)) ->
  ld64 m' (b_off p) = b_off b -> ld64 m' (b_off p + 8) = b_sz p ->
  ld64 m' (b_off b) = hd_off (k ++ [p]) 0 -> ld64 m' (b_off b + 8) = b_sz b ->
  circ m' (b :: k ++ [p]).
Proof.
  unfold circ. cbn [lseg hd_off]. rewrite !lseg_app. cbn [lseg hd_off].
  intros (Hk & ? & ? & _) Hf ? ? Hn ?.
  rewrite !hd_off_app in *. cbn [hd_off] in *.
  repeat split; try done. by eapply lseg_frame.
Qed.

Lemma circ_frame m m' l :
  circ m l -> (forall b, b ∈ l -> same_on m m' (b_off b) (b_off b + 16)) -> circ m' l.
Proof. apply lseg_frame. Qed.

Lemma circ_single m b : ld64 m (b_off b) = b_off b -> ld64 m (b_off b + 8) = b_sz b -> circ m [b].
Proof. unfold circ. cbn. done. Qed.

(** Changing the size of the last node. *)
Lemma circ_resize m m' l t t' :
  circ m (l ++ [t]) -> b_off t' = b_off t ->
  (forall x, x ∈ l -> same_on m m' (b_off x) (b_off x + 16)) ->
  ld64 m' (b_off t) = ld64 m (b_off t) -> ld64 m' (b_off t + 8) = b_sz t' ->
  circ m' (l ++ [t']).
Proof.
  unfold circ. rewrite !lseg_app, !hd_off_app. cbn [lseg hd_off].
  intros (Hl & Hn & _ & _) Ho Hf Hn' ?. rewrite Ho. repeat split; try done.
  - by eapply lseg_frame.
  - by rewrite Hn'.
Qed.

(** Merging the first node into the last. *)
Lemma circ_merge m m' b k p p' :
  circ m (b :: k ++ [p]) -> b_off p' = b_off p ->
  (forall x, x ∈ k -> same_on m m' (b_off x) (b_off x + 16)) ->
  ld64 m' (b_off p) = hd_off (k ++ [p]) 0 -> ld64 m' (b_off p + 8) = b_sz p' ->
  circ m' (k ++ [p']).
Proof.
  unfold circ. cbn [lseg hd_off]. rewrite !lseg_app, !hd_off_app. cbn [lseg hd_off].
  intros (? & ? & Hk & ? & ? & _) Ho Hf Hn ?. rewrite Ho.
  repeat split; try done. by eapply lseg_frame.
Qed.

(** ** Neighbours *)
Lemma apart_mid p b q : apart (p ++ b :: q) <-> apart (p ++ [b]) /\ apart (b :: q).
Proof.
  induction p as [|x p IH].
  - cbn [app apart]. tauto.
  - destruct p as [|y p].
    + cbn [app apart] in *. tauto.
    + cbn [app] in *. change (apart (x :: y :: ?l)) with ((b_live x = true \/ b_live y = true) /\ apart (y :: l)).
      rewrite IH. tauto.
Qed.

Lemma apart_snoc_live p b b' : apart (p ++ [b]) -> b_live b' = true -> apart (p ++ [b']).
Proof.
  induction p as [|x p IH]; intros H Hb; [done|].
  destruct p as [|y p]; [cbn in *; auto|].
  cbn [app] in *. destruct H as [H1 H2]. split; [done|]. by apply IH.
Qed.

Lemma apart_snoc_same p b b' : apart (p ++ [b]) -> b_live b' = b_live b -> apart (p ++ [b']).
Proof.
  induction p as [|x p IH]; intros H Hb; [done|].
  destruct p as [|y p]; [cbn in *; by rewrite Hb|].
  cbn [app] in *. destruct H as [H1 H2]. split; [done|]. by apply IH.
Qed.

Lemma apart_cons_same b b' q : apart (b :: q) -> b_live b' = b_live b -> apart (b' :: q).
Proof. intros [H1 H2] Hb. split; [by destruct q; rewrite ?Hb|done]. Qed.

Lemma apart_cons_live b b' q : apart (b :: q) -> b_live b' = true -> apart (b' :: q).
Proof. intros [H1 H2] Hb. split; [destruct q; by auto|done]. Qed.

Create Rewrite HintDb blocks.
#[export] Hint Rewrite frees_app total_app total_cons : blocks.
Ltac blk_simpl := autorewrite with blocks.
