(* ===== verification/Alloc.v ===== *)
(** * Alloc.v: NVcontainer refines the abstract allocator

    The invariant [heap] of a database file, the lock stack discipline, and the
    total-correctness specifications of lock, resize, nvalloc and nvfree, stated
    against the abstract allocator of Heap.v. *)
From S2P Require Import Prelude Memory Container Heap.

(** ** The invariant of a database file *)
Definition limit : Z := 2 ^ 31.

(** The content of a file of [sz] bytes: header, tiling and free list. *)
Record hmem (m : mem) (sz : Z) (bl : list blk) : Prop := {
  hm_size : ld64 m h_size = sz;
  hm_hlen : ld32 m h_hlen = sizeof_Header;
  hm_version : ld32 m h_version = 2;
  hm_tiles : tiles bl sizeof_Header sz;
  hm_live : forall b, b ∈ bl -> b_live b = true -> ld64 m (b_off b) = b_sz b;
  hm_circ : circ m (frees bl);
  hm_tail : exists bl0 t, bl = bl0 ++ [t] /\ b_live t = false /\ ld64 m h_freelist = b_off t;
  hm_apart : apart bl;
  hm_bytes : ld64 m h_bytes_free = total (frees bl)
}.

(** The mapping shows the whole file. *)
Record current (c : container) : Prop := {
  cu_map : mem_p c = Mapped;
  cu_fsize : f_size (cur c) = mem_sz c;
  cu_size : hdr c h_size = mem_sz c;
  cu_big : sizeof_Header + sizeof_FreeList < mem_sz c;
  cu_hlen : ld32 (data c) h_hlen = sizeof_Header;
  cu_version : ld32 (data c) h_version = 2
}.

Record heap (c : container) (bl : list blk) : Prop := {
  hp_current : current c;
  hp_limit : mem_sz c < limit;
  hp_page : mem_sz c mod 65536 = 0;
  hp_mem : hmem (data c) (mem_sz c) bl
}.

(** What the operations on other blocks leave unchanged. *)
Record kept (bl : list blk) (c c' : container) : Prop := {
  kp_map : mem_p c' = Mapped;
  kp_sz : mem_sz c <= mem_sz c';
  kp_userdata : hdr c' h_userdata = hdr c h_userdata;
  kp_mtime : hdr c' h_mtime = hdr c h_mtime;
  kp_live : forall b, b ∈ bl -> b_live b = true ->
              same_on (data c) (data c') (b_off b) (b_end b)
}.

(** ** Locks *)
Record lock_ok (c : container) : Prop := {
  lo_len : length (lck_stack c) = LOCKSTACKSIZE;
  lo_sp : (lck_stackp c <= LOCKSTACKSIZE)%nat;
  lo_held : held c = top_lock c
}.

Record same_locks (c c' : container) : Prop := {
  sl_sp : lck_stackp c' = lck_stackp c;
  sl_held : held c' = held c;
  sl_len : length (lck_stack c') = length (lck_stack c);
  sl_stack : drop (lck_stackp c) (lck_stack c') = drop (lck_stackp c) (lck_stack c)
}.

Definition push_lock (l : lockcmd) (c : container) : container :=
  set_held l (set_stack (<[lck_stackp c - 1 := l]> (lck_stack c))%nat (lck_stackp c - 1) c).

(** A lock below an exclusive one is exclusive. *)
Definition effective (l : lockcmd) (c : container) : lockcmd :=
  if decide (top_lock c = ExclLock) then ExclLock else l.

Definition pop_lock (c : container) : container :=
  let c' := set_stack (lck_stack c) (lck_stackp c + 1) c in set_held (top_lock c') c'.

(** ** The contract of a make_current override *)
Definition mappable (c : container) : Prop :=
  (mem_p c = NullMap \/ mem_p c = Mapped /\ sizeof_Header + sizeof_FreeList < mem_sz c) /\
  sizeof_Header + sizeof_FreeList < f_size (cur c) /\
  ld32 (data c) h_hlen = sizeof_Header /\ ld32 (data c) h_version = 2.

Definition remap (c : container) : container :=
  if decide (mem_p c = Mapped /\ mem_sz c = hdr c h_size) then c
  else set_map Mapped (f_size (cur c)) c.

(** [vt_fresh] is what the override computes from the file, [vt_ready] the
    condition under which it can. *)
Class VTableOk {os : Os} (X : Type) {vt : VTable X} := {
  vt_fresh : container -> X;
  vt_ready : container -> Prop;
  vt_spec : forall s, OsOk os -> mappable (core s) -> vt_ready (remap (core s)) ->
    exists x, make_current s = Ret tt (Obj (remap (core s)) x) /\
              (x = ext s \/ x = vt_fresh (remap (core s)))
}.

(** The derived part stays in [P] whenever it is recomputed. *)
Definition stable {os : Os} {X} {vt : VTable X} {vo : VTableOk X}
    (bl : list blk) (P : X -> Prop) (c : container) : Prop :=
  forall c', kept bl c c' -> vt_ready c' /\ P (vt_fresh c').

(** ** Relinking the free list *)

(** [m'] holds the free list of [bl'], and the bytes of the header outside
    [freelist] and of the live blocks of [bl] it has in common with [m]. *)
Record linked (m m' : mem) (bl bl' : list blk) : Prop := {
  lk_circ : circ m' (frees bl');
  lk_tail : exists bl0 t, bl' = bl0 ++ [t] /\ b_live t = false /\ ld64 m' h_freelist = b_off t;
  lk_lo : same_on m m' 0 h_freelist;
  lk_hi : same_on m m' h_bytes_free sizeof_Header;
  lk_live : forall b, b ∈ bl -> b_live b = true -> same_on m m' (b_off b) (b_end b)
}.

Definition last_off (d : Z) (l : list blk) : Z :=
  match last l with Some b => b_off b | None => d end.

(** ** States that differ in memory only *)
Definition upd {X} (m : mem) (s : obj X) : obj X := Obj (set_data m (core s)) (ext s).

Lemma upd_self {X} (s : obj X) : upd (data (core s)) s = s.
Proof. by destruct s as [[? ? ? ? ? ? [? ?] ? ? ?] ?]. Qed.

Lemma upd_upd {X} m m' (s : obj X) : upd m' (upd m s) = upd m' s.
Proof. done. Qed.

Lemma data_upd {X} m (s : obj X) : data (core (upd m s)) = m.
Proof. done. Qed.

Lemma page_round_eq n :
  0 <= n < 2 ^ 63 -> page_round n = n + 65536 - (n + 65536) mod 65536.
Proof.
  intros Hn. unfold page_round. rewrite (w64_small (n + 65536)) by lia.
  change (w64 (Z.lnot 65535)) with (Z.shiftl (Z.ones 48) 16).
  apply Z.bits_inj'. intros i Hi.
  rewrite Z.land_spec, Z.shiftl_spec by lia.
  assert (n + 65536 - (n + 65536) mod 65536 = Z.shiftl (Z.shiftr (n + 65536) 16) 16) as ->.
  { rewrite Z.shiftl_mul_pow2, Z.shiftr_div_pow2 by lia. Z.div_mod_to_equations. lia. }
  rewrite Z.shiftl_spec by lia.
  destruct (decide (i < 16)).
  - rewrite !(Z.testbit_neg_r _ (i - 16)) by lia. apply andb_false_r.
  - rewrite Z.shiftr_spec, Z.testbit_ones_nonneg by lia. replace (i - 16 + 16) with i by lia.
    destruct (Z.ltb_spec (i - 16) 48); [apply andb_true_r|].
    rewrite (Z.bits_above_log2 (n + 65536) i); [done|lia|].
    apply Z.log2_lt_pow2; [lia|]. eapply Z.lt_le_trans with (2 ^ 64); [lia|].
    apply Z.pow_le_mono_r; lia.
Qed.

Lemma land_lnot15 n : 0 <= n < 2 ^ 64 -> Z.land n (w64 (Z.lnot 15)) = n - n mod 16.
Proof.
  intros Hn. change (w64 (Z.lnot 15)) with (Z.shiftl (Z.ones 60) 4).
  apply Z.bits_inj'. intros i Hi. rewrite Z.land_spec, Z.shiftl_spec by lia.
  assert (n - n mod 16 = Z.shiftl (Z.shiftr n 4) 4) as ->.
  { rewrite Z.shiftl_mul_pow2, Z.shiftr_div_pow2 by lia. Z.div_mod_to_equations. lia. }
  rewrite Z.shiftl_spec by lia.
  destruct (decide (i < 4)).
  - rewrite !(Z.testbit_neg_r _ (i - 4)) by lia. apply andb_false_r.
  - rewrite Z.shiftr_spec, Z.testbit_ones_nonneg by lia. replace (i - 4 + 4) with i by lia.
    destruct (Z.ltb_spec (i - 4) 60); [apply andb_true_r|].
    destruct (decide (n = 0)) as [->|]; [by rewrite Z.bits_0|].
    rewrite (Z.bits_above_log2 n i); [done|lia|].
    apply Z.log2_lt_pow2; [lia|]. eapply Z.lt_le_trans with (2 ^ 64); [lia|].
    apply Z.pow_le_mono_r; lia.
Qed.

Lemma alloc_round_eq r : 0 <= r < 2 ^ 63 -> alloc_round r = r + 23 - (r + 23) mod 16.
Proof.
  intros. unfold alloc_round, sizeof_ulong. rewrite (w64_small (r + 8)) by lia.
  rewrite (w64_small (r + 8 + 15)) by lia. rewrite land_lnot15 by lia.
  by replace (r + 8 + 15) with (r + 23) by lia.
Qed.

Lemma s32_small z : -2 ^ 31 <= z < 2 ^ 31 -> s32 z = z.
Proof. intros. unfold s32. rewrite Z.mod_small; lia. Qed.

(** ** Rules for the memory accesses *)
Section rules.
Context {os : Os} {X : Type}.
Implicit Types s : obj X.

Definition ready_at (c : container) (a n : Z) : Prop :=
  mem_p c = Mapped /\ 0 <= a /\ a + n <= mem_sz c.

Lemma in_map_true c a n : ready_at c a n -> in_map c a n = true.
Proof.
  intros (? & ? & ?). unfold in_map. rewrite bool_decide_true by done.
  apply andb_true_intro. split; [|by apply Z.leb_le]. by apply Z.leb_le.
Qed.

Lemma wp_ldw a (Q : Z -> obj X -> Prop) m s :
  ready_at (core s) a 8 -> Q (ld64 m a) (upd m s) -> wp (ldw a) Q (upd m s).
Proof.
  intros H%in_map_true HQ. unfold ldw, wp, bind, getc, gets, guard.
  cbn. unfold in_map in *. cbn. rewrite H. exact HQ.
Qed.

Lemma wp_stw a v (Q : unit -> obj X -> Prop) m s :
  ready_at (core s) a 8 -> Q tt (upd (st64 m a v) s) -> wp (stw a v) Q (upd m s).
Proof.
  intros H%in_map_true HQ. unfold stw, wp, bind, getc, gets, guard.
  cbn. unfold in_map in *. cbn. rewrite H. exact HQ.
Qed.

Lemma wp_ldmem a n (Q : bytes -> obj X -> Prop) m s :
  ready_at (core s) a n -> Q (ldn m a (Z.to_nat n)) (upd m s) -> wp (ldmem a n) Q (upd m s).
Proof.
  intros H%in_map_true HQ. unfold ldmem, wp, bind, getc, gets, guard.
  cbn. unfold in_map in *. cbn. rewrite H. exact HQ.
Qed.

Lemma wp_stmem a l (Q : unit -> obj X -> Prop) m s :
  ready_at (core s) a (Z.of_nat (length l)) -> Q tt (upd (stn m a l) s) ->
  wp (stmem a l) Q (upd m s).
Proof.
  intros H%in_map_true HQ. unfold stmem, wp, bind, getc, gets, guard.
  cbn. unfold in_map in *. cbn. rewrite H. exact HQ.
Qed.

Lemma wp_getc {A} (f : container -> A) (Q : A -> obj X -> Prop) s :
  Q (f (core s)) s -> wp (getc f) Q s.
Proof. done. Qed.

Lemma wp_modc (f : container -> container) (Q : unit -> obj X -> Prop) s :
  Q tt (Obj (f (core s)) (ext s)) -> wp (modc f) Q s.
Proof. done. Qed.

Lemma wp_deref o (Q : unit -> obj X -> Prop) s : o <> 0 -> Q tt s -> wp (deref o) Q s.
Proof. intros Ho%Z.eqb_neq ?. unfold deref. by rewrite Ho. Qed.

Lemma wp_fl_next o (Q : Z -> obj X -> Prop) m s :
  0 < o -> ready_at (core s) o 8 -> Q (ld64 m o) (upd m s) -> wp (fl_next o) Q (upd m s).
Proof. intros. apply wp_bind, wp_deref; [lia|]. by apply wp_ldw. Qed.

Lemma wp_fl_size o (Q : Z -> obj X -> Prop) m s :
  0 < o -> ready_at (core s) (o + 8) 8 -> Q (ld64 m (o + 8)) (upd m s) ->
  wp (fl_size o) Q (upd m s).
Proof. intros. apply wp_bind, wp_deref; [lia|]. by apply wp_ldw. Qed.

Lemma wp_set_fl_next o v (Q : unit -> obj X -> Prop) m s :
  0 < o -> ready_at (core s) o 8 -> Q tt (upd (st64 m o v) s) ->
  wp (set_fl_next o v) Q (upd m s).
Proof. intros. apply wp_bind, wp_deref; [lia|]. by apply wp_stw. Qed.

Lemma wp_set_fl_size o v (Q : unit -> obj X -> Prop) m s :
  0 < o -> ready_at (core s) (o + 8) 8 -> Q tt (upd (st64 m (o + 8) v) s) ->
  wp (set_fl_size o v) Q (upd m s).
Proof. intros. apply wp_bind, wp_deref; [lia|]. by apply wp_stw. Qed.
End rules.

(** [mstep] takes one step over a memory access; its side conditions are
    address bounds. *)
Ltac layout := unfold h_hlen, h_version, h_size, h_mtime, h_freelist, h_bytes_free, h_userdata,
  sizeof_Header, sizeof_FreeList, sizeof_ulong, limit, b_end in *.
Ltac bounds := layout; repeat split; try done; cbn -[Z.add Z.mul] in *; lia.
Ltac mstep :=
  lazymatch goal with
  | |- wp (bind _ _) _ _ => apply wp_bind
  | |- wp (ldw _) _ _ => apply wp_ldw; [bounds|]
  | |- wp (stw _ _) _ _ => apply wp_stw; [bounds|]
  | |- wp (fl_next _) _ _ => apply wp_fl_next; [bounds|bounds|]
  | |- wp (fl_size _) _ _ => apply wp_fl_size; [bounds|bounds|]
  | |- wp (set_fl_next _ _) _ _ => apply wp_set_fl_next; [bounds|bounds|]
  | |- wp (set_fl_size _ _) _ _ => apply wp_set_fl_size; [bounds|bounds|]
  | |- wp (getc _) _ _ => apply wp_getc
  | |- wp (modc _) _ _ => apply wp_modc
  | |- wp (ret _) _ _ => apply wp_ret
  end.

(** ** Locking a current container *)
Section locks.
Context {os : Os} {Hos : OsOk os} {X : Type} {vt : VTable X} {vo : VTableOk X}.
Implicit Types s : obj X.

Lemma current_remap c : current c -> remap c = c.
Proof. intros [Hm Hf Hs Hb Hl Hv]. unfold remap. by rewrite decide_True. Qed.

Lemma current_mappable c : current c -> mappable c.
Proof. intros [Hm Hf Hs Hb Hl Hv]. split; [by right|]. rewrite Hf. done. Qed.

Lemma current_ext c c' :
  mem_p c' = mem_p c -> mem_sz c' = mem_sz c -> cur c' = cur c -> current c -> current c'.
Proof.
  intros H1 H2 H3 [Hm Hf Hs Hb Hl Hv]. split; unfold hdr, data in *;
    rewrite ?H1, ?H2, ?H3; done.
Qed.

Lemma kept_refl bl c : mem_p c = Mapped -> kept bl c c.
Proof. intros. by split. Qed.

Lemma kept_trans bl c1 c2 c3 : kept bl c1 c2 -> kept bl c2 c3 -> kept bl c1 c3.
Proof.
  intros [? ? ? ? H1] [? ? ? ? H2]. split; [done|lia|congruence|congruence|].
  intros b Hb Hl. eapply same_on_trans; eauto.
Qed.

Lemma kept_ext bl c c1 c2 :
  mem_p c2 = mem_p c1 -> mem_sz c2 = mem_sz c1 -> cur c2 = cur c1 ->
  kept bl c c1 -> kept bl c c2.
Proof.
  intros H1 H2 H3 [? ? ? ? Hl]. unfold hdr, data in *.
  split; unfold hdr, data; rewrite ?H1, ?H2, ?H3; done.
Qed.

Lemma stable_kept bl P c c' : stable bl P c -> kept bl c c' -> stable bl P c'.
Proof. intros Hs Hk c'' Hk'. apply Hs. by eapply kept_trans. Qed.

(** What [make_current] does when the mapping is current. *)
Lemma wp_make_current bl (P : X -> Prop) (Q : unit -> obj X -> Prop) s :
  current (core s) -> stable bl P (core s) -> P (ext s) ->
  (forall x, P x -> Q tt (Obj (core s) x)) -> wp make_current Q s.
Proof.
  intros Hc Hst Hp HQ. pose proof (current_remap _ Hc) as Hr.
  destruct (Hst (core s)) as [Hready Hfresh]; [apply kept_refl, Hc|].
  destruct (vt_spec s _ (current_mappable _ Hc)) as (x & Heq & Hx); [by rewrite Hr|].
  rewrite Hr in *. eapply wp_of_eq; [done|]. apply HQ. destruct Hx as [->| ->]; done.
Qed.

Lemma nvflock_ok l s :
  nvflock l Block s = Ret None (Obj (set_held l (core s)) (ext s)).
Proof.
  unfold nvflock, bind, modc, modify, ret. rewrite !ok_lock.
  destruct l; cbn; rewrite ?ok_lock; by destruct s as [[] ?].
Qed.

Lemma set_held_same h c : held c = h -> set_held h c = c.
Proof. intros <-. by destruct c. Qed.

Lemma wp_lock_push l bl (P : X -> Prop) (Q : unit -> obj X -> Prop) s :
  l <> UnLock -> current (core s) -> lock_ok (core s) -> (0 < lck_stackp (core s))%nat ->
  stable bl P (core s) -> P (ext s) ->
  (forall x, P x -> Q tt (Obj (push_lock (effective l (core s)) (core s)) x)) ->
  wp (lock_ l) Q s.
Proof.
  intros Hne Hc [Hlen Hsp Hheld] H0 Hst Hp HQ.
  unfold lock_, lock. repeat mstep.
  rewrite decide_False by done. rewrite decide_False by lia. repeat mstep.
  change (if decide (top_lock (core s) = ExclLock) then ExclLock else l)
    with (effective l (core s)).
  assert (effective l (core s) <> UnLock) as Hne' by (unfold effective; by destruct (decide _)).
  destruct (decide (top_lock (core s) = effective l (core s))) as [Ht|Ht].
  - repeat mstep. specialize (HQ (ext s) Hp). unfold push_lock in HQ.
    rewrite set_held_same in HQ; [done|]. cbn. by rewrite Hheld.
  - mstep. eapply wp_of_eq; [apply nvflock_ok|]. cbn [core ext]. rewrite decide_False by done.
    repeat mstep. eapply (wp_make_current bl P); [by eapply current_ext, Hc|..].
    + eapply stable_kept; [done|]. eapply kept_ext, kept_refl; try done. apply Hc.
    + done.
    + intros x Hx. repeat mstep. by apply HQ.
Qed.

Lemma wp_lock_excl bl (P : X -> Prop) (Q : unit -> obj X -> Prop) s :
  current (core s) -> lock_ok (core s) -> (0 < lck_stackp (core s))%nat ->
  stable bl P (core s) -> P (ext s) ->
  (forall x, P x -> Q tt (Obj (push_lock ExclLock (core s)) x)) ->
  wp (lock_ ExclLock) Q s.
Proof.
  intros. eapply (wp_lock_push ExclLock bl P); try done. unfold effective. by destruct (decide _).
Qed.

Lemma wp_lock_unlock bl (P : X -> Prop) (Q : unit -> obj X -> Prop) s :
  current (core s) -> lock_ok (core s) -> (lck_stackp (core s) < LOCKSTACKSIZE)%nat ->
  stable bl P (core s) -> P (ext s) ->
  (forall x, P x -> Q tt (Obj (pop_lock (core s)) x)) ->
  wp (lock_ UnLock) Q s.
Proof.
  intros Hc [Hlen Hsp Hheld] H0 Hst Hp HQ.
  unfold lock_, lock. repeat mstep.
  rewrite decide_True by done. rewrite decide_False by lia. repeat mstep.
  unfold pop_lock in HQ. cbn [core ext].
  destruct (decide _) as [Ht|Ht].
  - repeat mstep. specialize (HQ (ext s) Hp).
    rewrite set_held_same in HQ; [done|]. rewrite <- Ht. done.
  - mstep. eapply wp_of_eq; [apply nvflock_ok|]. cbn [core ext].
    destruct (decide _); repeat mstep; [by apply HQ|].
    eapply (wp_make_current bl P); [by eapply current_ext, Hc|..].
    + eapply stable_kept; [done|]. eapply kept_ext, kept_refl; try done. apply Hc.
    + done.
    + intros x Hx. repeat mstep. by apply HQ.
Qed.

(** Pushing and popping the lock stack. *)
Lemma lock_ok_push l c :
  lock_ok c -> (0 < lck_stackp c)%nat -> lock_ok (push_lock l c).
Proof.
  intros [Hlen Hsp Hheld] H0. split; cbn.
  - by rewrite length_insert.
  - lia.
  - unfold top_lock. cbn. rewrite decide_True by lia.
    rewrite nth_lookup, list_lookup_insert_eq by lia. done.
Qed.

Lemma top_lock_same c c' :
  length (lck_stack c) = LOCKSTACKSIZE -> same_locks c c' -> top_lock c' = top_lock c.
Proof.
  intros Hl [Hsp Hh Hlen Hst]. unfold top_lock. rewrite Hsp. destruct (decide _) as [H|]; [|done].
  rewrite !nth_lookup. f_equal.
  rewrite <- (Nat.add_0_r (lck_stackp c)), <- !lookup_drop. by rewrite Hst.
Qed.

Lemma same_locks_refl c : same_locks c c.
Proof. done. Qed.

Lemma same_locks_trans c1 c2 c3 : same_locks c1 c2 -> same_locks c2 c3 -> same_locks c1 c3.
Proof.
  intros [S1 H1 L1 D1] [S2 H2 L2 D2]. split; [congruence..|]. rewrite S1 in D2. congruence.
Qed.

Lemma lock_ok_same c c' : lock_ok c -> same_locks c c' -> lock_ok c'.
Proof.
  intros [Hlen Hsp Hh] Hs. pose proof (top_lock_same _ _ Hlen Hs). destruct Hs.
  split; [congruence|lia|congruence].
Qed.

Lemma same_locks_pop l c c' :
  lock_ok c -> (0 < lck_stackp c)%nat -> same_locks (push_lock l c) c' ->
  same_locks c (pop_lock c').
Proof.
  intros [Hlen Hsp Hh] H0 [S' H' L' D']. cbn in *.
  assert (same_locks c (set_held (held c) (set_stack (lck_stack c') (lck_stackp c' + 1) c'))) as Hs.
  { rewrite length_insert in L'. split; cbn; [lia|done|done|].
    rewrite <- (drop_insert_lt (lck_stack c) (lck_stackp c) (lck_stackp c - 1) l) by lia.
    replace (lck_stackp c) with (lck_stackp c - 1 + 1)%nat at 1 2 by lia.
    by rewrite <- !drop_drop, D'. }
  pose proof (top_lock_same _ _ Hlen Hs) as Ht.
  destruct Hs as [? ? ? ?]. split; cbn in *; try done. rewrite Hh, <- Ht. done.
Qed.
End locks.

(** ** Predecessors in the free list *)

(** The tail and one block of a tiling. *)
Lemma split_tail {A} (p1 p2 bl0 : list A) b t :
  p1 ++ b :: p2 = bl0 ++ [t] ->
  (p2 = [] /\ t = b /\ bl0 = p1) \/ exists p2', p2 = p2' ++ [t] /\ bl0 = p1 ++ b :: p2'.
Proof.
  destruct p2 as [|x p2 _] using rev_ind; intros H.
  - left. by apply app_inj_tail in H as [-> ->].
  - right. rewrite app_comm_cons, app_assoc in H. apply app_inj_tail in H as [<- ->]. by exists p2.
Qed.

(** The predecessor of [b] in the circular free list. *)
Lemma prev_node p1 b p2 bl0 t k p :
  p1 ++ b :: p2 = bl0 ++ [t] -> b_live t = false ->
  frees p2 ++ frees p1 = k ++ [p] -> last_off (b_off t) (frees p1) = b_off p.
Proof.
  intros Hbl Ht Hk. destruct (frees p1) as [|y l _] eqn:Hp1 using rev_ind.
  - cbn. apply split_tail in Hbl as [(-> & -> & _)|(p2' & -> & _)].
    + by destruct k.
    + rewrite frees_app, frees_cons_free, app_nil_r in Hk by done. cbn in Hk.
      by apply app_inj_tail in Hk as [_ <-].
  - unfold last_off. rewrite last_snoc. rewrite app_assoc in Hk.
    by apply app_inj_tail in Hk as [_ <-].
Qed.

Lemma alone p1 b p2 bl0 t :
  p1 ++ b :: p2 = bl0 ++ [t] -> b_live t = false ->
  frees p2 ++ frees p1 = [] -> frees p1 = [] /\ p2 = [] /\ t = b.
Proof.
  intros Hbl Ht [H2 H1]%app_nil. split; [done|].
  apply split_tail in Hbl as [(-> & -> & _)|(p2' & -> & _)]; [done|].
  rewrite frees_app, frees_cons_free in H2 by done. by destruct (frees p2').
Qed.

Lemma others_apart p1 b p2 lo hi x :
  tiles (p1 ++ b :: p2) lo hi -> x ∈ p1 \/ x ∈ p2 -> b_end x <= b_off b \/ b_end b <= b_off x.
Proof.
  intros (H1 & H2 & ? & ?)%tiles_mid [Hx|Hx].
  - left. by eapply tiles_in in H1 as (? & ? & ? & ?).
  - right. by eapply tiles_in in H2 as (? & ? & ? & ?).
Qed.

(** The other nodes of the free list around a block [b], as the cycle
    [k ++ [p]]. *)
Lemma cycle_apart p1 b p2 sz k p :
  tiles (p1 ++ b :: p2) sizeof_Header sz -> frees p2 ++ frees p1 = k ++ [p] ->
  (forall x, x ∈ k ++ [p] ->
     x ∈ p1 ++ b :: p2 /\ b_live x = false /\
     48 <= b_off x /\ b_end x <= sz /\ 16 <= b_sz x /\
     (b_end x <= b_off b \/ b_end b <= b_off x)) /\
  (forall x, x ∈ k -> b_off x + 16 <= b_off p \/ b_off p + 16 <= b_off x).
Proof.
  intros Ht Hk.
  assert (forall x, x ∈ k ++ [p] -> (x ∈ p1 \/ x ∈ p2) /\ b_live x = false) as Hin.
  { intros x Hx. rewrite <- Hk in Hx. apply elem_of_app in Hx.
    rewrite !elem_of_frees in Hx. tauto. }
  assert (forall x, x ∈ k ++ [p] -> x ∈ p1 ++ b :: p2) as Hin'.
  { intros x [Hx _]%Hin. apply elem_of_app. rewrite elem_of_cons. tauto. }
  split.
  - intros x Hx. destruct (tiles_in _ _ _ _ Ht (Hin' _ Hx)) as (? & ? & ? & ?).
    destruct (Hin _ Hx). repeat split; try done; [by apply Hin'|].
    by eapply others_apart.
  - intros x Hx.
    assert (NoDup (k ++ [p])) as Hnd.
    { rewrite <- Hk. pose proof (NoDup_frees_off _ _ _ Ht) as Hnd%NoDup_fmap_1.
      rewrite frees_app in Hnd. rewrite Permutation_app_comm.
      apply NoDup_app in Hnd as (Hn1 & Hn2 & Hn3). apply NoDup_app.
      destruct (b_live b) eqn:Hb.
      - by rewrite frees_cons_live in * by done.
      - rewrite frees_cons_free in * by done. apply NoDup_cons in Hn3 as [_ Hn3].
        split; [done|]. split; [|done]. intros y Hy Hy'. apply (Hn2 _ Hy). by right. }
    assert (x ∈ k ++ [p] /\ p ∈ k ++ [p]) as [Hx'%Hin' Hp'%Hin'].
    { rewrite !elem_of_app, !list_elem_of_singleton. auto. }
    pose proof (tiles_in _ _ _ _ Ht Hx'). pose proof (tiles_in _ _ _ _ Ht Hp').
    destruct (tiles_disjoint _ _ _ x p Ht) as [->|Hd]; [done..| |unfold b_end in *; lia].
    apply NoDup_app in Hnd as (_ & Hnd & _). destruct (Hnd p Hx). by left.
Qed.

Lemma live_free_apart bl lo hi x y :
  tiles bl lo hi -> x ∈ bl -> y ∈ bl -> b_live x = true -> b_live y = false ->
  lo <= b_off x /\ (b_end x <= b_off y \/ b_end y <= b_off x).
Proof.
  intros Ht Hx Hy Hl Hf. split; [by eapply tiles_in in Ht as (? & _)|].
  destruct (tiles_disjoint _ _ _ _ _ Ht Hx Hy) as [->|]; [|done]. congruence.
Qed.

Lemma elem_of_mid_weaken {A} (x b : A) p1 p2 : x ∈ p1 ++ p2 -> x ∈ p1 ++ b :: p2.
Proof. rewrite !elem_of_app, elem_of_cons. tauto. Qed.

Lemma elem_of_mid {A} (b : A) p1 p2 : b ∈ p1 ++ b :: p2.
Proof. apply elem_of_app. right. by left. Qed.

#[export] Hint Resolve elem_of_mid_weaken elem_of_mid : memory.

Lemma hd_off_range l d lo hi :
  (forall x, x ∈ l -> lo <= b_off x < hi) -> l <> [] -> lo <= hd_off l d < hi.
Proof. intros H ?. destruct l; [done|]. apply H. by left. Qed.

Lemma linked_hdr m m' bl bl' : linked m m' bl bl' ->
  ld32 m' h_hlen = ld32 m h_hlen /\ ld32 m' h_version = ld32 m h_version /\
  ld64 m' h_size = ld64 m h_size /\ ld64 m' h_mtime = ld64 m h_mtime /\
  ld64 m' h_bytes_free = ld64 m h_bytes_free /\ ld64 m' h_userdata = ld64 m h_userdata.
Proof.
  intros [_ _ Hlo Hhi _]. layout.
  repeat split; symmetry; (apply ld64_same || apply ld32_same);
    first [eapply same_on_mono; [exact Hlo|lia..] | eapply same_on_mono; [exact Hhi|lia..]].
Qed.

Lemma kept_linked c c' m' bl bl' v :
  linked (data c) m' bl bl' -> (forall x, x ∈ bl -> sizeof_Header <= b_off x) ->
  mem_p c' = Mapped -> mem_sz c <= mem_sz c' -> data c' = st64 m' h_bytes_free v ->
  kept bl c c'.
Proof.
  intros Hlink Hoff Hp Hsz Hd.
  pose proof (linked_hdr _ _ _ _ Hlink) as (_ & _ & _ & E4 & _ & E6).
  split; try done; unfold hdr; rewrite Hd.
  - layout. mem_simpl. by rewrite E6.
  - layout. mem_simpl. by rewrite E4.
  - intros x Hx Hl. pose proof (lk_live _ _ _ _ Hlink x Hx Hl). specialize (Hoff x Hx).
    layout. frame.
Qed.

(** ** NVcontainer itself: make_current is not overridden *)
Lemma wp_base_make_current {os : Os} {Hos : OsOk os} {X} (Q : unit -> obj X -> Prop) s :
  mappable (core s) -> Q tt (Obj (remap (core s)) (ext s)) -> wp base_make_current Q s.
Proof.
  destruct s as [c x]. intros (Hmap & Hsz & Hl & Hv) HQ. cbn [core ext] in *.
  assert (forall c', cur c' = cur c -> remap c = set_map Mapped (f_size (cur c)) c' ->
    wp (match os_fstat with
        | Some e => raise (SystemError "fstat failed" e)
        | None =>
          c0 <- getc id ;;
          if f_size (cur c0) <=? sizeof_Header + sizeof_FreeList
          then raise (Error "info-record shrunk") else
          match os_mmap (f_size (cur c0)) with
          | Some e => modc (fun c1 => set_map NullMap (f_size (cur c1)) c1) ;;;
                      raise (SystemError "mmap failed" e)
          | None =>
            modc (fun c1 => set_map Mapped (f_size (cur c1)) c1) ;;;
            (if negb (ld32 (data c0) h_hlen =? sizeof_Header)
            then rename_to_bad_and_close ;;; raise (Error "wrong header size")
            else if negb (ld32 (data c0) h_version =? 2)
            then rename_to_bad_and_close ;;; raise (Error "wrong header version")
            else ret tt)
          end
        end) Q (Obj c' x)) as Hremap.
  { intros c' Hcur Hr. rewrite ok_fstat. repeat mstep. cbn [id core].
    unfold data in *. rewrite Hcur.
    destruct (Z.leb_spec (f_size (cur c)) (sizeof_Header + sizeof_FreeList)); [lia|].
    rewrite ok_mmap. repeat mstep. rewrite Hl, Hv, !Z.eqb_refl. cbn [negb]. mstep.
    cbn [core ext] in *. rewrite Hr in HQ. by rewrite Hcur. }
  unfold base_make_current. do 3 mstep. unfold remap in *. cbn [core] in *.
  destruct Hmap as [Hmap|[Hmap Hbig]].
  - rewrite decide_True by done. mstep. apply Hremap; [done|].
    rewrite decide_False; [done|]. intros [? _]. congruence.
  - rewrite decide_False by congruence. unfold is_current. repeat mstep.
    rewrite <- (upd_self (Obj c x)). repeat mstep. rewrite upd_self. cbn [core].
    change (ld64 (data c) h_size) with (hdr c h_size).
    destruct (Z.eqb_spec (mem_sz c) (hdr c h_size)); repeat mstep.
    + rewrite decide_True in HQ by done. exact HQ.
    + apply Hremap; [done|]. rewrite decide_False; [done|]. by intros [_ ?].
Qed.

(** NVList inherits make_current; it has no derived members. *)
#[export] Instance base_vtable_ok {os : Os} : VTableOk unit.
Proof.
  refine {| vt_fresh := fun _ => tt; vt_ready := fun _ => True |}.
  intros s Hos Hm _. exists tt. split; [|left; by destruct (ext s)].
  assert (wp base_make_current (fun _ s' => s' = Obj (remap (core s)) (ext s)) s) as H
    by (by apply wp_base_make_current).
  apply wp_inv in H as ([] & s' & Heq & ->). etransitivity; [exact Heq|]. by destruct (ext s).
Defined.

Lemma stable_unit {os : Os} bl c : stable bl (fun _ : unit => True) c.
Proof. done. Qed.
