(* ===== verification/Nvalloc.v ===== *)
(** * Nvalloc.v: nvalloc implements first fit

    The free-list search, the growth of the file and the split of a free block
    (NVcontainer.cc, nvalloc and resize) against [alloc_abs] of Heap.v. *)
From S2P Require Import Prelude Memory Container Heap Alloc.

Definition tail_sz (bl : list blk) : Z :=
  match last bl with Some b => b_sz b | None => 0 end.

(** The file grows, to a multiple of 64 KiB, when no block fits. *)
Definition grown_size (r sz : Z) (bl : list blk) : Z :=
  match alloc_abs r bl with
  | Some _ => sz
  | None => page_round (sz + (r + 16 - tail_sz bl))
  end.

Definition make_room (r sz : Z) (bl : list blk) : list blk :=
  grow (grown_size r sz bl - sz) bl.

Definition alloc_spec (r sz : Z) (bl : list blk) : option (Z * list blk) :=
  alloc_abs r (make_room r sz bl).

(** The bytes nvalloc takes of the free block [b]. *)
Definition taken (b : blk) (r : Z) : Z := if decide (b_sz b < r + 16) then b_sz b else r.

(** The memory after growing the file from [sz] to [n] bytes, the tail at [o]. *)
Definition resized (m : mem) (o sz n : Z) : mem :=
  let m1 := st64 m h_bytes_free (ld64 m h_bytes_free + (n - sz)) in
  let m2 := st64 m1 (o + 8) (ld64 m (o + 8) + (n - sz)) in
  st64 m2 h_size n.

(** The memory after the accounting and the size word. *)
Definition carved (b : blk) (r : Z) (m' : mem) : mem :=
  st64 (st64 m' h_bytes_free (w64 (ld64 m' h_bytes_free - taken b r))) (b_off b) (taken b r).

(** A heap whose free block [b] is the one to take. *)
Record takeable (c c1 : container) (bl : list blk) (r : Z) (p1 : list blk) (b : blk)
    (p2 : list blk) : Prop := {
  tk_heap : heap c1 (p1 ++ b :: p2);
  tk_free : b_live b = false;
  tk_room : room_for r p2 <= b_sz b;
  tk_spec : alloc_spec r (mem_sz c) bl = Some (b_off b, p1 ++ carve b r ++ p2);
  tk_kept : kept bl c c1;
  tk_locks : same_locks c c1;
  tk_live : forall x, x ∈ bl -> b_live x = true -> x ∈ p1 ++ p2;
  tk_size : mem_sz c1 = grown_size r (mem_sz c) bl
}.

(** ** Properties of the abstract allocator *)
Lemma alloc_abs_split r p1 b p2 :
  b_live b = false -> Forall (fun x => b_sz x < r) (frees p1) -> room_for r p2 <= b_sz b ->
  alloc_abs r (p1 ++ b :: p2) = Some (b_off b, p1 ++ carve b r ++ p2).
Proof.
  intros Hb. induction p1 as [|x p1 IH]; intros Hf Hr; cbn [app alloc_abs].
  - by rewrite decide_True.
  - assert (Forall (fun y => b_sz y < r) (frees p1)) as Hf'.
    { destruct (b_live x) eqn:Hx; [by rewrite frees_cons_live in Hf|].
      rewrite frees_cons_free in Hf by done. by inversion Hf. }
    rewrite decide_False.
    + by rewrite IH.
    + intros [Hx Hr']. rewrite frees_cons_free in Hf by done. inversion Hf; subst.
      destruct p1; cbn in Hr'; lia.
Qed.

Lemma alloc_abs_none r p1 b :
  b_live b = false -> Forall (fun x => b_sz x < r) (frees p1) -> b_sz b < r + 16 ->
  alloc_abs r (p1 ++ [b]) = None.
Proof.
  intros Hb. induction p1 as [|x p1 IH]; intros Hf Hr; cbn [app alloc_abs].
  - rewrite decide_False; [done|]. cbn. lia.
  - assert (Forall (fun y => b_sz y < r) (frees p1)) as Hf'.
    { destruct (b_live x) eqn:Hx; [by rewrite frees_cons_live in Hf|].
      rewrite frees_cons_free in Hf by done. by inversion Hf. }
    rewrite decide_False.
    + by rewrite IH.
    + intros [Hx Hr']. rewrite frees_cons_free in Hf by done. inversion Hf; subst.
      destruct p1; cbn in Hr'; lia.
Qed.

Lemma grow_app n p b : grow n (p ++ [b]) = p ++ [Blk (b_off b) (b_sz b + n) (b_live b)].
Proof.
  induction p as [|x p IH]; cbn [app grow]; [done|]. rewrite IH. by destruct p.
Qed.

Lemma tail_sz_app p b : tail_sz (p ++ [b]) = b_sz b.
Proof. unfold tail_sz. by rewrite last_snoc. Qed.

Lemma grow_0 bl : grow 0 bl = bl.
Proof.
  induction bl as [|b bl IH]; cbn [grow]; [done|].
  destruct bl; [destruct b; cbn; by rewrite Z.add_0_r|by rewrite IH].
Qed.

Lemma alloc_abs_inv r bl p bl' :
  alloc_abs r bl = Some (p, bl') ->
  exists p1 b p2, bl = p1 ++ b :: p2 /\ b_live b = false /\ room_for r p2 <= b_sz b /\
    bl' = p1 ++ carve b r ++ p2 /\ p = b_off b.
Proof.
  revert p bl'. induction bl as [|b bl IH]; intros p bl'; cbn [alloc_abs]; [done|].
  case_decide as Hd.
  - intros [= <- <-]. exists [], b, bl. destruct Hd. split_and!; done.
  - destruct (alloc_abs r bl) as [[p' rest]|]; [|done]. intros [= <- <-].
    destruct (IH _ _ eq_refl) as (p1 & b' & p2 & -> & ? & ? & -> & ?).
    by exists (b :: p1), b', p2.
Qed.

Lemma carve_cons b r : exists c2, carve b r = Blk (b_off b) (taken b r) true :: c2.
Proof. unfold carve, taken. case_decide; by eexists. Qed.

Lemma taken_ge b r p2 : room_for r p2 <= b_sz b -> r <= taken b r.
Proof. unfold room_for, taken. intros H. case_decide; destruct p2; lia. Qed.

(** Growing changes the last block only, which is free. *)
Lemma make_room_tail r sz p t :
  b_live t = false -> exists t', make_room r sz (p ++ [t]) = p ++ [t'] /\ b_live t' = false.
Proof. intros Ht. unfold make_room. rewrite grow_app, Ht. by eexists. Qed.

(** The block alloc_spec picks lies outside the live blocks, which stay. *)
Lemma alloc_spec_new m sz r bl p bl' :
  hmem m sz bl -> alloc_spec r sz bl = Some (p, bl') -> forall sz', tiles bl' sizeof_Header sz' ->
  exists t, Blk p t true ∈ bl' /\ r <= t /\ p mod 16 = 0 /\
    forall y, y ∈ bl -> b_live y = true -> y ∈ bl' /\ (b_end y <= p \/ p + t <= b_off y).
Proof.
  intros Hm Hspec sz' Ht'.
  destruct (alloc_abs_inv _ _ _ _ Hspec) as (p1 & b & p2 & Hbl & Hb & Hroom & -> & ->).
  destruct (hm_tail _ _ _ Hm) as (bl0 & t & -> & Htf & _).
  destruct (make_room_tail r sz bl0 t Htf) as (t' & Ht & _). rewrite Hbl in Ht.
  destruct (carve_cons b r) as [c2 Hc2]. rewrite Hc2 in *.
  exists (taken b r). split; [apply elem_of_mid|]. split; [by eapply taken_ge|]. split.
  - apply tiles_app in Ht' as (mid & Ht1 & Ht2). cbn [app tiles] in Ht2.
    destruct Ht2 as (Ho & _). cbn in Ho. subst mid. apply tiles_mod in Ht1. layout.
    Z.div_mod_to_equations. lia.
  - intros y Hy Hyl.
    assert (y ∈ p1 ++ p2) as Hyp.
    { assert (y ∈ p1 ++ b :: p2) as Hyb.
      { rewrite Ht. apply elem_of_app in Hy as [Hy|Hy%list_elem_of_singleton]; [|congruence].
        apply elem_of_app. by left. }
      rewrite elem_of_app, elem_of_cons in *. destruct Hyb as [?|[->|?]]; [by left|congruence|by right]. }
    assert (y ∈ p1 \/ y ∈ c2 ++ p2) as Hy' by (rewrite !elem_of_app in *; tauto).
    split; [rewrite !elem_of_app, elem_of_cons in *; tauto|].
    destruct (others_apart _ _ _ _ _ _ Ht' Hy'); layout; cbn [b_off b_sz] in *; lia.
Qed.

(** ** The search *)
Section with_os.
Context {os : Os} {Hos : OsOk os} {X : Type} {vt : VTable X} {vo : VTableOk X}.
Implicit Types s : obj X.

Lemma wp_fl_search r fh t l : forall fuel prv nxt m s (Q : Z * Z -> obj X -> Prop),
  (length l < fuel)%nat -> lseg m (l ++ [t]) nxt -> b_off t = fh ->
  NoDup (b_off <$> l ++ [t]) ->
  (forall b, b ∈ l ++ [t] -> 0 < b_off b /\ ready_at (core s) (b_off b) 16) ->
  (forall l1 b l2, l ++ [t] = l1 ++ b :: l2 -> Forall (fun x => b_sz x < r) l1 ->
     l2 = [] \/ r <= b_sz b -> Q (last_off prv l1, b_off b) (upd m s)) ->
  wp (fl_search fuel r fh prv (hd_off (l ++ [t]) nxt)) Q (upd m s).
Proof.
  induction l as [|b l IH]; intros [|fuel] prv nxt m s Q Hf Hl Ht Hnd Hrd HQ;
    cbn [length] in Hf; try lia; cbn [app lseg hd_off fl_search] in *.
  - destruct Hl as (Hn & Hs & _). destruct (Hrd t) as [? (? & ? & ?)]; [by left|].
    repeat mstep. rewrite Hs, Ht, Z.eqb_refl, andb_false_r. mstep. rewrite <- Ht.
    apply (HQ [] t []); [done|done|by left].
  - destruct Hl as (Hn & Hs & Hl). destruct (Hrd b) as [? (? & ? & ?)]; [by left|].
    repeat mstep. rewrite Hs.
    rewrite fmap_cons in Hnd. apply NoDup_cons in Hnd as [Hni Hnd].
    assert (b_off b <> fh) as Hne.
    { intros Heq. apply Hni. rewrite Heq, <- Ht. apply list_elem_of_fmap_2.
      apply elem_of_app. right. by left. }
    apply Z.eqb_neq in Hne as ->. rewrite andb_true_r.
    destruct (Z.ltb_spec (b_sz b) r).
    + repeat mstep. rewrite Hn. apply IH; [lia|done|done|done|..].
      * intros x Hx. apply Hrd. by right.
      * intros l1 x l2 Heq Hall Hor. rewrite Heq in *.
        specialize (HQ (b :: l1) x l2). 
        replace (last_off (b_off b) l1) with (last_off prv (b :: l1)).
        { apply HQ; [done|by constructor|done]. }
        unfold last_off. rewrite last_cons. by destruct (last l1).
    + mstep. apply (HQ [] b (l ++ [t])); [done|done|by right].
Qed.

(** *** nvalloc_take *)
Section take.
Context (m : mem) (s : obj X) (p1 p2 : list blk) (b : blk) (r : Z).
Hypothesis Hm : hmem m (mem_sz (core s)) (p1 ++ b :: p2).
Hypothesis Hmap : mem_p (core s) = Mapped.
Hypothesis Hlim : mem_sz (core s) < limit.
Hypothesis Hfree : b_live b = false.
Hypothesis Hr : 16 <= r.
Hypothesis Hmod : r mod 16 = 0.

Lemma take_off : 48 <= b_off b /\ b_end b <= mem_sz (core s) /\ 16 <= b_sz b.
Proof using Hm.
  destruct (tiles_in _ _ _ b (hm_tiles _ _ _ Hm)) as (? & ? & ? & ?); [|done].
  apply elem_of_app. right. by left.
Qed.

Lemma wp_take_exact (Q : Z -> obj X -> Prop) :
  b_sz b < r + 16 -> r <= b_sz b -> p2 <> [] ->
  (forall m', linked m m' (p1 ++ p2) (p1 ++ Blk (b_off b) (b_sz b) true :: p2) ->
     Q (b_sz b) (upd m' s)) ->
  wp (nvalloc_take r (last_off (ld64 m h_freelist) (frees p1)) (b_off b) (ld64 m h_freelist))
    Q (upd m s).
Proof.
  intros Hs1 Hs2 Hp2 HQ. pose proof take_off as (Ho1 & Ho2 & Ho3).
  pose proof (hm_tiles _ _ _ Hm) as Ht.
  destruct (hm_tail _ _ _ Hm) as (bl0 & t & Hbl & Htf & Hfh). rewrite Hfh.
  destruct (frees p2 ++ frees p1) as [|p k _] eqn:Hk using rev_ind.
  { by edestruct alone as (_ & ? & _). }
  rewrite (prev_node _ _ _ _ _ _ _ Hbl Htf Hk).
  destruct (cycle_apart _ _ _ _ _ _ Ht Hk) as [Hoth Hkp].
  pose proof (hm_circ _ _ _ Hm) as Hc.
  rewrite frees_app, frees_cons_free, circ_rotate_cons, Hk in Hc by done.
  destruct (Hoth p) as (Hpin & Hpf & ? & ? & ? & ?); [apply elem_of_app; right; by left|].
  assert (b_end b <= b_off t).
  { apply split_tail in Hbl as [(? & _)|(p2' & -> & _)]; [done|].
    apply tiles_mid in Ht as (_ & Ht & _).
    eapply tiles_in in Ht as (? & _); [done|]. apply elem_of_app. right. by left. }
  unfold nvalloc_take, limit, b_end in *.
  pose proof (circ_node _ _ b Hc ltac:(by left)) as Hbs.
  pose proof (circ_next _ _ _ Hc) as Hbn.
  repeat mstep. rewrite Hbs.
  destruct (Z.ltb_spec (b_sz b) r); [lia|].
  rewrite (w64_small (r + _)) by (unfold sizeof_FreeList; lia).
  destruct (Z.ltb_spec (b_sz b) (r + sizeof_FreeList)); [|unfold sizeof_FreeList in *; lia].
  destruct (Z.eqb_spec (b_off b) (b_off t)); [lia|].
  assert (0 <= hd_off (k ++ [p]) (b_off b) < 2 ^ 64).
  { apply hd_off_range; [|by destruct k]. intros x Hx.
    destruct (Hoth _ Hx) as (_ & _ & ? & ? & ? & _). unfold b_end in *. lia. }
  rewrite <- Hbn in *.
  repeat mstep. apply HQ.
  layout. split.
  - rewrite frees_app, frees_cons_live, circ_rotate, Hk by done.
    eapply circ_remove; [exact Hc|..].
    + intros x Hx. destruct (Hkp x Hx); frame.
    + rewrite ld64_st64, Hbn by done. by rewrite !hd_off_app.
    + mem_simpl. eapply circ_node; [done|]. by rewrite app_comm_cons; auto with memory.
  - apply split_tail in Hbl as [(? & _)|(p2' & -> & _)]; [done|].
    exists (p1 ++ Blk (b_off b) (b_sz b) true :: p2'), t. rewrite <- app_assoc. 
    repeat split; [done|]. layout. by mem_simpl.
  - layout. frame.
  - layout. frame.
  - intros x Hx Hl. 
    destruct (live_free_apart _ _ _ x p Ht); auto with memory; layout; frame.
Qed.

Lemma tail_split t bl0 :
  p1 ++ b :: p2 = bl0 ++ [t] ->
  exists bl0' t', p1 ++ Blk (b_off b) r true :: Blk (b_off b + r) (b_sz b - r) false :: p2 =
    bl0' ++ [t'] /\ (p2 = [] /\ t = b /\ t' = Blk (b_off b + r) (b_sz b - r) false \/
                    p2 <> [] /\ t' = t /\ t <> b /\ b_end b <= b_off t).
Proof using Hm.
  intros Hbl. apply split_tail in Hbl as [(-> & -> & _)|(p2' & -> & _)].
  - eexists (p1 ++ [_]), _. rewrite <- app_assoc. split; [done|]. by left.
  - exists (p1 ++ Blk (b_off b) r true :: Blk (b_off b + r) (b_sz b - r) false :: p2'), t.
    rewrite <- app_assoc. split; [done|]. right.
    pose proof (hm_tiles _ _ _ Hm) as Ht. apply tiles_mid in Ht as (_ & Ht & ?).
    eapply tiles_in in Ht as (? & _); [|apply elem_of_app; right; by left].
    repeat split; try done; [by destruct p2'|]. intros ->. unfold b_end in *. lia.
Qed.

(** The list of free blocks in which the rest of the block [b] took its place. *)
Lemma split_linked t bl0' t' p k m1 : b_live t = false -> frees p2 ++ frees p1 = k ++ [p] -> circ m (b :: k ++ [p]) ->
  ld64 m (b_off b) = hd_off (k ++ [p]) (b_off b) ->
  p1 ++ Blk (b_off b) r true :: Blk (b_off b + r) (b_sz b - r) false :: p2 = bl0' ++ [t'] ->
  (p2 = [] /\ t = b /\ t' = Blk (b_off b + r) (b_sz b - r) false \/
   p2 <> [] /\ t' = t /\ t <> b /\ b_end b <= b_off t) ->
  (forall x, x ∈ k -> same_on m m1 (b_off x) (b_off x + 16)) ->
  ld64 m1 (b_off b + r) = ld64 m (b_off b) -> ld64 m1 (b_off b + r + 8) = b_sz b - r ->
  ld64 m1 (b_off p) = b_off b + r -> ld64 m1 (b_off p + 8) = b_sz p ->
  same_on m m1 0 24 -> same_on m m1 32 48 -> ld64 m1 24 = b_off t' ->
  (forall x, x ∈ p1 ++ p2 -> b_live x = true -> same_on m m1 (b_off x) (b_end x)) ->
  linked m m1 (p1 ++ p2)
    (p1 ++ Blk (b_off b) r true :: Blk (b_off b + r) (b_sz b - r) false :: p2).
Proof using All.
  intros Htf Hk Hc Hbn Hbl' Ht' Hfr Hn1 Hs1 Hnp Hsp Hlo Hhi Hfh' Hlive. split; try done.
  - rewrite frees_app, frees_cons_live, frees_cons_free, circ_rotate_cons, Hk by done.
    eapply circ_replace; try done. cbn [b_off]. rewrite Hn1, Hbn. by rewrite !hd_off_app.
  - exists bl0', t'. repeat split; try done. destruct Ht' as [(_ & _ & ->)|(_ & -> & _)]; done.
Qed.

Lemma wp_take_split (Q : Z -> obj X -> Prop) :
  r + 16 <= b_sz b ->
  (forall m', linked m m' (p1 ++ p2)
       (p1 ++ Blk (b_off b) r true :: Blk (b_off b + r) (b_sz b - r) false :: p2) ->
     Q r (upd m' s)) ->
  wp (nvalloc_take r (last_off (ld64 m h_freelist) (frees p1)) (b_off b) (ld64 m h_freelist))
    Q (upd m s).
Proof using All.
  intros Hs HQ. pose proof take_off as (Ho1 & Ho2 & Ho3).
  pose proof (hm_tiles _ _ _ Hm) as Ht.
  destruct (hm_tail _ _ _ Hm) as (bl0 & t & Hbl & Htf & Hfh). rewrite Hfh.
  pose proof (hm_circ _ _ _ Hm) as Hc.
  rewrite frees_app, frees_cons_free, circ_rotate_cons in Hc by done.
  destruct (tail_split _ _ Hbl) as (bl0' & t' & Hbl' & Ht').
  unfold nvalloc_take. layout.
  pose proof (circ_node _ _ b Hc ltac:(by left)) as Hbs.
  repeat mstep. rewrite Hbs.
  destruct (Z.ltb_spec (b_sz b) r); [lia|].
  rewrite (w64_small (r + _)) by (layout; lia).
  destruct (Z.ltb_spec (b_sz b) (r + 16)); [lia|].
  repeat mstep. rewrite Hbs. rewrite (w64_small (b_sz b - r)) by lia.
  destruct (frees p2 ++ frees p1) as [|p k _] eqn:Hk using rev_ind.
  - destruct (alone _ _ _ _ _ Hbl Htf Hk) as (Hp1 & Hp2 & ->). rewrite Hp1.
    unfold last_off. cbn [last]. rewrite Z.eqb_refl. cbn [negb].
    repeat mstep. apply HQ. layout. split.
    + rewrite frees_app, frees_cons_live, frees_cons_free, Hp1, Hp2 by done.
      apply circ_single; cbn [b_off b_sz]; mem_simpl; rewrite ld64_st64; lia.
    + exists bl0', t'. destruct Ht' as [(_ & _ & ->)|(? & _)]; [|done].
      repeat split; [done|]. cbn [b_off]. layout. rewrite ld64_st64; lia.
    + layout. frame.
    + layout. frame.
    + intros x Hx Hl. destruct (live_free_apart _ _ _ x b Ht); auto with memory; layout; frame.
  - rewrite (prev_node _ _ _ _ _ _ _ Hbl Htf Hk).
    destruct (cycle_apart _ _ _ _ _ _ Ht Hk) as [Hoth Hkp].
    destruct (Hoth p) as (Hpin & Hpf & ? & ? & ? & ?); [apply elem_of_app; right; by left|].
    destruct (Z.eqb_spec (b_off p) (b_off b)); [layout; lia|]. cbn [negb].
    pose proof (circ_next _ _ _ Hc) as Hbn.
    assert (0 <= ld64 m (b_off b) < 2 ^ 64) by apply ld64_range.
    repeat mstep. mem_simpl.
    pose proof (fun m1 => split_linked t bl0' t' p k m1 Htf Hk Hc Hbn Hbl' Ht') as Hlink.
    assert (forall x, x ∈ p1 ++ p2 -> b_live x = true ->
      48 <= b_off x /\ (b_end x <= b_off b \/ b_end b <= b_off x) /\
      (b_end x <= b_off p \/ b_end p <= b_off x)) as Hlv.
    { intros x Hx Hl. destruct (live_free_apart _ _ _ x b Ht); auto with memory.
      split; [done|]. split; [done|]. eapply live_free_apart; eauto with memory. }
    assert (ld64 m (b_off p + 8) = b_sz p) as Hps by (eapply circ_node; [done|]; by rewrite app_comm_cons; auto with memory).
    assert (forall x, x ∈ k -> (b_off x + 16 <= b_off p \/ b_off p + 16 <= b_off x) /\
      48 <= b_off x /\ (b_off x + 16 <= b_off b \/ b_end b <= b_off x)) as Hkx.
    { intros x Hx. split; [by apply Hkp|]. destruct (Hoth x) as (_ & _ & ? & ? & ? & ?);
        [apply elem_of_app; by left|]. layout. split; lia. }
    clear Hoth Hkp. 
    destruct (Z.eqb_spec (b_off b) (b_off t)); repeat mstep; apply HQ, Hlink;
      clear Hlink HQ; layout; mem_simpl; rewrite ?ld64_st64 by lia; try done;
      try solve [frame];
      try (intros x Hx); try (intros Hl; destruct (Hlv x Hx Hl) as (? & ? & ?); frame);
      try (destruct (Hkx x Hx) as (? & ? & ?); frame).
    + destruct Ht' as [(_ & _ & ->)|(_ & -> & _ & ?)]; [done|lia].
    + destruct Ht' as [(_ & -> & ->)|(_ & -> & _ & ?)]; done.
Qed.

Lemma wp_take (Q : Z -> obj X -> Prop) :
  room_for r p2 <= b_sz b ->
  (forall m', linked m m' (p1 ++ p2) (p1 ++ carve b r ++ p2) -> Q (taken b r) (upd m' s)) ->
  wp (nvalloc_take r (last_off (ld64 m h_freelist) (frees p1)) (b_off b) (ld64 m h_freelist))
    Q (upd m s).
Proof using All.
  intros Hroom. unfold carve, taken. case_decide as Hs; cbn [app]; intros HQ.
  - assert (p2 <> []) by (intros Hp; rewrite Hp in Hroom; cbn in Hroom; lia).
    apply wp_take_exact; try done. unfold room_for in Hroom. destruct p2; [done|lia].
  - apply wp_take_split; [lia|done].
Qed.

Lemma total_carve : total (frees (p1 ++ carve b r ++ p2)) =
  total (frees (p1 ++ b :: p2)) - taken b r.
Proof using Hfree.
  unfold carve, taken. rewrite !frees_app, (frees_cons_free b) by done. case_decide.
  - rewrite frees_cons_live by done. blk_simpl. cbn. lia.
  - rewrite frees_cons_live, frees_cons_free by done. blk_simpl. cbn [b_sz]. cbn. lia.
Qed.

Lemma apart_carve : apart (p1 ++ carve b r ++ p2).
Proof using Hm Hfree.
  pose proof (hm_apart _ _ _ Hm) as Ha. apply apart_mid in Ha as [H1 H2].
  unfold carve. case_decide; cbn [app]; apply apart_mid; split.
  - by eapply apart_snoc_live.
  - by eapply apart_cons_live.
  - by eapply apart_snoc_live.
  - split; [by left|]. by eapply apart_cons_same.
Qed.

Lemma tiles_carve : room_for r p2 <= b_sz b ->
  tiles (p1 ++ carve b r ++ p2) sizeof_Header (mem_sz (core s)).
Proof using Hm Hr Hmod.
  intros Hroom. pose proof (hm_tiles _ _ _ Hm) as (H1 & H2 & H3 & H4)%tiles_mid.
  unfold carve. case_decide; cbn [app]; apply tiles_mid_intro; try done.
  cbn [tiles b_off b_sz]. unfold b_end in *. cbn [b_off b_sz] in *.
  repeat split; [lia| |].
  - Z.div_mod_to_equations. lia.
  - by replace (b_off b + r + (b_sz b - r)) with (b_off b + b_sz b) by lia.
Qed.

Lemma taken_range : room_for r p2 <= b_sz b -> 16 <= taken b r <= b_sz b.
Proof using Hm Hr.
  intros H. pose proof take_off. unfold taken, room_for in *. case_decide; destruct p2; lia.
Qed.

Lemma carve_head : exists c2, carve b r = Blk (b_off b) (taken b r) true :: c2 /\
  (forall x, x ∈ c2 -> b_live x = false).
Proof using Type.
  unfold carve, taken. case_decide; eexists; (split; [done|]).
  - intros x Hx. by apply not_elem_of_nil in Hx.
  - intros x Hx. apply list_elem_of_singleton in Hx. by subst.
Qed.

Lemma carve_live x : x ∈ p1 ++ carve b r ++ p2 -> b_live x = true ->
  x = Blk (b_off b) (taken b r) true \/ x ∈ p1 ++ p2.
Proof using Type.
  destruct carve_head as (c2 & -> & Hc2). intros Hx Hl. cbn [app] in Hx.
  rewrite !elem_of_app, elem_of_cons, elem_of_app in Hx. rewrite elem_of_app.
  destruct Hx as [?|[?|[Hx|?]]]; auto. apply Hc2 in Hx. congruence.
Qed.

Lemma hmem_carved m' : room_for r p2 <= b_sz b ->
  linked m m' (p1 ++ p2) (p1 ++ carve b r ++ p2) ->
  hmem (carved b r m') (mem_sz (core s)) (p1 ++ carve b r ++ p2).
Proof using All.
  intros Hroom Hlk. pose proof (linked_hdr _ _ _ _ Hlk) as (E1 & E2 & E3 & E4 & E5 & E6).
  destruct Hlk as [Hc Ht Hlo Hhi Hlv].
  pose proof take_off as (? & ? & ?). pose proof (taken_range Hroom) as Hrg.
  pose proof (tiles_carve Hroom) as Htl. pose proof total_carve as Htot.
  assert (Blk (b_off b) (taken b r) true ∈ p1 ++ carve b r ++ p2) as Hb0
    by (destruct carve_head as (c2 & -> & _); apply elem_of_mid).
  pose proof (hm_bytes _ _ _ Hm) as Hbf.
  pose proof (total_frees_le _ _ _ Htl).
  unfold carved. split; try done; layout.
  - mem_simpl. rewrite E3. apply (hm_size _ _ _ Hm).
  - rewrite !ld32_st64_ne by lia. rewrite E1. apply (hm_hlen _ _ _ Hm).
  - rewrite !ld32_st64_ne by lia. rewrite E2. apply (hm_version _ _ _ Hm).
  - intros x Hx Hl.
    destruct (tiles_disjoint _ _ _ _ _ Htl Hx Hb0) as [->|Hd].
    { cbn [b_off b_sz]. rewrite ld64_st64; lia. }
    destruct (tiles_in _ _ _ _ Htl Hx) as (? & ? & ? & _). layout. cbn [b_off b_sz] in Hd.
    mem_simpl. destruct (carve_live _ Hx Hl) as [->|Hx']; [cbn [b_off b_sz] in *; lia|].
    rewrite <- (hm_live _ _ _ Hm x); [|auto with memory|done].
    symmetry. apply ld64_same. eapply same_on_mono; [by apply Hlv|lia..].
  - eapply circ_frame; [done|]. intros x [Hf Hx]%elem_of_frees.
    destruct (live_free_apart _ _ _ _ _ Htl Hb0 Hx) as [? Hd]; [done..|].
    destruct (tiles_in _ _ _ _ Htl Hx) as (? & ? & ? & _). layout. cbn [b_off b_sz] in Hd. frame.
  - destruct Ht as (bl0 & t & Hbl & Htf & Hfh). exists bl0, t. repeat split; try done.
    by mem_simpl.
  - apply apart_carve.
  - rewrite ld64_st64_ne, ld64_st64_eq, E5, Hbf, <- Htot by lia.
    by rewrite !(w64_small (total _)) by lia.
Qed.
End take.

(** *** resize *)

Lemma hmem_resized m sz n bl0 t :
  hmem m sz (bl0 ++ [t]) -> b_live t = false -> sz <= n < limit -> n mod 65536 = 0 ->
  sz mod 65536 = 0 ->
  hmem (resized m (b_off t) sz n) n (grow (n - sz) (bl0 ++ [t])).
Proof.
  intros Hm Ht Hn Hmod Hmod'. rewrite grow_app, Ht.
  pose proof (hm_tiles _ _ _ Hm) as Htl. pose proof (tiles_mid _ _ _ _ _ Htl) as (H1 & H2 & ? & ?).
  destruct (tiles_in _ _ _ t Htl) as (? & ? & _ & _); [auto with memory|].
  cbn [tiles] in H2. pose proof (hm_circ _ _ _ Hm) as Hc.
  rewrite frees_app, frees_cons_free in Hc by done. cbn in Hc.
  assert (forall x, x ∈ bl0 -> 48 <= b_off x /\ b_end x <= b_off t /\ 16 <= b_sz x) as Hx0.
  { intros x Hx. destruct (tiles_in _ _ _ x H1) as (? & ? & ? & _); done. }
  pose proof (total_frees_le _ _ _ Htl). pose proof (hm_bytes _ _ _ Hm) as Hb.
  assert (ld64 m (b_off t + 8) = b_sz t) as Hts by (eapply circ_node; [done|]; auto with memory).
  unfold resized. layout. split; layout.
  - rewrite ld64_st64; lia.
  - rewrite !ld32_st64_ne by lia. apply (hm_hlen _ _ _ Hm).
  - rewrite !ld32_st64_ne by lia. apply (hm_version _ _ _ Hm).
  - apply tiles_mid_intro; cbn [b_off b_sz tiles]; layout; cbn [b_off b_sz]; try done; try lia.
    Z.div_mod_to_equations. lia.
  - intros x Hx Hl. apply elem_of_app in Hx as [Hx|Hx%list_elem_of_singleton]; [|by subst].
    destruct (Hx0 x Hx) as (? & ? & ?). mem_simpl. apply (hm_live _ _ _ Hm); [|done].
    apply elem_of_app. by left.
  - rewrite frees_app, frees_cons_free by done. eapply circ_resize; [done|..]; cbn [b_off b_sz].
    + done.
    + intros x [_ Hx]%elem_of_frees. destruct (Hx0 x Hx) as (? & ? & ?). frame.
    + by mem_simpl.
    + mem_simpl. rewrite Hts, ld64_st64; lia.
  - destruct (hm_tail _ _ _ Hm) as (bl1 & t1 & [<- <-]%app_inj_tail & _ & Hfh).
    eexists bl0, _. repeat split; [done..|]. cbn [b_off]. layout. by mem_simpl.
  - eapply apart_snoc_same; [apply (hm_apart _ _ _ Hm)|done].
  - rewrite !ld64_st64_ne by lia. rewrite ld64_st64 by lia. rewrite Hb.
    rewrite !frees_app, !frees_cons_free by done. blk_simpl. cbn. lia.
Qed.

Lemma kept_resized c c' n bl0 t :
  hmem (data c) (mem_sz c) (bl0 ++ [t]) -> b_live t = false ->
  mem_p c' = Mapped -> mem_sz c <= mem_sz c' ->
  data c' = resized (data c) (b_off t) (mem_sz c) n -> kept (bl0 ++ [t]) c c'.
Proof.
  intros Hm Ht Hp Hsz Hd. pose proof (hm_tiles _ _ _ Hm) as Htl.
  destruct (tiles_in _ _ _ t Htl) as (? & ? & ? & _); [auto with memory|].
  split; try done; unfold hdr; rewrite ?Hd; unfold resized; layout; mem_simpl; try done.
  intros x Hx Hl. destruct (live_free_apart _ _ _ x t Htl) as [? ?]; auto with memory.
  layout. frame.
Qed.

Lemma wp_make_current_grown (P : X -> Prop) bl c (Q : unit -> obj X -> Prop) s :
  mappable (core s) -> mem_sz (core s) <> hdr (core s) h_size ->
  stable bl P c -> kept bl c (set_map Mapped (f_size (cur (core s))) (core s)) -> P (ext s) ->
  (forall x, P x -> Q tt (Obj (set_map Mapped (f_size (cur (core s))) (core s)) x)) ->
  wp make_current Q s.
Proof.
  intros Hmp Hne Hst Hk Hp HQ.
  assert (remap (core s) = set_map Mapped (f_size (cur (core s))) (core s)) as Hr.
  { unfold remap. rewrite decide_False; [done|]. by intros [_ ?]. }
  destruct (Hst _ Hk) as [Hrd Hfr].
  destruct (vt_spec s _ Hmp) as (y & Heq & Hy); [by rewrite Hr|].
  rewrite Hr in *. eapply wp_of_eq; [done|]. apply HQ. by destruct Hy as [->| ->].
Qed.

Lemma wp_resize bl P n (Q : Z -> obj X -> Prop) s :
  heap (core s) bl -> lock_ok (core s) -> (0 < lck_stackp (core s))%nat ->
  stable bl P (core s) -> P (ext s) ->
  mem_sz (core s) <= n < limit -> page_round n < limit ->
  (forall c' x, heap c' (grow (page_round n - mem_sz (core s)) bl) ->
     mem_sz c' = page_round n -> kept bl (core s) c' -> same_locks (core s) c' -> P x ->
     Q (page_round n) (Obj c' x)) ->
  wp (resize n) Q s.
Proof.
  intros [Hcur Hlim Hpg Hm] Hlk Hsp Hst Hp Hn Hnl HQ. pose proof Hcur as [Hmap Hfs Hsz Hbig Hhl Hv].
  assert (n < page_round n /\ page_round n mod 65536 = 0) as [Hgt Hmod].
  { rewrite page_round_eq by (layout; lia).
    Z.div_mod_to_equations. lia. }
  unfold resize. mstep. mstep. destruct (Z.ltb_spec n (mem_sz (core s))); [lia|].
  mstep. eapply (wp_lock_excl bl P); try done. intros x Hx.
  set (s1 := Obj (push_lock ExclLock (core s)) x). rewrite <- (upd_self s1).
  set (m := data (core s1)). change (data (core s)) with m in Hm.
  mstep. mstep. rewrite ok_ftruncate. mstep. mstep.
  set (N := page_round n) in *.
  set (s2 := Obj (set_cur (File (data (core s1)) N) (core s1)) x).
  match goal with |- wp _ _ ?st => change st with (upd m s2) end.
  destruct (hm_tail _ _ _ Hm) as (bl0 & t & -> & Htf & Hfh). rewrite Hfh.
  destruct (tiles_in _ _ _ t (hm_tiles _ _ _ Hm)) as (? & ? & ? & _); [auto with memory|].
  pose proof (total_frees_le _ _ _ (hm_tiles _ _ _ Hm)) as Htot.
  pose proof (hm_bytes _ _ _ Hm) as Hb.
  assert (ld64 m (b_off t + 8) = b_sz t) as Hts.
  { eapply circ_node; [apply Hm|]. apply elem_of_frees. split; [done|]. auto with memory. }
  assert (mem_sz (core s2) = mem_sz (core s)) as Esz by done.
  assert (forall m, mem_sz (core (upd m s2)) = mem_sz (core s)) as Esz' by done.
  assert (mem_p (core s2) = Mapped) as Emap by done.
  repeat mstep.
  match goal with |- wp _ _ (upd ?x _) =>
    replace x with (resized m (b_off t) (mem_sz (core s)) N) end.
  2:{ unfold resized. rewrite !Esz'. layout. mem_simpl. rewrite !w64_small by lia. done. }
  set (m' := resized m (b_off t) (mem_sz (core s)) N).
  pose proof (hmem_resized m (mem_sz (core s)) N bl0 t Hm Htf ltac:(lia) Hmod Hpg) as Hm'.
  fold m' in Hm'.
  set (c1 := set_map Mapped N (core (upd m' s2))).
  assert (kept (bl0 ++ [t]) (core s) c1) as Hk by (eapply kept_resized; done || (cbn; lia)).
  assert (current c1) as Hc1.
  { split; try done; [apply Hm'|cbn; lia|apply Hm'|apply Hm']. }
  eapply (wp_make_current_grown P); try done.
  { split; [right; split; [done|cbn; lia]|]. split; [cbn; lia|]. split; apply Hm'. }
  { unfold hdr. change (data (core (upd m' s2))) with m'. rewrite (hm_size _ _ _ Hm'). cbn. lia. }
  intros y Hy. change (set_map _ _ _) with c1. mstep.
  eapply (wp_lock_unlock (bl0 ++ [t]) P); try done.
  - destruct (lock_ok_push ExclLock _ Hlk Hsp). by split.
  - destruct Hlk. cbn. lia.
  - by eapply stable_kept.
  - intros z Hz. mstep. change (mem_sz _) with N. apply HQ; try done.
    + by split; [eapply current_ext, Hc1|..].
    + by eapply kept_ext, Hk.
    + by eapply (same_locks_pop ExclLock).
Qed.

(** *** nvalloc_extend *)
Lemma kept_live bl bl1 c c' :
  (forall x, x ∈ bl -> b_live x = true -> x ∈ bl1) -> kept bl1 c c' -> kept bl c c'.
Proof. intros H [? ? ? ? Hl]. split; eauto. Qed.

Lemma stable_live bl bl1 P c c1 :
  (forall x, x ∈ bl -> b_live x = true -> x ∈ bl1) -> kept bl c c1 ->
  stable bl P c -> stable bl1 P c1.
Proof. intros Hl Hk Hs c' Hk'. apply Hs. eapply kept_trans; [done|]. by eapply kept_live. Qed.

Lemma alloc_spec_fits r sz bl p bl' :
  alloc_abs r bl = Some (p, bl') ->
  alloc_spec r sz bl = Some (p, bl') /\ grown_size r sz bl = sz.
Proof.
  intros H. unfold alloc_spec, make_room, grown_size. rewrite H.
  by rewrite Z.sub_diag, grow_0.
Qed.

Lemma alloc_spec_grows r sz p1 t :
  b_live t = false -> Forall (fun x => b_sz x < r) (frees p1) -> b_sz t < r + 16 ->
  0 <= sz + (r + 16 - b_sz t) < limit ->
  let n := page_round (sz + (r + 16 - b_sz t)) in
  let t' := Blk (b_off t) (b_sz t + (n - sz)) false in
  grown_size r sz (p1 ++ [t]) = n /\ grow (n - sz) (p1 ++ [t]) = p1 ++ [t'] /\
  r + 16 <= b_sz t' /\ n <= sz + (r + 16 - b_sz t) + 65536 /\
  alloc_spec r sz (p1 ++ [t]) = Some (b_off t, p1 ++ carve t' r).
Proof.
  intros Ht Hall Hs Hlim n t'.
  assert (n = page_round (sz + (r + 16 - b_sz t))) as Hn by done.
  rewrite page_round_eq in Hn by (layout; lia).
  pose proof (Z.mod_pos_bound (sz + (r + 16 - b_sz t) + 65536) 65536).
  assert (grown_size r sz (p1 ++ [t]) = n) as Hg.
  { unfold grown_size. rewrite alloc_abs_none by done. by rewrite tail_sz_app. }
  assert (grow (n - sz) (p1 ++ [t]) = p1 ++ [t']) as Hg' by (rewrite grow_app; by rewrite Ht).
  assert (r + 16 <= b_sz t') as Hr' by (cbn; lia).
  repeat split; [done..|lia|].
  unfold alloc_spec, make_room. rewrite Hg, Hg'.
  rewrite alloc_abs_split; [by rewrite app_nil_r|done..].
Qed.

Lemma takeable_now c p1 b p2 r :
  heap c (p1 ++ b :: p2) -> b_live b = false -> Forall (fun x => b_sz x < r) (frees p1) ->
  room_for r p2 <= b_sz b -> takeable c c (p1 ++ b :: p2) r p1 b p2.
Proof.
  intros Hh Hb Hall Hr.
  destruct (alloc_spec_fits r (mem_sz c) (p1 ++ b :: p2) (b_off b) (p1 ++ carve b r ++ p2))
    as [H1 H2]; [by apply alloc_abs_split|].
  split; try done.
  - apply kept_refl, Hh.
  - intros x Hx Hl. rewrite elem_of_app, elem_of_cons in *.
    destruct Hx as [?|[->|?]]; [by left|congruence|by right].
Qed.

Lemma wp_extend P p1 b p2 r (Q : Z * Z * Z -> obj X -> Prop) s :
  let fh := ld64 (data (core s)) h_freelist in
  heap (core s) (p1 ++ b :: p2) -> lock_ok (core s) -> (0 < lck_stackp (core s))%nat ->
  stable (p1 ++ b :: p2) P (core s) -> P (ext s) ->
  b_live b = false -> Forall (fun x => b_sz x < r) (frees p1) ->
  frees p2 = [] \/ r <= b_sz b -> 16 <= r -> mem_sz (core s) + r + 131072 <= limit ->
  (forall c1 x b1, takeable (core s) c1 (p1 ++ b :: p2) r p1 b1 p2 ->
     b_off b1 = b_off b -> ld64 (data c1) h_freelist = fh -> P x ->
     Q (last_off fh (frees p1), b_off b1, fh) (Obj c1 x)) ->
  wp (nvalloc_extend r (last_off fh (frees p1)) (b_off b) fh) Q s.
Proof.
  intros fh Hh Hlk Hsp Hst Hp Hb Hall Hor Hr Hlim HQ. destruct Hh as [Hcur Hl Hpg Hm] eqn:Eh.
  pose proof (hm_tiles _ _ _ Hm) as Htl. pose proof (cu_map _ Hcur) as Hmap.
  destruct (hm_tail _ _ _ Hm) as (bl0 & t & Hbl & Htf & Hfh). fold fh in Hfh.
  pose proof (hm_circ _ _ _ Hm) as Hc.
  assert (t ∈ p1 ++ b :: p2) as Htin by (rewrite Hbl; auto with memory).
  assert (ld64 (data (core s)) (b_off t + 8) = b_sz t) as Hts.
  { eapply circ_node; [done|]. by apply elem_of_frees. }
  destruct (tiles_in _ _ _ t Htl Htin) as (? & ? & ? & _).
  assert (b_end t = mem_sz (core s)) as Hend.
  { rewrite Hbl in Htl. apply tiles_mid in Htl as (_ & Htl & _). by cbn in Htl. }
  assert (b_off b = fh -> p2 = [] /\ b = t) as Hbt.
  { intros E. assert (b = t) as -> by (eapply tiles_off_inj; eauto with memory; congruence).
    apply split_tail in Hbl as [(-> & _)|(p2' & -> & _)]; [done|].
    exfalso. apply tiles_mid in Htl as (_ & Htl & _).
    eapply tiles_in in Htl as (? & _); [|auto with memory]. layout. lia. }
  unfold nvalloc_extend. rewrite <- (upd_self s). repeat mstep. rewrite Hfh, Hts.
  rewrite (w64_small (r + _)) by (layout; lia).
  destruct (Z.eqb_spec (b_off b) (b_off t)) as [Eo|Eo]; cbn [andb].
  1: destruct (Hbt ltac:(congruence)) as [-> ->];
     destruct (Z.ltb_spec (b_sz t) (r + sizeof_FreeList)) as [Hlt|Hge].
  - assert (0 <= mem_sz (core s) + (r + 16 - b_sz t) < limit) as Hrg by (layout; lia).
    destruct (alloc_spec_grows r (mem_sz (core s)) p1 t Hb Hall Hlt Hrg) as (G1 & G2 & G3 & G4 & G5).
    repeat mstep. rewrite s32_small by (layout; lia).
    rewrite w64_small by (layout; cbn; lia).
    change (mem_sz (core (upd _ s))) with (mem_sz (core s)).
    rewrite upd_self. change sizeof_FreeList with 16.
    eapply (wp_resize (p1 ++ [t]) P); try done; [layout; lia|layout; lia|].
    intros c1 x Hh1 Hs1 Hk1 Hl1 Hx. rewrite G2 in Hh1.
    set (n := page_round _) in *. set (t' := Blk _ _ false) in *.
    pose proof Hh1 as [[Hmap1 _ _ Hbig1 _ _] _ _ Hm1].
    assert (ld64 (data c1) h_freelist = b_off t) as Hfh1.
    { destruct (hm_tail _ _ _ Hm1) as (bl1 & t1 & [<- <-]%app_inj_tail & _ & ->). done. }
    assert (ld64 (data c1) (b_off t + 8) = b_sz t') as Hts1.
    { eapply (circ_node _ _ t'); [apply Hm1|]. apply elem_of_frees. auto with memory. }
    assert (mem_sz (core s) <= mem_sz c1) by apply Hk1.
    rewrite <- (upd_self (Obj c1 x)). cbn [core]. repeat mstep. rewrite Hfh1.
    repeat mstep. rewrite Hts1. destruct (Z.ltb_spec (b_sz t') (r + 16)); [lia|]. mstep.
    change (upd _ _) with (upd (data (core (Obj c1 x))) (Obj c1 x)).
    rewrite upd_self. specialize (HQ c1 x t'). rewrite Hfh in HQ. apply HQ; try done.
    split; rewrite ?app_nil_r; try done; [|congruence].
    intros y Hy Hl'. rewrite elem_of_app, list_elem_of_singleton in Hy.
    destruct Hy as [?| ->]; congruence.
  - mstep. rewrite upd_self. destruct s as [c x]. rewrite Hfh in HQ. apply HQ; try done.
    apply takeable_now; try done.
  - mstep. rewrite upd_self. destruct s as [c x]. rewrite Hfh in HQ. apply HQ; try done.
    apply takeable_now; try done.
    assert (p2 <> []) as Hp2.
    { intros ->. apply Eo. apply split_tail in Hbl as [(_ & -> & _)|(p2' & ? & _)]; [done|].
      by destruct p2'. }
    destruct Hor as [Hf2|?]; [|by destruct p2].
    apply split_tail in Hbl as [(? & _)|(p2' & -> & _)]; [done|].
    rewrite frees_app, frees_cons_free in Hf2 by done. by destruct (frees p2').
Qed.

(** *** nvalloc *)

Lemma live_others p1 b p2 x :
  b_live b = false -> x ∈ p1 ++ b :: p2 -> b_live x = true -> x ∈ p1 ++ p2.
Proof.
  intros Hb Hx Hl. rewrite elem_of_app, elem_of_cons in *.
  destruct Hx as [?|[->|?]]; [by left|congruence|by right].
Qed.

(** Neither the accounting nor the size word touches another block. *)
Lemma kept_carved c c' m' p1 b p2 bl' v w :
  tiles (p1 ++ b :: p2) sizeof_Header (mem_sz c) -> b_live b = false ->
  linked (data c) m' (p1 ++ p2) bl' -> mem_p c' = Mapped -> mem_sz c <= mem_sz c' ->
  data c' = st64 m' h_bytes_free v \/
    data c' = st64 (st64 m' h_bytes_free v) (b_off b) w -> kept (p1 ++ p2) c c'.
Proof.
  intros Htl Hb Hlink Hp Hsz Hd.
  destruct (tiles_in _ _ _ b Htl) as (? & ? & ? & _); [auto with memory|].
  pose proof (linked_hdr _ _ _ _ Hlink) as (_ & _ & _ & E4 & _ & E6).
  split; try done; unfold hdr.
  - destruct Hd as [->| ->]; layout; mem_simpl; by rewrite E6.
  - destruct Hd as [->| ->]; layout; mem_simpl; by rewrite E4.
  - intros x Hx Hl. pose proof (lk_live _ _ _ _ Hlink x Hx Hl).
    destruct (live_free_apart _ _ _ x b Htl) as [? ?]; auto with memory.
    destruct Hd as [->| ->]; layout; frame.
Qed.

Lemma wp_finish P p1 b p2 r (Q : Z -> obj X -> Prop) s :
  let c := core s in let fh := ld64 (data c) h_freelist in
  let bl' := p1 ++ carve b r ++ p2 in
  heap c (p1 ++ b :: p2) -> lock_ok c -> (lck_stackp c < LOCKSTACKSIZE)%nat ->
  stable (p1 ++ b :: p2) P c -> P (ext s) ->
  b_live b = false -> room_for r p2 <= b_sz b -> 16 <= r -> r mod 16 = 0 ->
  (forall c' x, heap c' bl' -> mem_sz c' = mem_sz c -> kept (p1 ++ p2) c c' ->
     same_locks (pop_lock c) c' -> P x -> Q (b_off b + 8) (Obj c' x)) ->
  wp (nvalloc_finish r (last_off fh (frees p1)) (b_off b) fh) Q s.
Proof.
  intros c fh bl' [Hcur Hl Hpg Hm] Hlk Hsp Hst Hp Hb Hroom Hr Hmod HQ.
  pose proof Hcur as [Hmap Hfs Hsz Hbig Hhl Hv].
  pose proof (hm_tiles _ _ _ Hm) as Htl. pose proof (take_off _ _ _ _ _ Hm) as (? & ? & ?).
  unfold nvalloc_finish. rewrite <- (upd_self s). mstep.
  eapply wp_take; try done. intros m' Hlink. fold c.
  pose proof (linked_hdr _ _ _ _ Hlink) as (E1 & E2 & E3 & E4 & E5 & E6).
  pose proof (hmem_carved (data c) s p1 p2 b r Hm Hmap Hl Hb Hr Hmod m' Hroom Hlink) as Hm'.
  repeat mstep.
  set (m2 := st64 m' h_bytes_free _).
  assert (current (core (upd m2 s))) as Hc2.
  { split; try done; unfold hdr; change (data (core (upd m2 s))) with m2; unfold m2; layout.
    - mem_simpl. by rewrite E3.
    - rewrite ld32_st64_ne by lia. by rewrite E1.
    - rewrite ld32_st64_ne by lia. by rewrite E2. }
  eapply (wp_lock_unlock (p1 ++ b :: p2) P); try done.
  - by split; apply Hlk.
  - eapply stable_kept; [done|].
    eapply (kept_live _ (p1 ++ p2)); [by eauto using live_others|].
    eapply (kept_carved _ _ _ _ _ _ _ _ 0); [done..|apply Z.le_refl|by left].
  - intros x Hx. rewrite <- (upd_self (Obj _ x)). repeat mstep.
    eapply (HQ (set_data (carved b r m') (pop_lock c)) x); try done.
    + split; try done. split; try done; try apply Hm'.
    + eapply kept_carved; [done..|apply Z.le_refl|by right].
Qed.

(** nvalloc, from the outside. *)
Lemma wp_nvalloc P bl rsz (Q : Z -> obj X -> Prop) s :
  heap (core s) bl -> lock_ok (core s) -> (2 <= lck_stackp (core s))%nat ->
  stable bl P (core s) -> P (ext s) -> 0 <= rsz -> mem_sz (core s) + rsz + 2 ^ 18 <= limit ->
  (forall p bl' c' x, alloc_spec (alloc_round rsz) (mem_sz (core s)) bl = Some (p, bl') ->
     heap c' bl' -> mem_sz c' = grown_size (alloc_round rsz) (mem_sz (core s)) bl ->
     kept bl (core s) c' -> same_locks (core s) c' -> P x -> Q (p + 8) (Obj c' x)) ->
  wp (nvalloc rsz) Q s.
Proof.
  intros Hh Hlk Hsp Hst Hp Hr0 Hlim HQ. pose proof Hh as [Hcur Hl Hpg Hm].
  pose proof (cu_big _ Hcur) as Hbig. layout.
  assert (16 <= alloc_round rsz <= rsz + 23 /\ alloc_round rsz mod 16 = 0) as [Hrg Hmod].
  { rewrite alloc_round_eq by lia. Z.div_mod_to_equations. lia. }
  unfold nvalloc. mstep. eapply (wp_lock_excl bl P); try done; [lia|]. intros x Hx.
  set (s1 := Obj (push_lock ExclLock (core s)) x).
  pose proof (lock_ok_push ExclLock _ Hlk ltac:(lia)) as Hlk1.
  assert (heap (core s1) bl) as Hh1.
  { split; try done. by eapply current_ext, Hcur. }
  destruct (hm_tail _ _ _ Hm) as (bl0 & t & Hbl & Htf & Hfh).
  pose proof (hm_tiles _ _ _ Hm) as Htl. pose proof (hm_circ _ _ _ Hm) as Hc.
  assert (frees bl = frees bl0 ++ [t]) as Hfr by (by rewrite Hbl, frees_app, frees_cons_free).
  assert (forall b, b ∈ bl -> 48 <= b_off b /\ ready_at (core s1) (b_off b) 16) as Hrd.
  { intros b Hb. destruct (tiles_in _ _ _ b Htl Hb) as (? & ? & ? & _). layout.
    split; [done|]. split; [apply Hcur|]. cbn. lia. }
  destruct (Hrd t) as [? (? & ? & ?)]; [rewrite Hbl; auto with memory|].
  rewrite <- (upd_self s1). repeat mstep. 
  assert (ld64 (data (core s1)) h_freelist = b_off t) as Hfh1 by done. rewrite Hfh1.
  change (data (core s)) with (data (core s1)) in Hc.
  destruct (Z.eqb_spec (b_off t) 0); [lia|]. repeat mstep. unfold fl_fuel. mstep.
  rewrite Hfr in Hc. rewrite (circ_last _ _ _ Hc).
  replace (hd_off (frees bl0) (b_off t)) with (hd_off (frees bl0 ++ [t]) (hd_off (frees bl) 0))
    by (rewrite Hfr, !hd_off_app; by destruct (frees bl0)).
  pose proof (tiles_length _ _ _ Htl) as Hlen. pose proof (frees_length bl) as Hlen'.
  rewrite Hfr, length_app in Hlen'. cbn in Hlen'.
  mstep. eapply wp_fl_search; try done.
  { change (mem_sz (core (upd _ s1))) with (mem_sz (core s)). 
    assert (Z.of_nat (length (frees bl0)) <= mem_sz (core s) / 16); [|lia].
    apply Z.div_le_lower_bound; layout; lia. }
  { rewrite Hfr. apply Hc. }
  { rewrite <- Hfr. by eapply NoDup_frees_off. }
  { intros b Hb. rewrite <- Hfr in Hb. apply elem_of_frees in Hb as [_ Hb].
    destruct (Hrd b Hb) as [? ?]. split; [lia|done]. }
  intros l1 b l2 Hl12 Hall Hor. rewrite <- Hfr in Hl12.
  destruct (frees_split _ _ _ _ Hl12) as (p1 & p2 & Hbl' & <- & <-).
  assert (b_live b = false) as Hbf.
  { eapply (elem_of_frees b bl). rewrite Hl12. auto with memory. }
  rewrite Hbl' in *. cbn [fst snd]. rewrite upd_self.
  rewrite <- Hfh1. mstep.
  eapply (wp_extend P); try done;
    [cbn; lia|by eapply stable_kept, kept_ext, kept_refl, Hcur|lia|cbn; layout; lia|].
  intros c1 y b1 Htk Eb1 Efh1 Hy. rewrite <- Efh1. cbn [fst snd].
  destruct Htk as [Hth Htfr Htr Hts Htkp Htlk Htlv Htsz].
  assert (kept (p1 ++ b :: p2) (core s) c1) as Hk01.
  { eapply kept_trans; [|exact Htkp]. by eapply kept_ext, kept_refl, Hcur. }
  eapply (wp_finish P p1 b1 p2 (alloc_round rsz) Q (Obj c1 y)); try done; cbn [core ext].
  - eapply lock_ok_same; [exact Hlk1|done].
  - rewrite (sl_sp _ _ Htlk). cbn. destruct Hlk. lia.
  - eapply stable_live; [|done|done]. eauto with memory.
  - lia.
  - intros c2 z Hh2 Hs2 Hk2 Hl2 Hz. rewrite Eb1.
    apply (HQ _ (p1 ++ carve b1 (alloc_round rsz) ++ p2)); try done.
    + by rewrite <- Eb1.
    + by rewrite Hs2.
    + eapply (kept_trans _ _ c1); [done|]. eapply kept_live; [|done]. done.
    + eapply same_locks_trans; [|done]. apply (same_locks_pop ExclLock); [done|lia|done].
Qed.
End with_os.
