(* ===== verification/Nvfree.v ===== *)
(** * Nvfree.v: nvfree coalesces

    The search for the neighbours of a freed block and the four ways of linking
    it (NVcontainer.cc, nvfree) against [free_abs] of Heap.v. *)
From stdpp Require Import sorting.
From S2P Require Import Prelude Memory Container Heap Alloc.

(** ** Order of the free blocks *)
Lemma frees_sorted bl lo hi :
  tiles bl lo hi -> StronglySorted (fun x y => b_off x < b_off y) (frees bl).
Proof.
  revert lo. induction bl as [|b bl IH]; intros lo; cbn [tiles]; [constructor|].
  intros (<- & ? & ? & Ht). destruct (b_live b) eqn:Hb.
  - rewrite frees_cons_live by done. eauto.
  - rewrite frees_cons_free by done. constructor; [eauto|].
    apply Forall_forall. intros x [_ Hx]%elem_of_frees.
    eapply tiles_in in Ht as (? & _); [|done]. layout. lia.
Qed.

(** ** The abstract result *)
Lemma free_abs_plain p1 b p2 :
  (forall x, x ∈ p1 -> b_off x <> b_off b) ->
  match last p1 with Some f => b_live f = true | None => True end ->
  free_abs (b_off b) (p1 ++ b :: p2) = p1 ++ merge_right b p2.
Proof.
  induction p1 as [|x p1 IH]; intros Hne Hl; cbn [app free_abs].
  - by rewrite decide_True.
  - rewrite decide_False by (apply Hne; by left).
    destruct p1 as [|y p1]; cbn [app] in *.
    + rewrite decide_False by (cbn in Hl; intros [_ ?]; congruence).
      cbn [free_abs]. by rewrite decide_True.
    + rewrite decide_False by (intros [? _]; eapply Hne; [right; by left|done]).
      f_equal. apply IH; [|done]. intros z Hz. apply Hne. by right.
Qed.

Lemma free_abs_merge p1 f b p2 g r :
  (forall x, x ∈ p1 ++ [f] -> b_off x <> b_off b) -> b_live f = false ->
  merge_right b p2 = g :: r ->
  free_abs (b_off b) (p1 ++ f :: b :: p2) = p1 ++ Blk (b_off f) (b_sz f + b_sz g) false :: r.
Proof.
  intros Hne Hf Hg. induction p1 as [|x p1 IH]; cbn [app free_abs].
  - rewrite decide_False by (apply Hne; by left). rewrite decide_True by done. by rewrite Hg.
  - rewrite decide_False by (apply Hne; by left).
    destruct p1 as [|y p1]; cbn [app] in *.
    + rewrite decide_False.
      * f_equal. apply IH. intros z Hz. apply Hne. by right.
      * intros [? _]. eapply Hne; [right; by left|done].
    + rewrite decide_False by (intros [? _]; eapply Hne; [right; by left|done]).
      f_equal. apply IH. intros z Hz. apply Hne. by right.
Qed.

Definition live_or_none (o : option blk) : Prop :=
  match o with Some x => b_live x = true | None => True end.

(** Freeing [b] replaces a run of blocks, of which only [b] is live, by one. *)
Lemma free_abs_shape p1 b p2 :
  (forall x, x ∈ p1 -> b_off x <> b_off b) -> apart (p1 ++ b :: p2) ->
  exists q1 fl fr q2, p1 = q1 ++ fl /\ p2 = fr ++ q2 /\ Forall is_free (fl ++ fr) /\
    free_abs (b_off b) (p1 ++ b :: p2) =
      q1 ++ Blk (hd_off (fl ++ [b]) 0) (total (fl ++ b :: fr)) false :: q2 /\
    live_or_none (last q1) /\ live_or_none (head q2).
Proof.
  intros Hne [Ha1 Ha2]%apart_mid.
  assert (exists fr q2, p2 = fr ++ q2 /\ Forall is_free fr /\ live_or_none (head q2) /\
    merge_right b p2 = Blk (b_off b) (total (b :: fr)) false :: q2)
    as (fr & q2 & -> & Hfr & Hq2 & Hmr).
  { destruct p2 as [|z p2]; [by exists [], []; rewrite total_cons, Z.add_0_r|].
    cbn [merge_right]. destruct (b_live z) eqn:Hz.
    - exists [], (z :: p2). by rewrite total_cons, Z.add_0_r.
    - exists [z], p2. rewrite !total_cons, Z.add_0_r. split_and!; try done; [by constructor|].
      destruct Ha2 as [_ [Ha2 _]]. destruct p2; [done|]. cbn. destruct Ha2; congruence. }
  destruct p1 as [|f q1 _] using rev_ind; [|destruct (b_live f) eqn:Hf].
  - exists [], [], fr, q2. split_and!; try done. by rewrite free_abs_plain, Hmr.
  - exists (q1 ++ [f]), [], fr, q2. rewrite app_nil_r, last_snoc. split_and!; try done.
    rewrite free_abs_plain, Hmr by (try done; by rewrite last_snoc). done.
  - exists q1, [f], fr, q2. split_and!; try done.
    + by constructor.
    + rewrite <- app_assoc. cbn [app].
      rewrite (free_abs_merge q1 f b (fr ++ q2) _ _ Hne Hf Hmr). done.
    + destruct q1 as [|z q _] using rev_ind; [done|]. rewrite last_snoc.
      rewrite <- !app_assoc in Ha1. cbn [app] in Ha1. apply apart_mid in Ha1 as [_ [Ha1 _]].
      cbn. destruct Ha1; congruence.
Qed.

Lemma tiles_total l lo hi : tiles l lo hi -> total l = hi - lo.
Proof.
  revert lo. induction l as [|x l IH]; intros lo; cbn [tiles].
  - intros ->. cbn. lia.
  - intros (<- & _ & _ & H%IH). rewrite total_cons. layout. lia.
Qed.

Lemma apart_join q1 x q2 :
  apart q1 -> apart q2 -> live_or_none (last q1) -> live_or_none (head q2) ->
  apart (q1 ++ x :: q2).
Proof.
  intros H1 H2 Hl Hh. induction q1 as [|z q1 IH]; cbn [app].
  - split; [|done]. destruct q2; [done|]. by right.
  - destruct q1 as [|w q1].
    + cbn [app]. split; [by left|]. split; [|done]. destruct q2; [done|]. by right.
    + destruct H1 as [H1 H1']. split; [done|]. by apply IH.
Qed.

Lemma apart_app q1 q2 : apart (q1 ++ q2) -> apart q1 /\ apart q2.
Proof.
  induction q1 as [|z q1 IH]; cbn [app]; [done|]. intros [H1 H2]. destruct (IH H2) as [? ?].
  split; [|done]. split; [|done]. by destruct q1.
Qed.

(** What freeing keeps of a tiling. *)
Lemma free_abs_ok p1 b p2 lo hi :
  tiles (p1 ++ b :: p2) lo hi -> apart (p1 ++ b :: p2) -> b_live b = true ->
  let bl' := free_abs (b_off b) (p1 ++ b :: p2) in
  tiles bl' lo hi /\ apart bl' /\
  total (frees bl') = total (frees (p1 ++ b :: p2)) + b_sz b /\
  (forall x, x ∈ bl' -> b_live x = true -> x ∈ p1 ++ p2) /\
  (forall x, x ∈ p1 ++ p2 -> b_live x = true -> x ∈ bl').
Proof.
  intros Ht Ha Hb bl'.
  assert (forall x, x ∈ p1 -> b_off x <> b_off b) as Hne.
  { pose proof Ht as (Ht1 & _)%tiles_mid. intros x Hx.
    eapply tiles_in in Ht1 as (_ & ? & ? & _); [|done]. layout. lia. }
  destruct (free_abs_shape p1 b p2 Hne Ha) as (q1 & fl & fr & q2 & -> & -> & Hff & Hbl' & Hl & Hh).
  subst bl'. rewrite Hbl'. apply Forall_app in Hff as [Hfl Hfr].
  assert ((q1 ++ fl) ++ b :: fr ++ q2 = q1 ++ (fl ++ b :: fr) ++ q2) as E
    by (by rewrite <- !app_assoc).
  rewrite E in *. clear E.
  apply tiles_app in Ht as (mid & Ht1 & (mid' & Htm & Ht2)%tiles_app).
  assert (forall l, Forall is_free l -> frees l = l) as Hfrees.
  { intros l Hall. induction Hall; [done|]. by rewrite frees_cons_free, IHHall. }
  assert (hd_off (fl ++ [b]) 0 = mid) as Hmid.
  { destruct fl; cbn [app tiles] in Htm; apply Htm. }
  rewrite Hmid. pose proof (tiles_total _ _ _ Htm) as Htot. pose proof (tiles_mod _ _ _ Htm) as Hmod.
  assert (16 <= mid' - mid).
  { destruct (tiles_in _ _ _ b Htm) as (? & ? & ? & _); [auto with memory|]. layout. lia. }
  split_and!.
  - apply tiles_mid_intro; cbn [b_off b_sz]; layout; cbn [b_off b_sz]; rewrite ?Htot; try done.
    by replace (mid + (mid' - mid)) with mid' by lia.
  - apply apart_app in Ha as [Ha1 [_ Ha2]%apart_app]. by apply apart_join.
  - blk_simpl. rewrite frees_cons_free, frees_cons_live, (Hfrees fl Hfl), (Hfrees fr Hfr) by done.
    autorewrite with blocks in *. cbn [b_sz]. lia.
  - intros x Hx Hlx. rewrite !elem_of_app, elem_of_cons in *.
    destruct Hx as [?|[->|?]]; auto. done.
  - intros x Hx Hlx. rewrite Forall_forall in Hfl, Hfr.
    assert (forall l : list blk, (forall y, y ∈ l -> is_free y) -> x ∉ l) as Hni.
    { intros l Hl' Hxl. apply Hl' in Hxl. unfold is_free in Hxl. congruence. }
    apply Hni in Hfl, Hfr. rewrite !elem_of_app, elem_of_cons in *. tauto.
Qed.

Section with_os.
Context {os : Os} {Hos : OsOk os} {X : Type} {vt : VTable X} {vo : VTableOk X}.
Implicit Types s : obj X.

(** ** The search *)
Lemma wp_fl_find pb fh y l : forall fuel prv nxt m s (Q : Z * Z -> obj X -> Prop),
  (length l < fuel)%nat -> lseg m (l ++ [y]) nxt ->
  Forall (fun x => b_off x < pb /\ b_off x <> fh) l -> pb <= b_off y ->
  StronglySorted (fun x y => b_off x < b_off y) (l ++ [y]) ->
  (forall b, b ∈ l -> 0 < b_off b /\ ready_at (core s) (b_off b) 16) ->
  Q (last_off prv l, b_off y) (upd m s) ->
  wp (fl_find fuel pb fh prv (hd_off (l ++ [y]) nxt)) Q (upd m s).
Proof.
  induction l as [|b l IH]; intros [|fuel] prv nxt m s Q Hf Hl Hall Hy Hsort Hrd HQ;
    cbn [length] in Hf; try lia; cbn [app lseg hd_off fl_find] in *.
  - destruct (Z.ltb_spec (b_off y) pb); [lia|]. cbn [andb]. by mstep.
  - destruct Hl as (Hn & _ & Hl). destruct (Hrd b) as [? (? & ? & ?)]; [by left|].
    inversion Hall as [|?? [Hb1 Hb2] Hall']; subst. inversion Hsort as [|?? Hsort' Hlt]; subst.
    destruct (Z.ltb_spec (b_off b) pb); [|lia]. apply Z.eqb_neq in Hb2 as ->. cbn [andb negb].
    repeat mstep. rewrite Hn.
    assert (b_off b < hd_off (l ++ [y]) nxt) as Hinc.
    { rewrite Forall_forall in Hlt.
      destruct l as [|x l]; cbn; apply Hlt; [by left|by left]. }
    destruct (Z.leb_spec (hd_off (l ++ [y]) nxt) (b_off b)); [lia|].
    apply IH; try done; [lia| |].
    + intros x Hx. apply Hrd. by right.
    + replace (last_off (b_off b) l) with (last_off prv (b :: l)); [done|].
      unfold last_off. rewrite last_cons. by destruct (last l).
Qed.

(** ** Linking *)
Section link.
Context (m : mem) (s : obj X) (p1 p2 : list blk) (b : blk).
Hypothesis Hm : hmem m (mem_sz (core s)) (p1 ++ b :: p2).
Hypothesis Hmap : mem_p (core s) = Mapped.
Hypothesis Hlim : mem_sz (core s) < limit.
Hypothesis Hlive : b_live b = true.

Lemma link_off : 48 <= b_off b /\ b_end b <= mem_sz (core s) /\ 16 <= b_sz b.
Proof using Hm.
  destruct (tiles_in _ _ _ b (hm_tiles _ _ _ Hm)) as (? & ? & ? & ?); [|done]. auto with memory.
Qed.

(** The tail lies behind a live block. *)
Lemma link_tail : exists p2' t, p2 = p2' ++ [t] /\ b_live t = false /\
  ld64 m h_freelist = b_off t /\ b_end b <= b_off t /\ b_end t = mem_sz (core s).
Proof using Hm Hlive.
  destruct (hm_tail _ _ _ Hm) as (bl0 & t & Hbl & Htf & Hfh).
  apply split_tail in Hbl as [(_ & -> & _)|(p2' & Hp2 & _)]; [congruence|].
  exists p2', t. pose proof (hm_tiles _ _ _ Hm) as (_ & Ht & _)%tiles_mid. rewrite Hp2 in Ht.
  repeat split; try done.
  - eapply tiles_in in Ht as (? & _); [done|]. auto with memory.
  - apply tiles_mid in Ht as (_ & Ht & _). by cbn in Ht.
Qed.

(** The free list around [b], as the cycle [k ++ [p]]. *)
Lemma link_cycle : exists k p, frees p2 ++ frees p1 = k ++ [p] /\
  last_off (ld64 m h_freelist) (frees p1) = b_off p /\ circ m (k ++ [p]) /\
  ld64 m (b_off p + 8) = b_sz p /\
  (p ∈ p1 \/ b_end p = mem_sz (core s)) /\ b_live p = false /\
  (48 <= b_off p /\ b_end p <= mem_sz (core s) /\ 16 <= b_sz p /\
   (b_end p <= b_off b \/ b_end b <= b_off p)) /\
  (forall x, x ∈ k -> 48 <= b_off x /\
     (b_off x + 16 <= b_off p \/ b_off p + 16 <= b_off x) /\
     (b_off x + 16 <= b_off b \/ b_end b <= b_off x)) /\
  (forall x, x ∈ p1 ++ p2 -> b_live x = true ->
     48 <= b_off x /\ (b_end x <= b_off b \/ b_end b <= b_off x) /\
     (b_end x <= b_off p \/ b_end p <= b_off x)).
Proof using Hm Hlive.
  destruct link_tail as (p2' & t & Hp2 & Htf & Hfh & Hbt & Hend).
  pose proof (hm_tiles _ _ _ Hm) as Htl. pose proof (hm_circ _ _ _ Hm) as Hc.
  rewrite frees_app, frees_cons_live, circ_rotate in Hc by done.
  destruct (frees p2 ++ frees p1) as [|p k _] eqn:Hk using rev_ind.
  { apply app_nil in Hk as [Hk _]. rewrite Hp2, frees_app, frees_cons_free in Hk by done.
    by destruct (frees p2'). }
  exists k, p.
  assert (p1 ++ b :: p2 = (p1 ++ b :: p2') ++ [t]) as Hbl
    by (rewrite Hp2, app_comm_cons; by rewrite app_assoc).
  destruct (cycle_apart _ _ _ _ _ _ Htl Hk) as [Hoth Hkp].
  destruct (Hoth p) as (Hpin & Hpf & ? & ? & ? & ?); [auto with memory|].
  repeat split; try done.
  - rewrite Hfh. by eapply prev_node.
  - eapply circ_node; [done|]. auto with memory.
  - destruct (frees p1) as [|z q _] eqn:Hq using rev_ind.
    + right. rewrite app_nil_r, Hp2, frees_app, frees_cons_free in Hk by done.
      by apply app_inj_tail in Hk as [_ <-].
    + left. rewrite app_assoc in Hk. apply app_inj_tail in Hk as [_ <-].
      eapply (elem_of_frees z p1). rewrite Hq. auto with memory.
  - destruct (Hoth x) as (_ & _ & ? & _); [apply elem_of_app; by left|]. done.
  - by apply Hkp.
  - destruct (Hoth x) as (_ & _ & ? & ? & ? & ?); [apply elem_of_app; by left|]. layout. lia.
  - eapply tiles_in in Htl as (? & _); [done|]. auto with memory.
  - eapply others_apart; [done|]. by rewrite <- elem_of_app.
  - eapply live_free_apart; eauto with memory.
Qed.

(** The predecessor is adjacent only when it is the block before. *)
Lemma prv_apart p : p ∈ p1 \/ b_end p = mem_sz (core s) -> b_live p = false ->
  match last p1 with Some f => b_live f = true | None => True end ->
  b_off p + b_sz p <> b_off b.
Proof using Hm Hlive.
  intros Hp Hpf Hl Heq. pose proof link_off as (? & ? & ?). layout.
  destruct Hp as [Hp|Hp]; [|lia].
  destruct p1 as [|z q _] using rev_ind; [by apply not_elem_of_nil in Hp|].
  rewrite last_snoc in Hl.
  pose proof (hm_tiles _ _ _ Hm) as (Ht & _)%tiles_mid.
  apply elem_of_app in Hp as [Hp|Hp%list_elem_of_singleton]; [|congruence].
  apply tiles_app in Ht as (mid & Ht1 & Ht2). cbn [tiles] in Ht2.
  destruct Ht2 as (<- & ? & _ & ?). eapply tiles_in in Ht1 as (_ & ? & _); [|done].
  layout. lia.
Qed.

(** The successor. *)
Lemma link_next y l2 : frees p2 = y :: l2 ->
  b_end b <= b_off y /\ b_end y <= mem_sz (core s) /\ 16 <= b_sz y /\ b_live y = false /\
  ld64 m (b_off y + 8) = b_sz y /\ ld64 m (b_off y) = hd_off (l2 ++ frees p1) (b_off y) /\
  (forall x, x ∈ l2 ++ frees p1 -> x ∈ p1 ++ p2 /\ b_live x = false /\
     48 <= b_off x /\ b_end x <= mem_sz (core s) /\ 16 <= b_sz x /\
     (b_end x <= b_off y \/ b_end y <= b_off x) /\ (b_end x <= b_off b \/ b_end b <= b_off x)).
Proof using Hm Hlive.
  intros Hy. pose proof (hm_tiles _ _ _ Hm) as Htl. pose proof (hm_circ _ _ _ Hm) as Hc.
  rewrite frees_app, frees_cons_live, circ_rotate, Hy in Hc by done.
  assert (y ∈ p2 /\ b_live y = false) as [Hyp Hyf].
  { eapply and_comm, (elem_of_frees y p2). rewrite Hy. by left. }
  pose proof Htl as (_ & Ht2 & _)%tiles_mid.
  destruct (tiles_in _ _ _ y Ht2) as (? & ? & ? & _); [done|].
  split_and!; try done.
  - eapply circ_node; [done|]. by left.
  - by apply circ_next in Hc.
  - pose proof (NoDup_frees_off _ _ _ Ht2) as Hnd. rewrite Hy, fmap_cons in Hnd.
    apply NoDup_cons in Hnd as [Hni _].
    intros x Hx. assert (x ∈ p1 ++ p2 /\ b_live x = false /\ x <> y) as (Hxp & Hxf & Hne).
    { apply elem_of_app in Hx as [Hx|[? Hx]%elem_of_frees].
      - assert (x ∈ frees p2) as [? ?]%elem_of_frees by (rewrite Hy; by right).
        split_and!; [apply elem_of_app; by right|done|]. intros ->.
        by apply Hni, list_elem_of_fmap_2.
      - split_and!; [apply elem_of_app; by left|done|]. intros ->.
        pose proof Htl as (Ht1 & _)%tiles_mid.
        eapply tiles_in in Ht1 as (_ & ? & _); [|exact Hx]. pose proof link_off. layout. lia. }
    destruct (tiles_in _ _ _ x Htl) as (? & ? & ? & _); [auto with memory|].
    split_and!; try done.
    + destruct (tiles_disjoint _ _ _ x y Htl); [auto with memory| |done|done].
      apply elem_of_app. right. by right.
    + eapply others_apart; [done|]. by rewrite <- elem_of_app.
Qed.

(** A free neighbour is adjacent. *)
Lemma next_adjacent y q2 : p2 = y :: q2 -> b_off y = b_end b.
Proof using Hm. intros Hy. pose proof (hm_tiles _ _ _ Hm) as (_ & Ht2 & _)%tiles_mid. rewrite Hy in Ht2. apply Ht2. Qed.
Lemma prev_adjacent q1 f : p1 = q1 ++ [f] -> b_off f + b_sz f = b_off b.
Proof using Hm.
  intros Hp1. pose proof (hm_tiles _ _ _ Hm) as (Ht & _)%tiles_mid. rewrite Hp1 in Ht.
  apply tiles_mid in Ht as (_ & Ht & _). cbn in Ht. done.
Qed.

(** The tail when the next block is merged into a new one: the new block itself, or
    the tail as it was. *)
Lemma merged_tail q1 nb y q2 p2' t : p2 = p2' ++ [t] -> b_live t = false -> p2 = y :: q2 -> b_live nb = false ->
  exists bl0 t', q1 ++ nb :: q2 = bl0 ++ [t'] /\ b_live t' = false /\
    (q2 = [] /\ b_off t = b_off y /\ b_off t' = b_off nb \/
     b_end y <= b_off t /\ b_off t' = b_off t /\ frees q2 <> []).
Proof using Hm.
  intros Hp2 Htf Hy Hnb. pose proof Hy as Hy'. rewrite Hp2 in Hy'. assert ([] ++ y :: q2 = p2' ++ [t]) as E by done.
  apply split_tail in E as [(-> & -> & _)|(q2' & -> & _)].
  - exists q1, nb. split_and!; try done. by left.
  - exists (q1 ++ nb :: q2'), t. rewrite <- app_assoc. split_and!; try done.
    right. split_and!; [|done|rewrite frees_app, frees_cons_free by done; by destruct (frees q2')].
    pose proof (hm_tiles _ _ _ Hm) as (_ & Ht2 & _)%tiles_mid. rewrite Hy in Ht2. cbn [tiles] in Ht2.
    destruct Ht2 as (_ & _ & _ & Ht2). eapply tiles_in in Ht2 as (? & _); [done|]. auto with memory.
Qed.

(** Neither neighbour is free. *)
Lemma wp_link_insert y l2 (Q : unit -> obj X -> Prop) :
  match last p1 with Some f => b_live f = true | None => True end ->
  frees p2 = y :: l2 -> b_end b <> b_off y ->
  (forall m', linked m m' (p1 ++ p2) (p1 ++ Blk (b_off b) (b_sz b) false :: p2) ->
     Q tt (upd m' s)) ->
  wp (nvfree_link (b_off b) (b_sz b) (last_off (ld64 m h_freelist) (frees p1)) (b_off y)
        (ld64 m h_freelist)) Q (upd m s).
Proof using All.
  intros Hl Hy Hpe HQ. pose proof link_off as (? & ? & ?).
  destruct link_tail as (p2' & t & Hp2 & Htf & Hfh & Hbt & Hend).
  destruct link_cycle as (k & p & Hk & -> & Hc & Hps & Hpin & Hpf & (? & ? & ? & ?) & Hkx & Hlv).
  pose proof (prv_apart p Hpin Hpf Hl) as Hpb.
  destruct (link_next y l2 Hy) as (? & ? & ? & _).
  unfold nvfree_link. layout. repeat mstep. rewrite Hps.
  destruct (Z.eqb_spec (b_off p + b_sz p) (b_off b)); [done|].
  destruct (Z.eqb_spec (b_off b + b_sz b) (b_off y)); [done|].
  repeat mstep. apply HQ. rewrite (w64_small (b_sz b)) by lia. clear HQ. split; layout.
  - rewrite frees_app, frees_cons_free, circ_rotate_cons, Hk by done.
    eapply circ_insert; [exact Hc|..]; cbn [b_off b_sz]; mem_simpl; rewrite ?ld64_st64 by lia; try done.
    + intros x Hx. destruct (Hkx x Hx) as (? & ? & ?). frame.
    + by rewrite <- Hk, Hy.
  - exists (p1 ++ Blk (b_off b) (b_sz b) false :: p2'), t. rewrite Hp2.
    rewrite <- app_assoc. repeat split; [done|]. by mem_simpl.
  - frame.
  - frame.
  - intros x Hx Hxl. destruct (Hlv x Hx Hxl) as (? & ? & ?). frame.
Qed.

(** The list of free blocks in which the merged block took the place of [y]. *)
Lemma merge_next_linked y q2 k p bl0 t' m1 : frees p2 = y :: frees q2 -> frees q2 ++ frees p1 = k ++ [p] ->
  circ m (y :: k ++ [p]) -> ld64 m (b_off y) = hd_off (frees q2 ++ frees p1) (b_off y) ->
  p1 ++ Blk (b_off b) (b_sz b + b_sz y) false :: q2 = bl0 ++ [t'] -> b_live t' = false ->
  (forall x, x ∈ k -> same_on m m1 (b_off x) (b_off x + 16)) ->
  ld64 m1 (b_off b) = ld64 m (b_off y) -> ld64 m1 (b_off b + 8) = b_sz b + b_sz y ->
  ld64 m1 (b_off p) = b_off b -> ld64 m1 (b_off p + 8) = b_sz p ->
  same_on m m1 0 24 -> same_on m m1 32 48 -> ld64 m1 24 = b_off t' ->
  (forall x, x ∈ p1 ++ p2 -> b_live x = true -> same_on m m1 (b_off x) (b_end x)) ->
  linked m m1 (p1 ++ p2) (p1 ++ Blk (b_off b) (b_sz b + b_sz y) false :: q2).
Proof using All.
  intros Hfy Hk Hc Hyn Hnew Htf' Hfr Hn1 Hs1 Hnp Hsp Hlo Hhi Hfh' Hlive'.
  split; try done.
  - rewrite frees_app, frees_cons_free, circ_rotate_cons, Hk by done.
    eapply circ_replace; try done. cbn [b_off]. rewrite Hn1, Hyn, Hk. by rewrite !hd_off_app.
  - by exists bl0, t'.
Qed.

(** Only the next block is free: it is merged into the freed one. *)
Lemma wp_link_next y q2 (Q : unit -> obj X -> Prop) :
  match last p1 with Some f => b_live f = true | None => True end ->
  p2 = y :: q2 -> b_live y = false ->
  (forall m', linked m m' (p1 ++ p2) (p1 ++ Blk (b_off b) (b_sz b + b_sz y) false :: q2) ->
     Q tt (upd m' s)) ->
  wp (nvfree_link (b_off b) (b_sz b) (last_off (ld64 m h_freelist) (frees p1)) (b_off y)
        (ld64 m h_freelist)) Q (upd m s).
Proof using All.
  intros Hl Hy Hyf HQ. pose proof link_off as (? & ? & ?).
  destruct link_tail as (p2' & t & Hp2 & Htf & Hfh & Hbt & Hend).
  destruct link_cycle as (k & p & Hk & -> & Hc & Hps & Hpin & Hpf & (? & ? & ? & ?) & Hkx & Hlv).
  pose proof (prv_apart p Hpin Hpf Hl) as Hpb.
  assert (frees p2 = y :: frees q2) as Hfy by (by rewrite Hy, frees_cons_free).
  destruct (link_next y _ Hfy) as (? & ? & ? & _ & Hys & Hyn & Hoth).
  pose proof (next_adjacent y q2 Hy) as Eyb.
  set (nb := Blk (b_off b) (b_sz b + b_sz y) false) in *.
  destruct (merged_tail p1 nb y q2 p2' t Hp2 Htf Hy eq_refl) as (bl0 & t' & Hnew & Htf' & Ht').
  change (b_off nb) with (b_off b) in Ht'.
  unfold nvfree_link. layout. repeat mstep. rewrite Hps.
  destruct (Z.eqb_spec (b_off p + b_sz p) (b_off b)); [done|].
  destruct (Z.eqb_spec (b_off b + b_sz b) (b_off y)); [|lia].
  repeat mstep. rewrite Hyn.
  destruct (Z.eqb_spec (hd_off (frees q2 ++ frees p1) (b_off y)) (b_off y)) as [Hs|Hs].
  - assert (frees q2 ++ frees p1 = []) as Hnil.
    { destruct (frees q2 ++ frees p1) as [|x l]; [done|]. cbn in Hs.
      destruct (Hoth x) as (_ & _ & ? & ? & ? & ? & ?); [by left|]. lia. }
    pose proof Hnil as [Hnil1 Hnil2]%app_nil.
    destruct Ht' as [(-> & Hty & Htb)|(_ & _ & ?)]; [|done].
    rewrite Hfh, Hty, Z.eqb_refl. cbn [negb]. repeat mstep. mem_simpl. rewrite Hys.
    rewrite w64_small by lia. apply HQ. split; layout.
    + rewrite frees_app, frees_cons_free, Hnil2 by done.
      apply circ_single; cbn [b_off b_sz nb]; mem_simpl; rewrite ld64_st64; lia.
    + exists bl0, t'. split_and!; try done. mem_simpl. rewrite ld64_st64; lia.
    + frame.
    + frame.
    + intros x Hx Hxl. destruct (Hlv x Hx Hxl) as (? & ? & ?). frame.
  - rewrite Hfy in Hk. cbn [app] in Hk. destruct k as [|y' k].
    { exfalso. injection Hk as _ Hk. rewrite Hk in Hs. done. }
    injection Hk as <- Hk.
    assert (0 <= hd_off (frees q2 ++ frees p1) (b_off y) < 2 ^ 64).
    { rewrite <- Hyn. apply ld64_range. }
    destruct (Hkx y) as (_ & ? & _); [by left|].
    repeat mstep. mem_simpl. rewrite Hys, Hfh, w64_small by lia.
    pose proof (fun m1 => merge_next_linked y q2 k p bl0 t' m1 Hfy Hk Hc Hyn Hnew Htf') as Hlink. fold nb in Hlink.
    destruct (Z.eqb_spec (b_off y) (b_off t)); repeat mstep; apply HQ, Hlink;
      clear Hlink HQ; layout; mem_simpl; rewrite ?ld64_st64 by lia; try done;
      try solve [frame]; try (intros x Hx);
      try (intros Hxl; destruct (Hlv x Hx Hxl) as (? & ? & ?); frame);
      try (destruct (Hkx x) as (? & ? & ?); [by right|]; frame).
    + destruct Ht' as [(_ & _ & ->)|(? & _)]; [done|lia].
    + destruct Ht' as [(_ & ? & _)|(_ & -> & _)]; [lia|done].
Qed.

(** The previous block is free, the next one is not. *)
Lemma wp_link_prev q1 f y l2 (Q : unit -> obj X -> Prop) :
  p1 = q1 ++ [f] -> b_live f = false -> frees p2 = y :: l2 -> b_end b <> b_off y ->
  (forall m', linked m m' (p1 ++ p2) (q1 ++ Blk (b_off f) (b_sz f + b_sz b) false :: p2) ->
     Q tt (upd m' s)) ->
  wp (nvfree_link (b_off b) (b_sz b) (last_off (ld64 m h_freelist) (frees p1)) (b_off y)
        (ld64 m h_freelist)) Q (upd m s).
Proof using All.
  intros Hp1 Hf Hy Hpe HQ. pose proof link_off as (? & ? & ?).
  destruct link_tail as (p2' & t & Hp2 & Htf & Hfh & Hbt & Hend).
  destruct link_cycle as (k & p & Hk & -> & Hc & Hps & _ & Hpf & (? & ? & ? & ?) & Hkx & Hlv).
  rewrite Hp1, frees_app, frees_cons_free, app_assoc in Hk by done.
  apply app_inj_tail in Hk as [Hk <-].
  pose proof (prev_adjacent q1 f Hp1) as Hfb.
  unfold nvfree_link. layout. repeat mstep. rewrite Hps, Hfb, Z.eqb_refl.
  destruct (Z.eqb_spec (b_off b + b_sz b) (b_off y)); [done|].
  repeat mstep. apply HQ. rewrite w64_small by lia. split; layout.
  - rewrite frees_app, frees_cons_free, circ_rotate_cons by done.
    change (?x :: frees p2 ++ frees q1) with ([x] ++ frees p2 ++ frees q1).
    rewrite circ_rotate, Hk. eapply circ_resize; [exact Hc|..]; cbn [b_off b_sz]; mem_simpl; try done.
    + intros x Hx. destruct (Hkx x Hx) as (? & ? & ?). frame.
    + rewrite ld64_st64; lia.
  - exists (q1 ++ Blk (b_off f) (b_sz f + b_sz b) false :: p2'), t. rewrite Hp2.
    rewrite <- app_assoc. split_and!; try done. by mem_simpl.
  - frame.
  - frame.
  - intros x Hx Hxl. destruct (Hlv x Hx Hxl) as (? & ? & ?). frame.
Qed.

(** Both neighbours are free. *)
Lemma wp_link_both q1 f y q2 (Q : unit -> obj X -> Prop) :
  p1 = q1 ++ [f] -> b_live f = false -> p2 = y :: q2 -> b_live y = false ->
  (forall m', linked m m' (p1 ++ p2)
       (q1 ++ Blk (b_off f) (b_sz f + (b_sz b + b_sz y)) false :: q2) -> Q tt (upd m' s)) ->
  wp (nvfree_link (b_off b) (b_sz b) (last_off (ld64 m h_freelist) (frees p1)) (b_off y)
        (ld64 m h_freelist)) Q (upd m s).
Proof using All.
  intros Hp1 Hf Hy Hyf HQ. pose proof link_off as (? & ? & ?).
  destruct link_tail as (p2' & t & Hp2 & Htf & Hfh & Hbt & Hend).
  destruct link_cycle as (k & p & Hk & -> & Hc & Hps & _ & Hpf & (? & ? & ? & ?) & Hkx & Hlv).
  rewrite Hp1, frees_app, frees_cons_free, app_assoc in Hk by done.
  apply app_inj_tail in Hk as [Hk <-].
  pose proof (prev_adjacent q1 f Hp1) as Hfb.
  assert (frees p2 = y :: frees q2) as Hfy by (by rewrite Hy, frees_cons_free).
  destruct (link_next y _ Hfy) as (? & ? & ? & _ & Hys & Hyn & _).
  pose proof (next_adjacent y q2 Hy) as Eyb.
  rewrite Hfy in Hk. cbn [app] in Hk. subst k.
  set (nb := Blk (b_off f) (b_sz f + (b_sz b + b_sz y)) false) in *.
  destruct (merged_tail q1 nb y q2 p2' t Hp2 Htf Hy eq_refl) as (bl0 & t' & Hnew & Htf' & Ht').
  change (b_off nb) with (b_off f) in Ht'.
  destruct (Hkx y) as (_ & ? & _); [by left|].
  pose proof (ld64_range m (b_off y)).
  assert (forall m1 : mem,
    (forall x, x ∈ frees q2 ++ frees q1 -> same_on m m1 (b_off x) (b_off x + 16)) ->
    ld64 m1 (b_off f) = ld64 m (b_off y) -> ld64 m1 (b_off f + 8) = b_sz nb ->
    same_on m m1 0 24 -> same_on m m1 32 48 -> ld64 m1 24 = b_off t' ->
    (forall x, x ∈ p1 ++ p2 -> b_live x = true -> same_on m m1 (b_off x) (b_end x)) ->
    linked m m1 (p1 ++ p2) (q1 ++ nb :: q2)) as Hlink.
  { intros m1 Hfr Hn1 Hs1 Hlo Hhi Hfh' Hlive'. split; try done.
    - rewrite frees_app, frees_cons_free, circ_rotate_cons by done.
      change (nb :: frees q2 ++ frees q1) with ([nb] ++ frees q2 ++ frees q1).
      rewrite circ_rotate. eapply circ_merge; try done.
      rewrite Hn1, Hyn, Hp1, frees_app, frees_cons_free by done.
      rewrite app_assoc, !hd_off_app. done.
    - by exists bl0, t'. }
  unfold nvfree_link. layout. repeat mstep. rewrite Hps, Hfb, Z.eqb_refl.
  destruct (Z.eqb_spec (b_off b + b_sz b) (b_off y)); [|lia].
  set (m0 := st64 m (b_off f + 8) (b_sz f + b_sz b)).
  assert (ld64 m0 (b_off f + 8) = b_sz f + b_sz b) as Ef by (apply ld64_st64; lia).
  assert (ld64 m0 (b_off y + 8) = b_sz y) as Ey by (unfold m0; by mem_simpl).
  assert (forall v, ld64 (st64 m0 24 v) (b_off f + 8) = b_sz f + b_sz b) as Ef'
    by (intros; by rewrite ld64_st64_ne by lia).
  assert (forall v, ld64 (st64 m0 24 v) (b_off y + 8) = b_sz y) as Ey'
    by (intros; by rewrite ld64_st64_ne by lia).
  rewrite w64_small by lia.
  destruct (Z.eqb_spec (b_off y) (ld64 m 24)); repeat mstep; fold m0;
    rewrite ?Ef', ?Ey', ?Ef, ?Ey, (w64_small (_ + _ + _)) by lia; apply HQ, Hlink;
    clear Hlink HQ; unfold m0; layout; mem_simpl; rewrite ?ld64_st64 by lia; try done;
    try solve [frame]; try (intros x Hx);
    try (intros Hxl; destruct (Hlv x Hx Hxl) as (? & ? & ?); frame);
    try (destruct (Hkx x) as (? & ? & ?); [by right|]; frame); try (cbn; lia).
  - rewrite ld64_st64 by apply ld64_range. by mem_simpl.
  - rewrite ld64_st64 by apply ld64_range. by mem_simpl.
  - destruct Ht' as [(_ & ? & _)|(_ & -> & _)]; [lia|done].
Qed.


(** The search finds the neighbours. *)
Lemma wp_find_neighbours (Q : Z * Z -> obj X -> Prop) :
  let fh := ld64 m h_freelist in
  (forall y l2, frees p2 = y :: l2 -> b_off b < b_off y ->
     Q (last_off fh (frees p1), b_off y) (upd m s)) ->
  wp (fl_find (S (Z.to_nat (mem_sz (core s) / 16))) (b_off b) fh fh (ld64 m fh)) Q (upd m s).
Proof using All.
  intros fh HQ. pose proof link_off as (? & ? & ?). subst fh.
  destruct link_tail as (p2' & t & Hp2 & Htf & Hfh & Hbt & Hend).
  pose proof (hm_tiles _ _ _ Hm) as Htl. pose proof (hm_circ _ _ _ Hm) as Hc.
  rewrite frees_app, frees_cons_live in Hc by done.
  assert (frees p2 = frees p2' ++ [t]) as Hft by (by rewrite Hp2, frees_app, frees_cons_free).
  destruct (frees p2) as [|y l2] eqn:Hy; [by destruct (frees p2')|].
  assert (y ∈ p2) as Hyp by (eapply elem_of_frees; rewrite Hy; by left).
  pose proof Htl as (Ht1 & Ht2 & _)%tiles_mid.
  destruct (tiles_in _ _ _ y Ht2 Hyp) as (? & ? & ? & _).
  assert (forall x, x ∈ frees p1 -> 48 <= b_off x /\ b_end x <= b_off b /\ 16 <= b_sz x) as Hx1.
  { intros x [_ Hx]%elem_of_frees. by destruct (tiles_in _ _ _ x Ht1 Hx) as (? & ? & ? & _). }
  assert (ld64 m (b_off t) =
    hd_off (frees p1 ++ [y]) (hd_off l2 (hd_off (frees p1 ++ y :: l2) 0))) as Ht.
  { pose proof Hc as Hc'. rewrite Hft, app_assoc in Hc'. rewrite (circ_last _ _ _ Hc').
    rewrite !hd_off_app. f_equal. destruct (frees p2'); by injection Hft as -> _. }
  rewrite Hfh, Ht. apply wp_fl_find.
  - pose proof (tiles_length _ _ _ Ht1) as Hlen. pose proof (frees_length p1).
    assert (Z.of_nat (length (frees p1)) <= mem_sz (core s) / 16); [|lia].
    apply Z.div_le_lower_bound; layout; lia.
  - change (y :: l2) with ([y] ++ l2) in Hc. unfold circ in Hc. rewrite app_assoc, lseg_app in Hc.
    rewrite <- app_assoc in Hc. apply Hc.
  - apply Forall_forall. intros x Hx. destruct (Hx1 x Hx) as (? & ? & ?). layout. lia.
  - layout. lia.
  - pose proof (frees_sorted _ _ _ Htl) as Hsort.
    rewrite frees_app, frees_cons_live, Hy in Hsort by done.
    change (y :: l2) with ([y] ++ l2) in Hsort. rewrite app_assoc in Hsort.
    by eapply StronglySorted_app_1_l.
  - intros x Hx. destruct (Hx1 x Hx) as (? & ? & ?). layout.
    split; [lia|]. split_and!; [done|lia|lia].
  - rewrite <- Hfh. eapply HQ; [done|]. layout. lia.
Qed.
End link.

(** Linking the block yields the abstract result. *)
Lemma wp_link m s p1 p2 b y l2 (Q : unit -> obj X -> Prop) :
  hmem m (mem_sz (core s)) (p1 ++ b :: p2) -> mem_p (core s) = Mapped ->
  mem_sz (core s) < limit -> b_live b = true -> frees p2 = y :: l2 ->
  (forall m', linked m m' (p1 ++ p2) (free_abs (b_off b) (p1 ++ b :: p2)) -> Q tt (upd m' s)) ->
  wp (nvfree_link (b_off b) (b_sz b) (last_off (ld64 m h_freelist) (frees p1)) (b_off y)
        (ld64 m h_freelist)) Q (upd m s).
Proof.
  intros Hm Hmap Hlim Hlive Hy HQ. pose proof (hm_tiles _ _ _ Hm) as Htl.
  pose proof Htl as (Ht1 & Ht2 & ? & _)%tiles_mid.
  assert (forall x, x ∈ p1 -> b_off x <> b_off b) as Hne.
  { intros x Hx. eapply tiles_in in Ht1 as (_ & ? & ? & _); [|done]. layout. lia. }
  destruct p2 as [|z q2]; [done|].
  cbn [tiles] in Ht2. destruct Ht2 as (Hz & ? & _ & Ht2).
  assert (b_live z = true -> b_end b <> b_off y) as Hpe.
  { intros Hzl Heq. rewrite frees_cons_live in Hy by done.
    assert (y ∈ frees q2) as [_ Hyq]%elem_of_frees by (rewrite Hy; by left).
    eapply tiles_in in Ht2 as (? & _); [|done]. layout. lia. }
  assert (b_live z = false -> z = y) as Hzy.
  { intros Hzf. rewrite frees_cons_free in Hy by done. by injection Hy. }
  destruct (last p1) as [f|] eqn:Hlast; [destruct (b_live f) eqn:Hf|].
  2:{ apply last_Some in Hlast as [q1 ->]. rewrite <- (app_assoc q1 [f] (b :: z :: q2)) in HQ. cbn [app] in HQ.
      destruct (b_live z) eqn:Hzl.
      - eapply wp_link_prev; try done; [by apply Hpe|]. intros m' Hl. apply HQ.
        rewrite (free_abs_merge q1 f b (z :: q2) (Blk (b_off b) (b_sz b) false) (z :: q2));
          try done. cbn. by rewrite Hzl.
      - rewrite <- (Hzy eq_refl). eapply wp_link_both; try done. intros m' Hl. apply HQ.
        rewrite (free_abs_merge q1 f b (z :: q2) (Blk (b_off b) (b_sz b + b_sz z) false) q2);
          try done. cbn. by rewrite Hzl. }
  all: assert (match last p1 with Some f => b_live f = true | None => True end) as Hl0
    by (by rewrite Hlast);
    rewrite free_abs_plain in HQ by done; cbn [merge_right] in HQ;
    destruct (b_live z) eqn:Hzl;
    [eapply wp_link_insert; try done; by apply Hpe
    |rewrite <- (Hzy eq_refl); by eapply wp_link_next].
Qed.

(** ** nvfree *)
Lemma hmem_freed m m' sz p1 b p2 :
  hmem m sz (p1 ++ b :: p2) -> sz < limit -> b_live b = true ->
  linked m m' (p1 ++ p2) (free_abs (b_off b) (p1 ++ b :: p2)) ->
  hmem (st64 m' h_bytes_free (w64 (ld64 m' h_bytes_free + b_sz b))) sz
    (free_abs (b_off b) (p1 ++ b :: p2)).
Proof.
  intros Hm Hlim Hb Hlk. pose proof (linked_hdr _ _ _ _ Hlk) as (E1 & E2 & E3 & _ & E5 & _).
  destruct Hlk as [Hc Ht _ _ Hlv]. pose proof (hm_tiles _ _ _ Hm) as Htl.
  destruct (free_abs_ok _ _ _ _ _ Htl (hm_apart _ _ _ Hm) Hb) as (Htl' & Hap & Htot & Hl1 & _).
  pose proof (total_frees_le _ _ _ Htl'). pose proof (hm_bytes _ _ _ Hm) as Hbf.
  destruct (tiles_in _ _ _ b Htl) as (? & ? & ? & _); [auto with memory|].
  split; try done; layout.
  - mem_simpl. rewrite E3. apply (hm_size _ _ _ Hm).
  - rewrite ld32_st64_ne by lia. rewrite E1. apply (hm_hlen _ _ _ Hm).
  - rewrite ld32_st64_ne by lia. rewrite E2. apply (hm_version _ _ _ Hm).
  - intros x Hx Hl. destruct (tiles_in _ _ _ x Htl') as (? & ? & ? & _); [done|].
    mem_simpl. rewrite <- (hm_live _ _ _ Hm x); [|by auto with memory|done].
    symmetry. apply ld64_same. eapply same_on_mono; [by eapply Hlv; eauto|layout; lia..].
  - eapply circ_frame; [done|]. intros x [_ Hx]%elem_of_frees.
    destruct (tiles_in _ _ _ x Htl') as (? & ? & ? & _); [done|]. layout. frame.
  - destruct Ht as (bl0 & t & Hbl & Htf & Hfh). exists bl0, t. split_and!; try done. by mem_simpl.
  - rewrite ld64_st64_eq, E5, Hbf, <- Htot by lia. by rewrite !(w64_small (total _)) by lia.
Qed.

Lemma wp_nvfree (P : X -> Prop) p1 b p2 (Q : unit -> obj X -> Prop) s :
  heap (core s) (p1 ++ b :: p2) -> lock_ok (core s) -> (1 <= lck_stackp (core s))%nat ->
  stable (p1 ++ p2) P (core s) -> P (ext s) -> b_live b = true ->
  (forall c' x, heap c' (free_abs (b_off b) (p1 ++ b :: p2)) -> mem_sz c' = mem_sz (core s) ->
     kept (p1 ++ p2) (core s) c' -> same_locks (core s) c' -> P x -> Q tt (Obj c' x)) ->
  wp (nvfree (b_off b + 8)) Q s.
Proof.
  intros Hh Hlk Hsp Hst Hp Hb HQ. pose proof Hh as [Hcur Hl Hpg Hm].
  unfold nvfree. mstep. eapply (wp_lock_excl (p1 ++ p2) P); try done. intros x Hx.
  set (s1 := Obj (push_lock ExclLock (core s)) x).
  pose proof (lock_ok_push ExclLock _ Hlk Hsp) as Hlk1.
  assert (current (core s1)) as Hcur1 by (by eapply current_ext, Hcur).
  set (m := data (core s1)). change (data (core s)) with m in Hm.
  change (mem_sz (core s)) with (mem_sz (core s1)) in Hm, Hl.
  pose proof (cu_map _ Hcur1) as Hmap1. pose proof (hm_tiles _ _ _ Hm) as Htl.
  destruct (link_off m s1 p1 p2 b Hm) as (? & ? & ?).
  destruct (link_tail m s1 p1 p2 b Hm Hb) as (p2' & t & Hp2 & Htf & Hfh & Hbt & Hend).
  destruct (tiles_in _ _ _ t Htl) as (? & ? & ? & _);
    [by rewrite Hp2, app_comm_cons, app_assoc; auto with memory|].
  assert (ld64 m (b_off b) = b_sz b) as Hbs by (apply (hm_live _ _ _ Hm); auto with memory).
  rewrite <- (upd_self s1). fold m. repeat mstep. unfold sizeof_ulong.
  replace (b_off b + 8 - 8) with (b_off b) by lia.
  apply wp_deref; [lia|]. layout. repeat mstep. rewrite Hbs, s32_small by lia. cbn [id].
  change (mem_sz (core (upd m s1))) with (mem_sz (core s1)).
  destruct (Z.ltb_spec (b_off b) 0); [lia|].
  destruct (Z.ltb_spec (mem_sz (core s1)) (b_off b + b_sz b)); [lia|]. cbn [orb].
  mstep. apply wp_fl_next; [layout; lia|layout; split_and!; [done|lia|lia]|].
  unfold fl_fuel. mstep. mstep. mstep.
  change (mem_sz (core (upd m s1))) with (mem_sz (core s1)).
  apply (wp_find_neighbours m s1 p1 p2 b); try done. intros y l2 Hy Hlt.
  cbn [fst snd]. destruct (Z.ltb_spec (b_off y) (b_off b)); [lia|].
  mstep. eapply wp_link; try done. intros m' Hlk'. repeat mstep.
  pose proof (hmem_freed _ _ _ _ _ _ Hm Hl Hb Hlk') as Hm2.
  set (m2 := st64 m' _ _) in *.
  assert (current (core (upd m2 s1))) as Hc2.
  { split; try done; try apply Hcur1; apply Hm2. }
  assert (kept (p1 ++ p2) (core s) (core (upd m2 s1))) as Hk2.
  { eapply kept_linked; [exact Hlk'| |done|apply Z.le_refl|done].
    intros y' Hy'. eapply tiles_in in Htl as (? & _); [done|auto with memory]. }
  eapply (wp_lock_unlock (p1 ++ p2) P); try done.
  - split; apply Hlk1.
  - cbn. destruct Hlk. lia.
  - by eapply stable_kept.
  - intros z Hz. apply HQ; try done.
    + split; try done. by eapply current_ext, Hc2.
    + by eapply kept_ext, Hk2.
    + by eapply (same_locks_pop ExclLock).
Qed.
End with_os.
