(* ===== verification/ContainerSpec.v ===== *)
(** * ContainerSpec.v: what NVcontainer promises

    The theorems on nvalloc, nvfree, open and lock, and a concrete file they
    apply to. *)
From S2P Require Import Prelude Memory Container Heap Alloc Nvalloc Nvfree.

(** ** A concrete file: open of a new database *)
Definition new_obj : obj unit := Obj (new_container ∅) tt.

Definition run {S A} (c : M S A) (s : S) : S :=
  match c s with Ret _ s' => s' | Throw _ s' => s' | _ => s end.

Lemma wp_run {S A} (c : M S A) (P : S -> Prop) s : wp c (fun _ s' => P s') s -> P (run c s).
Proof. unfold wp, run. by destruct (c s). Qed.

Definition ex_obj : obj unit := run (open (os := good_os) "db") new_obj.
Definition fresh_bl : list blk := [Blk 48 65488 false].

Lemma hmem_fresh m :
  ld64 m h_size = 65536 -> ld32 m h_hlen = 48 -> ld32 m h_version = 2 ->
  ld64 m h_freelist = 48 -> ld64 m h_bytes_free = 65488 -> ld64 m 48 = 48 -> ld64 m 56 = 65488 ->
  hmem m 65536 fresh_bl.
Proof.
  intros. split; try done.
  - intros b Hb%list_elem_of_singleton. by subst.
  - by exists [], (Blk 48 65488 false).
Qed.

Lemma ex_heap : heap (core ex_obj) fresh_bl.
Proof.
  split; [split; vm_compute; reflexivity|vm_compute; reflexivity..|].
  apply hmem_fresh; vm_compute; reflexivity.
Qed.

Lemma ex_lock_ok : lock_ok (core ex_obj).
Proof. by split; vm_compute; auto with arith. Qed.

Section with_os.
Context {os : Os} {Hos : OsOk os} {X : Type} {vt : VTable X} {vo : VTableOk X}.
Implicit Types s : obj X.

(** ** nvalloc *)

(** C31: nvalloc is the abstract first-fit allocator: it returns, eight bytes
    behind its start, the block [alloc_spec] picks (growing the file when no
    block fits), leaves a well-formed file with the tiling [alloc_spec] gives,
    and changes no byte of a block allocated before, nor the lock stack. *)
Theorem nvalloc_refines (P : X -> Prop) bl rsz s :
  heap (core s) bl -> lock_ok (core s) -> (2 <= lck_stackp (core s))%nat ->
  stable bl P (core s) -> P (ext s) -> 0 <= rsz -> mem_sz (core s) + rsz + 2 ^ 18 <= limit ->
  wp (nvalloc rsz)
    (fun a s' => exists p bl',
       alloc_spec (alloc_round rsz) (mem_sz (core s)) bl = Some (p, bl') /\ a = p + 8 /\
       heap (core s') bl' /\ mem_sz (core s') = grown_size (alloc_round rsz) (mem_sz (core s)) bl /\
       kept bl (core s) (core s') /\ same_locks (core s) (core s') /\ P (ext s')) s.
Proof.
  intros. eapply (wp_nvalloc P bl); try done. intros p bl' c' x ? ? ? ? ? ?.
  by exists p, bl'.
Qed.

(** C33: the bytes nvalloc hands out are the caller's alone: they are 16-byte
    aligned behind the size word, lie in the mapping, hold the requested
    number of bytes, and overlap no block that was live before. *)
Theorem nvalloc_fresh (P : X -> Prop) bl rsz s :
  heap (core s) bl -> lock_ok (core s) -> (2 <= lck_stackp (core s))%nat ->
  stable bl P (core s) -> P (ext s) -> 0 <= rsz -> mem_sz (core s) + rsz + 2 ^ 18 <= limit ->
  wp (nvalloc rsz)
    (fun a s' => (a - 8) mod 16 = 0 /\ 56 <= a /\ a + rsz <= mem_sz (core s') /\
       forall b, b ∈ bl -> b_live b = true -> b_end b <= a - 8 \/ a + rsz <= b_off b) s.
Proof.
  intros Hh Hlk Hsp Hst HP Hr Hlim. pose proof Hh as [Hcur Hl _ Hm].
  eapply (wp_nvalloc P bl); try done. intros p bl' c' x Hspec Hh' _ _ _ _. cbn [core].
  pose proof (hp_mem _ _ Hh') as Hm'. pose proof (hm_tiles _ _ _ Hm') as Ht'.
  destruct (alloc_spec_new _ _ _ _ _ _ Hm Hspec _ Ht') as (t & Ht & Hge & Hmod & Hnew).
  assert (rsz + 8 <= alloc_round rsz) as Hrd.
  { pose proof (cu_big _ Hcur). layout. rewrite alloc_round_eq by lia. Z.div_mod_to_equations. lia. }
  destruct (tiles_in _ _ _ _ Ht' Ht) as (? & ? & _ & _). layout. cbn [b_off b_sz] in *.
  split_and!; try lia.
  - by replace (p + 8 - 8) with p by lia.
  - intros y Hy Hyl. destruct (Hnew y Hy Hyl) as [_ ?]. layout. cbn in *. lia.
Qed.

(** ** nvfree *)

(** C32: nvfree of a live block is the abstract release: the block is merged with
    its free neighbours, the file stays well formed and of the same size, and no
    byte of another live block changes. *)
Theorem nvfree_refines (P : X -> Prop) p1 b p2 s :
  heap (core s) (p1 ++ b :: p2) -> lock_ok (core s) -> (1 <= lck_stackp (core s))%nat ->
  stable (p1 ++ p2) P (core s) -> P (ext s) -> b_live b = true ->
  wp (nvfree (b_off b + 8))
    (fun _ s' => heap (core s') (free_abs (b_off b) (p1 ++ b :: p2)) /\
       mem_sz (core s') = mem_sz (core s) /\ kept (p1 ++ p2) (core s) (core s') /\
       same_locks (core s) (core s') /\ P (ext s') /\
       forall y, b_live y = true ->
         (y ∈ free_abs (b_off b) (p1 ++ b :: p2) <-> y ∈ p1 ++ p2)) s.
Proof.
  intros Hh Hlk Hsp Hst HP Hb. eapply (wp_nvfree P); try done. intros c' x ? ? ? ? ?.
  destruct (free_abs_ok _ _ _ _ _ (hm_tiles _ _ _ (hp_mem _ _ Hh)) (hm_apart _ _ _ (hp_mem _ _ Hh)) Hb)
    as (_ & _ & _ & Hin & Hout).
  split_and!; try done. intros y Hy. split; auto.
Qed.

(** Releasing what was carved restores the tiling. *)
Lemma free_carve p1 b p2 r :
  (forall x, x ∈ p1 -> b_off x <> b_off b) -> apart (p1 ++ b :: p2) ->
  b_live b = false -> room_for r p2 <= b_sz b ->
  free_abs (b_off b) (p1 ++ carve b r ++ p2) = p1 ++ b :: p2.
Proof.
  intros Hne [Ha1 Ha2]%apart_mid Hb Hroom.
  destruct (carve_cons b r) as [c2 Hc]. rewrite Hc. cbn [app].
  change (b_off b) with (b_off (Blk (b_off b) (taken b r) true)) at 1.
  rewrite free_abs_plain; [|done|].
  - f_equal. unfold carve, taken in *.
    case_decide; injection Hc as <-; cbn [app merge_right b_live b_off b_sz].
    + destruct p2 as [|z p2]; [cbn in Hroom; lia|]. destruct Ha2 as [[?|Hz] _]; [congruence|].
      cbn [merge_right]. rewrite Hz. destruct b; cbn in *; congruence.
    + replace (r + (b_sz b - r)) with (b_sz b) by lia. destruct b; cbn in *; congruence.
  - destruct p1 as [|z q _] using rev_ind; [done|]. rewrite last_snoc.
    rewrite <- app_assoc in Ha1. apply apart_mid in Ha1 as [_ [Ha1 _]].
    destruct Ha1; congruence.
Qed.

Lemma apart_make_room r sz bl0 t :
  apart (bl0 ++ [t]) -> apart (make_room r sz (bl0 ++ [t])).
Proof. intros Ha. unfold make_room. rewrite grow_app. by eapply apart_snoc_same. Qed.

(** Allocating a block and freeing it again restores the file: the tiling is
    the one before, up to the growth of the last free block. *)
Theorem nvalloc_nvfree (P : X -> Prop) bl rsz s :
  heap (core s) bl -> lock_ok (core s) -> (2 <= lck_stackp (core s))%nat ->
  stable bl P (core s) -> P (ext s) -> 0 <= rsz -> mem_sz (core s) + rsz + 2 ^ 18 <= limit ->
  wp (a <- nvalloc rsz ;; nvfree a)
    (fun _ s' => heap (core s') (make_room (alloc_round rsz) (mem_sz (core s)) bl) /\
       kept bl (core s) (core s') /\ same_locks (core s) (core s') /\ P (ext s')) s.
Proof.
  intros Hh Hlk Hsp Hst HP Hr Hlim. mstep. eapply (wp_nvalloc P bl); try done.
  intros p bl' c1 x Hspec Hh1 _ Hk1 Hl1 Hx.
  destruct (alloc_abs_inv _ _ _ _ Hspec) as (p1 & b & p2 & Hbl & Hb & Hroom & -> & ->).
  destruct (hm_tail _ _ _ (hp_mem _ _ Hh)) as (bl0 & t & -> & Htf & _).
  pose proof (apart_make_room (alloc_round rsz) (mem_sz (core s)) _ _
    (hm_apart _ _ _ (hp_mem _ _ Hh))) as Hap.
  destruct (make_room_tail (alloc_round rsz) (mem_sz (core s)) bl0 t Htf) as (t' & Ht & Htf').
  rewrite Hbl in Hap. rewrite Hbl. rewrite Hbl in Ht.
  destruct (carve_cons b (alloc_round rsz)) as [c2 Hc2].
  set (nb := Blk (b_off b) (taken b (alloc_round rsz)) true) in *.
  assert (forall y, y ∈ bl0 ++ [t] -> b_live y = true -> y ∈ p1 ++ c2 ++ p2) as Hin.
  { intros y Hy Hyl. apply elem_of_app in Hy as [Hy|Hy%list_elem_of_singleton]; [|congruence].
    assert (y ∈ p1 ++ b :: p2) as Hyb by (rewrite Ht; apply elem_of_app; by left).
    apply (live_others _ _ _ _ Hb) in Hyb; [|done]. rewrite !elem_of_app in *. tauto. }
  assert (heap c1 (p1 ++ nb :: c2 ++ p2)) as Hh1' by (by rewrite Hc2 in Hh1).
  change (b_off b) with (b_off nb).
  eapply (wp_nvfree P p1 nb (c2 ++ p2) _ (Obj c1 x)); try done; cbn [core ext].
  - by eapply lock_ok_same.
  - rewrite (sl_sp _ _ Hl1). lia.
  - by eapply stable_live.
  - intros c2' y Hh2 _ Hk2 Hl2 Hy. split_and!; try done.
    + pose proof (free_carve p1 b p2 (alloc_round rsz)) as Hfc. rewrite Hc2 in Hfc.
      rewrite <- Hfc; try done.
      intros z Hz. pose proof (hm_tiles _ _ _ (hp_mem _ _ Hh1')) as (Ht1 & _)%tiles_mid.
      eapply tiles_in in Ht1 as (_ & ? & ? & _); [|done]. layout. cbn [b_off nb] in *. lia.
    + eapply kept_trans; [done|]. by eapply kept_live.
    + by eapply same_locks_trans.
Qed.

(** ** lock *)

(** C35: a lock and its unlock are a bracket: in between, the process holds the
    requested record lock, or the exclusive one if an enclosing bracket has it;
    afterwards the lock stack and the kernel's lock are those before. *)
Theorem lock_bracket (P : X -> Prop) l bl s :
  l <> UnLock -> current (core s) -> lock_ok (core s) -> (0 < lck_stackp (core s))%nat ->
  stable bl P (core s) -> P (ext s) ->
  wp (lock_ l)
    (fun _ s1 => held (core s1) = effective l (core s) /\ top_lock (core s1) = held (core s1) /\
       cur (core s1) = cur (core s) /\
       wp (lock_ UnLock) (fun _ s2 => same_locks (core s) (core s2) /\
         cur (core s2) = cur (core s) /\ lock_ok (core s2) /\ P (ext s2)) s1) s.
Proof.
  intros Hl Hc Hlk Hsp Hst HP. eapply (wp_lock_push l bl P); try done. intros x Hx.
  pose proof (lock_ok_push (effective l (core s)) _ Hlk Hsp) as Hlk1.
  split_and!; [done|symmetry; apply (lo_held _ Hlk1)|done|].
  assert (same_locks (core s) (pop_lock (push_lock (effective l (core s)) (core s)))) as Hs
    by (by eapply same_locks_pop).
  eapply (wp_lock_unlock bl P); try done; cbn [core ext].
  - by eapply current_ext, Hc.
  - destruct Hlk. cbn. lia.
  - eapply stable_kept; [done|]. eapply kept_ext, kept_refl; try done. apply Hc.
  - intros y Hy. split; [exact Hs|]. split; [done|]. split; [|done].
    exact (lock_ok_same _ _ Hlk Hs).
Qed.

(** The lock stack has sixteen places: the seventeenth nested lock and an
    unlock without a lock raise an error before anything changes. *)
Theorem lock_stack_errors b s :
  (lck_stackp (core s) = 0%nat -> forall l, l <> UnLock ->
     lock l b s = Throw (Error "Lock Stack overflow") s) /\
  ((LOCKSTACKSIZE <= lck_stackp (core s))%nat ->
     lock UnLock b s = Throw (Error "Lock Stack underflow") s).
Proof.
  split; [intros H l Hl|intros H]; unfold lock;
    rewrite (bind_ret _ _ (top_lock (core s)) s s) by done;
    rewrite (bind_ret _ _ (lck_stackp (core s)) s s) by done; apply bind_throw.
  - rewrite decide_False by done. by rewrite decide_True by done.
  - rewrite decide_True by done. by rewrite decide_True by done.
Qed.

(** A non-blocking upgrade that fails gives up the shared lock: the old lock
    is dropped before the new one is requested, [lock] returns -1 with the shared
    lock on its stack, but the process holds no lock any more. *)
Theorem noblock_upgrade_drops_lock s :
  lock_ok (core s) -> top_lock (core s) = ShrdLock -> (0 < lck_stackp (core s))%nat ->
  os_lock NoBlock UnLock = None -> os_lock NoBlock ExclLock = Some EAGAIN ->
  wp (lock ExclLock NoBlock)
    (fun r s' => r = -1 /\ top_lock (core s') = ShrdLock /\ held (core s') = UnLock) s.
Proof.
  intros [Hlen Hsp _] Ht Hsp0 H1 H2. unfold lock. repeat mstep.
  rewrite decide_False by done. rewrite decide_False by lia. rewrite Ht. cbn [decide].
  rewrite (decide_False (P := ShrdLock = ExclLock)) by done. repeat mstep.
  rewrite decide_False by done. mstep. unfold nvflock. repeat mstep.
  rewrite decide_False by done. rewrite H1. repeat mstep. rewrite H2. cbn. repeat mstep.
  split_and!; [done| |done]. cbn. unfold top_lock in *. cbn.
  replace (lck_stackp (core s) - 1 + 1)%nat with (lck_stackp (core s)) by lia.
  destruct (decide _); [|done]. rewrite nth_lookup, list_lookup_insert_ne by lia.
  by rewrite nth_lookup in Ht.
Qed.
End with_os.

(** ** open *)
Section opening.
Context {os : Os} {Hos : OsOk os}.

(** The file an open finds, or makes. *)
Definition opened (fs : gmap string file) (dbname : string) : file :=
  let f := default (File ∅ 0) (fs !! dbname) in
  if f_size f =? 0
  then File (stn (stn (f_data f) 0 fresh_header) sizeof_Header fresh_freelist) 65536
  else f.

Lemma fresh_reads m :
  let m' := stn (stn m 0 fresh_header) sizeof_Header fresh_freelist in
  ld64 m' h_size = 65536 /\ ld32 m' h_hlen = 48 /\ ld32 m' h_version = 2 /\
  ld64 m' h_freelist = 48 /\ ld64 m' h_bytes_free = 65488 /\ ld64 m' 48 = 48 /\
  ld64 m' 56 = 65488 /\ ld64 m' h_userdata = 0.
Proof.
  assert (forall i n, (i + n <= 48)%nat ->
    ldn (stn (stn m 0 fresh_header) sizeof_Header fresh_freelist) (Z.of_nat i) n =
    take n (drop i fresh_header)) as Hh.
  { intros i n Hin. rewrite ldn_stn_out by (layout; lia).
    exact (ldn_stn_in m 0 fresh_header i n Hin). }
  assert (forall i n, (i + n <= 16)%nat ->
    ldn (stn (stn m 0 fresh_header) sizeof_Header fresh_freelist) (48 + Z.of_nat i) n =
    take n (drop i fresh_freelist)) as Hf.
  { intros i n Hin. exact (ldn_stn_in _ 48 fresh_freelist i n Hin). }
  unfold ld64, ld32. split_and!.
  - exact (f_equal le_val (Hh 8%nat 8%nat ltac:(lia))).
  - exact (f_equal le_val (Hh 0%nat 4%nat ltac:(lia))).
  - exact (f_equal le_val (Hh 4%nat 4%nat ltac:(lia))).
  - exact (f_equal le_val (Hh 24%nat 8%nat ltac:(lia))).
  - exact (f_equal le_val (Hh 32%nat 8%nat ltac:(lia))).
  - exact (f_equal le_val (Hf 0%nat 8%nat ltac:(lia))).
  - exact (f_equal le_val (Hf 8%nat 8%nat ltac:(lia))).
  - exact (f_equal le_val (Hh 40%nat 8%nat ltac:(lia))).
Qed.

(** open up to the final make_current. *)
Lemma wp_open {X} {vt : VTable X} dbname bl (Q : unit -> obj X -> Prop) (s : obj X) :
  mem_fn (core s) <> dbname -> mem_fd (core s) = false -> mem_p (core s) = NullMap ->
  os_open dbname = None -> (forall n, os_write n = None) ->
  let f := default (File ∅ 0) (files (core s) !! dbname) in
  (f_size f = 0 /\ bl = fresh_bl \/
   0 < f_size f < limit /\ f_size f mod 65536 = 0 /\ hmem (f_data f) (f_size f) bl) ->
  (forall c, mappable c -> mem_p c = NullMap -> heap (remap c) bl ->
     cur (remap c) = opened (files (core s)) dbname -> held c = UnLock ->
     lck_stack c = lck_stack (core s) -> lck_stackp c = lck_stackp (core s) ->
     wp make_current Q (Obj c (ext s))) ->
  wp (open dbname) Q s.
Proof.
  intros Hfn Hfd Hmap Hopen Hwrite f Hf HQ.
  assert (hmem (f_data (opened (files (core s)) dbname)) (f_size (opened (files (core s)) dbname)) bl
    /\ 65536 <= f_size (opened (files (core s)) dbname) < limit
    /\ f_size (opened (files (core s)) dbname) mod 65536 = 0) as (Hm & Hsz & Hmod).
  { unfold opened. fold f. destruct Hf as [[Hz ->]|(Hz & Hmod & Hm)].
    - rewrite Hz. cbn [Z.eqb f_data f_size].
      destruct (fresh_reads (f_data f)) as (? & ? & ? & ? & ? & ? & ? & _).
      split_and!; [by apply hmem_fresh|done..].
    - destruct (Z.eqb_spec (f_size f) 0); [lia|]. split_and!; try done; [|lia].
      Z.div_mod_to_equations. lia. }
  unfold open. repeat mstep. rewrite decide_False by done. repeat mstep. rewrite Hfd. repeat mstep.
  rewrite Hopen. repeat mstep. eapply wp_of_eq; [apply nvflock_ok|]. cbn [core ext].
  rewrite ok_fstat. repeat mstep. change (f_size (cur _)) with (f_size f). 
  assert (wp (if f_size f =? 0 then init_file else ret tt)
    (fun _ s' => s' = Obj (set_cur (opened (files (core s)) dbname)
                        (set_held ExclLock (open_file dbname (core s)))) (ext s))
    (Obj (set_held ExclLock (open_file dbname (core s))) (ext s))) as Hinit.
  { unfold opened. fold f. destruct (f_size f =? 0); [|by mstep].
    unfold init_file. rewrite ok_ftruncate. repeat mstep. rewrite !Hwrite. by repeat mstep. }
  apply wp_inv in Hinit as ([] & s' & Heq & ->). eapply wp_of_eq; [exact Heq|].
  mstep. eapply wp_of_eq; [apply nvflock_ok|]. cbn [core ext].
  apply HQ; try done.
  - split; [by left|]. split; [layout; cbn; lia|]. split; apply Hm.
  - unfold remap. rewrite decide_False; [|intros [H _]; cbn in H; congruence].
    split; [split|..]; try done; try apply Hm; cbn; layout; lia.
  - unfold remap. rewrite decide_False; [done|]. intros [H _]. cbn in H. congruence.
Qed.

(** Open maps the database file: a file that does not exist (or is empty) is
    created with a header and one free block, an existing well-formed file is
    taken as it is; in both cases the container is well formed, shows the whole
    file, and holds no lock. *)
Theorem open_establishes dbname bl (s : obj unit) :
  mem_fn (core s) <> dbname -> mem_fd (core s) = false -> mem_p (core s) = NullMap ->
  os_open dbname = None -> (forall n, os_write n = None) ->
  let f := default (File ∅ 0) (files (core s) !! dbname) in
  (f_size f = 0 /\ bl = fresh_bl \/
   0 < f_size f < limit /\ f_size f mod 65536 = 0 /\ hmem (f_data f) (f_size f) bl) ->
  wp (open dbname)
    (fun _ s' => heap (core s') bl /\ cur (core s') = opened (files (core s)) dbname /\
       held (core s') = UnLock /\ lck_stackp (core s') = lck_stackp (core s)) s.
Proof.
  intros Hfn Hfd Hmap Hopen Hwrite f Hf. apply (wp_open dbname bl); try done.
  intros c Hmp Hp Hh Hcur Hheld _ Hsp. apply wp_base_make_current; [done|].
  assert (held (remap c) = held c /\ lck_stackp (remap c) = lck_stackp c) as [E1 E2]
    by (unfold remap; by destruct (decide _)).
  cbn [core]. rewrite E1, E2. by split_and!.
Qed.
End opening.

(** ** The theorems at the concrete file *)
#[local] Existing Instance good_os.
Definition any (_ : unit) : Prop := True.

Definition ex_bl : list blk := [Blk 48 112 true; Blk 160 65376 false].
Definition ex_obj1 : obj unit := run (nvalloc 100) ex_obj.

#[local] Opaque ex_obj ex_obj1.

Lemma ex_heap1 : heap (core ex_obj1) ex_bl /\ lock_ok (core ex_obj1).
Proof.
  assert (wp (nvalloc 100) (fun _ s' => heap (core s') ex_bl /\ same_locks (core ex_obj) (core s'))
    ex_obj) as H.
  { apply (wp_nvalloc any fresh_bl);
      [apply ex_heap|apply ex_lock_ok|vm_compute; lia|done|done|lia|vm_compute; discriminate|].
    intros p bl' c' x Hs Hh _ _ Hl _. vm_compute in Hs. injection Hs as <- <-. done. }
  apply wp_inv in H as (a & s' & Heq & Hh & Hl). Transparent ex_obj1. unfold ex_obj1, run. rewrite Heq.
  split; [done|]. eapply lock_ok_same; [apply ex_lock_ok|done].
Qed.

Lemma nvalloc_refines_witness :
  wp (nvalloc 100) (fun a s' => a = 56 /\ heap (core s') ex_bl) ex_obj.
Proof.
  eapply wp_mono; [apply (nvalloc_refines any fresh_bl 100 ex_obj)|].
  - apply ex_heap.
  - apply ex_lock_ok.
  - vm_compute. lia.
  - done.
  - done.
  - lia.
  - vm_compute. discriminate.
  - intros a s' (p & bl' & Hs & -> & Hh & _). vm_compute in Hs. injection Hs as <- <-. done.
Defined.

Lemma nvalloc_fresh_witness :
  wp (nvalloc 40) (fun a s' => 160 <= a - 8) ex_obj1.
Proof.
  destruct ex_heap1 as [Hh Hl].
  eapply wp_mono;
    [apply (nvalloc_fresh any ex_bl 40 ex_obj1 Hh Hl);
     [vm_compute; lia|done|done|lia|vm_compute; discriminate]|].
  intros a s' (_ & ? & _ & Hd). destruct (Hd (Blk 48 112 true)); [by left|done|..];
    unfold b_end in *; cbn in *; lia.
Defined.

Lemma nvfree_refines_witness :
  wp (nvfree 56) (fun _ s' => heap (core s') fresh_bl) ex_obj1.
Proof.
  destruct ex_heap1 as [Hh Hl].
  eapply wp_mono;
    [apply (nvfree_refines any [] (Blk 48 112 true) [Blk 160 65376 false] ex_obj1 Hh Hl);
     [vm_compute; lia|done|done|done]|].
  by intros a s' (? & _).
Defined.

Lemma nvalloc_nvfree_witness :
  wp (a <- nvalloc 100 ;; nvfree a) (fun _ s' => heap (core s') fresh_bl) ex_obj.
Proof.
  eapply wp_mono;
    [apply (nvalloc_nvfree any fresh_bl 100 ex_obj ex_heap ex_lock_ok);
     [vm_compute; lia|done|done|lia|vm_compute; discriminate]|].
  by intros a s' (? & _).
Defined.

Lemma lock_bracket_witness :
  wp (lock_ ShrdLock) (fun _ s1 => held (core s1) = ShrdLock) ex_obj.
Proof.
  eapply wp_mono;
    [apply (lock_bracket any ShrdLock fresh_bl ex_obj); [done|apply ex_heap|apply ex_lock_ok|
     vm_compute; lia|done|done]|].
  intros a s' (-> & _). vm_compute. reflexivity.
Defined.

Lemma noblock_upgrade_drops_lock_witness :
  let busy := Build_Os (fun b l => match b, l with NoBlock, ExclLock => Some EAGAIN | _, _ => None end)
    (fun _ => None) None (fun _ => None) (fun _ => None) (fun _ => None) (fun _ _ => None) 0 in
  wp (lock (os := busy) ExclLock NoBlock) (fun r s' => r = -1 /\ held (core s') = UnLock)
    (run (lock_ ShrdLock) ex_obj).
Proof.
  intros busy. eapply wp_mono;
    [apply (noblock_upgrade_drops_lock (os := busy));
     [by split; vm_compute; auto with arith|vm_compute; reflexivity|vm_compute; lia|done|done]|].
  by intros a s' (? & _ & ?).
Defined.

Lemma open_establishes_witness :
  wp (open "db") (fun _ s' => heap (core s') fresh_bl) new_obj.
Proof.
  eapply wp_mono; [apply (open_establishes "db" fresh_bl new_obj); try done; by left|].
  by intros a s' (? & _).
Defined.

Lemma lock_stack_errors_witness :
  lock UnLock Block new_obj = Throw (Error "Lock Stack underflow") new_obj.
Proof. by apply (lock_stack_errors Block new_obj). Defined.
