(* ===== verification/NVlist.v ===== *)
(** * NVlist.v: linked lists of records in a database file

    NVClasses-0.9.1/NVlist.{h,cc} and NVList.{h,cc}: circular lists of variable
    size records, reached through a word that points to the tail.  NVHash keeps
    many such lists in one file, so the invariant [lists] describes them all. *)
From S2P Require Import Prelude Memory Container Heap Alloc Nvalloc Nvfree ContainerSpec.

(** ** Operations *)
Definition sizeof_Record : Z := 16.

Section with_vtable.
Context {os : Os} {X : Type} {vt : VTable X}.
Abbreviation MC := (M (obj X)).

(** The members of struct Record behind the pointer [o2r(o)]. *)
Definition r_next (o : Z) : MC Z := deref o ;;; ldw o.
Definition r_szdata (o : Z) : MC Z := deref o ;;; ldw (o + 8).
Definition set_r_next (o v : Z) : MC unit := deref o ;;; stw o v.
Definition set_r_szdata (o v : Z) : MC unit := deref o ;;; stw (o + 8) v.
Definition r_datap (o : Z) : Z := o + sizeof_Record.

(** *** NVlist *)
Definition sis_empty (proot : Z) : MC bool := v <- ldw proot ;; ret (v =? 0).

Definition sprepend (proot : Z) (data : bytes) : MC unit :=
  let szdata := Z.of_nat (length data) in
  nr <- nvalloc (w64 (szdata + sizeof_Record)) ;;
  tail <- ldw proot ;;
  set_r_szdata nr szdata ;;;
  stmem (r_datap nr) data ;;;
  if negb (tail =? 0) then
    tn <- r_next tail ;;
    set_r_next nr tn ;;;
    set_r_next tail nr
  else set_r_next nr nr ;;; stw proot nr.

Definition sappend (proot : Z) (data : bytes) : MC unit :=
  let szdata := Z.of_nat (length data) in
  nr <- nvalloc (w64 (szdata + sizeof_Record)) ;;
  tail <- ldw proot ;;
  set_r_szdata nr szdata ;;;
  stmem (r_datap nr) data ;;;
  if negb (tail =? 0) then
    tn <- r_next tail ;;
    set_r_next nr tn ;;;
    set_r_next tail nr ;;;
    stw proot nr
  else set_r_next nr nr ;;; stw proot nr.

Definition sremove (proot : Z) : MC unit :=
  tail <- ldw proot ;;
  nr <- r_next tail ;;
  (if tail =? nr then stw proot 0
   else nn <- r_next nr ;; set_r_next tail nn) ;;;
  nvfree nr.

Fixpoint sclear_loop (fuel : nat) (proot : Z) : MC unit :=
  match fuel with
  | O => spin
  | S f => v <- ldw proot ;;
           if v =? 0 then ret tt else sremove proot ;;; sclear_loop f proot
  end.
(** A list has fewer records than the file has 16-byte units. *)
Definition sclear (proot : Z) : MC unit :=
  fuel <- fl_fuel ;; sclear_loop fuel proot.

(** The C string at [a]; it may not run past the mapping. *)
Definition ldcstr (a : Z) : MC bytes :=
  c <- getc id ;;
  let s := ldstr (Container.data c) a (Z.to_nat (mem_sz c - a)) in
  guard (in_map c a (Z.of_nat (length s) + 1)) "unterminated string" ;;; ret s.

(** What sprint writes to the stream. *)
Fixpoint sprint_loop (fuel : nat) (i head r : Z) : MC bytes :=
  match fuel with
  | O => spin
  | S f =>
      if r =? 0 then ret [] else
      r <- r_next r ;;
      sz <- r_szdata r ;;
      d <- ldcstr (r_datap r) ;;
      let line := dec i ++ bs ": " ++ dec r ++ bs "(" ++ dec sz ++ bs "): " ++ d ++ [LF] in
      rest <- sprint_loop f (i + 1) head (if r =? head then 0 else r) ;;
      ret (line ++ rest)
  end.
Definition sprint (proot : Z) : MC bytes :=
  fuel <- fl_fuel ;;
  head <- ldw proot ;;
  sprint_loop fuel 0 head head.

(** *** NVList: the list whose tail pointer is the user data of the header *)
Definition list_is_empty : MC bool :=
  lock_ ShrdLock ;;; p <- getdatap ;; r <- sis_empty p ;; lock_ UnLock ;;; ret r.
Definition list_prepend (data : bytes) : MC unit :=
  lock_ ExclLock ;;; p <- getdatap ;; sprepend p data ;;; lock_ UnLock.
Definition list_append (data : bytes) : MC unit :=
  lock_ ExclLock ;;; p <- getdatap ;; sappend p data ;;; lock_ UnLock.
Definition list_remove : MC unit :=
  d <- getdata ;;
  if d =? 0 then ret tt else
  lock_ ExclLock ;;; p <- getdatap ;; sremove p ;;; lock_ UnLock.
Definition list_clear : MC unit :=
  lock_ ExclLock ;;; p <- getdatap ;; sclear p ;;; lock_ UnLock.
Definition list_print : MC bytes :=
  lock_ ShrdLock ;;; p <- getdatap ;; r <- sprint p ;; lock_ UnLock ;;; ret r.

(** *** NVListIter *)
Record list_iter := ListIter { li_on : bool; li_pos : Z; li_tail : Z }.

(** NVListIter(NVList&) leaves [tail] as it finds it. *)
Definition li_new (junk : Z) : MC list_iter :=
  lock_ ShrdLock ;;; ret (ListIter true 0 junk).
Definition li_detach (it : list_iter) : MC list_iter :=
  (if li_on it then lock_ UnLock else ret tt) ;;; ret (ListIter false (li_pos it) (li_tail it)).
Definition li_attach (it : list_iter) : MC list_iter :=
  li_detach it ;;; lock_ ShrdLock ;;; t <- getdata ;; ret (ListIter true 0 t).
Definition li_first (it : list_iter) : MC list_iter :=
  if li_on it then p <- r_next (li_tail it) ;; ret (ListIter true p (li_tail it)) else ret it.
Definition li_valid (it : list_iter) : bool := negb (li_pos it =? 0).
Definition li_next (it : list_iter) : MC list_iter :=
  if li_pos it =? 0 then ret it
  else if li_pos it =? li_tail it then ret (ListIter (li_on it) 0 (li_tail it))
  else p <- r_next (li_pos it) ;; ret (ListIter (li_on it) p (li_tail it)).
Definition li_data (it : list_iter) : MC bytes :=
  sz <- r_szdata (li_pos it) ;; ldmem (li_pos it + sizeof_Record) (w32 sz).

(** [for (it.first(); it.valid(); it.next()) ... it.data(...)] *)
Fixpoint li_collect (fuel : nat) (it : list_iter) : MC (list bytes) :=
  match fuel with
  | O => spin
  | S f => if li_valid it
           then d <- li_data it ;; it <- li_next it ;; rest <- li_collect f it ;; ret (d :: rest)
           else ret []
  end.
End with_vtable.

(** ** The lists in a file *)

(** A record: its offset and its data. *)
Abbreviation rcd := (Z * bytes)%type.

Definition hd_rec (xs : list rcd) (d : Z) : Z := match xs with [] => d | x :: _ => fst x end.
Definition last_rec (xs : list rcd) : Z := match last xs with Some x => fst x | None => 0 end.

Fixpoint rseg (m : mem) (xs : list rcd) (nxt : Z) : Prop :=
  match xs with
  | [] => True
  | (o, d) :: r => ld64 m o = hd_rec r nxt /\ ld64 m (o + 8) = Z.of_nat (length d) /\
                   ldn m (o + 16) (length d) = d /\ rseg m r nxt
  end.

(** The list at the root word [p]: a circle whose last record [p] points to. *)
Definition list_at (m : mem) (p : Z) (xs : list rcd) : Prop :=
  ld64 m p = last_rec xs /\ rseg m xs (hd_rec xs 0).

(** The block of a record. *)
Definition rblk (bl : list blk) (x : rcd) (b : blk) : Prop :=
  b ∈ bl /\ b_live b = true /\ b_off b = fst x - 8 /\ fst x + 16 + Z.of_nat (length (snd x)) <= b_end b.

(** A root word is the user data of the header or lies in a live block. *)
Definition root_ok (bl : list blk) (p : Z) : Prop :=
  p = h_userdata \/ exists b, b ∈ bl /\ b_live b = true /\ b_off b + 8 <= p /\ p + 8 <= b_end b.

Abbreviation roots := (list (Z * list rcd)).
Definition all_recs (R : roots) : list rcd := R ≫= snd.

Record lists (m : mem) (bl : list blk) (R : roots) : Prop := {
  ls_at : forall p xs, (p, xs) ∈ R -> list_at m p xs;
  ls_blk : forall x, x ∈ all_recs R -> exists b, rblk bl x b;
  ls_nodup : NoDup (fst <$> all_recs R);
  ls_root : forall p, p ∈ R.*1 -> root_ok bl p;
  ls_roots : NoDup R.*1 /\ forall p q, p ∈ R.*1 -> q ∈ R.*1 -> p = q \/ p + 8 <= q \/ q + 8 <= p;
  ls_apart : forall p x b, p ∈ R.*1 -> x ∈ all_recs R -> rblk bl x b ->
               p + 8 <= b_off b \/ b_end b <= p
}.

(** The bytes of a record. *)
Definition rsame (m m' : mem) (x : rcd) : Prop :=
  same_on m m' (fst x) (fst x + 16 + Z.of_nat (length (snd x))).

(** A stored word or string that is no header field and no size word. *)
Definition payload (bl : list blk) (lo hi : Z) : Prop :=
  (h_userdata <= lo /\ hi <= sizeof_Header) \/
  exists b, b ∈ bl /\ b_live b = true /\ b_off b + 8 <= lo /\ hi <= b_end b.

(** The ranges [keep] lie in live blocks that hold no record, off the roots. *)
Definition guarded (bl : list blk) (R : roots) (keep : list blk) : Prop :=
  forall k, k ∈ keep ->
    (exists b, b ∈ bl /\ b_live b = true /\ b_off b <= b_off k /\ b_end k <= b_end b /\
       forall x, x ∈ all_recs R -> b_off b <> fst x - 8) /\
    (forall q, q ∈ R.*1 -> q + 8 <= b_off k \/ b_end k <= q).

(** The invariant of a file that holds the lists [R] and, for the derived class,
    the ranges [keep] on which its members depend through [P]. *)
Record store {os : Os} {X} {vt : VTable X} {vo : VTableOk X}
    (c : container) (bl : list blk) (R : roots) (keep : list blk) (P : X -> Prop) : Prop := {
  so_heap : heap c bl;
  so_lists : lists (data c) bl R;
  so_guard : guarded bl R keep;
  so_stable : stable keep P c;
  so_user : h_userdata ∈ R.*1 -> forall c', stable keep P c'
}.

(** The memory after linking the record [nr] to the list at [p]. *)
Definition link_new (front : bool) (p tail nr : Z) (d : bytes) (m : mem) : mem :=
  let m1 := stn (st64 m (nr + 8) (Z.of_nat (length d))) (nr + 16) d in
  if tail =? 0 then st64 (st64 m1 nr nr) p nr
  else
    let m2 := st64 (st64 m1 nr (ld64 m1 tail)) tail nr in
    if front then m2 else st64 m2 p nr.

(** The memory after unlinking the first of the records at [p]. *)
Definition unlink_first (p : Z) (m : mem) : mem :=
  let tail := ld64 m p in let nr := ld64 m tail in
  if tail =? nr then st64 m p 0 else st64 m tail (ld64 m nr).

Definition link_recs (front : bool) (x : rcd) (xs : list rcd) : list rcd :=
  if front then x :: xs else xs ++ [x].

(** ** Segments *)
Lemma hd_rec_app l1 l2 d : hd_rec (l1 ++ l2) d = hd_rec l1 (hd_rec l2 d).
Proof. by destruct l1. Qed.

Lemma last_rec_snoc l x : last_rec (l ++ [x]) = fst x.
Proof. unfold last_rec. by rewrite last_snoc. Qed.

Lemma last_rec_cons x y l : last_rec (x :: y :: l) = last_rec (y :: l).
Proof. unfold last_rec. by rewrite last_cons_cons. Qed.

Lemma rseg_app m l1 l2 nxt :
  rseg m (l1 ++ l2) nxt <-> rseg m l1 (hd_rec l2 nxt) /\ rseg m l2 nxt.
Proof.
  induction l1 as [|[o d] l1 IH]; cbn [app rseg]; [tauto|]. rewrite IH, hd_rec_app. tauto.
Qed.

Lemma rseg_frame m m' l nxt : rseg m l nxt -> (forall x, x ∈ l -> rsame m m' x) -> rseg m' l nxt.
Proof.
  induction l as [|[o d] l IH]; cbn [rseg]; [done|]. intros (H1 & H2 & H3 & H4) Hf.
  pose proof (Hf (o, d) ltac:(by left)) as Hx. unfold rsame in Hx. cbn [fst snd] in Hx.
  split_and!.
  - rewrite <- H1. symmetry. apply ld64_same. eapply same_on_mono; [done|lia..].
  - rewrite <- H2. symmetry. apply ld64_same. eapply same_on_mono; [done|lia..].
  - rewrite <- H3 at 2. symmetry. apply ldn_same. eapply same_on_mono; [done|lia..].
  - apply IH; [done|]. intros y Hy. apply Hf. by right.
Qed.

Lemma list_at_frame m m' p l :
  list_at m p l -> ld64 m' p = ld64 m p -> (forall x, x ∈ l -> rsame m m' x) -> list_at m' p l.
Proof. intros [H1 H2] Hp Hf. split; [by rewrite Hp|by eapply rseg_frame]. Qed.

(** Setting the [next] of the last record. *)
Lemma rseg_relink m m' l t nxt nxt' :
  rseg m (l ++ [t]) nxt -> (forall x, x ∈ l -> rsame m m' x) ->
  ld64 m' (fst t) = nxt' ->
  same_on m m' (fst t + 8) (fst t + 16 + Z.of_nat (length (snd t))) ->
  rseg m' (l ++ [t]) nxt'.
Proof.
  rewrite !rseg_app. destruct t as [o d]. cbn [rseg hd_rec fst snd].
  intros (H1 & H2 & H3 & H4 & _) Hf Hn Ht. split; [by eapply rseg_frame|].
  split_and!; try done.
  - rewrite <- H3. symmetry. apply ld64_same. eapply same_on_mono; [done|lia..].
  - rewrite <- H4 at 2. symmetry. apply ldn_same. eapply same_on_mono; [done|lia..].
Qed.

(** ** The lists of a file *)
Lemma all_recs_app R1 R2 : all_recs (R1 ++ R2) = all_recs R1 ++ all_recs R2.
Proof. apply bind_app. Qed.

Lemma all_recs_mid R1 p xs R2 :
  all_recs (R1 ++ (p, xs) :: R2) = all_recs R1 ++ xs ++ all_recs R2.
Proof. by rewrite all_recs_app. Qed.

Lemma elem_of_all_recs x R : x ∈ all_recs R <-> exists p xs, (p, xs) ∈ R /\ x ∈ xs.
Proof.
  unfold all_recs. rewrite list_elem_of_bind. split.
  - intros ([p xs] & ? & ?). by exists p, xs.
  - intros (p & xs & ? & ?). by exists (p, xs).
Qed.

(** Two records of a file, and a record and a root, do not overlap. *)
Lemma recs_apart m bl R lo hi x y :
  lists m bl R -> tiles bl lo hi -> x ∈ all_recs R -> y ∈ all_recs R -> fst x <> fst y ->
  fst x + 16 + Z.of_nat (length (snd x)) <= fst y - 8 \/
  fst y + 16 + Z.of_nat (length (snd y)) <= fst x - 8.
Proof.
  intros HL Ht Hx Hy Hne.
  destruct (ls_blk _ _ _ HL x Hx) as (b & Hb & _ & Hbo & Hbe).
  destruct (ls_blk _ _ _ HL y Hy) as (b' & Hb' & _ & Hbo' & Hbe').
  destruct (tiles_disjoint _ _ _ _ _ Ht Hb Hb') as [->|Hd]; lia.
Qed.

Lemma rcd_apart_root m bl R p x :
  lists m bl R -> p ∈ R.*1 -> x ∈ all_recs R ->
  p + 8 <= fst x - 8 \/ fst x + 16 + Z.of_nat (length (snd x)) <= p.
Proof.
  intros HL Hp Hx. destruct (ls_blk _ _ _ HL x Hx) as (b & Hb).
  pose proof (ls_apart _ _ _ HL p x b Hp Hx Hb). destruct Hb as (_ & _ & ? & ?). lia.
Qed.

(** Replacing one list, by writes that miss the others. *)
Lemma lists_update m m' bl R1 p xs ys R2 :
  lists m bl (R1 ++ (p, xs) :: R2) -> list_at m' p ys ->
  (forall q, q ∈ (R1 ++ R2).*1 -> ld64 m' q = ld64 m q) ->
  (forall x, x ∈ all_recs (R1 ++ R2) -> rsame m m' x) ->
  (forall y, y ∈ ys -> exists b, rblk bl y b) ->
  NoDup (fst <$> all_recs (R1 ++ (p, ys) :: R2)) ->
  (forall q y b, q ∈ (R1 ++ (p, xs) :: R2).*1 -> y ∈ ys -> rblk bl y b ->
     q + 8 <= b_off b \/ b_end b <= q) ->
  lists m' bl (R1 ++ (p, ys) :: R2).
Proof.
  intros HL Hat Hq Hx Hb Hnd Hap.
  assert ((R1 ++ (p, ys) :: R2).*1 = (R1 ++ (p, xs) :: R2).*1) as Efst by (by rewrite !fmap_app).
  assert (forall y, y ∈ all_recs (R1 ++ (p, ys) :: R2) ->
            y ∈ ys \/ y ∈ all_recs (R1 ++ (p, xs) :: R2)) as Hin.
  { intros y. rewrite !all_recs_mid, !elem_of_app. tauto. }
  split.
  - intros q l Hql. assert ((q, l) ∈ R1 ++ R2 \/ (q, l) = (p, ys)) as [Hql'|Hql'].
    { rewrite elem_of_app, elem_of_cons in *. tauto. }
    + eapply (list_at_frame m).
      * apply (ls_at _ _ _ HL). rewrite elem_of_app, elem_of_cons in *. tauto.
      * apply Hq, list_elem_of_fmap. by exists (q, l).
      * intros x Hxl. apply Hx, elem_of_all_recs. by exists q, l.
    + by injection Hql' as -> ->.
  - intros y [Hy|Hy]%Hin; [by apply Hb|by apply (ls_blk _ _ _ HL)].
  - done.
  - rewrite Efst. apply (ls_root _ _ _ HL).
  - rewrite Efst. apply (ls_roots _ _ _ HL).
  - intros q y b Hq' Hy Hyb. rewrite Efst in Hq'. apply Hin in Hy as [Hy|Hy].
    + by eapply Hap.
    + by eapply (ls_apart _ _ _ HL).
Qed.

Lemma same_on_stn_r m m1 a l lo hi :
  same_on m m1 lo hi -> hi <= a \/ a + Z.of_nat (length l) <= lo -> same_on m (stn m1 a l) lo hi.
Proof. intros H Ha b Hb. rewrite H by done. symmetry. by apply (same_on_stn m1 a l lo hi). Qed.

Ltac rframe := unfold rsame in *; cbn [fst snd] in *;
  repeat first [apply same_on_st64_r; [|lia] | apply same_on_stn_r; [|lia]];
  first [apply same_on_refl | done].

(** Loads through the writes of a relinking. *)
Ltac mload :=
  repeat first [rewrite ld64_st64_ne by lia | rewrite ld64_stn_ne by lia
               | rewrite ldn_st64_out by lia];
  first [done | rewrite ld64_st64 by lia; done | apply ldn_stn_same].

Lemma same_on_link front p tail nr d m a b :
  b <= nr \/ nr + 16 + Z.of_nat (length d) <= a -> b <= p \/ p + 8 <= a ->
  tail = 0 \/ b <= tail \/ tail + 8 <= a -> same_on m (link_new front p tail nr d m) a b.
Proof.
  intros H1 H2 H3. unfold link_new. destruct (Z.eqb_spec tail 0); [rframe|].
  destruct H3 as [?|H3]; [done|]. destruct front; rframe.
Qed.

(** The roots and records of other lists. *)
Lemma other_root m bl R1 p xs R2 q :
  lists m bl (R1 ++ (p, xs) :: R2) -> q ∈ (R1 ++ R2).*1 ->
  q ∈ (R1 ++ (p, xs) :: R2).*1 /\ (q + 8 <= p \/ p + 8 <= q).
Proof.
  intros HL Hq. destruct (ls_roots _ _ _ HL) as [Hnd Hsep].
  rewrite !fmap_app in *. cbn in *.
  assert (q <> p) as Hne.
  { intros ->. rewrite <- Permutation_middle in Hnd. apply NoDup_cons in Hnd as [Hnd _].
    done. }
  assert (q ∈ R1.*1 ++ p :: R2.*1) as Hq' by auto with memory. split; [done|].
  destruct (Hsep q p Hq'); [auto with memory|done|done].
Qed.

Lemma other_rec m bl R1 p xs R2 lo hi x :
  lists m bl (R1 ++ (p, xs) :: R2) -> tiles bl lo hi -> x ∈ all_recs (R1 ++ R2) ->
  x ∈ all_recs (R1 ++ (p, xs) :: R2) /\
  forall t, t ∈ xs -> fst x + 16 + Z.of_nat (length (snd x)) <= fst t - 8 \/
                      fst t + 16 + Z.of_nat (length (snd t)) <= fst x - 8.
Proof.
  intros HL Ht Hx. rewrite all_recs_app in Hx.
  assert (x ∈ all_recs (R1 ++ (p, xs) :: R2)) as Hx'.
  { rewrite all_recs_mid, !elem_of_app. rewrite elem_of_app in Hx. tauto. }
  split; [done|]. intros t Htx. eapply recs_apart; [exact HL|exact Ht|done|..].
  - rewrite all_recs_mid, !elem_of_app. auto.
  - intros E. pose proof (ls_nodup _ _ _ HL) as Hnd.
    rewrite all_recs_mid, (Permutation_app_comm xs), app_assoc, !fmap_app in Hnd.
    apply NoDup_app in Hnd as (_ & Hnd & _). apply (Hnd (fst x)).
    + rewrite <- fmap_app. by apply list_elem_of_fmap_2.
    + rewrite E. by apply list_elem_of_fmap_2.
Qed.

(** *** Linking a new record *)
Section link.
Context (m : mem) (bl : list blk) (R1 R2 : roots) (p : Z) (xs : list rcd) (lo hi : Z).
Context (nr sz : Z) (d : bytes).
Hypothesis HL : lists m bl (R1 ++ (p, xs) :: R2).
Hypothesis Ht : tiles bl lo hi.
Hypothesis Hlo : 48 <= lo.
Hypothesis Hhi : hi < limit.
Hypothesis Hnb : Blk (nr - 8) sz true ∈ bl.
Hypothesis Hlen : 24 + Z.of_nat (length d) <= sz.
Hypothesis Hnew : forall x, x ∈ all_recs (R1 ++ (p, xs) :: R2) -> fst x <> nr.
Hypothesis Hroot : forall q, q ∈ (R1 ++ (p, xs) :: R2).*1 -> q + 8 <= nr - 8 \/ nr - 8 + sz <= q.

Lemma link_nr : 56 <= nr /\ nr + 16 + Z.of_nat (length d) <= hi.
Proof using Ht Hlo Hnb Hlen.
  destruct (tiles_in _ _ _ _ Ht Hnb) as (? & ? & _ & _). layout. cbn [b_off b_sz] in *. lia.
Qed.

Lemma link_rec x : x ∈ all_recs (R1 ++ (p, xs) :: R2) ->
  56 <= fst x /\ fst x + 16 + Z.of_nat (length (snd x)) <= hi /\
  (fst x + 16 + Z.of_nat (length (snd x)) <= nr - 8 \/ nr + 16 + Z.of_nat (length d) <= fst x).
Proof using HL Ht Hlo Hnb Hlen Hnew.
  intros Hx. destruct (ls_blk _ _ _ HL x Hx) as (b & Hb & _ & Hbo & Hbe).
  destruct (tiles_in _ _ _ _ Ht Hb) as (? & ? & _ & _).
  specialize (Hnew x Hx).
  destruct (tiles_disjoint _ _ _ _ _ Ht Hb Hnb) as [->|Hd]; layout; cbn [b_off b_sz] in *; lia.
Qed.

Lemma link_root q : q ∈ (R1 ++ (p, xs) :: R2).*1 -> 0 <= q /\ q + 8 <= hi.
Proof using All.
  intros [->|(b & Hb & _ & ? & ?)]%(ls_root _ _ _ HL).
  - apply tiles_le in Ht as Hle. layout.
    destruct (tiles_in _ _ _ _ Ht Hnb) as (? & ? & _ & _). layout. cbn [b_off b_sz] in *.
    lia.
  - destruct (tiles_in _ _ _ _ Ht Hb) as (? & ? & _ & _). lia.
Qed.

(** A list whose last record was relinked to a new one. *)
Lemma link_relinked front l t m2 :
  rseg m (l ++ [t]) (hd_rec (l ++ [t]) 0) -> ld64 m (fst t) = hd_rec (l ++ [t]) 0 ->
  (forall x, x ∈ l -> rsame m m2 x) -> ld64 m2 (fst t) = nr ->
  same_on m m2 (fst t + 8) (fst t + 16 + Z.of_nat (length (snd t))) ->
  ld64 m2 nr = ld64 m (fst t) -> ld64 m2 (nr + 8) = Z.of_nat (length d) ->
  ldn m2 (nr + 16) (length d) = d -> ld64 m2 p = (if front : bool then fst t else nr) ->
  list_at m2 p (link_recs front (nr, d) (l ++ [t])).
Proof using Type.
  intros Hseg Hon Hf Hn Hs Hnn Hns Hnd2 Hp2. pose proof (rseg_relink _ m2 _ _ _ _ Hseg Hf Hn Hs) as Hs2.
  unfold list_at. rewrite Hp2. destruct front; cbn [link_recs].
  - change ((nr, d) :: l ++ [t]) with (((nr, d) :: l) ++ [t]).
    rewrite last_rec_snoc. split; [done|]. cbn [app rseg hd_rec fst]. split_and!; try done.
    rewrite Hnn, Hon. by destruct l.
  - rewrite last_rec_snoc. split; [done|]. rewrite rseg_app. cbn [rseg hd_rec fst].
    split_and!; try done. rewrite Hnn, Hon. by destruct l.
Qed.

Lemma link_at front :
  list_at (link_new front p (ld64 m p) nr d m) p (link_recs front (nr, d) xs).
Proof using All.
  pose proof link_nr as [? ?].
  assert (p ∈ (R1 ++ (p, xs) :: R2).*1) as Hp by (rewrite fmap_app; apply elem_of_mid).
  pose proof (link_root p Hp) as [? ?]. pose proof (Hroot p Hp) as Hpr.
  destruct (ls_at _ _ _ HL p xs ltac:(apply elem_of_mid)) as [Hroot0 Hseg].
  assert (forall x, x ∈ xs -> 56 <= fst x /\ fst x + 16 + Z.of_nat (length (snd x)) <= hi /\
    (fst x + 16 + Z.of_nat (length (snd x)) <= nr - 8 \/
     nr + 16 + Z.of_nat (length d) <= fst x) /\
    (p + 8 <= fst x - 8 \/ fst x + 16 + Z.of_nat (length (snd x)) <= p)) as Hxs.
  { intros x Hx. assert (x ∈ all_recs (R1 ++ (p, xs) :: R2)) as Hx'
      by (rewrite all_recs_mid, !elem_of_app; auto).
    destruct (link_rec x Hx') as (? & ? & ?). split_and!; try done.
    by eapply rcd_apart_root. }
  assert (NoDup (fst <$> xs)) as Hnd.
  { pose proof (ls_nodup _ _ _ HL) as Hnd. rewrite all_recs_mid, !fmap_app in Hnd.
    apply NoDup_app in Hnd as (_ & _ & Hnd). by apply NoDup_app in Hnd as (Hnd & _). }
  unfold link_new. rewrite Hroot0. layout.
  destruct xs as [|t l _] eqn:Exs using rev_ind.
  - cbn [last_rec last]. unfold last_rec. cbn [last]. rewrite Z.eqb_refl.
    assert (link_recs front (nr, d) [] = [(nr, d)]) as -> by (by destruct front).
    split; [by rewrite ld64_st64 by lia|]. cbn [rseg hd_rec fst]. split_and!; try done.
    + rewrite ld64_st64_ne, ld64_st64; lia.
    + rewrite !ld64_st64_ne, ld64_stn_ne, ld64_st64; lia.
    + rewrite !ldn_st64_out by lia. apply ldn_stn_same.
  - rewrite last_rec_snoc. destruct (Hxs t ltac:(apply elem_of_app; right; by left)) as (? & ? & ? & ?).
    destruct (Z.eqb_spec (fst t) 0); [lia|].
    assert (forall x, x ∈ l -> fst x + 16 + Z.of_nat (length (snd x)) <= fst t - 8 \/
      fst t + 16 + Z.of_nat (length (snd t)) <= fst x - 8) as Hlt.
    { intros x Hx. eapply recs_apart; [exact HL|exact Ht|..].
      - rewrite all_recs_mid, !elem_of_app. auto.
      - rewrite all_recs_mid, !elem_of_app, list_elem_of_singleton. auto.
      - rewrite fmap_app in Hnd. apply NoDup_app in Hnd as (_ & Hnd & _).
        intros E. apply (Hnd (fst x)); [by apply list_elem_of_fmap_2|]. rewrite E. by left. }
    assert (forall x, x ∈ l -> 56 <= fst x /\
      (fst x + 16 + Z.of_nat (length (snd x)) <= nr - 8 \/ nr + 16 + Z.of_nat (length d) <= fst x) /\
      (p + 8 <= fst x - 8 \/ fst x + 16 + Z.of_nat (length (snd x)) <= p)) as Hxl.
    { intros x Hx. destruct (Hxs x) as (? & ? & ? & ?); [apply elem_of_app; by left|]. done. }
    assert (ld64 m (fst t) = hd_rec (l ++ [t]) 0) as Hon.
    { apply rseg_app in Hseg as [_ Hst]. destruct t as [o dt]. apply Hst. }
    pose proof (ld64_range m (fst t)).
    set (m1 := stn (st64 m (nr + 8) (Z.of_nat (length d))) (nr + 16) d).
    assert (ld64 m1 (fst t) = ld64 m (fst t)) as -> by (unfold m1; rewrite ld64_stn_ne, ld64_st64_ne; lia).
    pose proof (fun m2 => link_relinked front l t m2 Hseg Hon) as Hat.
    destruct front; apply Hat; unfold m1;
      try (intros x Hx; destruct (Hxl x Hx) as (? & ? & ?); specialize (Hlt x Hx)); try rframe.
    all: try mload.
    rewrite last_rec_snoc in Hroot0. rewrite <- Hroot0. mload.
Qed.

(** The new record joins the list, the other lists are as before. *)
Lemma lists_link front :
  lists (link_new front p (ld64 m p) nr d m) bl (R1 ++ (p, link_recs front (nr, d) xs) :: R2).
Proof using All.
  pose proof link_nr as [? ?].
  assert (p ∈ (R1 ++ (p, xs) :: R2).*1) as Hp by (rewrite fmap_app; apply elem_of_mid).
  pose proof (link_root p Hp) as [? ?]. pose proof (Hroot p Hp) as Hpr.
  destruct (ls_at _ _ _ HL p xs ltac:(apply elem_of_mid)) as [Hroot0 _].
  assert (ld64 m p = 0 \/ exists t, t ∈ xs /\ ld64 m p = fst t) as Htail.
  { rewrite Hroot0. destruct xs as [|t l _] eqn:E using rev_ind; [by left|right].
    exists t. rewrite last_rec_snoc. split; [|done]. apply elem_of_app. right. by left. }
  assert (forall x, x ∈ link_recs front (nr, d) xs -> x = (nr, d) \/ x ∈ xs) as Hin.
  { intros x. unfold link_recs. destruct front; rewrite ?elem_of_app, elem_of_cons; [tauto|].
    rewrite elem_of_nil. tauto. }
  eapply lists_update; [exact HL|apply link_at|..].
  - intros q Hq. destruct (other_root _ _ _ _ _ _ _ HL Hq) as [Hq' ?].
    pose proof (Hroot q Hq'). symmetry. apply ld64_same, same_on_link; [lia..|].
    destruct Htail as [?|(t & Htx & ->)]; [by left|right].
    assert (t ∈ all_recs (R1 ++ (p, xs) :: R2)) as Ht' by (rewrite all_recs_mid, !elem_of_app; auto).
    pose proof (rcd_apart_root _ _ _ q t HL Hq' Ht'). lia.
  - intros x Hx. destruct (other_rec _ _ _ _ _ _ _ _ _ HL Ht Hx) as [Hx' Hxt].
    destruct (link_rec x Hx') as (? & ? & ?). pose proof (rcd_apart_root _ _ _ p x HL Hp Hx').
    apply same_on_link; [lia..|].
    destruct Htail as [?|(t & Htx & ->)]; [by left|right]. specialize (Hxt t Htx). lia.
  - intros y Hy. apply Hin in Hy as [->|Hy].
    + exists (Blk (nr - 8) sz true). split_and!; try done. layout. cbn. lia.
    + apply (ls_blk _ _ _ HL). rewrite all_recs_mid, !elem_of_app. auto.
  - pose proof (ls_nodup _ _ _ HL) as Hnd. rewrite all_recs_mid in Hnd |- *.
    assert (link_recs front (nr, d) xs ≡ₚ (nr, d) :: xs) as ->.
    { destruct front; cbn; [done|]. by rewrite <- Permutation_cons_append. }
    cbn [app]. rewrite <- Permutation_middle, fmap_cons. apply NoDup_cons. split; [|done].
    intros (x & E & Hx)%list_elem_of_fmap. apply (Hnew x); [|by rewrite <- E].
    by rewrite all_recs_mid.
  - intros q y b Hq Hy Hyb. apply Hin in Hy as [->|Hy].
    + destruct Hyb as (Hb & _ & Hbo & _). cbn [fst] in Hbo.
      assert (b = Blk (nr - 8) sz true) as -> by (by eapply tiles_off_inj).
      layout. cbn. specialize (Hroot q Hq). lia.
    + eapply (ls_apart _ _ _ HL); [done| |done]. rewrite all_recs_mid, !elem_of_app. auto.
Qed.
End link.

(** ** Writes into payload keep the heap *)
Lemma hmem_payload m m' sz bl :
  hmem m sz bl -> same_on m m' 0 h_userdata ->
  (forall b, b ∈ bl -> same_on m m' (b_off b) (b_off b + if b_live b then 8 else 16)) ->
  hmem m' sz bl.
Proof.
  intros Hm H0 Hb.
  assert (forall a, 0 <= a -> a + 8 <= h_userdata -> ld64 m' a = ld64 m a) as E64.
  { intros a ? ?. symmetry. apply ld64_same. eapply same_on_mono; [done|lia..]. }
  assert (forall a, 0 <= a -> a + 4 <= h_userdata -> ld32 m' a = ld32 m a) as E32.
  { intros a ? ?. symmetry. apply ld32_same. eapply same_on_mono; [done|lia..]. }
  split; rewrite ?E64, ?E32 by (layout; lia); try apply Hm.
  - intros b Hbl Hl. rewrite <- (hm_live _ _ _ Hm b Hbl Hl). symmetry. apply ld64_same.
    specialize (Hb b Hbl). by rewrite Hl in Hb.
  - eapply circ_frame; [apply Hm|]. intros b [Hf Hbl]%elem_of_frees.
    specialize (Hb b Hbl). by rewrite Hf in Hb.
Qed.

Lemma hmem_stn m a l sz bl :
  hmem m sz bl -> payload bl a (a + Z.of_nat (length l)) -> hmem (stn m a l) sz bl.
Proof.
  intros Hm Hp. pose proof (hm_tiles _ _ _ Hm) as Ht.
  destruct Hp as [[H1 H2]|(b & Hb & Hl & H1 & H2)].
  - apply (hmem_payload m); [done| |]; [layout; rframe|].
    intros x Hx. destruct (tiles_in _ _ _ x Ht Hx) as (? & _). layout. destruct (b_live x); rframe.
  - destruct (tiles_in _ _ _ b Ht Hb) as (? & ? & _). apply (hmem_payload m); [done| |].
    + layout. rframe.
    + intros x Hx. destruct (tiles_in _ _ _ x Ht Hx) as (? & ? & ? & _).
      destruct (tiles_disjoint _ _ _ _ _ Ht Hx Hb) as [->|Hd].
      * rewrite Hl. rframe.
      * layout. destruct (b_live x); rframe.
Qed.

Lemma hmem_st64 m a v sz bl : hmem m sz bl -> payload bl a (a + 8) -> hmem (st64 m a v) sz bl.
Proof. intros Hm Hp. apply hmem_stn; [done|]. by rewrite length_le_bytes. Qed.

(** ** The lists after other operations *)
Lemma lists_kept c c' bl bl' R lo hi :
  lists (data c) bl R -> kept bl c c' -> tiles bl' lo hi ->
  (forall b, b ∈ bl -> b_live b = true -> b ∈ bl') -> lists (data c') bl' R.
Proof.
  intros HL Hk Ht Hin.
  assert (forall q, q ∈ R.*1 -> ld64 (data c') q = ld64 (data c) q) as Hq.
  { intros q [->|(b & Hb & Hl & ? & ?)]%(ls_root _ _ _ HL); [apply Hk|].
    symmetry. apply ld64_same. eapply same_on_mono; [by eapply (kp_live _ _ _ Hk)|lia..]. }
  assert (forall x b, x ∈ all_recs R -> rblk bl' x b -> rblk bl x b) as Hrb.
  { intros x b Hx (Hb & Hl & Ho & He). destruct (ls_blk _ _ _ HL x Hx) as (b0 & Hb0 & Hl0 & Ho0 & He0).
    assert (b = b0) as -> by (eapply tiles_off_inj; [exact Ht|done|by apply Hin|lia]). done. }
  split.
  - intros p xs Hp. eapply list_at_frame; [by apply (ls_at _ _ _ HL)| |].
    + apply Hq, list_elem_of_fmap. by exists (p, xs).
    + intros x Hx. assert (x ∈ all_recs R) as Hx' by (apply elem_of_all_recs; eauto).
      destruct (ls_blk _ _ _ HL x Hx') as (b & Hb & Hl & Ho & He).
      eapply same_on_mono; [by eapply (kp_live _ _ _ Hk)|lia..].
  - intros x Hx. destruct (ls_blk _ _ _ HL x Hx) as (b & Hb & Hl & Ho & He).
    exists b. split_and!; auto.
  - apply HL.
  - intros q Hq'. destruct (ls_root _ _ _ HL q Hq') as [->|(b & Hb & Hl & ? & ?)]; [by left|right].
    exists b. split_and!; auto.
  - apply HL.
  - intros q x b Hq' Hx Hxb. eapply (ls_apart _ _ _ HL); eauto.
Qed.

(** Only the last record is the one the root points to. *)
Lemma not_last m bl R p l1 x y l2 :
  lists m bl R -> (p, l1 ++ x :: y :: l2) ∈ R -> fst x <> last_rec (l1 ++ x :: y :: l2).
Proof.
  intros HL Hp. destruct (exists_last (l := y :: l2)) as (l & t & El); [done|].
  replace (l1 ++ x :: y :: l2) with ((l1 ++ x :: l) ++ [t]) by (rewrite El, <- app_assoc; done).
  rewrite last_rec_snoc. intros E. pose proof (ls_nodup _ _ _ HL) as Hnd.
  apply list_elem_of_split in Hp as (R1 & R2 & ->). rewrite all_recs_mid, !fmap_app in Hnd.
  apply NoDup_app in Hnd as (_ & _ & Hnd). apply NoDup_app in Hnd as (Hnd & _).
  rewrite El in Hnd. apply NoDup_app in Hnd as (_ & _ & Hnd). rewrite fmap_cons, fmap_app in Hnd.
  apply NoDup_cons in Hnd as [Hnd _]. apply Hnd, elem_of_app. right. rewrite E. by left.
Qed.

Section with_os.
Context {os : Os} {Hos : OsOk os} {X : Type} {vt : VTable X} {vo : VTableOk X}.
Implicit Types s : obj X.

Lemma kept_ranges bl keep c c' :
  (forall k, k ∈ keep -> exists b, b ∈ bl /\ b_live b = true /\ b_off b <= b_off k /\ b_end k <= b_end b) ->
  kept bl c c' -> kept keep c c'.
Proof.
  intros Hin [? ? ? ? Hl]. split; try done. intros k Hk _.
  destruct (Hin k Hk) as (b & Hb & Hbl & ? & ?). eapply same_on_mono; [by eapply Hl|done..].
Qed.

Lemma guarded_ranges bl R keep : guarded bl R keep ->
  forall k, k ∈ keep -> exists b, b ∈ bl /\ b_live b = true /\ b_off b <= b_off k /\ b_end k <= b_end b.
Proof. intros Hg k Hk. destruct (Hg k Hk) as [(b & ? & ? & ? & ? & _) _]. by exists b. Qed.

(** nvalloc on a file with lists. *)
Lemma wp_alloc_store bl R keep P rsz (Q : Z -> obj X -> Prop) s :
  store (core s) bl R keep P -> lock_ok (core s) -> (2 <= lck_stackp (core s))%nat -> P (ext s) ->
  0 <= rsz -> mem_sz (core s) + rsz + 2 ^ 18 <= limit ->
  (forall p bl' c' x t, store c' bl' R keep P -> P x -> same_locks (core s) c' ->
     kept bl (core s) c' ->
     mem_sz c' = grown_size (alloc_round rsz) (mem_sz (core s)) bl ->
     alloc_spec (alloc_round rsz) (mem_sz (core s)) bl = Some (p, bl') ->
     Blk p t true ∈ bl' -> rsz + 8 <= t ->
     (forall y, y ∈ bl -> b_live y = true -> y ∈ bl' /\ (b_end y <= p \/ p + t <= b_off y)) ->
     Q (p + 8) (Obj c' x)) ->
  wp (nvalloc rsz) Q s.
Proof.
  intros [Hh HL Hg Hst Hu] Hlk Hsp Hp Hr Hlim HQ. pose proof Hh as [Hcur Hl _ Hm].
  pose proof (guarded_ranges _ _ _ Hg) as Hgr.
  eapply (wp_nvalloc P bl); try done.
  { intros c' Hk. apply Hst. by eapply kept_ranges. }
  intros p bl' c' x Hspec Hh' Hsz Hk Hl' Hx.
  pose proof (hm_tiles _ _ _ (hp_mem _ _ Hh')) as Ht'.
  destruct (alloc_spec_new _ _ _ _ _ _ Hm Hspec _ Ht') as (t & Ht & Hge & _ & Hnew).
  assert (rsz + 8 <= alloc_round rsz) as Hrd.
  { pose proof (cu_big _ Hcur). layout. rewrite alloc_round_eq by lia. Z.div_mod_to_equations. lia. }
  eapply HQ; try done; [|lia]. split; try done.
  - eapply lists_kept; try done. intros b Hb Hbl. by apply Hnew.
  - intros k Hk'. destruct (Hg k Hk') as [(b & Hb & Hbl & ? & ? & ?) ?]. split; [|done].
    exists b. split_and!; try done. by apply Hnew.
  - eapply stable_kept; [done|]. by eapply kept_ranges.
Qed.

Lemma payload_in bl b lo hi :
  b ∈ bl -> b_live b = true -> b_off b + 8 <= lo -> hi <= b_end b -> payload bl lo hi.
Proof. intros. right. by exists b. Qed.

Lemma payload_root bl q : root_ok bl q -> payload bl q (q + 8).
Proof. intros [->|H]; [left; layout; lia|by right]. Qed.

Lemma last_rec_in xs : last_rec xs = 0 \/ exists t, t ∈ xs /\ last_rec xs = fst t.
Proof.
  destruct xs as [|t l _] using rev_ind; [by left|right].
  exists t. rewrite last_rec_snoc. split; [|done]. apply elem_of_app. right. by left.
Qed.

Lemma hmem_link front m sz bl R1 p xs R2 nr d t :
  hmem m sz bl -> lists m bl (R1 ++ (p, xs) :: R2) -> Blk (nr - 8) t true ∈ bl ->
  24 + Z.of_nat (length d) <= t -> hmem (link_new front p (ld64 m p) nr d m) sz bl.
Proof.
  intros Hm HL Hnb Ht.
  assert (forall lo hi, nr <= lo -> hi <= nr + 16 + Z.of_nat (length d) -> payload bl lo hi) as Hpn.
  { intros lo hi ? ?. eapply payload_in; [done|done|cbn; lia|layout; cbn; lia]. }
  assert (payload bl p (p + 8)) as Hpp.
  { apply payload_root, (ls_root _ _ _ HL). rewrite fmap_app. apply elem_of_mid. }
  destruct (ls_at _ _ _ HL p xs (elem_of_mid _ _ _)) as [Hroot _].
  assert (ld64 m p <> 0 -> payload bl (ld64 m p) (ld64 m p + 8)) as Hpt.
  { rewrite Hroot. intros Hne. destruct (last_rec_in xs) as [?|(x & Hx & E)]; [done|].
    destruct (ls_blk _ _ _ HL x) as (b & Hb & Hbl & Ho & He).
    { rewrite all_recs_mid, !elem_of_app. auto. }
    rewrite E. eapply payload_in; [done|done|lia|lia]. }
  unfold link_new.
  assert (hmem (stn (st64 m (nr + 8) (Z.of_nat (length d))) (nr + 16) d) sz bl) as Hm1.
  { apply hmem_stn; [apply hmem_st64; [done|]|]; apply Hpn; lia. }
  destruct (Z.eqb_spec (ld64 m p) 0) as [E|E].
  - apply hmem_st64; [apply hmem_st64; [done|]|done]. apply Hpn; lia.
  - assert (hmem (st64 (st64 (stn (st64 m (nr + 8) (Z.of_nat (length d))) (nr + 16) d) nr
      (ld64 (stn (st64 m (nr + 8) (Z.of_nat (length d))) (nr + 16) d) (ld64 m p))) (ld64 m p) nr) sz bl).
    { apply hmem_st64; [apply hmem_st64; [done|]|by apply Hpt]. apply Hpn; lia. }
    destruct front; [done|]. by apply hmem_st64.
Qed.

Lemma current_data m c :
  current c -> ld64 m h_size = mem_sz c -> ld32 m h_hlen = sizeof_Header -> ld32 m h_version = 2 ->
  current (set_data m c).
Proof. intros [? ? ? ? ? ?] ? ? ?. by split. Qed.

Lemma heap_data m c bl : heap c bl -> hmem m (mem_sz c) bl -> heap (set_data m c) bl.
Proof.
  intros [Hc Hl Hp _] Hm. split; try done. apply current_data; try done; apply Hm.
Qed.

(** The writes of sprepend and sappend after the allocation. *)
Lemma wp_link_writes front p nr d (Q : unit -> obj X -> Prop) m s :
  mem_p (core s) = Mapped -> 0 < nr -> nr + 16 + Z.of_nat (length d) <= mem_sz (core s) ->
  0 <= p -> p + 8 <= mem_sz (core s) -> p + 8 <= nr \/ nr + 16 + Z.of_nat (length d) <= p ->
  (ld64 m p <> 0 -> 0 < ld64 m p /\ ld64 m p + 8 <= mem_sz (core s)) ->
  Q tt (upd (link_new front p (ld64 m p) nr d m) s) ->
  wp (tail <- ldw p ;;
      set_r_szdata nr (Z.of_nat (length d)) ;;;
      stmem (r_datap nr) d ;;;
      if negb (tail =? 0) then
        tn <- r_next tail ;;
        set_r_next nr tn ;;;
        (if front then set_r_next tail nr else set_r_next tail nr ;;; stw p nr)
      else set_r_next nr nr ;;; stw p nr) Q (upd m s).
Proof.
  intros Hmap Hnr Hnr2 Hp Hp2 Hd Ht HQ.
  unfold set_r_szdata, set_r_next, r_next, r_datap, sizeof_Record, link_new in *.
  repeat mstep. apply wp_deref; [lia|]. repeat mstep. apply wp_stmem; [split_and!; [done|lia|lia]|].
  destruct (Z.eqb_spec (ld64 m p) 0) as [E|E]; cbn [negb].
  - repeat mstep. apply wp_deref; [lia|]. by repeat mstep.
  - destruct (Ht E). repeat mstep. apply wp_deref; [lia|]. repeat mstep.
    apply wp_deref; [lia|]. repeat mstep.
    destruct front; repeat mstep; (apply wp_deref; [lia|]); by repeat mstep.
Qed.

Lemma guarded_link front bl bl0 R1 p xs R2 keep nr d t lo hi :
  guarded bl0 (R1 ++ (p, xs) :: R2) keep -> tiles bl lo hi ->
  (forall y, y ∈ bl0 -> b_live y = true -> y ∈ bl /\ (b_end y <= nr - 8 \/ nr - 8 + t <= b_off y)) ->
  0 < t -> guarded bl (R1 ++ (p, link_recs front (nr, d) xs) :: R2) keep.
Proof.
  intros Hg Ht Hold Hpos k Hk. destruct (Hg k Hk) as [(b & Hb & Hbl & ? & ? & Hx) Hq].
  destruct (Hold b Hb Hbl) as [Hb' Hd]. split.
  - exists b. split_and!; try done. intros x Hx'.
    destruct (tiles_in _ _ _ _ Ht Hb') as (_ & _ & ? & _).
    assert (x = (nr, d) \/ x ∈ all_recs (R1 ++ (p, xs) :: R2)) as [->|Hx0].
    { rewrite all_recs_mid, !elem_of_app in Hx' |- *. unfold link_recs in Hx'.
      destruct front; rewrite ?elem_of_app, elem_of_cons in Hx'; [tauto|].
      rewrite elem_of_nil in Hx'. tauto. }
    + cbn [fst]. layout. lia.
    + by apply Hx.
  - intros q Hq'. apply Hq. by rewrite fmap_app in *.
Qed.

Lemma kept_link front c bl R1 p xs R2 keep nr d t :
  mem_p c = Mapped -> lists (data c) bl (R1 ++ (p, xs) :: R2) -> tiles bl sizeof_Header (mem_sz c) ->
  guarded bl (R1 ++ (p, link_recs front (nr, d) xs) :: R2) keep -> p <> h_userdata ->
  Blk (nr - 8) t true ∈ bl -> 24 + Z.of_nat (length d) <= t ->
  kept keep c (set_data (link_new front p (ld64 (data c) p) nr d (data c)) c).
Proof.
  intros Hmap HL Ht Hg Hp Hnb Hlen.
  assert (p ∈ (R1 ++ (p, xs) :: R2).*1) as Hp' by (rewrite fmap_app; apply elem_of_mid).
  destruct (ls_root _ _ _ HL p Hp') as [?|(bp & Hbp & Hbpl & ? & ?)]; [done|].
  destruct (tiles_in _ _ _ _ Ht Hbp) as (? & ? & _ & _).
  destruct (tiles_in _ _ _ _ Ht Hnb) as (? & ? & _ & _).
  destruct (ls_at _ _ _ HL p xs (elem_of_mid _ _ _)) as [Hroot _].
  assert (ld64 (data c) p = 0 \/ exists x b, x ∈ xs /\ ld64 (data c) p = fst x /\ rblk bl x b) as Htail.
  { rewrite Hroot. destruct (last_rec_in xs) as [?|(x & Hx & E)]; [by left|right].
    destruct (ls_blk _ _ _ HL x) as (b & Hb); [rewrite all_recs_mid, !elem_of_app; auto|].
    by exists x, b. }
  assert (forall lo hi, 0 <= lo -> hi <= sizeof_Header -> 
    same_on (data c) (link_new front p (ld64 (data c) p) nr d (data c)) lo hi) as Hhdr.
  { intros lo hi ? ?. layout. cbn [b_off b_sz] in *. apply same_on_link; [lia|lia|].
    destruct Htail as [?|(x & b & _ & -> & Hb & _ & Ho & _)]; [by left|right; left].
    destruct (tiles_in _ _ _ _ Ht Hb) as (? & _). layout. lia. }
  split; try done.
  - unfold hdr. symmetry. apply ld64_same, Hhdr; layout; lia.
  - unfold hdr. symmetry. apply ld64_same, Hhdr; layout; lia.
  - intros k Hk _. destruct (Hg k Hk) as [(b & Hb & Hbl & ? & ? & Hx) Hq].
    assert (p ∈ (R1 ++ (p, link_recs front (nr, d) xs) :: R2).*1) as Hp2
      by (rewrite fmap_app; apply elem_of_mid).
    specialize (Hq p Hp2).
    assert (forall x b0, x ∈ link_recs front (nr, d) xs -> rblk bl x b0 ->
      b_end k <= b_off b0 \/ b_end b0 <= b_off k) as Hdis.
    { intros x b0 Hx0 (Hb0 & _ & Ho0 & _).
      assert (x ∈ all_recs (R1 ++ (p, link_recs front (nr, d) xs) :: R2)) as Hx'
        by (rewrite all_recs_mid, !elem_of_app; auto).
      destruct (tiles_disjoint _ _ _ _ _ Ht Hb Hb0) as [->|?]; [|layout; lia].
      by destruct (Hx x Hx'). }
    assert (rblk bl (nr, d) (Blk (nr - 8) t true)) as Hnrb by (split_and!; try done; layout; cbn; lia).
    pose proof (Hdis (nr, d) _ ltac:(destruct front; [by left|apply elem_of_app; right; by left]) Hnrb).
    layout. cbn [b_off b_sz] in *. apply same_on_link; [lia|lia|].
    destruct Htail as [?|(x & b0 & Hx0 & -> & Hb0)]; [by left|right].
    assert (x ∈ link_recs front (nr, d) xs) as Hx1.
    { destruct front; [by right|]. apply elem_of_app. by left. }
    pose proof (Hdis x b0 Hx1 Hb0). destruct Hb0 as (_ & _ & ? & ?). layout. lia.
Qed.

(** A new block holds neither a record nor a root of the lists. *)
Lemma block_fresh m bl bl' R b0 t lo hi : lists m bl R -> tiles bl' lo hi -> 48 <= b0 -> 0 < t ->
  (forall y, y ∈ bl -> b_live y = true -> y ∈ bl' /\ (b_end y <= b0 \/ b0 + t <= b_off y)) ->
  (forall y, y ∈ all_recs R -> fst y <> b0 + 8) /\
  (forall q, q ∈ R.*1 -> q + 8 <= b0 + 8 - 8 \/ b0 + 8 - 8 + t <= q).
Proof.
  intros HL Ht Hb0 Hpos Hnew. split.
  - intros y Hy. destruct (ls_blk _ _ _ HL y Hy) as (b & Hb & Hbl & Ho & He).
    destruct (Hnew b Hb Hbl) as [Hb' Hd]. destruct (tiles_in _ _ _ _ Ht Hb') as (_ & _ & ? & _).
    layout. lia.
  - intros q [->|(b & Hb & Hbl & ? & ?)]%(ls_root _ _ _ HL); [layout; lia|].
    destruct (Hnew b Hb Hbl) as [_ Hd]. layout. lia.
Qed.

(** sprepend and sappend. *)
Lemma wp_link_op front bl R1 p xs R2 keep P d (Q : unit -> obj X -> Prop) s :
  store (core s) bl (R1 ++ (p, xs) :: R2) keep P -> lock_ok (core s) ->
  (2 <= lck_stackp (core s))%nat -> P (ext s) ->
  mem_sz (core s) + Z.of_nat (length d) + 2 ^ 19 <= limit ->
  (forall bl' c' x nr, store c' bl' (R1 ++ (p, link_recs front (nr, d) xs) :: R2) keep P ->
     P x -> same_locks (core s) c' ->
     mem_sz c' = grown_size (alloc_round (Z.of_nat (length d) + 16)) (mem_sz (core s)) bl ->
     Q tt (Obj c' x)) ->
  wp ((if front then sprepend else sappend) p d) Q s.
Proof.
  intros Hso Hlk Hsp HP Hlim HQ. pose proof Hso as [Hh HL Hg Hst Hu].
  assert (wp (nr <- nvalloc (w64 (Z.of_nat (length d) + sizeof_Record)) ;;
      tail <- ldw p ;;
      set_r_szdata nr (Z.of_nat (length d)) ;;;
      stmem (r_datap nr) d ;;;
      if negb (tail =? 0) then
        tn <- r_next tail ;;
        set_r_next nr tn ;;;
        (if front then set_r_next tail nr else set_r_next tail nr ;;; stw p nr)
      else set_r_next nr nr ;;; stw p nr) Q s) as H; [|destruct front; exact H].
  pose proof (cu_big _ (hp_current _ _ Hh)). unfold sizeof_Record. layout.
  rewrite w64_small by lia. mstep.
  eapply (wp_alloc_store bl); try done; [lia|layout; lia|].
  intros b0 bl' c1 x t Hso1 Hx Hl1 Hk1 Hsz1 Hspec Hnb Ht Hnew.
  pose proof Hso1 as [Hh1 HL1 _ Hst1 Hu1]. pose proof Hh1 as [Hcur1 Hlim1 _ Hm1].
  pose proof (hm_tiles _ _ _ Hm1) as Htl1.
  destruct (tiles_in _ _ _ _ Htl1 Hnb) as (? & ? & _ & _). layout. cbn [b_off b_sz] in *.
  assert (Blk (b0 + 8 - 8) t true ∈ bl') as Hnb' by (by replace (b0 + 8 - 8) with b0 by lia).
  assert (p ∈ (R1 ++ (p, xs) :: R2).*1) as Hp by (rewrite fmap_app; apply elem_of_mid).
  destruct (block_fresh _ _ _ _ b0 t _ _ HL Htl1 ltac:(lia) ltac:(lia) Hnew) as [Hfresh Hroots].
  pose proof (hmem_link front _ _ _ _ _ _ _ _ d t Hm1 HL1 Hnb' ltac:(lia)) as Hm2.
  pose proof (lists_link _ _ _ _ _ _ _ _ _ _ d HL1 Htl1 ltac:(done) Hlim1 Hnb' ltac:(lia) Hfresh Hroots front)
    as HL2.
  assert (guarded bl' (R1 ++ (p, link_recs front (b0 + 8, d) xs) :: R2) keep) as Hg2.
  { eapply (guarded_link _ _ _ _ _ _ _ _ _ _ t); [exact Hg|exact Htl1| |lia].
    intros y Hy Hyl. destruct (Hnew y Hy Hyl). split; [done|layout; lia]. }
  pose proof (Hroots p Hp) as Hpr.
  rewrite <- (upd_self (Obj c1 x)). apply wp_link_writes; cbn [core].
  - apply Hcur1.
  - lia.
  - lia.
  - apply (link_root (data c1) bl' R1 R2 p xs 48 (mem_sz c1) (b0 + 8) t d); try done. lia.
  - apply (link_root (data c1) bl' R1 R2 p xs 48 (mem_sz c1) (b0 + 8) t d); try done. lia.
  - lia.
  - destruct (ls_at _ _ _ HL1 p xs (elem_of_mid _ _ _)) as [-> _].
    destruct (last_rec_in xs) as [?|(y & Hy & ->)]; [done|]. intros _.
    destruct (ls_blk _ _ _ HL1 y) as (b & Hb & _ & Ho & He); [rewrite all_recs_mid, !elem_of_app; auto|].
    destruct (tiles_in _ _ _ _ Htl1 Hb) as (? & ? & _ & _). layout. lia.
  - apply (HQ bl' (set_data (link_new front p (ld64 (data c1) p) (b0 + 8) d (data c1)) c1) x (b0 + 8));
      try done; [|by split; apply Hl1].
    split; try done.
    + by apply heap_data.
    + destruct (decide (p = h_userdata)) as [->|Hne]; [by apply Hu1|].
      eapply stable_kept; [done|]. eapply kept_link; try done; [apply Hcur1|lia].
    + intros Hq. apply Hu. by rewrite fmap_app in *.
Qed.

(** *** Unlinking the first record *)
Lemma unlink_shape m bl R1 p x xs R2 lo hi :
  lists m bl (R1 ++ (p, x :: xs) :: R2) -> tiles bl lo hi -> 48 <= lo ->
  ld64 m p = last_rec (x :: xs) /\ ld64 m (ld64 m p) = fst x /\
  (ld64 m p = fst x <-> xs = []) /\ ld64 m (fst x) = hd_rec xs (fst x) /\
  56 <= fst x /\ fst x + 16 <= hi /\ 56 <= ld64 m p /\ ld64 m p + 16 <= hi.
Proof.
  intros HL Ht Hlo. destruct (ls_at _ _ _ HL p _ (elem_of_mid _ _ _)) as [Hp Hseg].
  assert (forall y, y ∈ x :: xs -> 56 <= fst y /\ fst y + 16 <= hi) as Hy.
  { intros y Hy. destruct (ls_blk _ _ _ HL y) as (b & Hb & _ & Ho & He).
    { rewrite all_recs_mid, !elem_of_app. auto. }
    destruct (tiles_in _ _ _ _ Ht Hb) as (? & ? & _ & _). lia. }
  destruct (Hy x); [by left|].
  destruct (last_rec_in (x :: xs)) as [E|(t & Ht' & E)].
  { exfalso. destruct (exists_last (l := x :: xs)) as (l & t & El); [done|].
    rewrite El, last_rec_snoc in E. destruct (Hy t) as [? _]; [|lia].
    rewrite El. apply elem_of_app. right. by left. }
  destruct (Hy t Ht'). rewrite Hp, E.
  assert (ld64 m (fst t) = fst x) as Htx.
  { destruct (exists_last (l := x :: xs)) as (l & [o d] & El); [done|].
    rewrite El in Hseg, E. rewrite last_rec_snoc in E. apply rseg_app in Hseg as [_ Hseg].
    cbn [rseg hd_rec fst] in *. rewrite <- E. destruct Hseg as [-> _]. rewrite <- El. done. }
  assert (ld64 m (fst x) = hd_rec xs (fst x)) as Hxn by (destruct x; apply Hseg).
  split_and!; try done. split.
  - intros Etx. destruct xs as [|y l _] using rev_ind; [done|].
    exfalso. rewrite app_comm_cons, last_rec_snoc in E. rewrite Etx in E.
    pose proof (ls_nodup _ _ _ HL) as Hnd. rewrite all_recs_mid, !fmap_app in Hnd.
    apply NoDup_app in Hnd as (_ & _ & Hnd). apply NoDup_app in Hnd as (Hnd & _).
    rewrite fmap_cons, fmap_app in Hnd. apply NoDup_cons in Hnd as [Hnd _]. apply Hnd.
    apply elem_of_app. right. rewrite <- E. by left.
  - intros ->. unfold last_rec in E. cbn in E. by rewrite E.
Qed.

Lemma lists_unlink m bl R1 p x xs R2 lo hi :
  lists m bl (R1 ++ (p, x :: xs) :: R2) -> tiles bl lo hi -> 48 <= lo -> hi < limit ->
  lists (unlink_first p m) bl (R1 ++ (p, xs) :: R2).
Proof.
  intros HL Ht Hlo Hhi.
  destruct (unlink_shape _ _ _ _ _ _ _ _ _ HL Ht Hlo) as (Ep & En & Hiff & Exn & ? & ? & ? & ?).
  assert (p ∈ (R1 ++ (p, x :: xs) :: R2).*1) as Hp by (rewrite fmap_app; apply elem_of_mid).
  destruct (ls_at _ _ _ HL p _ (elem_of_mid _ _ _)) as [_ Hseg].
  unfold unlink_first. rewrite En. layout.
  assert (forall y, y ∈ x :: xs -> y ∈ all_recs (R1 ++ (p, x :: xs) :: R2)) as Hin.
  { intros y Hy. rewrite all_recs_mid, !elem_of_app. auto. }
  assert (forall y, y ∈ x :: xs -> p + 8 <= fst y - 8 \/ fst y + 16 + Z.of_nat (length (snd y)) <= p) as Hpy.
  { intros y Hy. eapply rcd_apart_root; eauto. }
  assert (exists t, t ∈ x :: xs /\ ld64 m p = fst t) as (t & Htx & Et).
  { destruct (last_rec_in (x :: xs)) as [?|(t & ? & ?)]; [lia|]. exists t. split; [done|congruence]. }
  eapply lists_update; [exact HL|..].
  - destruct (Z.eqb_spec (ld64 m p) (fst x)) as [E|E].
    + apply Hiff in E as ->. split; [|done]. by rewrite ld64_st64 by lia.
    + destruct xs as [|y l _] using rev_ind; [by destruct E; apply Hiff|].
      rewrite app_comm_cons, last_rec_snoc in Ep. rewrite Ep.
      assert (y ∈ x :: l ++ [y]) as Hy by (right; apply elem_of_app; right; by left).
      pose proof (Hpy y Hy). pose proof (ld64_range m (fst x)).
      split; [by rewrite ld64_st64_ne, last_rec_snoc by lia|].
      destruct x as [o d]. cbn [rseg] in Hseg. destruct Hseg as (_ & _ & _ & Hseg).
      eapply rseg_relink; [exact Hseg|..].
      * intros z Hz. assert (z ∈ (o, d) :: l ++ [y]) as Hz' by (right; apply elem_of_app; by left).
        destruct (recs_apart _ _ _ _ _ z y HL Ht (Hin _ Hz') (Hin _ Hy)); [|rframe..].
        pose proof (ls_nodup _ _ _ HL) as Hnd. rewrite all_recs_mid, !fmap_app in Hnd.
        apply NoDup_app in Hnd as (_ & _ & Hnd). apply NoDup_app in Hnd as (Hnd & _).
        rewrite fmap_cons, fmap_app in Hnd. apply NoDup_cons in Hnd as [_ Hnd].
        apply NoDup_app in Hnd as (_ & Hnd & _). intros Ezy. apply (Hnd (fst z)).
        { by apply list_elem_of_fmap_2. } rewrite Ezy. by left.
      * rewrite ld64_st64, Exn by lia. by destruct l.
      * rframe.
  - intros q Hq. destruct (other_root _ _ _ _ _ _ _ HL Hq) as [Hq' ?].
    pose proof (rcd_apart_root _ _ _ q t HL Hq' (Hin t Htx)).
    destruct (_ =? _); rewrite ld64_st64_ne by lia; done.
  - intros z Hz. destruct (other_rec _ _ _ _ _ _ _ _ _ HL Ht Hz) as [Hz' Hzt].
    specialize (Hzt t Htx). pose proof (rcd_apart_root _ _ _ p z HL Hp Hz').
    destruct (_ =? _); rframe.
  - intros y Hy. apply (ls_blk _ _ _ HL), Hin. by right.
  - pose proof (ls_nodup _ _ _ HL) as Hnd. rewrite all_recs_mid in Hnd |- *.
    cbn [app] in Hnd. rewrite <- Permutation_middle, fmap_cons in Hnd. by apply NoDup_cons in Hnd as [_ Hnd].
  - intros q y b Hq Hy Hyb. eapply (ls_apart _ _ _ HL); [done| |done]. apply Hin. by right.
Qed.

(** One word written outside the header fields and the ranges [keep]. *)
Lemma kept_word c keep a v :
  mem_p c = Mapped -> sizeof_Header <= a ->
  (forall k, k ∈ keep -> a + 8 <= b_off k \/ b_end k <= a) ->
  kept keep c (set_data (st64 (data c) a v) c).
Proof.
  intros Hm Ha Hk. layout. split; try done; unfold hdr; change (data (set_data ?x c)) with x.
  - layout. by mem_simpl.
  - layout. by mem_simpl.
  - intros k Hkk _. specialize (Hk k Hkk). layout. rframe.
Qed.

(** Dropping the block of a record that is in no list. *)
Lemma lists_drop m q1 b q2 R lo hi :
  lists m (q1 ++ b :: q2) R -> tiles (q1 ++ b :: q2) lo hi ->
  (forall y, y ∈ all_recs R -> fst y - 8 <> b_off b) ->
  (forall q, q ∈ R.*1 -> q + 8 <= b_off b \/ b_end b <= q) -> lists m (q1 ++ q2) R.
Proof.
  intros HL Ht Hrec Hroot.
  assert (forall y, y ∈ q1 ++ b :: q2 -> y = b \/ y ∈ q1 ++ q2) as Hin.
  { intros y. rewrite !elem_of_app, elem_of_cons. tauto. }
  split; try apply HL.
  - intros y Hy. destruct (ls_blk _ _ _ HL y Hy) as (b' & Hb & Hl & Ho & He).
    exists b'. split_and!; try done. apply Hin in Hb as [->|Hb]; [|done].
    by destruct (Hrec y Hy).
  - intros q Hq. destruct (ls_root _ _ _ HL q Hq) as [->|(b' & Hb & Hl & ? & ?)]; [by left|right].
    exists b'. split_and!; try done. apply Hin in Hb as [->|Hb]; [|done].
    specialize (Hroot q Hq). lia.
  - intros q y b' Hq Hy (Hb & Hl & Ho & He). eapply (ls_apart _ _ _ HL); [done..|].
    split_and!; try done. by apply elem_of_mid_weaken.
Qed.

Lemma wp_unlink p (Q : unit -> obj X -> Prop) K m s :
  mem_p (core s) = Mapped -> 0 <= p -> p + 8 <= mem_sz (core s) ->
  0 < ld64 m p -> ld64 m p + 8 <= mem_sz (core s) ->
  0 < ld64 m (ld64 m p) -> ld64 m (ld64 m p) + 8 <= mem_sz (core s) ->
  wp (K (ld64 m (ld64 m p))) Q (upd (unlink_first p m) s) ->
  wp (tail <- ldw p ;;
      nr <- r_next tail ;;
      (if tail =? nr then stw p 0
       else nn <- r_next nr ;; set_r_next tail nn) ;;;
      K nr) Q (upd m s).
Proof.
  intros. unfold unlink_first, r_next, set_r_next in *. repeat mstep. apply wp_deref; [lia|]. repeat mstep.
  destruct (ld64 m p =? ld64 m (ld64 m p)); [by repeat mstep|].
  repeat mstep. apply wp_deref; [lia|]. repeat mstep. apply wp_deref; [lia|]. by repeat mstep.
Qed.

Lemma root_bounds m bl R lo hi p :
  lists m bl R -> tiles bl lo hi -> 48 <= lo -> p ∈ R.*1 -> 0 <= p /\ p + 8 <= hi.
Proof.
  intros HL Ht Hlo Hp. apply tiles_le in Ht as Hle.
  destruct (ls_root _ _ _ HL p Hp) as [->|(b & Hb & _ & ? & ?)]; [layout; lia|].
  destruct (tiles_in _ _ _ _ Ht Hb) as (? & ? & _ & _). lia.
Qed.

(** The records that are left when the first one is taken out. *)
Lemma rest_recs m bl R1 p x xs R2 y : lists m bl (R1 ++ (p, x :: xs) :: R2) ->
  y ∈ all_recs (R1 ++ (p, xs) :: R2) -> y ∈ all_recs (R1 ++ (p, x :: xs) :: R2) /\ fst y <> fst x.
Proof.
  intros HL Hy. rewrite all_recs_mid in *. split.
  - rewrite !elem_of_app, elem_of_cons in *. tauto.
  - pose proof (ls_nodup _ _ _ HL) as Hnd. rewrite all_recs_mid in Hnd. cbn [app] in Hnd.
    rewrite <- Permutation_middle, fmap_cons in Hnd. apply NoDup_cons in Hnd as [Hnd _].
    intros E. apply Hnd. rewrite <- E. by apply list_elem_of_fmap_2.
Qed.

(** The tail's [next] word. *)
Lemma tail_payload m bl R1 p x xs R2 :
  lists m bl (R1 ++ (p, x :: xs) :: R2) ->
  exists t b, t ∈ x :: xs /\ last_rec (x :: xs) = fst t /\ rblk bl t b /\
    payload bl (fst t) (fst t + 8).
Proof.
  intros HL. destruct (exists_last (l := x :: xs)) as (l & t & El); [done|].
  assert (t ∈ x :: xs) as Ht by (rewrite El; apply elem_of_app; right; by left).
  destruct (ls_blk _ _ _ HL t) as (b & Hb); [rewrite all_recs_mid, !elem_of_app; auto|].
  exists t, b. split_and!; try done; [by rewrite El, last_rec_snoc|].
  destruct Hb as (Hb & Hl & ? & ?). eapply payload_in; [done|done|lia|lia].
Qed.

Lemma hmem_unlink m sz bl R1 p x xs R2 :
  hmem m sz bl -> lists m bl (R1 ++ (p, x :: xs) :: R2) -> hmem (unlink_first p m) sz bl.
Proof.
  intros Hm HL. destruct (ls_at _ _ _ HL p _ (elem_of_mid _ _ _)) as [Hp _].
  destruct (tail_payload _ _ _ _ _ _ _ HL) as (t & b & _ & E & _ & Hpay).
  unfold unlink_first. rewrite Hp, E. destruct (_ =? _); apply hmem_st64; try done.
  apply payload_root, (ls_root _ _ _ HL). rewrite fmap_app. apply elem_of_mid.
Qed.

Lemma kept_unlink c bl R1 p x xs R2 keep :
  mem_p c = Mapped -> lists (data c) bl (R1 ++ (p, x :: xs) :: R2) ->
  tiles bl sizeof_Header (mem_sz c) -> guarded bl (R1 ++ (p, x :: xs) :: R2) keep ->
  p <> h_userdata -> kept keep c (set_data (unlink_first p (data c)) c).
Proof.
  intros Hmap HL Ht Hg Hne. destruct (ls_at _ _ _ HL p _ (elem_of_mid _ _ _)) as [Hp _].
  assert (p ∈ (R1 ++ (p, x :: xs) :: R2).*1) as Hpr by (rewrite fmap_app; apply elem_of_mid).
  destruct (tail_payload _ _ _ _ _ _ _ HL) as (t & b & Htx & E & (Hb & Hbl & Ho & He) & _).
  destruct (tiles_in _ _ _ _ Ht Hb) as (? & ? & _ & _).
  unfold unlink_first. rewrite Hp, E. destruct (_ =? _); apply kept_word; try done.
  - destruct (ls_root _ _ _ HL p Hpr) as [?|(b' & Hb' & _ & ? & ?)]; [done|].
    destruct (tiles_in _ _ _ _ Ht Hb') as (? & ? & _ & _). layout. lia.
  - intros k Hk. by apply (Hg k Hk).
  - layout. lia.
  - intros k Hk. destruct (Hg k Hk) as [(b0 & Hb0 & _ & ? & ? & Hx) _].
    assert (t ∈ all_recs (R1 ++ (p, x :: xs) :: R2)) as Ht' by (rewrite all_recs_mid, !elem_of_app; auto).
    destruct (tiles_disjoint _ _ _ _ _ Ht Hb Hb0) as [->|Hd]; [by destruct (Hx t Ht')|layout; lia].
Qed.

Lemma wp_sremove bl R1 p x xs R2 keep P (Q : unit -> obj X -> Prop) s :
  store (core s) bl (R1 ++ (p, x :: xs) :: R2) keep P -> lock_ok (core s) ->
  (1 <= lck_stackp (core s))%nat -> P (ext s) ->
  (forall bl' c' y, store c' bl' (R1 ++ (p, xs) :: R2) keep P -> P y -> same_locks (core s) c' ->
     mem_sz c' = mem_sz (core s) -> Q tt (Obj c' y)) ->
  wp (sremove p) Q s.
Proof.
  intros [Hh HL Hg Hst Hu] Hlk Hsp HP HQ. pose proof Hh as [Hcur Hlim Hpg Hm].
  pose proof (hm_tiles _ _ _ Hm) as Ht. pose proof (cu_map _ Hcur) as Hmap.
  destruct (unlink_shape _ _ _ _ _ _ _ _ _ HL Ht ltac:(done)) as (Ep & En & Hiff & Exn & ? & ? & ? & ?).
  pose proof (lists_unlink _ _ _ _ _ _ _ _ _ HL Ht ltac:(done) Hlim) as HL2.
  assert (p ∈ (R1 ++ (p, x :: xs) :: R2).*1) as Hp by (rewrite fmap_app; apply elem_of_mid).
  assert (x ∈ all_recs (R1 ++ (p, x :: xs) :: R2)) as Hx.
  { rewrite all_recs_mid, !elem_of_app. right. left. by left. }
  destruct (ls_blk _ _ _ HL x Hx) as (b & Hb & Hbl & Hbo & Hbe).
  apply list_elem_of_split in Hb as (q1 & q2 & ->).
  destruct (root_bounds _ _ _ _ _ p HL Ht ltac:(done) Hp) as [? ?].
  pose proof (hmem_unlink _ _ _ _ _ _ _ _ Hm HL) as Hm2.
  assert (stable keep P (set_data (unlink_first p (data (core s))) (core s))) as Hst2.
  { destruct (decide (p = h_userdata)) as [->|Hne]; [by apply Hu|].
    eapply stable_kept; [done|]. by eapply kept_unlink. }
  assert (forall k, k ∈ keep -> exists b0, b0 ∈ q1 ++ q2 /\ b_live b0 = true /\
            b_off b0 <= b_off k /\ b_end k <= b_end b0) as Hkeep.
  { intros k Hk. destruct (Hg k Hk) as [(b0 & Hb0 & ? & ? & ? & Hx0) _].
    exists b0. split_and!; try done. rewrite elem_of_app, elem_of_cons in *.
    destruct Hb0 as [?|[->|?]]; [by left| |by right]. by destruct (Hx0 x Hx). }
  pose proof (fun y => rest_recs _ _ _ _ _ _ _ y HL) as Hrest.
  assert (forall q, q ∈ (R1 ++ (p, xs) :: R2).*1 -> q ∈ (R1 ++ (p, x :: xs) :: R2).*1) as Hroots
    by (intros q; by rewrite !fmap_app).
  unfold sremove. rewrite <- (upd_self s). apply wp_unlink; try done; [lia..|].
  rewrite En. set (m2 := unlink_first p (data (core s))) in *.
  replace (fst x) with (b_off b + 8) by lia.
  eapply (wp_nvfree P q1 b q2 _ (upd m2 s)); try done.
  - by apply heap_data.
  - by split; apply Hlk.
  - intros c' Hk. apply Hst2. by eapply kept_ranges.
  - intros c' y Hh' Hsz' Hk' Hl' Hy.
    destruct (free_abs_ok _ _ _ _ _ Ht (hm_apart _ _ _ Hm) Hbl) as (Ht' & _ & _ & _ & Hkeepin).
    eapply HQ; try done; [|by split; apply Hl'].
    split; try done.
    + eapply (lists_kept (core (upd m2 s))); [|exact Hk'|exact Ht'|done].
      eapply lists_drop; [exact HL2|exact Ht|..].
      * intros z Hz. destruct (Hrest z Hz). lia.
      * intros q Hq. eapply (ls_apart _ _ _ HL); [by apply Hroots|exact Hx|].
        split_and!; try done. auto with memory.
    + intros k Hk. destruct (Hg k Hk) as [(b0 & Hb0 & Hb0l & ? & ? & Hx0) Hq]. split; [|auto].
      exists b0. split_and!; try done.
      * apply Hkeepin; [|done].
        rewrite elem_of_app, elem_of_cons in *.
        destruct Hb0 as [?|[->|?]]; [by left| |by right]. by destruct (Hx0 x Hx).
      * intros z Hz. destruct (Hrest z Hz). by apply Hx0.
    + eapply stable_kept; [exact Hst2|]. by eapply kept_ranges.
    + intros Hq. apply Hu. auto.
Qed.

(** *** sclear *)
Lemma recs_length m bl R lo hi :
  lists m bl R -> tiles bl lo hi -> (length (all_recs R) <= length bl)%nat.
Proof.
  intros HL Ht. rewrite <- (length_fmap (fun x => fst x - 8) (all_recs R)), <- (length_fmap b_off bl).
  apply submseteq_length, NoDup_submseteq.
  - pose proof (ls_nodup _ _ _ HL) as Hnd.
    assert (Inj eq eq (fun z => z - 8)) as Hinj by (intros ???; lia).
    apply (NoDup_fmap_2 (fun z => z - 8)) in Hnd.
    by rewrite <- list_fmap_compose in Hnd.
  - intros o (x & -> & Hx)%list_elem_of_fmap.
    destruct (ls_blk _ _ _ HL x Hx) as (b & Hb & _ & <- & _). by apply list_elem_of_fmap_2.
Qed.

Lemma list_fuel c bl R p xs :
  heap c bl -> lists (data c) bl R -> (p, xs) ∈ R -> (length xs < S (Z.to_nat (mem_sz c / 16)))%nat.
Proof.
  intros Hh HL Hp. pose proof (hm_tiles _ _ _ (hp_mem _ _ Hh)) as Ht.
  pose proof (recs_length _ _ _ _ _ HL Ht) as Hlen. pose proof (tiles_length _ _ _ Ht) as Htl.
  apply list_elem_of_split in Hp as (R1 & R2 & ->). rewrite all_recs_mid, !length_app in Hlen.
  assert (Z.of_nat (length xs) <= mem_sz c / 16) as Hle; [|lia].
  apply Z.div_le_lower_bound; layout; lia.
Qed.

(** Reading the root word. *)
Lemma wp_root bl R p xs keep P (Q : Z -> obj X -> Prop) s :
  store (core s) bl R keep P -> (p, xs) ∈ R -> Q (last_rec xs) s -> wp (ldw p) Q s.
Proof.
  intros [Hh HL _ _ _] Hp HQ. pose proof Hh as [Hcur _ _ Hm].
  destruct (root_bounds _ _ _ _ _ p HL (hm_tiles _ _ _ Hm) ltac:(done)) as [? ?].
  { apply list_elem_of_fmap. by exists (p, xs). }
  destruct (ls_at _ _ _ HL p xs Hp) as [Hroot _].
  rewrite <- (upd_self s). apply wp_ldw; [split_and!; [apply Hcur|done|done]|].
  by rewrite Hroot, upd_self.
Qed.

Lemma last_rec_pos m bl R lo hi p x xs :
  lists m bl R -> tiles bl lo hi -> 48 <= lo -> (p, x :: xs) ∈ R -> last_rec (x :: xs) <> 0.
Proof.
  intros HL Ht Hlo (R1 & R2 & ->)%list_elem_of_split.
  destruct (unlink_shape _ _ _ _ _ _ _ _ _ HL Ht Hlo) as (E & _ & _ & _ & _ & _ & ? & _). lia.
Qed.

Lemma wp_sclear_loop R1 p R2 keep P : forall xs fuel bl (Q : unit -> obj X -> Prop) s,
  (length xs < fuel)%nat ->
  store (core s) bl (R1 ++ (p, xs) :: R2) keep P -> lock_ok (core s) ->
  (1 <= lck_stackp (core s))%nat -> P (ext s) ->
  (forall bl' c' y, store c' bl' (R1 ++ (p, []) :: R2) keep P -> P y -> same_locks (core s) c' ->
     mem_sz c' = mem_sz (core s) -> Q tt (Obj c' y)) ->
  wp (sclear_loop fuel p) Q s.
Proof.
  induction xs as [|x xs IH]; intros [|fuel] bl Q s Hf Hso Hlk Hsp HP HQ; cbn [length] in Hf;
    try lia; cbn [sclear_loop]; mstep; (eapply wp_root; [done|apply elem_of_mid|]).
  - unfold last_rec. cbn [last]. rewrite Z.eqb_refl. mstep. destruct s. by eapply HQ.
  - assert ((last_rec (x :: xs) =? 0) = false) as ->.
    { apply Z.eqb_neq. eapply last_rec_pos; [apply Hso|apply (hp_mem _ _ (so_heap _ _ _ _ _ Hso))|done|
        apply elem_of_mid]. }
    mstep. eapply wp_sremove; try done. intros bl' c' y Hso' Hy Hl' Hsz'.
    eapply IH; try done; cbn [core ext]; [lia|by eapply lock_ok_same|by rewrite (sl_sp _ _ Hl')|].
    intros bl2 c2 z Hso2 Hz Hl2 Hsz2. eapply HQ; try done; [|congruence].
    by eapply same_locks_trans.
Qed.

Lemma wp_sclear bl R1 p xs R2 keep P (Q : unit -> obj X -> Prop) s :
  store (core s) bl (R1 ++ (p, xs) :: R2) keep P -> lock_ok (core s) ->
  (1 <= lck_stackp (core s))%nat -> P (ext s) ->
  (forall bl' c' y, store c' bl' (R1 ++ (p, []) :: R2) keep P -> P y -> same_locks (core s) c' ->
     mem_sz c' = mem_sz (core s) -> Q tt (Obj c' y)) ->
  wp (sclear p) Q s.
Proof.
  intros Hso Hlk Hsp HP HQ. unfold sclear, fl_fuel. mstep. mstep.
  eapply wp_sclear_loop; try done.
  eapply list_fuel; [apply Hso|apply Hso|apply elem_of_mid].
Qed.

(** *** Reading records *)
Section reading.
Context (bl : list blk) (R : roots) (keep : list blk) (P : X -> Prop) (s : obj X).
Context (p : Z) (l1 l2 : list rcd) (x : rcd).
Hypothesis Hso : store (core s) bl R keep P.
Hypothesis Hin : (p, l1 ++ x :: l2) ∈ R.

Lemma rcd_bounds : mem_p (core s) = Mapped /\ 56 <= fst x /\
  fst x + 16 + Z.of_nat (length (snd x)) <= mem_sz (core s) /\ mem_sz (core s) < limit.
Proof using Hin Hso.
  destruct Hso as [Hh HL _ _ _]. pose proof Hh as [Hcur Hl _ Hm].
  destruct (ls_blk _ _ _ HL x) as (b & Hb & _ & Ho & He).
  { apply elem_of_all_recs. exists p, (l1 ++ x :: l2). split; [done|apply elem_of_mid]. }
  destruct (tiles_in _ _ _ _ (hm_tiles _ _ _ Hm) Hb) as (? & ? & _ & _). layout.
  split_and!; [apply Hcur|lia|lia|done].
Qed.

Lemma rcd_reads :
  ld64 (data (core s)) (fst x) = hd_rec l2 (hd_rec (l1 ++ x :: l2) 0) /\
  ld64 (data (core s)) (fst x + 8) = Z.of_nat (length (snd x)) /\
  ldn (data (core s)) (fst x + 16) (length (snd x)) = snd x.
Proof using Hin Hso.
  destruct Hso as [_ HL _ _ _]. destruct (ls_at _ _ _ HL _ _ Hin) as [_ Hseg].
  apply rseg_app in Hseg as [_ Hseg]. destruct x as [o d]. cbn [rseg fst snd] in *. tauto.
Qed.

Lemma wp_r_next (Q : Z -> obj X -> Prop) :
  Q (hd_rec l2 (hd_rec (l1 ++ x :: l2) 0)) s -> wp (r_next (fst x)) Q s.
Proof using All.
  intros HQ. destruct rcd_bounds as (? & ? & ? & ?), rcd_reads as (E & _ & _). rewrite <- E in HQ.
  rewrite <- (upd_self s). unfold r_next. mstep. apply wp_deref; [lia|]. mstep. by rewrite upd_self.
Qed.

Lemma wp_r_szdata (Q : Z -> obj X -> Prop) :
  Q (Z.of_nat (length (snd x))) s -> wp (r_szdata (fst x)) Q s.
Proof using All.
  intros HQ. destruct rcd_bounds as (? & ? & ? & ?), rcd_reads as (_ & E & _). rewrite <- E in HQ.
  rewrite <- (upd_self s). unfold r_szdata. mstep. apply wp_deref; [lia|]. mstep. by rewrite upd_self.
Qed.

Lemma wp_r_data (Q : bytes -> obj X -> Prop) :
  Q (snd x) s -> wp (ldmem (r_datap (fst x)) (Z.of_nat (length (snd x)))) Q s.
Proof using All.
  intros HQ. destruct rcd_bounds as (? & ? & ? & ?), rcd_reads as (_ & _ & Hd).
  rewrite <- (upd_self s). unfold r_datap, sizeof_Record.
  apply wp_ldmem; [split_and!; [done|lia|lia]|]. by rewrite Nat2Z.id, Hd, upd_self.
Qed.
End reading.

Lemma store_ext c c' bl R keep P :
  mem_p c' = mem_p c -> mem_sz c' = mem_sz c -> cur c' = cur c -> store c bl R keep P ->
  store c' bl R keep P.
Proof.
  intros H1 H2 H3 [[Hc Hl Hp Hm] HL Hg Hst Hu]. unfold data in *.
  split; unfold data; rewrite ?H3; try done.
  - split; unfold data; rewrite ?H3, ?H2; try done. by eapply current_ext, Hc.
  - eapply stable_kept; [done|]. by eapply kept_ext, kept_refl, Hc.
Qed.

(** Locks around an operation on a store. *)
Lemma wp_lock_store l bl R keep P (Q : unit -> obj X -> Prop) s :
  l <> UnLock -> store (core s) bl R keep P -> lock_ok (core s) -> (0 < lck_stackp (core s))%nat ->
  P (ext s) ->
  (forall c' x, c' = push_lock (effective l (core s)) (core s) -> store c' bl R keep P -> P x ->
     lock_ok c' -> Q tt (Obj c' x)) ->
  wp (lock_ l) Q s.
Proof.
  intros Hl Hso Hlk Hsp HP HQ. eapply (wp_lock_push l keep P); try done; try apply Hso.
  intros x Hx. eapply HQ; try done; [by eapply store_ext, Hso|by apply lock_ok_push].
Qed.

Lemma wp_unlock_store bl R keep P (Q : unit -> obj X -> Prop) s :
  store (core s) bl R keep P -> lock_ok (core s) -> (lck_stackp (core s) < LOCKSTACKSIZE)%nat ->
  P (ext s) ->
  (forall x, store (pop_lock (core s)) bl R keep P -> P x -> Q tt (Obj (pop_lock (core s)) x)) ->
  wp (lock_ UnLock) Q s.
Proof.
  intros Hso Hlk Hsp HP HQ. eapply (wp_lock_unlock keep P); try done; try apply Hso.
  intros x Hx. eapply HQ; try done. by eapply store_ext, Hso.
Qed.

(** An operation inside its lock. *)
Lemma wp_locked {A} l (c : M (obj X) A) bl R keep P (Q : A -> obj X -> Prop) s
    (post : A -> container -> roots -> Prop) :
  l <> UnLock -> store (core s) bl R keep P -> lock_ok (core s) -> (0 < lck_stackp (core s))%nat ->
  P (ext s) ->
  (forall s1, store (core s1) bl R keep P -> P (ext s1) -> lock_ok (core s1) ->
     S (lck_stackp (core s1)) = lck_stackp (core s) -> mem_sz (core s1) = mem_sz (core s) ->
     cur (core s1) = cur (core s) ->
     wp c (fun a s2 => exists bl' R', store (core s2) bl' R' keep P /\ P (ext s2) /\
                         same_locks (core s1) (core s2) /\ post a (core s2) R') s1) ->
  (forall a bl' R' c' x, store c' bl' R' keep P -> P x -> same_locks (core s) c' ->
     (exists c2, post a c2 R' /\ mem_sz c2 = mem_sz c' /\ cur c2 = cur c') -> Q a (Obj c' x)) ->
  wp (lock_ l ;;; a <- c ;; lock_ UnLock ;;; ret a) Q s.
Proof.
  intros Hl Hso Hlk Hsp HP Hc HQ. mstep. eapply wp_lock_store; try done.
  intros c1 x Hc1 Hso1 Hx Hlk1. mstep. eapply wp_mono.
  { apply (Hc (Obj c1 x)); try done; cbn [core]; rewrite Hc1; cbn; [lia|done|done]. }
  intros a s2 (bl' & R' & Hso2 & HP2 & Hl2 & Hpost). mstep.
  assert (same_locks (core s) (pop_lock (core s2))) as Hpop.
  { eapply (same_locks_pop (effective l (core s))); [done|lia|]. by rewrite <- Hc1. }
  eapply wp_unlock_store; try done.
  - by eapply lock_ok_same.
  - rewrite (sl_sp _ _ Hl2). cbn [core]. rewrite Hc1. cbn. destruct Hlk. lia.
  - intros z Hso3 Hz. mstep. eapply HQ; try done. by exists (core s2).
Qed.

Lemma wp_locked_unit l (c : M (obj X) unit) bl R keep P (Q : unit -> obj X -> Prop) s
    (post : Z -> roots -> Prop) :
  l <> UnLock -> store (core s) bl R keep P -> lock_ok (core s) -> (0 < lck_stackp (core s))%nat ->
  P (ext s) ->
  (forall s1, store (core s1) bl R keep P -> P (ext s1) -> lock_ok (core s1) ->
     S (lck_stackp (core s1)) = lck_stackp (core s) -> mem_sz (core s1) = mem_sz (core s) ->
     wp c (fun _ s2 => exists bl' R', store (core s2) bl' R' keep P /\ P (ext s2) /\
                         same_locks (core s1) (core s2) /\ post (mem_sz (core s2)) R') s1) ->
  (forall bl' R' c' x, store c' bl' R' keep P -> P x -> same_locks (core s) c' -> post (mem_sz c') R' ->
     Q tt (Obj c' x)) ->
  wp (lock_ l ;;; c ;;; lock_ UnLock) Q s.
Proof.
  intros Hl Hso Hlk Hsp HP Hc HQ.
  assert (wp (lock_ l ;;; a <- c ;; lock_ UnLock ;;; ret a) Q s) as H.
  { eapply (wp_locked l c bl R keep P Q s (fun _ c2 R' => post (mem_sz c2) R')); try done.
    - intros s1 H1 H2 H3 H4 H5 _. by apply Hc.
    - intros [] bl' R' c' x ? ? ? (c2 & Hp & Ez & _). rewrite Ez in Hp. by eapply HQ. }
  unfold wp, bind, ret in *. destruct (lock_ l s) as [? s1| | |]; try done.
  destruct (c s1) as [[] s2| | |]; try done. by destruct (lock_ UnLock s2) as [[] ?| | |].
Qed.
End with_os.

(** How much the file grows for a block. *)
Lemma grown_bound c bl rsz : heap c bl -> 0 <= rsz -> mem_sz c + rsz + 2 ^ 18 <= limit ->
  grown_size (alloc_round rsz) (mem_sz c) bl <= mem_sz c + rsz + 2 ^ 17.
Proof.
  intros Hh Hr Hl. pose proof (cu_big _ (hp_current _ _ Hh)) as Hbig.
  pose proof (hm_tiles _ _ _ (hp_mem _ _ Hh)) as Ht.
  destruct (hm_tail _ _ _ (hp_mem _ _ Hh)) as (bl0 & t & -> & _ & _).
  destruct (tiles_in _ _ _ t Ht ltac:(apply elem_of_app; right; by left)) as (? & ? & ? & _).
  layout. unfold limit in *. unfold grown_size. rewrite tail_sz_app, alloc_round_eq by lia.
  pose proof (Z.mod_pos_bound (rsz + 23) 16 ltac:(lia)).
  destruct (alloc_abs _ _); [lia|]. unfold b_end in *. rewrite page_round_eq by lia.
  pose proof (Z.mod_pos_bound (mem_sz c + (rsz + 23 - (rsz + 23) mod 16 + 16 - b_sz t) + 65536) 65536 ltac:(lia)). lia.
Qed.

(** ** NVList *)
Section nvlist.
Context {os : Os} {Hos : OsOk os}.
Implicit Types s : obj unit.

(** The file of an NVList: one list, rooted in the header. *)
Definition nvlist (c : container) (xs : list rcd) : Prop :=
  exists bl, store c bl [(h_userdata, xs)] [] (fun _ : unit => True).

Lemma wp_list_insert (front : bool) xs d (Q : unit -> obj unit -> Prop) s :
  nvlist (core s) xs -> lock_ok (core s) -> (3 <= lck_stackp (core s))%nat ->
  mem_sz (core s) + Z.of_nat (length d) + 2 ^ 19 <= limit ->
  (forall s' nr, same_locks (core s) (core s') -> nvlist (core s') (link_recs front (nr, d) xs) ->
     Q tt s') ->
  wp (if front then list_prepend d else list_append d) Q s.
Proof.
  intros [bl Hso] Hlk Hsp Hlim HQ.
  assert (wp (lock_ ExclLock ;;; (if front then sprepend else sappend) h_userdata d ;;; lock_ UnLock)
    Q s) as H; [|by destruct front].
  eapply (wp_locked_unit _ _ _ _ _ _ _ _
    (fun _ R' => exists nr, R' = [(h_userdata, link_recs front (nr, d) xs)])); try done; [lia|..].
  - intros s1 Hso1 _ Hlk1 Hsp1 Hsz1.
    eapply (wp_link_op front _ [] h_userdata xs []); try done; [lia|layout; lia|].
    intros bl' c' x nr Hso' _ Hl' _. eexists bl', _. split_and!; try done. by exists nr.
  - intros bl' R' c' x Hso' _ Hl' [nr ->]. eapply HQ; [done|]. by exists bl'.
Qed.

(** NVList::prepend and append put a new record with the given data at the
    front or at the back of the list, leave every other record where it is, keep
    the file well formed and release the locks they take. *)
Theorem list_insert_spec xs d s :
  nvlist (core s) xs -> lock_ok (core s) -> (3 <= lck_stackp (core s))%nat ->
  mem_sz (core s) + Z.of_nat (length d) + 2 ^ 19 <= limit ->
  wp (list_prepend d)
    (fun _ s' => same_locks (core s) (core s') /\ exists nr, nvlist (core s') ((nr, d) :: xs)) s /\
  wp (list_append d)
    (fun _ s' => same_locks (core s) (core s') /\ exists nr, nvlist (core s') (xs ++ [(nr, d)])) s.
Proof.
  intros Hxs Hlk Hsp Hlim. split.
  - apply (wp_list_insert true xs); eauto.
  - apply (wp_list_insert false xs); eauto.
Qed.

(** NVList::remove drops the first record of a list (and does nothing on an
    empty one), clear drops them all, for every length of the list; the blocks
    of the records are returned to the allocator. *)
Theorem list_remove_spec xs s :
  nvlist (core s) xs -> lock_ok (core s) -> (2 <= lck_stackp (core s))%nat ->
  wp list_remove
    (fun _ s' => same_locks (core s) (core s') /\ nvlist (core s') (tail xs)) s /\
  wp list_clear
    (fun _ s' => same_locks (core s) (core s') /\ nvlist (core s') []) s.
Proof.
  intros [bl Hso] Hlk Hsp. split.
  - unfold list_remove, getdata. mstep. eapply wp_root; [done|by left|].
    destruct xs as [|x xs].
    + unfold last_rec. cbn [last tail]. rewrite Z.eqb_refl. mstep. split; [done|]. by exists bl.
    + assert ((last_rec (x :: xs) =? 0) = false) as ->.
      { apply Z.eqb_neq. eapply last_rec_pos; [apply Hso|apply (hp_mem _ _ (so_heap _ _ _ _ _ Hso))|done|by left]. }
      change (wp (lock_ ExclLock ;;; sremove h_userdata ;;; lock_ UnLock)
        (fun _ s' => same_locks (core s) (core s') /\ nvlist (core s') (tail (x :: xs))) s).
      eapply (wp_locked_unit _ _ _ _ _ _ _ _ (fun _ R' => R' = [(h_userdata, xs)])); try done; [lia|..].
      * intros s1 Hso1 _ Hlk1 Hsp1 Hsz1.
        eapply (wp_sremove _ [] h_userdata x xs []); try done; [lia|].
        intros bl' c' y Hso' _ Hl' _. by eexists bl', _.
      * intros bl' R' c' y Hso' _ Hl' ->. split; [done|]. by exists bl'.
  - change (wp (lock_ ExclLock ;;; sclear h_userdata ;;; lock_ UnLock)
        (fun _ s' => same_locks (core s) (core s') /\ nvlist (core s') []) s).
    eapply (wp_locked_unit _ _ _ _ _ _ _ _ (fun _ R' => R' = [(h_userdata, [])])); try done; [lia|..].
    + intros s1 Hso1 _ Hlk1 Hsp1 Hsz1.
      eapply (wp_sclear _ [] h_userdata xs []); try done; [lia|].
      intros bl' c' y Hso' _ Hl' _. by eexists bl', _.
    + intros bl' R' c' y Hso' _ Hl' ->. split; [done|]. by exists bl'.
Qed.

(** *** Iteration *)
Lemma wp_li_collect bl R keep P xs tail : forall l2 x l1 p fuel s (Q : list bytes -> obj unit -> Prop),
  (length l2 + 1 < fuel)%nat -> store (core s) bl R keep P -> (p, xs) ∈ R -> xs = l1 ++ x :: l2 ->
  tail = last_rec xs -> Q (snd <$> x :: l2) s ->
  wp (li_collect fuel (ListIter true (fst x) tail)) Q s.
Proof.
  induction l2 as [|y l2 IH]; intros x l1 p [|fuel] s Q Hf Hso Hp Hxs Ht HQ; cbn [length] in Hf;
    try lia; cbn [li_collect]; rewrite Hxs in Hp, Ht;
    destruct (rcd_bounds _ _ _ _ _ _ _ _ _ Hso Hp) as (? & ? & ? & ?);
    unfold li_valid; cbn [li_pos]; (assert ((fst x =? 0) = false) as -> by (apply Z.eqb_neq; lia));
    cbn [negb]; mstep; unfold li_data; cbn [li_pos]; mstep;
    (eapply wp_r_szdata; [done|done|]);
    unfold w32; rewrite Z.mod_small by (layout; lia); (eapply (wp_r_data _ _ _ _ _ _ _ _ _ Hso Hp)); mstep;
    unfold li_next; cbn [li_pos li_tail li_on];
    (assert ((fst x =? 0) = false) as -> by (apply Z.eqb_neq; lia)).
  - rewrite Ht, last_rec_snoc, Z.eqb_refl. mstep. mstep. destruct fuel; [lia|]. cbn [li_collect].
    unfold li_valid. cbn. by repeat mstep.
  - assert ((fst x =? tail) = false) as ->.
    { apply Z.eqb_neq. rewrite Ht. eapply not_last; [apply Hso|exact Hp]. }
    mstep. eapply (wp_r_next _ _ _ _ _ _ _ _ _ Hso Hp). cbn [hd_rec]. repeat mstep.
    eapply (IH y (l1 ++ [x])); try done; [lia|by rewrite Hxs|by rewrite Hxs, <- app_assoc|].
    by rewrite Hxs.
Qed.

Lemma wp_attach xs it0 (Q : list_iter -> obj unit -> Prop) s :
  nvlist (core s) xs -> lock_ok (core s) -> (1 <= lck_stackp (core s))%nat -> li_on it0 = false ->
  (forall s1, nvlist (core s1) xs -> Q (ListIter true 0 (last_rec xs)) s1) ->
  wp (li_attach it0) Q s.
Proof.
  intros [bl Hso] Hlk Hsp Hoff HQ. unfold li_attach, li_detach. rewrite Hoff. repeat mstep.
  eapply wp_lock_store; try done. intros c' x _ Hso' _ _. repeat mstep. unfold getdata.
  eapply wp_root; [done|by left|]. mstep. apply HQ. by exists bl.
Qed.

(** An NVListIter that is attached to a list and started enumerates the data
    of all records, in order, and then becomes invalid; on an empty list its
    first() follows the null tail pointer. *)
Theorem list_iter_spec xs it0 fuel s :
  nvlist (core s) xs -> lock_ok (core s) -> (1 <= lck_stackp (core s))%nat -> li_on it0 = false ->
  (length xs < fuel)%nat ->
  (xs <> [] -> wp (it <- li_attach it0 ;; it <- li_first it ;; li_collect fuel it)
                 (fun ds _ => ds = snd <$> xs) s) /\
  (xs = [] -> aborts (it <- li_attach it0 ;; li_first it) s).
Proof.
  intros Hxs Hlk Hsp Hoff Hf. split.
  - intros Hne. mstep. eapply wp_attach; try done. intros s1 [bl Hso]. unfold li_first. cbn [li_on li_tail].
    destruct (exists_last Hne) as (l & t & ->). rewrite last_rec_snoc.
    assert ((h_userdata, l ++ [t]) ∈ [(h_userdata, l ++ [t])]) as Hin by by left.
    mstep. mstep. eapply (wp_r_next _ _ _ _ _ _ _ _ _ Hso Hin). mstep. cbn [hd_rec].
    assert (exists x l2, l ++ [t] = x :: l2) as (x & l2 & E) by (destruct l as [|z l]; [by exists t, []|by exists z, (l ++ [t])]).
    rewrite E in *. cbn [hd_rec].
    eapply (wp_li_collect _ _ _ _ (x :: l2) _ l2 x []); [cbn in Hf; lia|exact Hso|exact Hin|done| |done].
    by rewrite <- E, last_rec_snoc.
  - intros ->.
    assert (wp (li_attach it0) (fun it _ => it = ListIter true 0 0) s) as H
      by (eapply wp_attach; done).
    apply wp_inv in H as (it & s' & Heq & ->). eexists. unfold bind at 1. rewrite Heq. done.
Qed.
End nvlist.

(** ** A concrete list *)
#[local] Existing Instance good_os.

Lemma ex_nvlist : nvlist (core ex_obj) [].
Proof.
  exists fresh_bl. split.
  - apply ex_heap.
  - split.
    + intros p xs [= -> ->]%list_elem_of_singleton. split; [|done]. vm_compute. reflexivity.
    + intros x Hx. by apply not_elem_of_nil in Hx.
    + constructor.
    + intros p [= ->]%list_elem_of_singleton. by left.
    + split; [apply NoDup_singleton|]. intros p q [= ->]%list_elem_of_singleton [= ->]%list_elem_of_singleton.
      by left.
    + intros p x b _ Hx. by apply not_elem_of_nil in Hx.
  - intros k Hk. by apply not_elem_of_nil in Hk.
  - done.
  - done.
Qed.

Definition ex_list1 : obj unit := run (list_append (bs "a")) ex_obj.
Definition ex_list2 : obj unit := run (list_append (bs "b")) ex_list1.

Lemma run_append xs d s :
  nvlist (core s) xs -> lock_ok (core s) -> (3 <= lck_stackp (core s))%nat ->
  mem_sz (core s) + Z.of_nat (length d) + 2 ^ 19 <= limit ->
  exists nr, nvlist (core (run (list_append d) s)) (xs ++ [(nr, d)]) /\
             lock_ok (core (run (list_append d) s)).
Proof.
  intros Hxs Hlk Hsp Hlim.
  assert (wp (list_append d) (fun _ s' => exists nr, nvlist (core s') (xs ++ [(nr, d)]) /\
    same_locks (core s) (core s')) s) as H by (apply (wp_list_insert false xs); eauto).
  apply wp_inv in H as ([] & s' & Heq & nr & Hs' & Hl'). unfold run. rewrite Heq.
  exists nr. split; [done|]. by eapply lock_ok_same.
Qed.
#[local] Opaque ex_obj ex_list1 ex_list2 run.

Lemma ex_list2_ok : exists o1 o2, nvlist (core ex_list2) [(o1, bs "a"); (o2, bs "b")] /\
  lock_ok (core ex_list2).
Proof.
  destruct (run_append [] (bs "a") ex_obj) as (o1 & H1 & L1);
    [apply ex_nvlist|apply ex_lock_ok|vm_compute; lia|vm_compute; discriminate|].
  destruct (run_append [(o1, bs "a")] (bs "b") ex_list1) as (o2 & H2 & L2);
    [exact H1|exact L1|vm_compute; lia|vm_compute; discriminate|].
  by exists o1, o2.
Qed.

Lemma list_insert_spec_witness :
  wp (list_prepend (bs "x")) (fun _ s' => exists nr, nvlist (core s') [(nr, bs "x")]) ex_obj.
Proof.
  destruct (list_insert_spec [] (bs "x") ex_obj) as [H _];
    [apply ex_nvlist|apply ex_lock_ok|vm_compute; lia|vm_compute; discriminate|].
  eapply wp_mono; [exact H|]. by intros [] s' [_ ?].
Defined.

Lemma list_remove_spec_witness :
  exists o2, wp list_remove (fun _ s' => nvlist (core s') [(o2, bs "b")]) ex_list2.
Proof.
  destruct ex_list2_ok as (o1 & o2 & Hs & Hl). exists o2.
  destruct (list_remove_spec _ ex_list2 Hs Hl) as [H _]; [vm_compute; lia|].
  eapply wp_mono; [exact H|]. by intros [] s' [_ ?].
Defined.

Lemma list_iter_spec_witness :
  wp (it <- li_attach (ListIter false 0 0) ;; it <- li_first it ;; li_collect 3 it)
    (fun ds _ => ds = [bs "a"; bs "b"]) ex_list2.
Proof.
  destruct ex_list2_ok as (o1 & o2 & Hs & Hl).
  destruct (list_iter_spec _ (ListIter false 0 0) 3 ex_list2 Hs Hl) as [H _];
    [vm_compute; lia|done|cbn; lia|]. by apply H.
Defined.
