(* ===== verification/Records.v ===== *)
(** * Records.v: working on the records of a database in place

    Lemmas the databases built on NVHash and NVList share: reading a C string
    inside a record, overwriting the data of a record by data of the same size,
    and setting the modification time in the header. *)
From S2P Require Import Prelude Memory Text Container Heap Alloc Nvalloc Nvfree ContainerSpec NVlist.

Lemma ldstr_ldn m : forall l a n, ldn m a (S (length l)) = l ++ [NUL] -> NUL ∉ l -> (length l < n)%nat ->
  ldstr m a n = l.
Proof.
  induction l as [|c l IH]; intros a [|n] H Hl Hn; cbn [length] in Hn; try lia; cbn [ldn length app ldstr] in *.
  - injection H as ->. done.
  - injection H as -> H. apply not_elem_of_cons in Hl as [Hc Hl]. rewrite decide_False by done.
    f_equal. apply IH; [exact H|done|lia].
Qed.

(** Loading a part of what a range holds. *)
Lemma ldn_sub m a d k n : ldn m a (length d) = d -> (k + n <= length d)%nat ->
  ldn m (a + Z.of_nat k) n = take n (drop k d).
Proof.
  intros H Hk. replace (length d) with (k + (n + (length d - k - n)))%nat in H by lia.
  rewrite ldn_add, ldn_add in H. rewrite <- H.
  rewrite drop_app_length' by (by rewrite length_ldn).
  by rewrite take_app_length' by (by rewrite length_ldn).
Qed.

Lemma lists_overwrite m bl R1 p l1 o d d' l2 R2 lo hi :
  lists m bl (R1 ++ (p, l1 ++ (o, d) :: l2) :: R2) -> tiles bl lo hi -> length d' = length d ->
  lists (stn m (o + 16) d') bl (R1 ++ (p, l1 ++ (o, d') :: l2) :: R2).
Proof.
  intros HL Ht Hlen. set (R := R1 ++ (p, l1 ++ (o, d) :: l2) :: R2) in *.
  assert ((o, d) ∈ all_recs R) as Ho.
  { unfold R. rewrite all_recs_mid, !elem_of_app, elem_of_cons. auto. }
  assert (forall y, y ∈ l1 ++ l2 -> y ∈ all_recs R) as Hin.
  { intros y Hy. unfold R. rewrite all_recs_mid, !elem_of_app, elem_of_cons in *. tauto. }
  assert (forall y, y ∈ l1 ++ l2 -> fst y <> o) as Hne.
  { intros y Hy E. pose proof (ls_nodup _ _ _ HL) as Hnd. unfold R in Hnd.
    rewrite all_recs_mid, !fmap_app in Hnd. apply NoDup_app in Hnd as (_ & _ & Hnd).
    apply NoDup_app in Hnd as (Hnd & _). rewrite fmap_cons, <- Permutation_middle in Hnd.
    apply NoDup_cons in Hnd as [Hnd _]. apply Hnd. cbn [fst]. rewrite <- E, <- fmap_app. by apply list_elem_of_fmap_2. }
  assert (forall y, y ∈ l1 ++ l2 -> rsame m (stn m (o + 16) d') y) as Hs.
  { intros y Hy. pose proof (recs_apart _ _ _ _ _ y (o, d) HL Ht (Hin y Hy) Ho (Hne y Hy)) as H.
    cbn [fst snd] in H. rframe. }
  assert (p ∈ R.*1) as Hp by (unfold R; rewrite fmap_app; apply elem_of_mid).
  pose proof (rcd_apart_root _ _ _ p (o, d) HL Hp Ho) as Hpo. cbn [fst snd] in Hpo.
  eapply lists_update; [exact HL|..].
  - destruct (ls_at _ _ _ HL p _ (elem_of_mid _ _ _)) as [E Hseg]. split.
    + rewrite ld64_stn_ne by lia. rewrite E. unfold last_rec.
      rewrite !last_app. destruct l2 as [|z l2 _] using rev_ind; [done|]. by rewrite !app_comm_cons, !last_snoc.
    + replace (hd_rec (l1 ++ (o, d') :: l2) 0) with (hd_rec (l1 ++ (o, d) :: l2) 0) by (by destruct l1).
      apply rseg_app in Hseg as [H1 (H2 & H3 & H4 & H5)]. apply rseg_app. split.
      * cbn [hd_rec fst] in *. eapply rseg_frame; [exact H1|]. intros y Hy. apply Hs, elem_of_app. by left.
      * split_and!.
        -- rewrite ld64_stn_ne by lia. exact H2.
        -- rewrite ld64_stn_ne by lia. lia.
        -- apply ldn_stn_same.
        -- eapply rseg_frame; [exact H5|]. intros y Hy. apply Hs, elem_of_app. by right.
  - intros q Hq. destruct (other_root _ _ _ _ _ _ _ HL Hq) as [Hq' _].
    pose proof (rcd_apart_root _ _ _ q (o, d) HL Hq' Ho) as H. cbn [fst snd] in H. by rewrite ld64_stn_ne by lia.
  - intros x Hx. destruct (other_rec _ _ _ _ _ _ _ _ _ HL Ht Hx) as [_ Hx'].
    specialize (Hx' (o, d)). rewrite elem_of_app, elem_of_cons in Hx'. cbn [fst snd] in Hx'.
    specialize (Hx' ltac:(auto)). rframe.
  - intros y Hy. rewrite elem_of_app, elem_of_cons in Hy.
    assert (y = (o, d') \/ y ∈ l1 ++ l2) as [->|Hy'] by (rewrite elem_of_app; tauto).
    + destruct (ls_blk _ _ _ HL _ Ho) as (b & Hb). exists b. unfold rblk in *. cbn [fst snd] in *. by rewrite Hlen.
    + by apply (ls_blk _ _ _ HL), Hin.
  - pose proof (ls_nodup _ _ _ HL) as Hnd. unfold R in Hnd. rewrite all_recs_mid in *.
    by rewrite !fmap_app, !fmap_cons in *.
  - intros q y b Hq Hy Hyb. assert (exists y', y' ∈ all_recs R /\ rblk bl y' b) as (y' & ? & ?).
    { rewrite elem_of_app, elem_of_cons in Hy.
      assert (y = (o, d') \/ y ∈ l1 ++ l2) as [->|Hy'] by (rewrite elem_of_app; tauto).
      - exists (o, d). split; [done|]. unfold rblk in *. cbn [fst snd] in *. by rewrite <- Hlen.
      - exists y. auto. }
    by eapply (ls_apart _ _ _ HL).
Qed.

Section with_os.
Context {os : Os} {Hos : OsOk os} {X : Type} {vt : VTable X} {vo : VTableOk X}.
Implicit Types s : obj X.

(** A C string inside a record. *)
Lemma wp_ldcstr bl R keep P s p l1 x l2 k l r (Q : bytes -> obj X -> Prop) :
  store (core s) bl R keep P -> (p, l1 ++ x :: l2) ∈ R ->
  drop k (snd x) = l ++ NUL :: r -> NUL ∉ l -> Q l s ->
  wp (ldcstr (r_datap (fst x) + Z.of_nat k)) Q s.
Proof.
  intros Hso Hin Hd Hl HQ. destruct (rcd_bounds _ _ _ _ _ _ _ _ _ Hso Hin) as (Hm & H1 & H2 & _).
  destruct (rcd_reads _ _ _ _ _ _ _ _ _ Hso Hin) as (_ & _ & Hr).
  assert (k + S (length l) <= length (snd x))%nat as Hk.
  { apply (f_equal length) in Hd. rewrite length_drop, length_app in Hd. cbn in Hd. lia. }
  pose proof (ldn_sub _ _ _ k (S (length l)) Hr Hk) as E. rewrite Hd, take_app_ge in E by lia.
  replace (S (length l) - length l)%nat with 1%nat in E by lia.
  assert (ldstr (data (core s)) (r_datap (fst x) + Z.of_nat k)
    (Z.to_nat (mem_sz (core s) - (r_datap (fst x) + Z.of_nat k))) = l) as Es.
  { apply ldstr_ldn; [exact E|done|]. unfold r_datap, sizeof_Record. lia. }
  unfold ldcstr. mstep. apply wp_getc. unfold id. rewrite Es.
  unfold in_map. rewrite bool_decide_eq_true_2 by done. unfold r_datap, sizeof_Record in *.
  destruct (Z.leb_spec 0 (fst x + 16 + Z.of_nat k)); [|lia].
  destruct (Z.leb_spec (fst x + 16 + Z.of_nat k + (Z.of_nat (length l) + 1)) (mem_sz (core s))); [|lia].
  cbn [andb guard]. by repeat mstep.
Qed.

(** A word inside a record. *)
Lemma wp_ld_rec bl R keep P s p l1 x l2 k (Q : Z -> obj X -> Prop) :
  store (core s) bl R keep P -> (p, l1 ++ x :: l2) ∈ R -> (k + 8 <= length (snd x))%nat ->
  Q (le_val (take 8 (drop k (snd x)))) s -> wp (ldw (r_datap (fst x) + Z.of_nat k)) Q s.
Proof.
  intros Hso Hin Hk HQ. destruct (rcd_bounds _ _ _ _ _ _ _ _ _ Hso Hin) as (Hm & H1 & H2 & _).
  destruct (rcd_reads _ _ _ _ _ _ _ _ _ Hso Hin) as (_ & _ & Hr).
  rewrite <- (upd_self s). unfold r_datap, sizeof_Record. apply wp_ldw; [split_and!; [done|lia|lia]|].
  unfold ld64. by rewrite (ldn_sub _ _ _ k 8 Hr Hk), upd_self.
Qed.

(** Overwriting the data of a record. *)
Lemma wp_overwrite bl R1 p l1 o d d' l2 R2 keep P (Q : unit -> obj X -> Prop) s :
  store (core s) bl (R1 ++ (p, l1 ++ (o, d) :: l2) :: R2) keep P -> length d' = length d ->
  (forall c', store c' bl (R1 ++ (p, l1 ++ (o, d') :: l2) :: R2) keep P -> same_locks (core s) c' ->
     mem_sz c' = mem_sz (core s) -> Q tt (Obj c' (ext s))) ->
  wp (stmem (r_datap o) d') Q s.
Proof.
  intros Hso Hlen HQ. pose proof Hso as [Hh HL Hg Hst Hu]. pose proof Hh as [Hcur Hlim Hpg Hm].
  pose proof (hm_tiles _ _ _ Hm) as Ht. pose proof (cu_map _ Hcur) as Hmap.
  destruct (rcd_bounds _ _ _ _ _ _ _ _ _ Hso (elem_of_mid _ _ _)) as (_ & H1 & H2 & _).
  cbn [fst snd] in H1, H2. unfold r_datap, sizeof_Record.
  rewrite <- (upd_self s). apply wp_stmem; [split_and!; [done|lia|lia]|].
  set (m' := stn (data (core s)) (o + 16) d').
  assert ((o, d) ∈ all_recs (R1 ++ (p, l1 ++ (o, d) :: l2) :: R2)) as Ho.
  { rewrite all_recs_mid, !elem_of_app, elem_of_cons. auto. }
  destruct (ls_blk _ _ _ HL _ Ho) as (b & Hb & Hbl & Hbo & Hbe). cbn [fst snd] in *.
  assert (kept keep (core s) (set_data m' (core s))) as Hk.
  { split; try done; unfold hdr; change (data (set_data ?x _)) with x; unfold m'.
    - layout. by rewrite ld64_stn_ne by lia.
    - layout. by rewrite ld64_stn_ne by lia.
    - intros k Hkk _. destruct (Hg k Hkk) as [(b' & Hb' & _ & ? & ? & Hx) _].
      destruct (tiles_disjoint _ _ _ _ _ Ht Hb Hb') as [->|?]; [by destruct (Hx _ Ho)|].
      rframe. }
  apply (HQ (set_data m' (core s))); [split|by split|done].
  - apply heap_data; [done|]. apply hmem_stn; [done|]. eapply payload_in; [done|done|lia|lia].
  - by eapply lists_overwrite.
  - intros k Hkk. destruct (Hg k Hkk) as [(b' & ? & ? & ? & ? & Hx) Hq]. split; [|by rewrite fmap_app in *].
    exists b'. split_and!; try done. intros x. rewrite all_recs_mid, !elem_of_app, elem_of_cons.
    intros [?|[[?|[->|?]]|?]]; try (apply Hx; rewrite all_recs_mid, !elem_of_app, elem_of_cons; tauto).
    apply (Hx (o, d)). rewrite all_recs_mid, !elem_of_app, elem_of_cons. auto.
  - by eapply stable_kept.
  - intros Hq. apply Hu. by rewrite fmap_app in *.
Qed.
End with_os.
