(* ===== verification/NVHash.v ===== *)
(** * NVHash.v: hash tables of records in a database file

    NVClasses-0.9.1/NVHash.{h,cc}: a table of [hashsz] list roots, stored in a
    block of its own behind its size; the header's user data points to it.  The
    members [hashtab] and [hashsz] cache its address and size, the override of
    make_current recomputes them when the file is mapped again. *)
From S2P Require Import Prelude Memory Container Heap Alloc Nvalloc Nvfree ContainerSpec NVlist.

(** ** Operations *)

(** The data members; [hashtab] is an offset, 0 is NULL. *)
Record hash_ext := HashExt { hashtab : Z; hashsz : Z }.

#[export] Instance hash_ext_eq_dec : EqDecision hash_ext.
Proof. solve_decision. Defined.

Section with_os.
Context {os : Os}.
Abbreviation MC := (M (obj hash_ext)).

Definition gete {X A} (f : X -> A) : M (obj X) A := gets (fun s => f (ext s)).
Definition sete {X} (x : X) : M (obj X) unit := modify (fun s => Obj (core s) x).

Definition hash_make_current : MC unit :=
  p <- getc mem_p ;;
  early <- (if decide (p = NullMap) then ret false else is_current) ;;
  if (early : bool) then ret tt else
  base_make_current ;;;
  hdata <- getdata ;;
  if hdata =? 0 then sete (HashExt 0 0)
  else sz <- ldw hdata ;; sete (HashExt (hdata + sizeof_ulong) sz).

#[export] Instance hash_vtable : VTable hash_ext := {| make_current := hash_make_current |}.

(** [&hashtab[i]], of a table that exists. *)
Definition bucket (i : Z) : MC Z :=
  t <- gete hashtab ;; guard (negb (t =? 0)) "null pointer" ;;; ret (w64 (t + 8 * i)).

Fixpoint hash_sclear_loop (n : nat) (i : Z) : MC unit :=
  match n with
  | O => ret tt
  | S n => b <- bucket i ;; sclear b ;;; hash_sclear_loop n (i + 1)
  end.
Definition hash_sclear : MC unit := n <- gete hashsz ;; hash_sclear_loop (Z.to_nat n) 0.

Fixpoint hash_sis_empty_loop (n : nat) (i : Z) : MC bool :=
  match n with
  | O => ret true
  | S n => b <- bucket i ;; v <- ldw b ;;
           if negb (v =? 0) then ret false else hash_sis_empty_loop n (i + 1)
  end.
Definition hash_sis_empty : MC bool := n <- gete hashsz ;; hash_sis_empty_loop (Z.to_nat n) 0.

Definition sadd (h : Z) (data : bytes) : MC unit := b <- bucket h ;; sprepend b data.

Fixpoint hash_sprint_loop (n : nat) (i : Z) : MC bytes :=
  match n with
  | O => ret []
  | S n => b <- bucket i ;; t <- sprint b ;; rest <- hash_sprint_loop n (i + 1) ;; ret (t ++ rest)
  end.
Definition hash_sprint : MC bytes := n <- gete hashsz ;; hash_sprint_loop (Z.to_nat n) 0.

Fixpoint hash_zero_loop (n : nat) (i : Z) : MC unit :=
  match n with
  | O => ret tt
  | S n => b <- bucket i ;; stw b 0 ;;; hash_zero_loop n (i + 1)
  end.

(** The table [open] makes in a file that has none. *)
Definition hash_create (nhashsz : Z) : MC unit :=
  ht <- nvalloc (w64 (sizeof_ulong + nhashsz * 8)) ;;
  setdata ht ;;;
  stw ht nhashsz ;;;
  sete (HashExt (ht + sizeof_ulong) nhashsz) ;;;
  hash_zero_loop (Z.to_nat nhashsz) 0.

(** open after NVcontainer::open: the check of [hashtab], with and without lock. *)
Definition hash_setup (nhashsz : Z) : MC unit :=
  t <- gete hashtab ;;
  if t =? 0 then
    lock_ ExclLock ;;;
    t <- gete hashtab ;;
    (if t =? 0 then hash_create nhashsz else ret tt) ;;;
    lock_ UnLock
  else ret tt.

Definition hash_open (dbname : string) (nhashsz : Z) : MC unit :=
  open dbname ;;; hash_setup nhashsz.

Definition hash_clear : MC unit := lock_ ExclLock ;;; hash_sclear ;;; lock_ UnLock.
Definition hash_is_empty : MC bool :=
  lock_ ShrdLock ;;; r <- hash_sis_empty ;; lock_ UnLock ;;; ret r.
Definition hash_add (h : Z) (data : bytes) : MC unit :=
  lock_ ExclLock ;;; sadd h data ;;; lock_ UnLock.
Definition hash_print : MC bytes :=
  lock_ ShrdLock ;;; r <- hash_sprint ;; lock_ UnLock ;;; ret r.

(** *** NVHashIter *)
Record hash_iter := HashIter { hi_on : bool; hi_pos : Z; hi_curtail : Z; hi_hashval : Z }.

Definition hi_new (junk1 junk2 : Z) : MC hash_iter :=
  lock_ ShrdLock ;;; ret (HashIter true 0 junk1 junk2).
Definition hi_detach (it : hash_iter) : MC hash_iter :=
  (if hi_on it then lock_ UnLock else ret tt) ;;;
  ret (HashIter false (hi_pos it) (hi_curtail it) (hi_hashval it)).
Definition hi_attach (it : hash_iter) : MC hash_iter :=
  hi_detach it ;;; lock_ ShrdLock ;;; ret (HashIter true 0 (hi_curtail it) (hi_hashval it)).

(** The loop [while (curhashval < ht->hashsz) ...] over the buckets; the buckets
    left bound the rounds. *)
Fixpoint hi_seek (n : nat) (it : hash_iter) : MC hash_iter :=
  match n with
  | O => ret it
  | S n =>
      b <- bucket (hi_hashval it) ;;
      v <- ldw b ;;
      if negb (v =? 0) then
        p <- r_next v ;; ret (HashIter (hi_on it) p v (hi_hashval it))
      else hi_seek n (HashIter (hi_on it) (hi_pos it) (hi_curtail it) (hi_hashval it + 1))
  end.
Definition hi_seek_from (it : hash_iter) : MC hash_iter :=
  n <- gete hashsz ;; hi_seek (Z.to_nat (n - hi_hashval it)) it.

Definition hi_first (it : hash_iter) : MC hash_iter :=
  hi_seek_from (HashIter (hi_on it) 0 (hi_curtail it) 0).
Definition hi_valid (it : hash_iter) : bool := negb (hi_pos it =? 0).
Definition hi_next (it : hash_iter) : MC hash_iter :=
  if hi_pos it =? 0 then ret it
  else if hi_pos it =? hi_curtail it
  then hi_seek_from (HashIter (hi_on it) 0 (hi_curtail it) (hi_hashval it + 1))
  else p <- r_next (hi_pos it) ;; ret (HashIter (hi_on it) p (hi_curtail it) (hi_hashval it)).
Definition hi_data (it : hash_iter) : MC bytes :=
  sz <- r_szdata (hi_pos it) ;; ldmem (hi_pos it + sizeof_Record) (w32 sz).

(** [for (it.first(); it.valid(); it.next()) ... it.data(...)] *)
Fixpoint hi_collect (fuel : nat) (it : hash_iter) : MC (list bytes) :=
  match fuel with
  | O => spin
  | S f => if hi_valid it
           then d <- hi_data it ;; it <- hi_next it ;; rest <- hi_collect f it ;; ret (d :: rest)
           else ret []
  end.
End with_os.

(** ** The invariant *)

(** The list roots of a table at [t] with the buckets [bk]. *)
Definition buckets (t : Z) (bk : list (list rcd)) : roots :=
  imap (fun i xs => (t + 8 * Z.of_nat i, xs)) bk.

(** The word in front of the table holds its size. *)
Definition hkeep (t : Z) : list blk := [Blk (t - 8) 8 true].

Lemma upd_same {X} c (x : X) : upd (data c) (Obj c x) = Obj c x.
Proof. exact (upd_self (Obj c x)). Qed.

#[export] Instance hash_vtable_ok {os : Os} : VTableOk hash_ext.
Proof.
  refine {| vt_fresh c := let d := hdr c h_userdata in
                          if d =? 0 then HashExt 0 0 else HashExt (d + 8) (hdr c d);
            vt_ready c := hdr c h_userdata = 0 \/ hdr c h_userdata + 8 <= mem_sz c |}.
  intros s Hos Hm Hr.
  set (x0 := let d := hdr (remap (core s)) h_userdata in
             if d =? 0 then HashExt 0 0 else HashExt (d + 8) (hdr (remap (core s)) d)) in *.
  assert (wp hash_make_current
    (fun _ s' => exists x, s' = Obj (remap (core s)) x /\ (x = ext s \/ x = x0)) s) as H.
  { unfold hash_make_current. do 3 mstep.
    assert (wp (base_make_current ;;; hdata <- getdata ;;
      if hdata =? 0 then sete (HashExt 0 0)
      else sz <- ldw hdata ;; sete (HashExt (hdata + sizeof_ulong) sz))
      (fun _ s' => exists x, s' = Obj (remap (core s)) x /\ (x = ext s \/ x = x0)) s) as Hslow.
    { mstep. apply wp_base_make_current; [done|].
      assert (mem_p (remap (core s)) = Mapped /\ 64 < mem_sz (remap (core s))) as [? ?].
      { destruct Hm as (Hp & Hf & _). unfold remap. layout. destruct (decide _) as [[? ?]|].
        - destruct Hp as [?|[? ?]]; [congruence|done].
        - done. }
      rewrite <- (upd_self (Obj (remap (core s)) (ext s))). unfold getdata. repeat mstep.
      cbn [core]. change (ld64 (data ?c) h_userdata) with (hdr c h_userdata). unfold x0.
      destruct (Z.eqb_spec (hdr (remap (core s)) h_userdata) 0) as [E|E].
      - rewrite upd_same. apply wp_modify. eexists. split; [done|by right].
      - destruct Hr as [?|Hr]; [done|]. pose proof (ld64_range (data (remap (core s))) h_userdata).
        fold (hdr (remap (core s)) h_userdata) in *. mstep. mstep. rewrite upd_same. apply wp_modify. eexists. split; [done|by right]. }
    destruct Hm as ([Hp|[Hp Hbig]] & _).
    - rewrite decide_True by done. by mstep.
    - rewrite decide_False by congruence. unfold is_current. repeat mstep.
      rewrite <- (upd_self s). layout. repeat mstep. rewrite upd_self.
      destruct (Z.eqb_spec (mem_sz (core s)) (ld64 (data (core s)) 8)); [|done].
      mstep. exists (ext s). unfold remap. rewrite decide_True by done. destruct s; auto. }
  apply wp_inv in H as ([] & s' & Heq & x & -> & Hx). exists x. by split.
Defined.

(** The file holds the table at [t] with these buckets, and the members of the
    object agree with it. *)
Definition nvhash {os : Os} (t : Z) (bk : list (list rcd)) (s : obj hash_ext) : Prop :=
  0 < t /\ ext s = HashExt t (Z.of_nat (length bk)) /\
  exists bl, store (core s) bl (buckets t bk) (hkeep t) (eq (HashExt t (Z.of_nat (length bk)))).

(** ** Lemmas *)
Lemma buckets_split t bk i xs :
  bk !! i = Some xs ->
  exists R1 R2, forall ys, buckets t (<[i := ys]> bk) = R1 ++ (t + 8 * Z.of_nat i, ys) :: R2.
Proof.
  intros Hi. pose proof (lookup_lt_Some _ _ _ Hi) as Hlt.
  exists (buckets t (take i bk)), (imap (fun j ys => (t + 8 * Z.of_nat (S i + j), ys)) (drop (S i) bk)).
  intros ys. rewrite insert_take_drop by done. unfold buckets. rewrite imap_app. cbn [imap].
  rewrite length_take_le by lia. rewrite Nat.add_0_r. f_equal. f_equal.
  apply imap_ext. intros j z _. cbn. f_equal. lia.
Qed.

Lemma buckets_mid t bk i xs : bk !! i = Some xs ->
  exists R1 R2, buckets t bk = R1 ++ (t + 8 * Z.of_nat i, xs) :: R2 /\
    forall ys, buckets t (<[i := ys]> bk) = R1 ++ (t + 8 * Z.of_nat i, ys) :: R2.
Proof.
  intros Hi. destruct (buckets_split t _ _ _ Hi) as (R1 & R2 & HR). exists R1, R2. split; [|done].
  rewrite <- HR. by rewrite list_insert_id.
Qed.

Section with_os2.
Context {os : Os} {Hos : OsOk os}.
Implicit Types s : obj hash_ext.
Abbreviation hext t bk := (eq (HashExt t (Z.of_nat (length bk)))).

Lemma bucket_bounds c bl t bk i xs P :
  store c bl (buckets t bk) (hkeep t) P -> bk !! i = Some xs ->
  56 <= t /\ t + 8 * Z.of_nat i + 8 <= mem_sz c /\ mem_sz c < limit /\
  (t + 8 * Z.of_nat i, xs) ∈ buckets t bk.
Proof.
  intros [Hh HL Hg _ _] Hi. pose proof (hm_tiles _ _ _ (hp_mem _ _ Hh)) as Ht.
  destruct (buckets_mid t _ _ _ Hi) as (R1 & R2 & E & _).
  destruct (Hg (Blk (t - 8) 8 true)) as [(b & Hb & _ & ? & ? & _) _]; [by left|].
  destruct (tiles_in _ _ _ _ Ht Hb) as (? & ? & _ & _). cbn in *. layout.
  destruct (root_bounds _ _ _ _ _ (t + 8 * Z.of_nat i) HL Ht ltac:(done)) as [? ?].
  { rewrite E, fmap_app. apply elem_of_mid. }
  split_and!; [lia|done|by apply Hh|rewrite E; apply elem_of_mid].
Qed.

Lemma wp_bucket t bk i xs (Q : Z -> obj hash_ext -> Prop) s :
  nvhash t bk s -> bk !! i = Some xs -> Q (t + 8 * Z.of_nat i) s -> wp (bucket (Z.of_nat i)) Q s.
Proof.
  intros (Ht & He & bl & Hso) Hi HQ. destruct (bucket_bounds _ _ _ _ _ _ _ Hso Hi) as (? & ? & ? & _).
  unfold bucket. mstep. apply wp_gets. rewrite He. cbn [hashtab].
  assert ((t =? 0) = false) as -> by (apply Z.eqb_neq; lia). mstep. cbn [negb guard]. mstep. mstep.
  rewrite w64_small; [done|layout; lia].
Qed.

Lemma nvhash_store t bk s bl :
  0 < t -> store (core s) bl (buckets t bk) (hkeep t) (hext t bk) -> hext t bk (ext s) ->
  nvhash t bk s.
Proof. intros ? ? ?. split_and!; [done..|]. by exists bl. Qed.

Lemma wp_sadd t bk i xs d (Q : unit -> obj hash_ext -> Prop) s :
  nvhash t bk s -> bk !! i = Some xs -> lock_ok (core s) -> (2 <= lck_stackp (core s))%nat ->
  mem_sz (core s) + Z.of_nat (length d) + 2 ^ 19 <= limit ->
  (forall bl' c' x nr, store c' bl' (buckets t (<[i := (nr, d) :: xs]> bk)) (hkeep t) (hext t bk) ->
     hext t bk x -> same_locks (core s) c' -> mem_sz c' <= mem_sz (core s) + Z.of_nat (length d) + 2 ^ 18 ->
     Q tt (Obj c' x)) ->
  wp (sadd (Z.of_nat i) d) Q s.
Proof.
  intros Hn Hi Hlk Hsp Hlim HQ. unfold sadd. mstep. eapply wp_bucket; [done..|].
  destruct Hn as (Ht & He & bl & Hso). destruct (buckets_mid t _ _ _ Hi) as (R1 & R2 & E & E').
  rewrite E in Hso. eapply (wp_link_op true); try done.
  intros bl' c' x nr Hso' Hx Hl Hsz. eapply HQ; [|done..|]; [by rewrite E'|].
  rewrite Hsz. pose proof (grown_bound _ _ (Z.of_nat (length d) + 16) (so_heap _ _ _ _ _ Hso)). lia.
Qed.

Lemma wp_sclear_bucket t bk i xs (Q : unit -> obj hash_ext -> Prop) s :
  nvhash t bk s -> bk !! i = Some xs -> lock_ok (core s) -> (1 <= lck_stackp (core s))%nat ->
  (forall s', nvhash t (<[i := []]> bk) s' -> same_locks (core s) (core s') ->
     mem_sz (core s') = mem_sz (core s) -> Q tt s') ->
  wp (sclear (t + 8 * Z.of_nat i)) Q s.
Proof.
  intros (Ht & He & bl & Hso) Hi Hlk Hsp HQ. destruct (buckets_mid t _ _ _ Hi) as (R1 & R2 & E & E').
  rewrite E in Hso. eapply wp_sclear; try done.
  intros bl' c' x Hso' Hx Hl Hsz. apply HQ; [|done..]. rewrite <- E' in Hso'.
  split_and!; [done|by rewrite length_insert|]. exists bl'. by rewrite length_insert.
Qed.

Lemma wp_hash_sclear_loop t : forall n bk i (Q : unit -> obj hash_ext -> Prop) s,
  length bk = (i + n)%nat -> nvhash t bk s -> lock_ok (core s) -> (1 <= lck_stackp (core s))%nat ->
  (forall s', nvhash t (take i bk ++ replicate n []) s' -> same_locks (core s) (core s') ->
     mem_sz (core s') = mem_sz (core s) -> Q tt s') ->
  wp (hash_sclear_loop n (Z.of_nat i)) Q s.
Proof.
  induction n as [|n IH]; intros bk i Q s Hlen Hn Hlk Hsp HQ; cbn [hash_sclear_loop].
  - mstep. apply HQ; [|done..]. rewrite take_ge by lia. by rewrite app_nil_r.
  - destruct (lookup_lt_is_Some_2 bk i) as [xs Hi]; [lia|]. mstep. eapply wp_bucket; [done..|].
    mstep. eapply wp_sclear_bucket; [done..|]. intros s' Hn' Hl Hsz.
    replace (Z.of_nat i + 1) with (Z.of_nat (S i)) by lia.
    eapply IH; try done; [rewrite length_insert; lia|by eapply lock_ok_same|by rewrite (sl_sp _ _ Hl)|].
    intros s'' Hn'' Hl' Hsz'. apply HQ; [|by eapply same_locks_trans|congruence]. cbn [replicate].
    rewrite (take_S_r _ _ []) in Hn'' by (rewrite list_lookup_insert_eq by lia; done).
    rewrite take_insert_ge in Hn'' by lia. by rewrite <- app_assoc in Hn''.
Qed.
End with_os2.

(** ** Iteration *)
Section iteration.
Context {os : Os} {Hos : OsOk os}.
Variables (t : Z) (bk : list (list rcd)) (s : obj hash_ext).
Hypothesis Hn : nvhash t bk s.

(** Continuing after bucket [i]. *)
Definition continues (i : nat) : Prop :=
  forall it fuel (Q : list bytes -> obj hash_ext -> Prop),
    hi_pos it = 0 -> hi_hashval it = Z.of_nat i -> (length (concat (drop i bk)) < fuel)%nat ->
    Q (snd <$> concat (drop i bk)) s ->
    wp (it <- hi_seek (length bk - i) it ;; hi_collect fuel it) Q s.

Lemma wp_hi_bucket i xs : bk !! i = Some xs -> continues (S i) ->
  forall l2 x l1 on fuel (Q : list bytes -> obj hash_ext -> Prop),
    xs = l1 ++ x :: l2 -> (length (x :: l2 ++ concat (drop (S i) bk)) < fuel)%nat ->
    Q (snd <$> x :: l2 ++ concat (drop (S i) bk)) s ->
    wp (hi_collect fuel (HashIter on (fst x) (last_rec xs) (Z.of_nat i))) Q s.
Proof using All.
  intros Hi Hc. destruct Hn as (Ht & He & bl & Hso).
  destruct (bucket_bounds _ _ _ _ _ _ _ Hso Hi) as (_ & _ & _ & Hin).
  pose proof (lookup_lt_Some _ _ _ Hi) as Hlt.
  induction l2 as [|y l2 IH]; intros x l1 on [|fuel] Q Hxs Hf HQ; cbn [length] in Hf; try lia;
    cbn [hi_collect]; (assert (xs = l1 ++ x :: _) as Hxs' by exact Hxs); rewrite Hxs' in Hin;
    destruct (rcd_bounds _ _ _ _ _ _ _ _ _ Hso Hin) as (? & ? & ? & ?);
    unfold hi_valid; cbn [hi_pos]; (assert ((fst x =? 0) = false) as Hx0 by (apply Z.eqb_neq; lia));
    rewrite Hx0; cbn [negb]; mstep; unfold hi_data; cbn [hi_pos]; mstep;
    (eapply wp_r_szdata; [done|done|]);
    unfold w32; rewrite Z.mod_small by (layout; lia); (eapply (wp_r_data _ _ _ _ _ _ _ _ _ Hso Hin)); mstep;
    unfold hi_next; cbn [hi_pos hi_curtail hi_on hi_hashval]; rewrite Hx0.
  - rewrite Hxs at 1. rewrite last_rec_snoc, Z.eqb_refl. unfold hi_seek_from. mstep.
    apply wp_gets. rewrite He. cbn [hashsz hi_hashval].
    replace (Z.to_nat (Z.of_nat (length bk) - (Z.of_nat i + 1))) with (length bk - S i)%nat by lia.
    set (it' := HashIter _ _ _ _).
    assert (wp (it <- hi_seek (length bk - S i) it' ;; hi_collect fuel it)
      (fun ds => Q (snd x :: ds)) s) as Hrec.
    { apply (Hc it'); [done|cbn; lia|cbn in Hf; lia|done]. }
    apply wp_unbind in Hrec. eapply wp_mono; [exact Hrec|].
    clear it' Hrec. intros it' s' H'. mstep. eapply wp_mono; [exact H'|]. intros ds s'' H''. by mstep.
  - assert ((fst x =? last_rec xs) = false) as ->.
    { apply Z.eqb_neq. rewrite Hxs. eapply not_last; [apply Hso|exact Hin]. }
    mstep. eapply (wp_r_next _ _ _ _ _ _ _ _ _ Hso Hin). cbn [hd_rec]. mstep. mstep.
    eapply wp_mono; [apply (IH y (l1 ++ [x]) on fuel (fun ds => Q (snd x :: ds)))|].
    + by rewrite Hxs, <- app_assoc.
    + cbn in *. lia.
    + done.
    + intros ds s' H'. by mstep.
Qed.

Lemma continues_all : forall n i, length bk = (i + n)%nat -> continues i.
Proof using All.
  induction n as [|n IH]; intros i Hlen it fuel Q Hp Hh Hf HQ.
  - rewrite drop_ge in * by lia. replace (length bk - i)%nat with O by lia. cbn [hi_seek]. mstep. mstep.
    destruct fuel; [cbn in Hf; lia|]. cbn [hi_collect]. unfold hi_valid. rewrite Hp. cbn [Z.eqb negb]. by mstep.
  - destruct (lookup_lt_is_Some_2 bk i) as [xs Hi]; [lia|].
    replace (length bk - i)%nat with (S n) by lia. cbn [hi_seek]. rewrite Hh.
    rewrite (drop_S _ _ _ Hi) in *. cbn [concat] in *.
    do 2 mstep. eapply wp_bucket; [done..|]. mstep.
    pose proof Hn as (Ht & He & bl & Hso). destruct (bucket_bounds _ _ _ _ _ _ _ Hso Hi) as (_ & _ & _ & Hin).
    eapply wp_root; [done..|]. destruct xs as [|x l2].
    + cbn [last_rec last]. change (last_rec []) with 0. cbn.
      replace (Z.of_nat i + 1) with (Z.of_nat (S i)) by lia.
      replace n with (length bk - S i)%nat by lia. apply wp_unbind.
      apply (IH (S i)); [lia|done..].
    + assert ((last_rec (x :: l2) =? 0) = false) as ->.
      { apply Z.eqb_neq. eapply last_rec_pos; [apply Hso|apply (hp_mem _ _ (so_heap _ _ _ _ _ Hso))|done|done]. }
      cbn [negb]. destruct (exists_last (l := x :: l2)) as (l & y & El); [done|].
      rewrite El, last_rec_snoc. rewrite El in Hin. mstep.
      eapply (wp_r_next _ _ _ _ _ _ _ _ _ Hso Hin). cbn [hd_rec]. mstep.
      rewrite <- El. rewrite <- (last_rec_snoc l y), <- El. cbn [hd_rec].
      eapply (wp_hi_bucket i (x :: l2) Hi (IH (S i) ltac:(lia)) l2 x []); try done.
Qed.
End iteration.

(** ** Creation *)
Section creation.
Context {os : Os} {Hos : OsOk os}.
Implicit Types s : obj hash_ext.

(** The writes that make an empty table of [n] buckets in the block at [p]. *)
Record blank (m : mem) (sz : Z) (bl : list blk) (p : Z) (n i : nat) : Prop := {
  bk_mem : hmem m sz bl;
  bk_user : ld64 m h_userdata = p + 8;
  bk_size : ld64 m (p + 8) = Z.of_nat n;
  bk_zero : forall j, (j < i)%nat -> ld64 m (p + 16 + 8 * Z.of_nat j) = 0
}.

Lemma wp_hash_zero_loop bl p t n : forall k i (Q : unit -> obj hash_ext -> Prop) m s,
  current (core s) -> (k + i = n)%nat -> 48 <= p -> p + t <= mem_sz (core s) ->
  mem_sz (core s) < limit -> 16 + 8 * Z.of_nat n <= t ->
  Blk p t true ∈ bl -> ext s = HashExt (p + 16) (Z.of_nat n) ->
  blank m (mem_sz (core s)) bl p n i ->
  (forall m', blank m' (mem_sz (core s)) bl p n n -> Q tt (upd m' s)) ->
  wp (hash_zero_loop k (Z.of_nat i)) Q (upd m s).
Proof.
  induction k as [|k IH]; intros i Q m s Hc Hk Hp Hpt Hl Hn Hb He Hm HQ; cbn [hash_zero_loop].
  - mstep. apply HQ. assert (i = n) as -> by lia. done.
  - unfold bucket. do 2 mstep. apply wp_gets. cbn [ext upd]. rewrite He. cbn [hashtab].
    assert ((p + 16 =? 0) = false) as -> by (apply Z.eqb_neq; lia). cbn [negb guard]. do 2 mstep.
    unfold limit in *. rewrite w64_small by lia.
    apply wp_bind, wp_stw; [split_and!; [apply Hc|lia|lia]|].
    replace (Z.of_nat i + 1) with (Z.of_nat (S i)) by lia.
    apply (IH (S i)); try done; [lia|]. destruct Hm as [Hm Hu Hs Hz]. split.
    + apply hmem_st64; [done|]. eapply payload_in; [done|done|cbn; lia|layout; cbn; lia].
    + layout. rewrite ld64_st64_ne by lia. done.
    + rewrite ld64_st64_ne by lia. done.
    + intros j Hj. destruct (decide (j = i)) as [->|Hne].
      * by rewrite ld64_st64.
      * rewrite ld64_st64_ne by lia. apply Hz. lia.
Qed.

Lemma blank_lists m sz bl p n t :
  blank m sz bl p n n -> Blk p t true ∈ bl -> 16 + 8 * Z.of_nat n <= t -> 48 <= p ->
  lists m bl (buckets (p + 16) (replicate n [])).
Proof.
  intros [Hm Hu Hs Hz] Hb Ht Hp.
  assert (forall q xs, (q, xs) ∈ buckets (p + 16) (replicate n []) ->
    xs = [] /\ exists i, (i < n)%nat /\ q = p + 16 + 8 * Z.of_nat i) as Hin.
  { intros q xs (i & ys & E & Hi)%elem_of_lookup_imap. apply lookup_replicate in Hi as [-> ?].
    injection E as -> ->. eauto. }
  assert (forall q, q ∈ (buckets (p + 16) (replicate n [])).*1 ->
    exists i, (i < n)%nat /\ q = p + 16 + 8 * Z.of_nat i) as Hin1.
  { intros q ([q' xs] & -> & [_ H]%Hin)%list_elem_of_fmap. done. }
  assert (forall x, x ∉ all_recs (buckets (p + 16) (replicate n []))) as Hno.
  { intros x (q & xs & [-> _]%Hin & Hx)%elem_of_all_recs. by apply not_elem_of_nil in Hx. }
  split.
  - intros q xs [-> (i & Hi & ->)]%Hin. split; [by apply Hz|done].
  - intros x Hx. by apply Hno in Hx.
  - destruct (all_recs _) as [|x l] eqn:E; [constructor|]. destruct (Hno x). rewrite ?E. by left.
  - intros q (i & Hi & ->)%Hin1. right. exists (Blk p t true). split_and!; try done; layout; cbn; lia.
  - split; [|intros q q' (i & Hi & ->)%Hin1 (j & Hj & ->)%Hin1; lia].
    unfold buckets. rewrite fmap_imap. apply NoDup_alt. intros i j q Hi Hj.
    rewrite list_lookup_imap in Hi, Hj.
    destruct (replicate n _ !! i); [|done]. destruct (replicate n _ !! j); [|done].
    cbn in *. simplify_eq. lia.
  - intros q x b _ Hx. by apply Hno in Hx.
Qed.

(** A container without a table keeps being one while others change it. *)
Lemma fresh_stable bl c : hdr c h_userdata = 0 -> stable bl (eq (HashExt 0 0)) c.
Proof.
  intros Hu c' Hk. pose proof (kp_userdata _ _ _ Hk) as E. rewrite Hu in E. unfold vt_ready, vt_fresh.
  cbn -[hdr]. rewrite E. auto.
Qed.

(** A container whose user data are the table at [t] keeps it. *)
Lemma table_stable t n c : 8 < t -> hdr c h_userdata = t - 8 -> ld64 (data c) (t - 8) = n -> t <= mem_sz c ->
  stable (hkeep t) (eq (HashExt t n)) c.
Proof.
  intros Ht Hu Hn Hsz c' Hk. pose proof (kp_userdata _ _ _ Hk) as E.
  pose proof (kp_live _ _ _ Hk (Blk (t - 8) 8 true) ltac:(by left) eq_refl) as Es.
  pose proof (kp_sz _ _ _ Hk) as Esz. unfold b_end in Es. cbn [b_off b_sz] in Es.
  apply ld64_same in Es.
  unfold vt_ready, vt_fresh. cbn -[Z.add hdr]. rewrite E, Hu.
  assert ((t - 8 =? 0) = false) as -> by (apply Z.eqb_neq; lia). split; [right; lia|].
  unfold hdr. rewrite <- Es, Hn. f_equal. lia.
Qed.

Lemma wp_hash_create bl n (Q : unit -> obj hash_ext -> Prop) s :
  heap (core s) bl -> hdr (core s) h_userdata = 0 -> ext s = HashExt 0 0 -> lock_ok (core s) ->
  (2 <= lck_stackp (core s))%nat -> mem_sz (core s) + 8 * Z.of_nat n + 2 ^ 19 <= limit ->
  (forall t s', nvhash t (replicate n []) s' -> same_locks (core s) (core s') -> Q tt s') ->
  wp (hash_create (Z.of_nat n)) Q s.
Proof.
  intros Hh Hu He Hlk Hsp Hlim HQ. pose proof Hh as [Hcur Hl _ Hm].
  pose proof (fresh_stable bl _ Hu) as Hst.
  pose proof (cu_big _ Hcur) as Hbig. unfold hash_create, sizeof_ulong. layout.
  rewrite w64_small by lia. mstep.
  eapply (wp_nvalloc (eq (HashExt 0 0)) bl); try done; [lia|layout; lia|].
  intros p bl' c' x Hspec Hh' Hsz Hk Hl' Hx. pose proof Hh' as [Hcur' Hlim' _ Hm'].
  pose proof (hm_tiles _ _ _ Hm') as Ht'.
  destruct (alloc_spec_new _ _ _ _ _ _ Hm Hspec _ Ht') as (t & Hb & Hge & _ & _).
  destruct (tiles_in _ _ _ _ Ht' Hb) as (? & ? & _ & _). layout. cbn [b_off b_sz] in *.
  assert (8 + Z.of_nat n * 8 + 8 <= alloc_round (8 + Z.of_nat n * 8)) as Hr.
  { rewrite alloc_round_eq by lia. Z.div_mod_to_equations. lia. }
  pose proof (cu_map _ Hcur'). rewrite <- (upd_same c' x). unfold setdata. mstep. mstep. mstep. mstep.
  apply wp_bind, wp_modify. rewrite Nat2Z.id. cbn [core upd].
  set (m2 := st64 _ _ _). set (s2 := Obj c' (HashExt (p + 8 + 8) (Z.of_nat n))).
  change (wp (hash_zero_loop n (Z.of_nat 0)) Q (upd m2 s2)).
  assert (blank m2 (mem_sz c') bl' p n 0) as Hblank.
  { assert (ld64 m2 40 = p + 8) as E.
    { unfold m2. rewrite ld64_st64_ne by lia. apply ld64_st64. lia. }
    split; [|exact E| |lia].
    - unfold m2. apply hmem_st64; [apply hmem_st64; [done|left; layout; lia]|].
      eapply payload_in; [done|done|cbn; lia|layout; cbn; lia].
    - unfold m2. apply ld64_st64. lia. }
  eapply (wp_hash_zero_loop bl' p t n n 0); cbn [core ext]; try done; [lia..| |].
  { unfold s2. cbn [ext]. f_equal. lia. }
  intros m' Hm2. eapply (HQ (p + 16)).
  - split_and!; [lia|rewrite length_replicate; cbn; f_equal; lia|]. exists bl'.
    rewrite length_replicate. cbn [core upd]. split.
    + apply heap_data; [done|apply Hm2].
    + eapply blank_lists; try done; lia.
    + intros k ->%list_elem_of_singleton. split.
      * exists (Blk p t true). split_and!; try done; [cbn; lia|unfold b_end; cbn; lia|].
        intros x' (q & xs & Hq & Hx')%elem_of_all_recs.
        apply elem_of_lookup_imap in Hq as (i & ys & E & Hi). apply lookup_replicate in Hi as [-> _].
        injection E as -> ->. by apply not_elem_of_nil in Hx'.
      * intros q ([q' xs] & -> & (i & ys & E & Hi)%elem_of_lookup_imap)%list_elem_of_fmap.
        injection E as -> ->. unfold b_end. cbn. lia.
    + apply table_stable; [lia|..].
      * etrans; [exact (bk_user _ _ _ _ _ _ Hm2)|lia].
      * replace (p + 16 - 8) with (p + 8) by lia. exact (bk_size _ _ _ _ _ _ Hm2).
      * cbn. lia.
    + intros ([q' xs] & E' & (i & ys & E & Hi)%elem_of_lookup_imap)%list_elem_of_fmap.
      injection E as -> ->. cbn in E'. unfold h_userdata in *. lia.
  - by split; apply Hl'.
Qed.
End creation.

(** ** The operations of NVHash *)
Section nvhash_ops.
Context {os : Os} {Hos : OsOk os}.
Implicit Types s : obj hash_ext.

Lemma wp_hash_open dbname n (Q : unit -> obj hash_ext -> Prop) s :
  mem_fn (core s) <> dbname -> mem_fd (core s) = false -> mem_p (core s) = NullMap ->
  length (lck_stack (core s)) = LOCKSTACKSIZE -> lck_stackp (core s) = LOCKSTACKSIZE ->
  f_size (default (File ∅ 0) (files (core s) !! dbname)) = 0 -> os_open dbname = None -> (forall m, os_write m = None) ->
  8 * Z.of_nat n + 2 ^ 20 <= limit ->
  (forall t s', nvhash t (replicate n []) s' -> lock_ok (core s') ->
     lck_stackp (core s') = LOCKSTACKSIZE -> Q tt s') ->
  wp (hash_open dbname (Z.of_nat n)) Q s.
Proof.
  intros Hfn Hfd Hmap Hlen Hsp Hfile Hopen Hwrite Hlim HQ. unfold hash_open, hash_setup. mstep.
  apply (wp_open dbname fresh_bl); try done; [by left|].
  intros c Hmp Hp Hh Hcur Hheld Hst Hspc.
  assert (hdr (remap c) h_userdata = 0) as Hu.
  { unfold hdr, data. rewrite Hcur. unfold opened. rewrite Hfile. cbn [f_size Z.eqb f_data].
    by destruct (fresh_reads (f_data (default (File ∅ 0) (files (core s) !! dbname)))) as (_ & _ & _ & _ & _ & _ & _ & ?). }
  assert (mem_sz (remap c) = 65536) as Hsz.
  { rewrite <- (cu_fsize _ (hp_current _ _ Hh)), Hcur. unfold opened. by rewrite Hfile. }
  assert (lck_stackp (remap c) = LOCKSTACKSIZE /\ lck_stack (remap c) = lck_stack (core s) /\
    held (remap c) = UnLock) as (E1 & E2 & E3)
    by (unfold remap; rewrite <- Hsp, <- Hspc, <- Hst, <- Hheld; by destruct (decide _)).
  unfold make_current, hash_vtable, hash_make_current. do 2 mstep. cbn [core ext].
  rewrite Hp, decide_True by done. do 3 mstep. apply wp_base_make_current; [done|]. cbn [core ext].
  pose proof (cu_map _ (hp_current _ _ Hh)) as Hpm.
  rewrite <- (upd_same (remap c) (ext s)). unfold getdata. mstep. mstep.
  change (ld64 (data (remap c)) h_userdata) with (hdr (remap c) h_userdata). rewrite Hu.
  cbn [Z.eqb]. rewrite upd_same. apply wp_modify. cbn [core ext].
  set (s1 := Obj (remap c) (HashExt 0 0)). mstep. apply wp_gets. cbn [ext s1 hashtab Z.eqb].
  assert (lock_ok (core s1)) as Hlk1.
  { cbn [core s1]. split; [by rewrite E2|by rewrite E1|].
    rewrite E3. unfold top_lock. by rewrite E1. }
  pose proof (fresh_stable fresh_bl _ Hu) as Hstab.
  mstep. eapply (wp_lock_excl fresh_bl (eq (HashExt 0 0))); try done;
    [apply Hh|cbn [core s1]; rewrite E1; unfold LOCKSTACKSIZE; lia|].
  intros x <-. mstep. apply wp_gets. cbn [ext hashtab Z.eqb]. mstep.
  assert (heap (push_lock ExclLock (core s1)) fresh_bl) as Hh2.
  { destruct Hh as [Hc0 ? ? ?]. split; try done. by eapply current_ext, Hc0. }
  apply (wp_hash_create fresh_bl); cbn [core ext]; try done.
  - apply lock_ok_push; [done|]. cbn [core s1]. rewrite E1. unfold LOCKSTACKSIZE. lia.
  - cbn [core s1 push_lock set_held set_stack lck_stackp]. rewrite E1. unfold LOCKSTACKSIZE. lia.
  - change (mem_sz (push_lock ExclLock (core s1))) with (mem_sz (remap c)). rewrite Hsz. unfold limit in *. lia.
  - intros t s2 (Ht & He & bl & Hso) Hl2.
    assert (same_locks (core s1) (pop_lock (core s2))) as Hpop.
    { eapply (same_locks_pop ExclLock); [done| |done]. cbn [core s1]. rewrite E1. unfold LOCKSTACKSIZE. lia. }
    eapply wp_unlock_store; try done.
    + eapply lock_ok_same; [|exact Hl2]. apply lock_ok_push; [done|]. cbn [core s1]. rewrite E1.
      unfold LOCKSTACKSIZE. lia.
    + rewrite (sl_sp _ _ Hl2). cbn [core s1 push_lock set_held set_stack lck_stackp]. rewrite E1.
      unfold LOCKSTACKSIZE. lia.
    + intros x Hso' <-. apply (HQ t).
      * split_and!; [done|done|]. by exists bl.
      * by eapply lock_ok_same.
      * cbn [core]. rewrite (sl_sp _ _ Hpop). cbn [core s1]. by rewrite E1.
Qed.

(** The file of a table at [t] with these buckets. *)
Definition hash_file (t : Z) (bk : list (list rcd)) (f : file) : Prop :=
  0 < f_size f < limit /\ f_size f mod 65536 = 0 /\ exists bl, hmem (f_data f) (f_size f) bl /\
  lists (f_data f) bl (buckets t bk) /\ guarded bl (buckets t bk) (hkeep t) /\
  ld64 (f_data f) h_userdata = t - 8 /\ ld64 (f_data f) (t - 8) = Z.of_nat (length bk).

Lemma guarded_table bl t bk lo hi : guarded bl (buckets t bk) (hkeep t) -> tiles bl lo hi -> 48 <= lo ->
  56 <= t /\ t <= hi /\ h_userdata ∉ (buckets t bk).*1.
Proof.
  intros Hg Ht Hlo. destruct (Hg (Blk (t - 8) 8 true)) as [(b & Hb & _ & ? & ? & _) _]; [by left|].
  destruct (tiles_in _ _ _ _ Ht Hb) as (? & ? & _ & _). unfold b_end in *. cbn in *. layout. split_and!; [lia..|].
  intros ([q xs] & E & (i & ys & E' & _)%elem_of_lookup_imap)%list_elem_of_fmap. injection E' as -> ->. cbn in E.
  layout. unfold h_userdata in E. lia.
Qed.

(** What an object with the table leaves in its file. *)
Lemma hash_file_left t bk s : nvhash t bk s -> hash_file t bk (cur (core s)).
Proof.
  intros (Ht & He & bl & [Hh HL Hg Hst _]). pose proof Hh as [Hcur Hlim Hpg Hm].
  pose proof (cu_fsize _ Hcur) as Ef. pose proof (cu_big _ Hcur).
  destruct (Hst (core s)) as [_ Hf]; [apply kept_refl, Hcur|]. unfold vt_fresh in Hf. cbn -[hdr] in Hf.
  split; [rewrite Ef; layout; lia|]. split; [by rewrite Ef|]. exists bl. rewrite Ef. split_and!; [done..| |];
    fold (data (core s)); fold (hdr (core s) h_userdata);
    (destruct (Z.eqb_spec (hdr (core s) h_userdata) 0); injection Hf as E1 E2; [lia|]); [lia|].
  replace (t - 8) with (hdr (core s) h_userdata) by lia. by rewrite E2.
Qed.

(** Opening the file of a table finds the table. *)
Lemma wp_hash_open_file dbname t bk f n (Q : unit -> obj hash_ext -> Prop) s :
  mem_fn (core s) <> dbname -> mem_fd (core s) = false -> mem_p (core s) = NullMap ->
  length (lck_stack (core s)) = LOCKSTACKSIZE -> lck_stackp (core s) = LOCKSTACKSIZE ->
  os_open dbname = None -> (forall m, os_write m = None) ->
  files (core s) !! dbname = Some f -> hash_file t bk f ->
  (forall s', nvhash t bk s' -> lock_ok (core s') -> lck_stackp (core s') = LOCKSTACKSIZE ->
     mem_sz (core s') = f_size f -> Q tt s') ->
  wp (hash_open dbname n) Q s.
Proof.
  intros Hfn Hfd Hmap Hlen Hsp Hopen Hwrite Hfile (Hsz & Hpg & bl & Hm & HL & Hg & Hu & Hn) HQ. unfold hash_open, hash_setup. mstep.
  apply (wp_open dbname bl); try done; [by right; rewrite Hfile|].
  intros c Hmp Hp Hh Hcur Hheld Hst Hspc. unfold opened in Hcur. rewrite Hfile in Hcur.
  cbn [default id] in Hcur. unfold id in Hcur. destruct (Z.eqb_spec (f_size f) 0); [lia|].
  destruct (guarded_table _ _ _ _ _ Hg (hm_tiles _ _ _ Hm) ltac:(done)) as (Ht & Hte & Hnu).
  assert (mem_sz (remap c) = f_size f) as Esz by (by rewrite <- (cu_fsize _ (hp_current _ _ Hh)), Hcur).
  assert (lck_stackp (remap c) = LOCKSTACKSIZE /\ lck_stack (remap c) = lck_stack (core s) /\
    held (remap c) = UnLock) as (E1 & E2 & E3)
    by (unfold remap; rewrite <- Hsp, <- Hspc, <- Hst, <- Hheld; by destruct (decide _)).
  unfold make_current, hash_vtable, hash_make_current. do 2 mstep. cbn [core ext].
  rewrite Hp, decide_True by done. do 3 mstep. apply wp_base_make_current; [done|]. cbn [core ext].
  pose proof (cu_map _ (hp_current _ _ Hh)) as Hpm. pose proof (cu_big _ (hp_current _ _ Hh)) as Hbig.
  assert (data (remap c) = f_data f) as Ed by (unfold data; by rewrite Hcur).
  rewrite <- (upd_same (remap c) (ext s)). unfold getdata. layout. mstep. mstep. rewrite Ed, Hu.
  destruct (Z.eqb_spec (t - 8) 0); [lia|]. mstep. mstep. rewrite Hn, <- Ed, upd_same. apply wp_modify. cbn [core ext].
  replace (t - 8 + 8) with t by lia.
  mstep. apply wp_gets. cbn [ext hashtab]. destruct (Z.eqb_spec t 0); [lia|]. mstep. apply HQ; [|split|exact E1|exact Esz]; cbn [core].
  - split_and!; [lia|done|]. exists bl. split; cbn [core]; [exact Hh|by rewrite Ed|done| |done].
    apply table_stable; [lia|..]; unfold hdr; rewrite ?Ed; [done|done|lia].
  - by rewrite E2.
  - rewrite E1. done.
  - rewrite E3. unfold top_lock. by rewrite E1.
Qed.

(** Opening a hash table file that does not exist creates it with the
    requested number of buckets, all empty, and a well-formed file around them;
    the lock taken meanwhile is released. *)
Theorem hash_open_spec dbname n s :
  mem_fn (core s) <> dbname -> mem_fd (core s) = false -> mem_p (core s) = NullMap ->
  length (lck_stack (core s)) = LOCKSTACKSIZE -> lck_stackp (core s) = LOCKSTACKSIZE ->
  files (core s) !! dbname = None -> os_open dbname = None -> (forall m, os_write m = None) ->
  8 * Z.of_nat n + 2 ^ 20 <= limit ->
  wp (hash_open dbname (Z.of_nat n))
    (fun _ s' => exists t, nvhash t (replicate n []) s' /\ held (core s') = UnLock) s.
Proof.
  intros ? ? ? ? ? Hf **. eapply wp_hash_open; try done; [by rewrite Hf|]. intros t s' Hn Hlk Hsp. exists t. split; [done|].
  rewrite (lo_held _ Hlk). unfold top_lock. by rewrite Hsp.
Qed.

Lemma wp_hash_add t bk i xs d (Q : unit -> obj hash_ext -> Prop) s :
  nvhash t bk s -> bk !! i = Some xs -> lock_ok (core s) -> (3 <= lck_stackp (core s))%nat ->
  mem_sz (core s) + Z.of_nat (length d) + 2 ^ 19 <= limit ->
  (forall nr s', nvhash t (<[i := (nr, d) :: xs]> bk) s' -> same_locks (core s) (core s') ->
     mem_sz (core s') <= mem_sz (core s) + Z.of_nat (length d) + 2 ^ 18 -> Q tt s') ->
  wp (hash_add (Z.of_nat i) d) Q s.
Proof.
  intros (Ht & He & bl & Hso) Hi Hlk Hsp Hlim HQ. unfold hash_add.
  eapply (wp_locked_unit _ _ _ _ _ _ _ _
    (fun sz R' => sz <= mem_sz (core s) + Z.of_nat (length d) + 2 ^ 18 /\
       exists nr, R' = buckets t (<[i := (nr, d) :: xs]> bk))); try done; [lia|..].
  - intros s1 Hso1 He1 Hlk1 Hsp1 Hsz1.
    eapply (wp_sadd t bk i xs d); try done; [by eapply nvhash_store|lia|layout; lia|].
    intros bl' c' x nr Hso' Hx Hl Hsz. eexists bl', _. split_and!; try done; [cbn [core]; lia|by exists nr].
  - intros bl' R' c' x Hso' Hx Hl (Hsz & nr & ->). apply (HQ nr); [|done..].
    split_and!; [done|by rewrite length_insert|]. exists bl'. by rewrite length_insert.
Qed.

(** NVHash::add puts one record with the given data at the front of the
    bucket [h]; the other buckets and the records in front of it keep their place
    and data. *)
Theorem hash_add_spec t bk h xs d s :
  nvhash t bk s -> bk !! h = Some xs -> lock_ok (core s) -> (3 <= lck_stackp (core s))%nat ->
  mem_sz (core s) + Z.of_nat (length d) + 2 ^ 19 <= limit ->
  wp (hash_add (Z.of_nat h) d)
    (fun _ s' => exists nr, nvhash t (<[h := (nr, d) :: xs]> bk) s' /\ same_locks (core s) (core s')) s.
Proof. intros. eapply wp_hash_add; try done. intros nr s' ? ? ?. by exists nr. Qed.

Lemma wp_hash_clear t bk (Q : unit -> obj hash_ext -> Prop) s :
  nvhash t bk s -> lock_ok (core s) -> (2 <= lck_stackp (core s))%nat ->
  (forall s', nvhash t (replicate (length bk) []) s' -> same_locks (core s) (core s') ->
     mem_sz (core s') = mem_sz (core s) -> Q tt s') ->
  wp hash_clear Q s.
Proof.
  intros (Ht & He & bl & Hso) Hlk Hsp HQ. unfold hash_clear.
  eapply (wp_locked_unit _ _ _ _ _ _ _ _
    (fun sz R' => sz = mem_sz (core s) /\ R' = buckets t (replicate (length bk) []))); try done; [lia|..].
  - intros s1 Hso1 He1 Hlk1 Hsp1 Hsz1. unfold hash_sclear. mstep. apply wp_gets.
    rewrite <- He1. cbn [hashsz]. rewrite Nat2Z.id.
    eapply (wp_hash_sclear_loop t (length bk) bk 0); try done; [by eapply nvhash_store|lia|].
    intros s' (_ & He' & bl' & Hso') Hl Hsz. change (take 0 bk) with (@nil (list rcd)) in *. rewrite app_nil_l, length_replicate in He', Hso'.
    eexists bl', _. split_and!; try done. congruence.
  - intros bl' R' c' x Hso' Hx Hl [Hsz ->]. apply HQ; [|done..].
    split_and!; [done|by rewrite length_replicate|]. exists bl'. by rewrite length_replicate.
Qed.

Lemma wp_hash_sis_empty_loop t bk s : nvhash t bk s -> forall n i (Q : bool -> obj hash_ext -> Prop),
  length bk = (i + n)%nat -> Q (forallb (fun xs => match xs with [] => true | _ => false end) (drop i bk)) s ->
  wp (hash_sis_empty_loop n (Z.of_nat i)) Q s.
Proof.
  intros Hn. induction n as [|n IH]; intros i Q Hlen HQ; cbn [hash_sis_empty_loop].
  - mstep. by rewrite drop_ge in HQ by lia.
  - destruct (lookup_lt_is_Some_2 bk i) as [xs Hi]; [lia|]. rewrite (drop_S _ _ _ Hi) in HQ.
    mstep. eapply wp_bucket; [done..|]. mstep. pose proof Hn as (Ht & He & bl & Hso).
    destruct (bucket_bounds _ _ _ _ _ _ _ Hso Hi) as (_ & _ & _ & Hin). eapply wp_root; [done..|].
    destruct xs as [|x l].
    + change (last_rec []) with 0. cbn [Z.eqb negb]. replace (Z.of_nat i + 1) with (Z.of_nat (S i)) by lia.
      by apply IH; [lia|].
    + assert ((last_rec (x :: l) =? 0) = false) as ->; [|cbn [negb]; by mstep].
      apply Z.eqb_neq. eapply last_rec_pos; [apply Hso|apply (hp_mem _ _ (so_heap _ _ _ _ _ Hso))|done|done].
Qed.

(** Clear ends, empties every bucket and gives the blocks of all records
    back, after which is_empty answers that the table is empty. *)
Theorem hash_clear_spec t bk s :
  nvhash t bk s -> lock_ok (core s) -> (2 <= lck_stackp (core s))%nat ->
  wp (hash_clear ;;; hash_is_empty)
    (fun r s' => r = true /\ nvhash t (replicate (length bk) []) s' /\ same_locks (core s) (core s')) s.
Proof.
  intros Hn Hlk Hsp. mstep. eapply wp_hash_clear; [done..|]. intros s1 Hn1 Hl1 _.
  pose proof Hn1 as (Ht & He & bl & Hso). unfold hash_is_empty.
  eapply (wp_locked _ _ _ _ _ _ _ _ (fun r _ R' => r = true /\ R' = buckets t (replicate (length bk) [])));
    try done; [by eapply lock_ok_same|rewrite (sl_sp _ _ Hl1); lia|..].
  - intros s2 Hso2 He2 Hlk2 _ _ _. unfold hash_sis_empty. mstep. apply wp_gets. rewrite <- He2.
    cbn [hashsz]. rewrite Nat2Z.id. change 0 with (Z.of_nat 0).
    eapply (wp_hash_sis_empty_loop t _ s2); [by eapply nvhash_store|lia|].
    cbn [drop]. eexists bl, _. split_and!; try done.
    clear. induction (length bk) as [|k IH]; [done|]. cbn. exact IH.
  - intros r bl' R' c' x Hso' Hx Hl (c2 & [-> ->] & _). split_and!; [done| |by eapply same_locks_trans].
    split_and!; [done..|]. by exists bl'.
Qed.

(** An NVHashIter that is attached to a table enumerates the data of every
    record of every bucket, bucket by bucket, each once, and then becomes
    invalid. *)
Theorem hash_iter_spec t bk it0 fuel s :
  nvhash t bk s -> lock_ok (core s) -> (1 <= lck_stackp (core s))%nat -> hi_on it0 = false ->
  (length (concat bk) < fuel)%nat ->
  wp (it <- hi_attach it0 ;; it <- hi_first it ;; hi_collect fuel it)
    (fun ds _ => ds = snd <$> concat bk) s.
Proof.
  intros (Ht & He & bl & Hso) Hlk Hsp Hoff Hf. unfold hi_attach, hi_detach. rewrite Hoff. repeat mstep.
  eapply wp_lock_store; try done. intros c1 x _ Hso1 Hx Hlk1. repeat mstep.
  assert (nvhash t bk (Obj c1 x)) as Hn1 by (split_and!; [done|done|by exists bl]).
  pose proof (continues_all t bk _ Hn1 (length bk) 0 ltac:(lia)) as Hc.
  unfold hi_first, hi_seek_from. mstep. apply wp_gets. cbn [ext hi_hashval]. rewrite <- Hx at 1.
  cbn [hashsz]. replace (Z.to_nat (Z.of_nat (length bk) - 0)) with (length bk - 0)%nat by lia.
  apply wp_unbind. by apply Hc.
Qed.
End nvhash_ops.

(** ** A concrete table *)
#[local] Existing Instance good_os.
Definition new_hash : obj hash_ext := Obj (new_container ∅) (HashExt 7 7).
Definition ex_hash : obj hash_ext := run (hash_open "db" (Z.of_nat 3)) new_hash.
Definition ex_hash1 : obj hash_ext := run (hash_add (Z.of_nat 1) (bs "x")) ex_hash.

Definition ready (P : Z -> obj hash_ext -> Prop) (s : obj hash_ext) : Prop :=
  (exists t, P t s) /\ lock_ok (core s) /\ lck_stackp (core s) = LOCKSTACKSIZE.

Lemma ex_hash_ok : ready (fun t => nvhash t [[]; []; []]) ex_hash.
Proof.
  unfold ex_hash. apply wp_run. apply wp_hash_open; try done.
  intros t s' ? ? ?. split_and!; [by exists t|done|done].
Qed.
#[local] Opaque ex_hash ex_hash1.

Lemma ex_hash1_ok : ready (fun t s => exists nr, nvhash t [[]; [(nr, bs "x")]; []] s) ex_hash1.
Proof.
  destruct ex_hash_ok as ((t & Hn) & Hlk & Hsp). Transparent ex_hash1. unfold ex_hash1. apply wp_run.
  eapply wp_hash_add; [exact Hn|reflexivity|done|rewrite Hsp; unfold LOCKSTACKSIZE; lia|vm_compute; discriminate|].
  intros nr s' Hs' Hl _. split_and!; [by exists t, nr|by eapply lock_ok_same|by rewrite (sl_sp _ _ Hl)].
Qed.
#[local] Opaque ex_hash1.

Lemma hash_open_spec_witness :
  wp (hash_open "db" 3) (fun _ s' => exists t, nvhash t [[]; []; []] s') new_hash.
Proof.
  eapply wp_mono; [apply (hash_open_spec "db" 3 new_hash); done|]. intros [] s' (t & ? & _). by exists t.
Defined.

Lemma hash_add_spec_witness :
  exists t, wp (hash_add 2 (bs "y")) (fun _ s' => exists nr, nvhash t [[]; []; [(nr, bs "y")]] s') ex_hash.
Proof.
  destruct ex_hash_ok as ((t & Hn) & Hlk & Hsp). exists t.
  eapply wp_mono; [apply (hash_add_spec t _ 2 [] (bs "y") ex_hash Hn);
    [reflexivity|done|rewrite Hsp; unfold LOCKSTACKSIZE; lia|vm_compute; discriminate]|].
  intros [] s' (nr & ? & _). by exists nr.
Defined.

Lemma hash_clear_spec_witness : wp (hash_clear ;;; hash_is_empty) (fun r _ => r = true) ex_hash1.
Proof.
  destruct ex_hash1_ok as ((t & nr & Hn) & Hlk & Hsp).
  eapply wp_mono; [apply (hash_clear_spec t _ ex_hash1 Hn Hlk); rewrite Hsp; unfold LOCKSTACKSIZE; lia|].
  by intros r s' (? & _).
Defined.

Lemma hash_iter_spec_witness :
  wp (it <- hi_attach (HashIter false 0 0 0) ;; it <- hi_first it ;; hi_collect 2 it)
    (fun ds _ => ds = [bs "x"]) ex_hash1.
Proof.
  destruct ex_hash1_ok as ((t & nr & Hn) & Hlk & Hsp).
  apply (hash_iter_spec t _ (HashIter false 0 0 0) 2 ex_hash1 Hn Hlk);
    [rewrite Hsp; unfold LOCKSTACKSIZE; lia|done|cbn; lia].
Defined.

(** ** Two processes that open a new table

    [other s f]: the process in state [s] after another one has left [f] in the
    file. *)
Definition other {X} (s : obj X) (f : file) : obj X := Obj (set_cur f (core s)) (ext s).

Definition race_first : obj hash_ext := run (open "db") new_hash.
Definition race_second : obj hash_ext :=
  run (hash_setup 3 ;;; hash_add 1 (bs "x")) (Obj (core race_first) (HashExt 0 0)).
Definition race_end : obj hash_ext := run (hash_setup 3) (other race_first (cur (core race_second))).

(** A process that has mapped a new file when another one creates the table
    in it, without growing the file, does not see that table under the lock
    either (its make_current returns early, [hashtab] stays null): it makes a
    second table, and the records of the first one are lost. *)
Theorem hash_open_race :
  hdr (core race_second) h_userdata <> 0 /\
  hdr (core race_end) h_userdata <> hdr (core race_second) h_userdata /\
  exists s, hash_is_empty race_end = Ret true s.
Proof. split_and!; [vm_compute; discriminate..|]. eexists. vm_compute. reflexivity. Qed.
