(* ===== verification/ActiveDB.v ===== *)
(** * ActiveDB.v: the database of the newsgroups

    NServer-0.9.1/NVActiveDB.{h,cc}: a hash table of GroupInfo records, keyed by
    the name of the group.  The object is an NVHash with 15013 buckets. *)
From S2P Require Import Prelude Memory Text Matching Container Heap Alloc Nvalloc Nvfree.
From S2P Require Import ContainerSpec NVlist Records NVHash GroupInfo.

Definition NVActiveDB_HASHSIZE : Z := 15013.

(** The flags of set and read, the modes of write. *)
Definition update_only : Z := 1.
Definition F_STORE_READONLY : Z := 1.
Definition F_CLEAR : Z := 2.
Inductive write_mode := m_active | m_times.

(** NVActiveDB::hash, two characters a round; [char] is signed and converted to
    [unsigned long]. *)
Fixpoint hash_loop (h : Z) (p : bytes) : Z :=
  match p with
  | [] => h
  | c :: r =>
      let h := w64 (h * schar c + schar (at_ r 0)) mod NVActiveDB_HASHSIZE in
      match r with [] => h | _ :: p => hash_loop h p end
  end.
Definition adb_hash (strg : bytes) : Z := hash_loop 1 strg.

Section with_os.
Context {os : Os}.
Abbreviation MC := (M (obj hash_ext)).

(** The loop [while (r) { r = o2r(r->next); if (strcmp(...) == 0) break; ... }] of
    sset, get and hasgroup: the record found, or 0.  strcmp reads the stored name
    up to its end. *)
Fixpoint adb_find_loop (fuel : nat) (group : bytes) (head r : Z) : MC Z :=
  match fuel with
  | O => spin
  | S f =>
      if r =? 0 then ret 0 else
      r <- r_next r ;;
      deref r ;;;
      nm <- ldcstr (r_datap r + Z.of_nat off_name) ;;
      if bool_decide (nm = group) then ret r
      else adb_find_loop f group head (if r =? head then 0 else r)
  end.
Definition adb_find (group : bytes) : MC Z :=
  b <- bucket (adb_hash group) ;;
  head <- ldw b ;;
  fuel <- fl_fuel ;;
  adb_find_loop fuel group head head.

(** sset; the description it leaves in [gi] has the time of creation set. *)
Definition adb_sset (gi : GroupInfo) (flags : Z) : MC GroupInfo :=
  r <- adb_find (gi_name gi) ;;
  if negb (r =? 0) then
    ct <- ldw (r_datap r + Z.of_nat off_ctime) ;;
    let gi := setctime ct gi in
    let gidata := getraw gi in
    sz <- r_szdata r ;;
    (if negb (Z.of_nat (length gidata) =? sz) then ret tt else stmem (r_datap r) gidata) ;;;
    ret gi
  else if negb (Z.land flags update_only =? 0) then ret gi
  else
    let gi := setctime os_time gi in
    hash_add (adb_hash (gi_name gi)) (getraw gi) ;;; ret gi.

Definition adb_set (gi : GroupInfo) (flags : Z) : MC GroupInfo :=
  lock_ ExclLock ;;; gi <- adb_sset gi flags ;; lock_ UnLock ;;; ret gi.

Definition adb_add (gi : GroupInfo) : MC unit := hash_add (adb_hash (gi_name gi)) (getraw gi).

(** get: [None] for the result -1; the description is changed when the group is found. *)
Definition adb_get (group : bytes) (gi : GroupInfo) : MC (option GroupInfo) :=
  lock_ ShrdLock ;;;
  r <- adb_find group ;;
  g <- (if r =? 0 then ret None
        else sz <- r_szdata r ;; d <- ldmem (r_datap r) (w32 sz) ;; g <- setraw d gi ;; ret (Some g)) ;;
  lock_ UnLock ;;;
  ret g.

Definition adb_hasgroup (group : bytes) : MC bool :=
  lock_ ShrdLock ;;; r <- adb_find group ;; lock_ UnLock ;;; ret (negb (r =? 0)).

Definition adb_open (dbname : string) : MC unit := hash_open dbname NVActiveDB_HASHSIZE.
Definition adb_clear : MC unit := hash_clear.

(** The loop over the lines of read; [gd] is one object for all of them.  The
    result is the exception that ended it, if any, and the stream. *)
Fixpoint adb_read_loop (n : nat) (ist : istream) (line : bytes) (gd : GroupInfo)
    (filter : option bytes) (flags : Z) : MC (option exn * istream) :=
  match n with
  | O => spin
  | S n =>
      if s_eof ist then ret (None, ist) else
      let '(line, ist) := nlreadline ist line false in
      if bool_decide (line = bs ".") then ret (None, ist) else
      let l := cstr line in
      if match filter with None => true | Some f => 0 <? matchgroup f l end then
        r <- catch
          (gd <- gi_set os_time l gd ;;
           let gd := if negb (Z.land flags F_STORE_READONLY =? 0) then setflag "n"%char gd else gd in
           gd <- adb_sset gd 0 ;;
           ret (inr gd))
          (fun e => ret (inl e)) ;;
        match r with
        | inl e => ret (Some e, ist)
        | inr gd => adb_read_loop n ist line gd filter flags
        end
      else adb_read_loop n ist line gd filter flags
  end.

(** read; an exception leaves the lock behind. *)
Definition adb_read (ist : istream) (filter : option bytes) (flags : Z) (gd : GroupInfo)
    : MC (option exn * istream) :=
  lock_ ExclLock ;;;
  when (negb (Z.land flags F_CLEAR =? 0)) adb_clear ;;;
  r <- adb_read_loop (S (S (length (s_rest ist)))) ist [] (gi_init gd) filter flags ;;
  match fst r with
  | Some _ => ret r
  | None => setmtime os_time false ;;; lock_ UnLock ;;; ret r
  end.

(** The line of a group write prints. *)
Definition adb_line (mode : write_mode) (gd : GroupInfo) : bytes :=
  match mode with
  | m_active => gi_print gd ++ [CR; LF]
  | m_times => gi_name gd ++ bs " " ++ dec (gi_ctime gd) ++ bs " news" ++ [CR; LF]
  end.
Definition adb_wanted (ctime : Z) (filter : option bytes) (gd : GroupInfo) : bool :=
  match filter with None => true | Some f => 0 <? matchgroup f (gi_name gd) end && (ctime <? gi_ctime gd).

(** The loop of write (the iterator gives its lock back in its destructor, also
    when an exception leaves write); [good out] tells whether the stream took [out]. *)
Fixpoint adb_write_loop (fuel : nat) (good : bytes -> bool) (ctime : Z) (mode : write_mode)
    (filter : option bytes) (gd : GroupInfo) (it : hash_iter) (out : bytes) : MC (bytes * hash_iter) :=
  match fuel with
  | O => spin
  | S f =>
      if negb (hi_valid it) then ret (out, it) else
      d <- hi_data it ;;
      gd <- setraw d gd ;;
      out <- (if adb_wanted ctime filter gd then
                let out := out ++ adb_line mode gd in
                if good out then ret out else raise (SystemError "Cannot write GroupList" 0)
              else ret out) ;;
      it <- hi_next it ;;
      adb_write_loop f good ctime mode filter gd it out
  end.
Definition adb_write (good : bytes -> bool) (ctime : Z) (mode : write_mode) (filter : option bytes)
    (junk1 junk2 : Z) (gd : GroupInfo) : MC bytes :=
  it <- hi_new junk1 junk2 ;;
  oi <- catch
    (it <- hi_first it ;;
     fuel <- fl_fuel ;;
     adb_write_loop fuel good ctime mode filter (gi_init gd) it [])
    (fun e => hi_detach it ;;; raise e) ;;
  hi_detach (snd oi) ;;;
  ret (fst oi).

(** *** NVActiveDB_Iter: bucket, position and tail; no lock is held *)
Record adb_iter := AdbIter { ai_hash_val : Z; ai_pos : Z; ai_tail : Z; ai_newsgroup : GroupInfo }.

Fixpoint ai_skip_nulls (n : nat) (it : adb_iter) : MC adb_iter :=
  match n with
  | O => ret it
  | S n =>
      b <- bucket (ai_hash_val it) ;;
      v <- ldw b ;;
      if negb (v =? 0) then
        p <- r_next v ;; ret (AdbIter (ai_hash_val it) p v (ai_newsgroup it))
      else ai_skip_nulls n (AdbIter (ai_hash_val it + 1) (ai_pos it) (ai_tail it) (ai_newsgroup it))
  end.
Definition ai_skip (it : adb_iter) : MC adb_iter :=
  n <- gete hashsz ;; ai_skip_nulls (Z.to_nat (n - ai_hash_val it)) it.
Definition ai_new (begin : bool) (junk : Z) (gd : GroupInfo) : MC adb_iter :=
  n <- gete hashsz ;; ai_skip (AdbIter (if begin then 0 else n) 0 junk (gi_init gd)).
Definition ai_get (it : adb_iter) : MC adb_iter :=
  sz <- r_szdata (ai_pos it) ;;
  d <- ldmem (ai_pos it + sizeof_Record) (w32 (s32 sz)) ;;
  g <- setraw d (ai_newsgroup it) ;;
  ret (AdbIter (ai_hash_val it) (ai_pos it) (ai_tail it) g).
Definition ai_next (it : adb_iter) : MC adb_iter :=
  n <- gete hashsz ;;
  if ai_hash_val it =? n then ret it
  else if ai_pos it =? ai_tail it
  then ai_skip (AdbIter (ai_hash_val it + 1) 0 (ai_tail it) (ai_newsgroup it))
  else p <- r_next (ai_pos it) ;; ret (AdbIter (ai_hash_val it) p (ai_tail it) (ai_newsgroup it)).
Definition ai_equals (a b : adb_iter) : bool := ai_pos a =? ai_pos b.

(** [for (i = db.begin(); i != db.end(); ++i) ... *i ...] *)
Fixpoint ai_collect (fuel : nat) (last it : adb_iter) : MC (list GroupInfo) :=
  match fuel with
  | O => spin
  | S f => if negb (ai_equals it last)
           then it <- ai_get it ;; let g := ai_newsgroup it in
                it <- ai_next it ;; rest <- ai_collect f last it ;; ret (g :: rest)
           else ret []
  end.
End with_os.

(** ** The hash function *)
Lemma schar_range c : -128 <= schar c < 128.
Proof. unfold schar. pose proof (zc_range c). case_decide; lia. Qed.

(** Horner's rule, without reduction. *)
Fixpoint horner (h : Z) (p : bytes) : Z :=
  match p with
  | [] => h
  | c :: r => let h := h * schar c + schar (at_ r 0) in match r with [] => h | _ :: p => horner h p end
  end.

Lemma hash_loop_range n : forall h p, (length p <= n)%nat -> 0 <= h < NVActiveDB_HASHSIZE ->
  0 <= hash_loop h p < NVActiveDB_HASHSIZE.
Proof.
  induction n as [|n IH]; intros h [|c p] Hn Hh; cbn [length hash_loop] in *; try done; [lia|].
  assert (0 <= w64 (h * schar c + schar (at_ p 0)) mod NVActiveDB_HASHSIZE < NVActiveDB_HASHSIZE) as Hm.
  { apply Z.mod_pos_bound. done. }
  destruct p as [|d p]; [done|]. apply IH; [cbn in Hn; lia|done].
Qed.

Lemma adb_hash_range p : 0 <= adb_hash p < NVActiveDB_HASHSIZE.
Proof. by apply (hash_loop_range (length p)). Qed.

Lemma hash_loop_horner n : forall h p, (length p <= n)%nat -> 0 <= h < NVActiveDB_HASHSIZE ->
  Forall (fun c => zc c < 128) p -> forall k, h = k mod NVActiveDB_HASHSIZE ->
  hash_loop h p = horner k p mod NVActiveDB_HASHSIZE.
Proof.
  assert (forall c, zc c < 128 -> 0 <= schar c < 128) as Hs.
  { intros c Hc. unfold schar. pose proof (zc_range c). case_decide; lia. }
  induction n as [|n IH]; intros h [|c p] Hn Hh Hp k Hk; cbn [length hash_loop horner] in *; try done; [lia|].
  apply Forall_cons in Hp as [Hc Hp]. specialize (Hs c Hc) as Hsc.
  assert (0 <= schar (at_ p 0) < 128) as Hd.
  { destruct p as [|d p]; [done|]. apply Forall_cons in Hp as [Hd _]. by apply Hs. }
  assert (w64 (h * schar c + schar (at_ p 0)) mod NVActiveDB_HASHSIZE =
    (k * schar c + schar (at_ p 0)) mod NVActiveDB_HASHSIZE) as E.
  { unfold w64, NVActiveDB_HASHSIZE in *. rewrite (Z.mod_small _ (2 ^ 64)) by nia. subst h.
    rewrite Z.add_mod, Z.mul_mod_idemp_l, <- Z.add_mod by lia. done. }
  rewrite E. destruct p as [|d p]; [done|]. apply Forall_cons in Hp as [_ Hp].
  apply IH; [cbn in Hn; lia|apply Z.mod_pos_bound; done|done|done].
Qed.

(** C37: the hash of every name selects a bucket of the table; for a name of 7-bit
    characters no step wraps around, and the hash is the polynomial of the
    characters modulo the size of the table. *)
Theorem adb_hash_bounds p :
  0 <= adb_hash p < NVActiveDB_HASHSIZE /\
  (Forall (fun c => zc c < 128) p -> adb_hash p = horner 1 p mod NVActiveDB_HASHSIZE).
Proof.
  split; [apply adb_hash_range|]. intros Hp. by apply (hash_loop_horner (length p)).
Qed.

(** ** The invariant *)
Definition named (group : bytes) (x : rcd) : bool := bool_decide (gi_name (snd x) = group).
Definition adb_bucket (bk : list (list rcd)) (group : bytes) : list rcd :=
  default [] (bk !! Z.to_nat (adb_hash group)).

(** The record of a group: what the file maps its name to. *)
Definition adb_lookup (bk : list (list rcd)) (group : bytes) : option bytes :=
  snd <$> List.find (named group) (adb_bucket bk group).

Record nvadb {os : Os} (t : Z) (bk : list (list rcd)) (s : obj hash_ext) : Prop := {
  na_hash : nvhash t bk s;
  na_size : Z.of_nat (length bk) = NVActiveDB_HASHSIZE;
  na_recs : forall i xs x, bk !! i = Some xs -> x ∈ xs ->
              rec_ok (snd x) /\ adb_hash (gi_name (snd x)) = Z.of_nat i
}.

Section specs.
Context {os : Os} {Hos : OsOk os}.
Implicit Types s : obj hash_ext.

Definition ptr (o : option rcd) : Z := match o with Some x => fst x | None => 0 end.

Lemma rec_ok_name d : rec_ok d -> exists r, drop off_name d = gi_name d ++ NUL :: r.
Proof.
  intros [Hd _]. destruct (cstr_prefix (drop off_name d)) as (r & E & Hr). fold (gi_name d) in E.
  destruct r as [|c r].
  { apply (f_equal length) in E. rewrite app_nil_r, length_drop in E. unfold off_name in *. lia. }
  subst c. by exists r.
Qed.

Section find.
Context (t : Z) (bk : list (list rcd)) (s : obj hash_ext) (group : bytes) (i : nat) (xs : list rcd).
Hypothesis Hn : nvhash t bk s.
Hypothesis Hi : bk !! i = Some xs.
Hypothesis Hrec : forall x, x ∈ xs -> rec_ok (snd x).

Lemma wp_find_loop : forall l2 y l1 fuel r (Q : Z -> obj hash_ext -> Prop),
  xs = l1 ++ y :: l2 -> (length l2 + 1 < fuel)%nat -> r <> 0 ->
  (forall Q : Z -> obj hash_ext -> Prop, Q (fst y) s -> wp (r_next r) Q s) ->
  Q (ptr (List.find (named group) (y :: l2))) s ->
  wp (adb_find_loop fuel group (last_rec xs) r) Q s.
Proof using All.
  destruct Hn as (Ht & He & bl & Hso). destruct (bucket_bounds _ _ _ _ _ _ _ Hso Hi) as (_ & _ & _ & Hin).
  induction l2 as [|z l2 IH]; intros y l1 [|fuel] r Q Hxs Hf Hr Hnext HQ; cbn [length] in Hf; try lia;
    cbn [adb_find_loop]; (assert ((r =? 0) = false) as -> by (by apply Z.eqb_neq)); mstep; apply Hnext;
    pose proof Hin as Hin'; rewrite Hxs in Hin';
    destruct (rcd_bounds _ _ _ _ _ _ _ _ _ Hso Hin') as (? & ? & ? & ?);
    mstep; (apply wp_deref; [lia|]); mstep;
    (destruct (rec_ok_name (snd y)) as [r' Er]; [apply Hrec; rewrite Hxs; apply elem_of_app; right; by left|]);
    (eapply wp_ldcstr; [exact Hso|exact Hin'|exact Er|apply NUL_notin_cstr|]);
    cbn [List.find] in HQ; unfold named at 1 in HQ; (destruct (bool_decide _) eqn:Ed; [by mstep|]).
  - rewrite Hxs, last_rec_snoc, Z.eqb_refl. destruct fuel; [lia|]. cbn [adb_find_loop Z.eqb]. by mstep.
  - assert ((fst y =? last_rec xs) = false) as ->.
    { apply Z.eqb_neq. rewrite Hxs. eapply not_last; [apply Hso|exact Hin']. }
    apply (IH z (l1 ++ [y])); [by rewrite <- app_assoc|lia|lia| |exact HQ].
    intros Q' HQ'. by eapply (wp_r_next _ _ _ _ _ _ _ _ _ Hso Hin').
Qed.
End find.

Lemma adb_bucket_lookup t bk s group : nvadb t bk s ->
  bk !! Z.to_nat (adb_hash group) = Some (adb_bucket bk group).
Proof.
  intros [_ Hs _]. unfold adb_bucket. pose proof (adb_hash_range group).
  destruct (lookup_lt_is_Some_2 bk (Z.to_nat (adb_hash group))) as [xs ->]; [lia|done].
Qed.

Lemma wp_adb_find t bk s group (Q : Z -> obj hash_ext -> Prop) :
  nvadb t bk s -> Q (ptr (List.find (named group) (adb_bucket bk group))) s -> wp (adb_find group) Q s.
Proof.
  intros Ha HQ. pose proof Ha as [Hn Hs Hrec]. pose proof (adb_bucket_lookup _ _ _ group Ha) as Hi.
  pose proof (adb_hash_range group) as Hh. pose proof Hn as (Ht & He & bl & Hso).
  destruct (bucket_bounds _ _ _ _ _ _ _ Hso Hi) as (_ & _ & _ & Hin).
  unfold adb_find. mstep. rewrite <- (Z2Nat.id (adb_hash group)) by lia. eapply wp_bucket; [done..|].
  mstep. eapply wp_root; [done..|]. unfold fl_fuel. mstep. apply wp_getc.
  set (xs := adb_bucket bk group) in *.
  assert (length xs < S (Z.to_nat (mem_sz (core s) / 16)))%nat as Hf.
  { eapply list_fuel; [apply Hso|apply Hso|exact Hin]. }
  destruct xs as [|y l2] eqn:E; [done|]. destruct (exists_last (l := y :: l2)) as (l & x & El); [done|].
  rewrite El in Hin. destruct (rcd_bounds _ _ _ _ _ _ _ _ _ Hso Hin) as (? & ? & ? & ?).
  assert (length l2 + 1 = length (y :: l2))%nat as El2 by (cbn; lia).
  assert (last_rec (y :: l2) = fst x) as Elast by (rewrite El; apply last_rec_snoc).
  eapply (wp_find_loop t bk s group _ (y :: l2) Hn Hi
    (fun z Hz => proj1 (Hrec _ _ z Hi Hz)) l2 y []); [reflexivity|..|exact HQ].
  - lia.
  - lia.
  - intros Q' HQ'. rewrite Elast. eapply (wp_r_next _ _ _ _ _ _ _ _ _ Hso Hin). rewrite <- El. exact HQ'.
Qed.

(** Running with the lock. *)
Lemma nvadb_locked {A} l t bk (c : M (obj hash_ext) A) (Q : A -> obj hash_ext -> Prop) s
    (post : A -> Z -> list (list rcd) -> Prop) :
  l <> UnLock -> nvadb t bk s -> lock_ok (core s) -> (0 < lck_stackp (core s))%nat ->
  (forall s1, nvadb t bk s1 -> lock_ok (core s1) -> S (lck_stackp (core s1)) = lck_stackp (core s) ->
     mem_sz (core s1) = mem_sz (core s) ->
     wp c (fun a s2 => exists bk', nvadb t bk' s2 /\ same_locks (core s1) (core s2) /\ post a (mem_sz (core s2)) bk') s1) ->
  (forall a bk' s', nvadb t bk' s' -> same_locks (core s) (core s') -> post a (mem_sz (core s')) bk' -> Q a s') ->
  wp (lock_ l ;;; a <- c ;; lock_ UnLock ;;; ret a) Q s.
Proof.
  intros Hl [(Ht & He & bl & Hso) Hs Hr] Hlk Hsp Hc HQ.
  eapply (wp_locked l c _ _ _ _ Q s (fun a c2 R' => exists bk', R' = buckets t bk' /\
    Z.of_nat (length bk') = Z.of_nat (length bk) /\
    (forall i xs x, bk' !! i = Some xs -> x ∈ xs ->
       rec_ok (snd x) /\ adb_hash (gi_name (snd x)) = Z.of_nat i) /\ post a (mem_sz c2) bk')); try done.
  - intros s1 Hso1 He1 Hlk1 Hsp1 Hsz1 _.
    eapply wp_mono; [apply Hc; try done; split; [by eapply nvhash_store|done..]|].
    intros a s2 (bk' & [(_ & He2 & bl2 & Hso2) Hs2 Hr2] & Hl2 & Hp).
    assert (length bk' = length bk) as El by lia. rewrite El in He2, Hso2.
    exists bl2, (buckets t bk'). split_and!; try done. exists bk'. split_and!; try done. lia.
  - intros a bl' R' c' x Hso' Hx Hl' (c2 & (bk' & -> & Es & Hr' & Hp) & Ez & _). rewrite Ez in Hp.
    apply (HQ a bk'); [|done..]. split; [|lia|done]. assert (length bk' = length bk) as El by lia.
    split_and!; [done|by rewrite El|]. exists bl'. by rewrite El.
Qed.

(** get of a group, and the size of the file after it. *)
Lemma wp_adb_get t bk group gi s :
  nvadb t bk s -> lock_ok (core s) -> (1 <= lck_stackp (core s))%nat -> length gi = sizeof_GroupInfo ->
  wp (adb_get group gi) (fun r s' => r = (put gi 0) <$> adb_lookup bk group /\ nvadb t bk s' /\
    same_locks (core s) (core s') /\ mem_sz (core s') = mem_sz (core s)) s.
Proof.
  intros Ha Hlk Hsp Hgi. pose proof (adb_bucket_lookup _ _ _ group Ha) as Hi.
  assert (forall x, List.find (named group) (adb_bucket bk group) = Some x ->
    exists l1 l2, adb_bucket bk group = l1 ++ x :: l2 /\ rec_ok (snd x)) as Hfind.
  { intros x Hx. apply find_some in Hx as [Hx%list_elem_of_In _].
    pose proof (na_recs _ _ _ Ha _ _ _ Hi Hx) as [? _]. apply list_elem_of_split in Hx as (l1 & l2 & ->).
    by exists l1, l2. }
  assert (forall s1 x l1 l2, nvadb t bk s1 -> adb_bucket bk group = l1 ++ x :: l2 ->
    exists bl, store (core s1) bl (buckets t bk) (hkeep t) (eq (HashExt t (Z.of_nat (length bk)))) /\
      (t + 8 * Z.of_nat (Z.to_nat (adb_hash group)), l1 ++ x :: l2) ∈ buckets t bk) as Hst.
  { intros s1 x l1 l2 [(Ht & He & bl & Hso) _ _] E. exists bl. split; [done|].
    rewrite <- E. by apply (bucket_bounds _ _ _ _ _ _ _ Hso Hi). }
  unfold adb_get. apply wp_assoc.
  eapply (nvadb_locked _ t bk _ _ _ (fun r z bk' => r = (put gi 0) <$> adb_lookup bk group /\ bk' = bk /\ z = mem_sz (core s)));
    try done; [|by intros a bk' s' ? ? (-> & -> & ->)].
  intros s1 Ha1 Hlk1 _ Hsz1. mstep. eapply wp_adb_find; [exact Ha1|]. unfold adb_lookup.
  destruct (List.find _ _) as [x|] eqn:Ex; cbn [ptr].
  - destruct (Hfind x eq_refl) as (l1 & l2 & E & [Hr1 Hr2]). destruct (Hst s1 _ _ _ Ha1 E) as (bl & Hso & Hin).
    destruct (rcd_bounds _ _ _ _ _ _ _ _ _ Hso Hin) as (? & ? & ? & ?).
    assert ((fst x =? 0) = false) as -> by (apply Z.eqb_neq; lia). mstep.
    eapply wp_r_szdata; [exact Hso|exact Hin|]. mstep. unfold w32.
    rewrite Z.mod_small by (layout; lia). eapply (wp_r_data _ _ _ _ _ _ _ _ _ Hso Hin).
    unfold setraw. destruct (Nat.ltb_spec sizeof_GroupInfo (length (snd x))); [lia|].
    repeat mstep. exists bk. by split_and!.
  - cbn [Z.eqb]. mstep. exists bk. by split_and!.
Qed.

(** Get finds the record of a group by its name, and only then: it fills the
    description with its bytes, hasgroup answers whether there is one; the file
    and the locks are left as they were. *)
Theorem adb_get_spec t bk group gi s :
  nvadb t bk s -> lock_ok (core s) -> (1 <= lck_stackp (core s))%nat -> length gi = sizeof_GroupInfo ->
  wp (adb_get group gi)
    (fun r s' => r = (put gi 0) <$> adb_lookup bk group /\ nvadb t bk s' /\ same_locks (core s) (core s')) s /\
  wp (adb_hasgroup group)
    (fun r s' => r = bool_decide (is_Some (adb_lookup bk group)) /\ nvadb t bk s' /\
       same_locks (core s) (core s')) s.
Proof.
  intros Ha Hlk Hsp Hgi. pose proof (adb_bucket_lookup _ _ _ group Ha) as Hi.
  assert (forall x, List.find (named group) (adb_bucket bk group) = Some x ->
    exists l1 l2, adb_bucket bk group = l1 ++ x :: l2 /\ rec_ok (snd x)) as Hfind.
  { intros x Hx. apply find_some in Hx as [Hx%list_elem_of_In _].
    pose proof (na_recs _ _ _ Ha _ _ _ Hi Hx) as [? _]. apply list_elem_of_split in Hx as (l1 & l2 & ->).
    by exists l1, l2. }
  assert (forall s1 x l1 l2, nvadb t bk s1 -> adb_bucket bk group = l1 ++ x :: l2 ->
    exists bl, store (core s1) bl (buckets t bk) (hkeep t) (eq (HashExt t (Z.of_nat (length bk)))) /\
      (t + 8 * Z.of_nat (Z.to_nat (adb_hash group)), l1 ++ x :: l2) ∈ buckets t bk) as Hst.
  { intros s1 x l1 l2 [(Ht & He & bl & Hso) _ _] E. exists bl. split; [done|].
    rewrite <- E. by apply (bucket_bounds _ _ _ _ _ _ _ Hso Hi). }
  split.
  - eapply wp_mono; [by apply wp_adb_get|]. by intros r s' (? & ? & ? & _).
  - unfold adb_hasgroup.
    apply (wp_assoc (lock_ ShrdLock) (adb_find group) (fun r => ret (negb (r =? 0)))
      (fun b => lock_ UnLock ;;; ret b)).
    eapply (nvadb_locked _ t bk _ _ _ (fun r _ bk' => r = bool_decide (is_Some (adb_lookup bk group)) /\ bk' = bk));
      try done; [|by intros a bk' s' ? ? [-> ->]].
    intros s1 Ha1 Hlk1 _ _. mstep. eapply wp_adb_find; [exact Ha1|]. unfold adb_lookup. mstep.
    exists bk. split_and!; try done. destruct (List.find _ _) as [x|] eqn:Ex; cbn [ptr fmap option_fmap option_map].
    + destruct (Hfind x eq_refl) as (l1 & l2 & E & _). destruct (Hst s1 _ _ _ Ha1 E) as (bl & Hso & Hin).
      destruct (rcd_bounds _ _ _ _ _ _ _ _ _ Hso Hin) as (? & ? & ? & ?).
      rewrite bool_decide_eq_true_2 by (by eexists). apply negb_true_iff, Z.eqb_neq. lia.
    + rewrite bool_decide_eq_false_2; [done|]. by intros [? ?].
Qed.
(** *** set *)

(** What sset makes of the description it is given. *)
Definition adb_entry (bk : list (list rcd)) (flags : Z) (gi : GroupInfo) : GroupInfo :=
  match adb_lookup bk (gi_name gi) with
  | Some d => setctime (gi_ctime d) gi
  | None => if Z.land flags update_only =? 0 then setctime os_time gi else gi
  end.

(** The table after set as a map: [gi] is stored under its name, unless it is new
    and only an update was asked for. *)
Definition adb_updated (bk bk' : list (list rcd)) (flags : Z) (gi : GroupInfo) : Prop :=
  forall g, adb_lookup bk' g =
    if decide (g = gi_name gi) then
      match adb_lookup bk g with
      | None => if Z.land flags update_only =? 0 then Some (getraw (adb_entry bk flags gi)) else None
      | Some _ => Some (getraw (adb_entry bk flags gi))
      end
    else adb_lookup bk g.

Lemma find_app f (l1 l2 : list rcd) :
  List.find f (l1 ++ l2) = match List.find f l1 with Some x => Some x | None => List.find f l2 end.
Proof. induction l1 as [|x l1 IH]; cbn; [done|]. by destruct (f x). Qed.

Lemma find_first f (l : list rcd) x : List.find f l = Some x ->
  exists l1 l2, l = l1 ++ x :: l2 /\ List.find f l1 = None /\ f x = true.
Proof.
  induction l as [|y l IH]; cbn; [done|]. destruct (f y) eqn:E.
  - intros [= ->]. by exists [], l.
  - intros (l1 & l2 & -> & H1 & H2)%IH. exists (y :: l1), l2. cbn. by rewrite E.
Qed.

Lemma setctime_ok v gi : gi_ok gi -> gi_ok (setctime v gi) /\ gi_name (setctime v gi) = gi_name gi.
Proof.
  intros [Hl Hn]. unfold setctime, set_u64, gi_ok.
  rewrite name_put by (rewrite ?length_le_bytes, ?Hl; unfold off_ctime, off_name, sizeof_GroupInfo; lia).
  rewrite length_put; [done|]. rewrite length_le_bytes, Hl. unfold off_ctime, sizeof_GroupInfo. lia.
Qed.

Lemma adb_entry_ok bk flags gi : gi_ok gi ->
  gi_ok (adb_entry bk flags gi) /\ gi_name (adb_entry bk flags gi) = gi_name gi.
Proof.
  intros Hg. unfold adb_entry. destruct (adb_lookup _ _); [by apply setctime_ok|].
  destruct (_ =? 0); [by apply setctime_ok|done].
Qed.

Lemma adb_bucket_insert bk t s name xs g : nvadb t bk s ->
  adb_bucket (<[Z.to_nat (adb_hash name) := xs]> bk) g =
    if decide (Z.to_nat (adb_hash g) = Z.to_nat (adb_hash name)) then xs else adb_bucket bk g.
Proof.
  intros Ha. pose proof (na_size _ _ _ Ha) as Hs. pose proof (adb_hash_range name).
  unfold adb_bucket. destruct (decide _) as [->|Hne].
  - by rewrite list_lookup_insert_eq by lia.
  - by rewrite list_lookup_insert_ne by done.
Qed.

(** A table whose bucket of [name] got another list of records. *)
Lemma nvadb_insert t bk s name xs s' :
  nvadb t bk s -> nvhash t (<[Z.to_nat (adb_hash name) := xs]> bk) s' ->
  (forall x, x ∈ xs -> x ∈ adb_bucket bk name \/ (rec_ok (snd x) /\ gi_name (snd x) = name)) ->
  nvadb t (<[Z.to_nat (adb_hash name) := xs]> bk) s'.
Proof.
  intros Ha Hn Hx. pose proof (adb_hash_range name). split; [done|by rewrite length_insert; apply Ha|].
  intros i ys x Hi Hin. destruct (decide (i = Z.to_nat (adb_hash name))) as [->|Hne].
  - rewrite list_lookup_insert_eq in Hi by (pose proof (na_size _ _ _ Ha); lia). injection Hi as <-.
    destruct (Hx x Hin) as [Hold|[? ->]]; [|split; [done|lia]].
    eapply (na_recs _ _ _ Ha); [by eapply adb_bucket_lookup|done].
  - rewrite list_lookup_insert_ne in Hi by done. by eapply (na_recs _ _ _ Ha).
Qed.

(** The map after a record of the group was replaced, or added to its bucket. *)
Lemma adb_updated_replace t bk s flags gi l1 o d l2 : nvadb t bk s -> gi_ok gi ->
  adb_bucket bk (gi_name gi) = l1 ++ (o, d) :: l2 -> List.find (named (gi_name gi)) l1 = None -> gi_name d = gi_name gi ->
  adb_updated bk (<[Z.to_nat (adb_hash (gi_name gi)) := l1 ++ (o, getraw (adb_entry bk flags gi)) :: l2]> bk) flags gi.
Proof.
  intros Ha Hg E H1 Hd g. destruct (adb_entry_ok bk flags gi Hg) as [Hge Hne]. destruct (getraw_name _ Hge) as [En _].
  unfold adb_lookup at 1. erewrite adb_bucket_insert by exact Ha.
  assert (forall g', named g' (o, getraw (adb_entry bk flags gi)) = named g' (o, d)) as Enm.
  { intros g'. unfold named. cbn [snd]. by rewrite En, Hne, Hd. }
  case_decide as Eg; [|case_decide; [by subst|done]].
  assert (adb_bucket bk g = adb_bucket bk (gi_name gi)) as Eb by (unfold adb_bucket; by rewrite Eg).
  unfold adb_lookup. rewrite Eb, E. rewrite !find_app. cbn [List.find]. rewrite Enm.
  assert (named g (o, d) = bool_decide (gi_name gi = g)) as -> by (unfold named; cbn [snd]; by rewrite Hd).
  case_decide as Hgn.
  - subst g. by rewrite H1, bool_decide_eq_true_2 by done.
  - rewrite bool_decide_eq_false_2 by congruence. by destruct (List.find (named g) l1).
Qed.
Lemma adb_updated_add t bk s flags gi nr : nvadb t bk s -> gi_ok gi -> (Z.land flags update_only =? 0) = true ->
  adb_lookup bk (gi_name gi) = None ->
  adb_updated bk (<[Z.to_nat (adb_hash (gi_name gi)) := (nr, getraw (adb_entry bk flags gi)) :: adb_bucket bk (gi_name gi)]> bk) flags gi.
Proof.
  intros Ha Hg Ef Enone g. destruct (adb_entry_ok bk flags gi Hg) as [Hge Hne]. destruct (getraw_name _ Hge) as [En _].
  unfold adb_lookup at 1. erewrite adb_bucket_insert by exact Ha. rewrite Ef.
  case_decide as Eg; [|case_decide; [by subst|done]].
  assert (adb_bucket bk g = adb_bucket bk (gi_name gi)) as Eb by (unfold adb_bucket; by rewrite Eg).
  cbn [List.find]. unfold named at 1. cbn [snd]. rewrite En, Hne. case_decide as Hgn.
  - subst g. rewrite bool_decide_eq_true_2 by done. by rewrite Enone.
  - rewrite bool_decide_eq_false_2 by congruence. unfold adb_lookup. by rewrite Eb.
Qed.

Lemma wp_adb_sset t bk gi flags s (Q : GroupInfo -> obj hash_ext -> Prop) :
  nvadb t bk s -> lock_ok (core s) -> (3 <= lck_stackp (core s))%nat -> gi_ok gi ->
  mem_sz (core s) + 2 ^ 20 <= limit ->
  (forall bk' s', nvadb t bk' s' -> same_locks (core s) (core s') ->
     mem_sz (core s') <= mem_sz (core s) + 2 ^ 19 -> adb_updated bk bk' flags gi ->
     Q (adb_entry bk flags gi) s') ->
  wp (adb_sset gi flags) Q s.
Proof.
  intros Ha Hlk Hsp Hg Hlim HQ. pose proof Ha as [Hn Hs Hrec].
  pose proof (adb_bucket_lookup _ _ _ (gi_name gi) Ha) as Hi. pose proof (adb_hash_range (gi_name gi)) as Hh.
  destruct (adb_entry_ok bk flags gi Hg) as [Hge Hne]. destruct (getraw_name _ Hge) as [En El].
  pose proof (rec_ok_getraw _ Hge) as Hrg.
  unfold adb_sset. mstep. eapply wp_adb_find; [exact Ha|].
  destruct (List.find _ _) as [[o d]|] eqn:Ex; cbn [ptr fst].
  - pose proof Ex as Ex'. apply find_first in Ex as (l1 & l2 & E & H1 & Hd). rewrite E in Hi.
    destruct (Hrec _ _ (o, d) Hi ltac:(apply elem_of_app; right; by left)) as [Hro _]. cbn [snd] in Hro.
    unfold named in Hd. apply bool_decide_eq_true in Hd. cbn [snd] in Hd.
    assert (adb_entry bk flags gi = setctime (gi_ctime d) gi) as Ee by (unfold adb_entry, adb_lookup; by rewrite Ex').
    pose proof Hn as (Ht & He & bl & Hso). destruct (bucket_bounds _ _ _ _ _ _ _ Hso Hi) as (_ & _ & _ & Hin).
    destruct (rcd_bounds _ _ _ _ _ _ _ _ _ Hso Hin) as (? & ? & ? & ?). cbn [fst snd] in *.
    assert ((o =? 0) = false) as -> by (apply Z.eqb_neq; lia). cbn [negb]. mstep.
    eapply (wp_ld_rec _ _ _ _ _ _ _ (o, d)); [exact Hso|exact Hin|destruct Hro; cbn [snd]; unfold off_ctime, off_name in *; lia|].
    change (le_val (take 8 (drop off_ctime (snd (o, d))))) with (gi_ctime d). rewrite <- Ee.
    mstep. eapply (wp_r_szdata _ _ _ _ _ _ _ _ (o, d) Hso Hin). cbn [snd].
    assert (length (getraw (adb_entry bk flags gi)) = length d) as Elen.
    { rewrite El, Hne, <- Hd. by destruct Hro as [-> _]. }
    rewrite Elen, Z.eqb_refl. cbn [negb]. mstep.
    destruct (buckets_mid t _ _ _ Hi) as (R1 & R2 & EB & EB'). rewrite EB in Hso.
    eapply wp_overwrite; [exact Hso|done|]. intros c' Hso' Hl Hsz. mstep.
    set (xs' := l1 ++ (o, getraw (adb_entry bk flags gi)) :: l2) in *.
    apply (HQ (<[Z.to_nat (adb_hash (gi_name gi)) := xs']> bk)); [|done|cbn [core]; lia|].
    + eapply nvadb_insert; [exact Ha| |].
      * split_and!; [done|by rewrite length_insert|]. exists bl. by rewrite length_insert, EB'.
      * intros x [Hx|[->|Hx]%elem_of_cons]%elem_of_app; cbn [snd].
        -- left. rewrite E. apply elem_of_app. by left.
        -- right. split; [done|congruence].
        -- left. rewrite E. apply elem_of_app. right. by right.
    + by eapply adb_updated_replace.
  - cbn [Z.eqb negb]. assert (adb_lookup bk (gi_name gi) = None) as Enone by (unfold adb_lookup; by rewrite Ex).
    destruct (Z.land flags update_only =? 0) eqn:Ef; cbn [negb].
    + assert (adb_entry bk flags gi = setctime os_time gi) as Ee by (unfold adb_entry; by rewrite Enone, Ef).
      rewrite <- Ee, Hne. mstep. rewrite <- (Z2Nat.id (adb_hash (gi_name gi))) by lia.
      eapply wp_hash_add; try done.
      { destruct Hrg as [_ Hle]. unfold sizeof_GroupInfo in Hle. lia. }
      intros nr s' Hn' Hl Hsz. mstep. apply (HQ (<[Z.to_nat (adb_hash (gi_name gi)) := (nr, getraw (adb_entry bk flags gi)) :: adb_bucket bk (gi_name gi)]> bk)).
      * eapply nvadb_insert; [exact Ha|exact Hn'|]. intros x [->|Hx]%elem_of_cons; [right|by left].
        cbn [snd]. split; [done|congruence].
      * done.
      * destruct Hrg as [_ Hle]. unfold sizeof_GroupInfo in Hle. layout. lia.
      * by eapply adb_updated_add.
    + mstep. assert (adb_entry bk flags gi = gi) as Ee by (unfold adb_entry; by rewrite Enone, Ef).
      rewrite <- Ee at 1. apply (HQ bk); [done|by split|lia|]. intros g. case_decide as Hgn; [|done].
      subst g. by rewrite Enone, Ef.
Qed.

(** set, and the size of the file after it. *)
Lemma wp_adb_set t bk gi flags s :
  nvadb t bk s -> lock_ok (core s) -> (4 <= lck_stackp (core s))%nat -> gi_ok gi ->
  mem_sz (core s) + 2 ^ 20 <= limit ->
  wp (adb_set gi flags)
    (fun gi' s' => gi' = adb_entry bk flags gi /\ mem_sz (core s') <= mem_sz (core s) + 2 ^ 19 /\
       exists bk', nvadb t bk' s' /\ same_locks (core s) (core s') /\ adb_updated bk bk' flags gi) s.
Proof.
  intros Ha Hlk Hsp Hg Hlim. unfold adb_set.
  eapply (nvadb_locked _ t bk _ _ _ (fun r z bk' => r = adb_entry bk flags gi /\
    z <= mem_sz (core s) + 2 ^ 19 /\ adb_updated bk bk' flags gi)); try done; [lia|..].
  - intros s1 Ha1 Hlk1 Hsp1 Hsz1. eapply wp_adb_sset; try done; [lia|lia|].
    intros bk' s' ? ? ? ?. exists bk'. by split_and!; try lia.
  - intros a bk' s' ? ? (-> & ? & ?). split_and!; try done. by exists bk'.
Qed.

(** C34: set stores the description under its name and leaves every other group
    alone; the time of creation of a known group is kept, a new group gets the
    time of the call, and with [update_only] an unknown group is not added. *)
Theorem adb_set_spec t bk gi flags s :
  nvadb t bk s -> lock_ok (core s) -> (4 <= lck_stackp (core s))%nat -> gi_ok gi ->
  mem_sz (core s) + 2 ^ 20 <= limit ->
  wp (adb_set gi flags)
    (fun gi' s' => gi' = adb_entry bk flags gi /\
       exists bk', nvadb t bk' s' /\ same_locks (core s) (core s') /\ adb_updated bk bk' flags gi) s.
Proof.
  intros. eapply wp_mono; [by apply wp_adb_set|]. intros a s' (? & _ & ?). by split.
Qed.

(** *** write *)

(** The text write makes of the records [ds]. *)
Definition adb_text (ctime : Z) (mode : write_mode) (filter : option bytes) (ds : list bytes) : bytes :=
  concat (adb_line mode <$> List.filter (adb_wanted ctime filter) ds).

Lemma put_raw_fields d gd : rec_ok d -> length gd = sizeof_GroupInfo ->
  gi_name (put gd 0 d) = gi_name d /\ gi_ctime (put gd 0 d) = gi_ctime d /\
  gi_first (put gd 0 d) = gi_first d /\ gi_last (put gd 0 d) = gi_last d /\
  gi_flags (put gd 0 d) = gi_flags d.
Proof.
  intros Hd Hg. pose proof Hd as [Hl _].
  assert (forall off n, (off + n <= off_name)%nat -> sub (put gd 0 d) off n = sub d off n) as Hs.
  { intros off n Ho. apply put_raw_sub; [done|done|lia]. }
  split_and!; [by apply put_raw_name| | | |].
  - unfold gi_ctime. by rewrite Hs by (unfold off_ctime, off_name; lia).
  - unfold gi_first. by rewrite Hs by (unfold off_fst, off_name; lia).
  - unfold gi_last. by rewrite Hs by (unfold off_lst, off_name; lia).
  - unfold gi_flags. by rewrite !at_sub, Hs by (unfold off_flag, off_name; lia).
Qed.

Lemma adb_line_raw mode ctime filter d gd : rec_ok d -> length gd = sizeof_GroupInfo ->
  adb_line mode (put gd 0 d) = adb_line mode d /\
  adb_wanted ctime filter (put gd 0 d) = adb_wanted ctime filter d.
Proof.
  intros Hd Hg. destruct (put_raw_fields d gd Hd Hg) as (En & Ec & Ef & El & Efl).
  unfold adb_line, adb_wanted, gi_print. by rewrite En, Ec, Ef, El, Efl.
Qed.

(** Reading leaves the state alone. *)
Lemma ldw_pure {X} a v (s s' : obj X) : ldw a s = Ret v s' -> s' = s.
Proof.
  unfold ldw, bind, getc, gets, guard. destruct (in_map _ _ _); [|done]. by intros [= _ <-].
Qed.
Lemma r_next_pure {X} a v (s s' : obj X) : r_next a s = Ret v s' -> s' = s.
Proof. unfold r_next, deref, bind, guard. destruct (negb _); [|done]. apply ldw_pure. Qed.
Lemma bucket_pure i s v s' : bucket i s = Ret v s' -> s' = s.
Proof. unfold bucket, bind, gete, gets, guard. destruct (negb _); [|done]. by intros [= _ <-]. Qed.

Lemma hi_seek_on n : forall it s it' s', hi_seek n it s = Ret it' s' -> hi_on it' = hi_on it /\ s' = s.
Proof.
  induction n as [|n IH]; intros it s it' s'; cbn [hi_seek]; [by intros [= <- <-]|].
  unfold bind. destruct (bucket _ s) as [b s1| | |] eqn:E1; try done. apply bucket_pure in E1 as ->.
  destruct (ldw b s) as [v s2| | |] eqn:E2; try done. apply ldw_pure in E2 as ->. destruct (negb (v =? 0)).
  - destruct (r_next v s) as [p s3| | |] eqn:E3; try done. apply r_next_pure in E3 as ->. by intros [= <- <-].
  - intros H. by apply IH in H.
Qed.

Lemma hi_next_on it s it' s' : hi_next it s = Ret it' s' -> hi_on it' = hi_on it.
Proof.
  unfold hi_next. destruct (hi_pos it =? 0); [by intros [= <- _]|].
  destruct (hi_pos it =? hi_curtail it); unfold hi_seek_from, bind, ret.
  - destruct (gete hashsz s) as [n s1| | |]; try done. by intros [H _]%hi_seek_on.
  - destruct (r_next (hi_pos it) s) as [p s1| | |]; try done. by intros [= <- _].
Qed.

(** The loop of write prints what the iterator enumerates. *)
Lemma write_loop_collect ctime mode filter : forall fuel it s ds s' gd out,
  hi_collect fuel it s = Ret ds s' -> Forall rec_ok ds -> length gd = sizeof_GroupInfo ->
  exists it', hi_on it' = hi_on it /\
    adb_write_loop fuel (fun _ => true) ctime mode filter gd it out s =
      Ret (out ++ adb_text ctime mode filter ds, it') s'.
Proof.
  induction fuel as [|fuel IH]; intros it s ds s' gd out H Hds Hg; [done|].
  cbn [hi_collect adb_write_loop] in *. destruct (hi_valid it); cbn [negb].
  - unfold bind in *. destruct (hi_data it s) as [d s1| | |]; try done.
    destruct (hi_next it s1) as [it1 s2| | |] eqn:En; try done.
    destruct (hi_collect fuel it1 s2) as [rest s3| | |] eqn:Er; try done.
    injection H as <- <-. apply Forall_cons in Hds as [Hd Hds].
    destruct (adb_line_raw mode ctime filter d gd Hd Hg) as [El Ew].
    unfold setraw. destruct Hd as [_ Hdl]. destruct (Nat.ltb_spec sizeof_GroupInfo (length d)); [lia|].
    unfold ret at 1. cbn beta iota. rewrite Ew, El.
    assert (length (put gd 0 d) = sizeof_GroupInfo) as Hg' by (rewrite length_put; [done|lia]).
    destruct (IH it1 s2 rest s3 (put gd 0 d)
      (if adb_wanted ctime filter d then out ++ adb_line mode d else out) Er Hds Hg') as (it' & Hon & E).
    exists it'. split; [rewrite Hon; by eapply hi_next_on|].
    unfold adb_text in *. cbn [List.filter]. destruct (adb_wanted ctime filter d); cbn [ret fmap list_fmap concat].
    + rewrite En, E. by rewrite <- app_assoc.
    + by rewrite En, E.
  - injection H as <- <-. exists it. split; [done|]. unfold adb_text. cbn. by rewrite app_nil_r.
Qed.

Lemma name_nil g : sub g off_name 1 = [NUL] -> gi_name g = [].
Proof.
  intros H. unfold gi_name, sub in *. rewrite <- (take_drop 1 (drop off_name g)), H. done.
Qed.

Lemma gi_init_ok gd : length gd = sizeof_GroupInfo -> gi_ok (gi_init gd).
Proof.
  intros Hl. unfold gi_init. set (g0 := set_u64 off_mtime 0 (set_u64 off_ctime 0 gd)).
  assert (length g0 = sizeof_GroupInfo) as H0 by (unfold g0; rewrite !length_set_u64; gi_len).
  assert (length (put g0 off_name [NUL]) = sizeof_GroupInfo) as H1 by (rewrite length_put; gi_len).
  assert (length (put (put g0 off_name [NUL]) (off_name + 511) [NUL]) = sizeof_GroupInfo) as H2
    by (rewrite length_put; gi_len).
  split; [rewrite length_put; gi_len|]. rewrite name_nil; [cbn; lia|].
  rewrite sub_put_other by (cbn [length]; gi_off; lia).
  rewrite sub_put_other by (cbn [length]; gi_off; lia).
  change 1%nat with (length [NUL]). apply sub_put_same. cbn [length]. gi_off. lia.
Qed.

Lemma all_recs_buckets (f : nat -> Z) (bk : list (list rcd)) :
  all_recs (imap (fun i xs => (f i, xs)) bk) = concat bk.
Proof.
  revert f. induction bk as [|xs bk IH]; intros f; [done|]. unfold all_recs in *. cbn. f_equal.
  apply (IH (f ∘ S)).
Qed.

(** Write prints, bucket by bucket, one line for each group of the database
    that the filter accepts and that is younger than [ctime], ends, and gives its
    lock back. *)
Theorem adb_write_spec t bk ctime mode filter j1 j2 gd s :
  nvadb t bk s -> lock_ok (core s) -> (1 <= lck_stackp (core s))%nat -> length gd = sizeof_GroupInfo ->
  wp (adb_write (fun _ => true) ctime mode filter j1 j2 gd)
    (fun out s' => out = adb_text ctime mode filter (snd <$> concat bk) /\ nvadb t bk s' /\
       same_locks (core s) (core s')) s.
Proof.
  intros [(Ht & He & bl & Hso) Hs Hrec] Hlk Hsp Hg.
  assert (Forall rec_ok (snd <$> concat bk)) as Hall.
  { apply Forall_forall. intros d ([o d'] & -> & Hin)%list_elem_of_fmap.
    apply list_elem_of_In, in_concat in Hin as (xs & Hin%list_elem_of_In & Hx%list_elem_of_In).
    apply list_elem_of_lookup in Hin as [i Hi]. by apply (Hrec _ _ _ Hi Hx). }
  unfold adb_write, hi_new. do 2 mstep. eapply wp_lock_store; try done.
  intros c1 x Hc1 Hso1 Hx Hlk1. do 2 mstep.
  assert (nvhash t bk (Obj c1 x)) as Hn1 by (split_and!; [done|done|by exists bl]).
  set (s1 := Obj c1 x) in *.
  assert (wp (it <- hi_first (HashIter true 0 j1 j2) ;; hi_collect (S (Z.to_nat (mem_sz c1 / 16))) it)
    (fun ds s' => ds = snd <$> concat bk /\ s' = s1) s1) as Hc.
  { unfold hi_first, hi_seek_from. mstep. mstep. apply wp_gets. cbn [ext s1 hi_hashval]. rewrite <- Hx at 1.
    cbn [hashsz]. replace (Z.to_nat (Z.of_nat (length bk) - 0)) with (length bk - 0)%nat by lia.
    apply wp_unbind. apply (continues_all t bk s1 Hn1 (length bk) 0 ltac:(lia)); [done|done| |done].
    rewrite drop_0. rewrite <- (all_recs_buckets (fun i => t + 8 * Z.of_nat i) bk).
    change (imap _ bk) with (buckets t bk). destruct Hso1 as [Hh1 HL1 _ _ _].
    pose proof (hm_tiles _ _ _ (hp_mem _ _ Hh1)) as Ht1. pose proof (recs_length _ _ _ _ _ HL1 Ht1).
    pose proof (tiles_length _ _ _ Ht1).
    assert (Z.of_nat (length (all_recs (buckets t bk))) <= mem_sz c1 / 16); [|lia].
    apply Z.div_le_lower_bound; layout; lia. }
  apply wp_unbind in Hc. apply wp_inv in Hc as (it & s2 & Eit & Hc). apply wp_inv in Hc as (ds & s3 & Eds & -> & ->).
  assert (hi_on it = true /\ s2 = s1) as [Hon ->].
  { pose proof Eit as E. unfold hi_first, hi_seek_from, bind, gete, gets in E. by apply hi_seek_on in E. }
  destruct (write_loop_collect ctime mode filter _ _ _ _ _ (gi_init gd) [] Eds Hall) as (it' & Hon' & Ew).
  { by apply gi_init_ok. }
  eapply wp_of_eq.
  { unfold catch, bind, fl_fuel, getc, gets. rewrite Eit. cbn [core s1]. by rewrite Ew. }
  mstep. unfold hi_detach. cbn [snd fst]. rewrite Hon', Hon. mstep.
  assert (same_locks (core s) (pop_lock c1)) as Hpop.
  { eapply (same_locks_pop (effective ShrdLock (core s))); [done|lia|]. by rewrite Hc1. }
  eapply (wp_unlock_store bl); [exact Hso1|done| |done|].
  { subst c1. cbn [core s1 push_lock set_held set_stack lck_stackp]. destruct Hlk. lia. }
  intros y Hso2 Hy. repeat mstep. split_and!; [done| |done].
  split; [|done..]. split_and!; [done|done|by exists bl].
Qed.
(** *** read *)
Lemma store_mtime t bk c bl v :
  store c bl (buckets t bk) (hkeep t) (eq (HashExt t (Z.of_nat (length bk)))) -> 0 < t ->
  store (set_data (st64 (data c) h_mtime v) c) bl (buckets t bk) (hkeep t) (eq (HashExt t (Z.of_nat (length bk)))).
Proof.
  intros [Hh HL Hg Hst Hu] Ht. pose proof Hh as [Hcur Hlim Hpg Hm].
  pose proof (hm_tiles _ _ _ Hm) as Htl. set (m' := st64 (data c) h_mtime v).
  assert (forall b, 24 <= b -> ld64 m' b = ld64 (data c) b) as Hhi.
  { intros b Hb. unfold m'. layout. rewrite ld64_st64_ne; [done|lia]. }
  assert (hmem m' (mem_sz c) bl) as Hm'.
  { destruct Hm as [H1 H2 H3 H4 H5 H6 H7 H8 H9]. split; try done.
    - unfold m'. layout. rewrite ld64_st64_ne; [done|lia].
    - unfold m'. layout. rewrite ld32_st64_ne; [done|lia].
    - unfold m'. layout. rewrite ld32_st64_ne; [done|lia].
    - intros b Hb Hl. rewrite Hhi; [by apply H5|]. destruct (tiles_in _ _ _ _ H4 Hb). layout. lia.
    - eapply circ_frame; [exact H6|]. intros b [_ Hb]%elem_of_frees.
      destruct (tiles_in _ _ _ _ H4 Hb). unfold m'. layout. rframe.
    - destruct H7 as (bl0 & b & E & Hb & Hf). exists bl0, b. split_and!; [done|done|]. rewrite Hhi; [done|layout; lia].
    - rewrite Hhi; [done|layout; lia]. }
  assert (heap (set_data m' c) bl) as Hh' by (by apply heap_data).
  split; [done| |done| |].
  - destruct HL as [H1 H2 H3 H4 H5 H6]. split; try done. intros p xs Hp.
    eapply list_at_frame; [by apply H1| |].
    + apply Hhi. destruct (H4 p) as [->|(b & Hb & _ & ? & _)]; [apply list_elem_of_fmap; by exists (p, xs)|layout; lia|].
      destruct (tiles_in _ _ _ _ Htl Hb). layout. lia.
    + intros x Hx. destruct (H2 x) as (b & Hb & _ & Ho & _); [apply elem_of_all_recs; eauto|].
      destruct (tiles_in _ _ _ _ Htl Hb). unfold m'. layout. rframe.
  - clearbody m'. intros c' Hk. destruct (Hst c) as [Hr Hf]; [apply kept_refl, Hcur|].
    destruct (Hg (Blk (t - 8) 8 true)) as [(b & Hb & _ & ? & _) _]; [by left|].
    destruct (tiles_in _ _ _ _ Htl Hb) as (? & _).
    pose proof (kp_userdata _ _ _ Hk) as E.
    pose proof (kp_live _ _ _ Hk (Blk (t - 8) 8 true) ltac:(by left) eq_refl) as Es.
    pose proof (kp_sz _ _ _ Hk) as Esz. unfold b_end in Es. cbn [b_off b_sz] in *. layout.
    replace (t - 8 + 8) with (t - 8 + 8) in Es by lia. apply ld64_same in Es.
    unfold vt_ready, vt_fresh in *. cbn -[Z.add hdr ld64] in *. unfold hdr in *.
    change (data (set_data m' c)) with m' in *. layout. rewrite Hhi in E by lia. rewrite Hhi in Es by lia.
    rewrite E. destruct (Z.eqb_spec (ld64 (data c) 40) 0) as [E0|E0]; [injection Hf; intros; lia|].
    injection Hf as Hf1 Hf2. assert (ld64 (data c) 40 = t - 8) as Eu by lia. rewrite Eu in *.
    split; [right; lia|]. f_equal; [lia|]. congruence.
  - intros Hq. by apply Hu.
Qed.

(** The fields a printed line carries, as a function of the name. *)
Definition gi_fields (d : bytes) : Z * Z * ascii := (gi_first d, gi_last d, gi_flags d).
Definition adb_view (bk : list (list rcd)) (g : bytes) : option (Z * Z * ascii) := gi_fields <$> adb_lookup bk g.

(** A record whose printed line can be read back. *)
Definition printable (d : bytes) : Prop :=
  (length (gi_name d) < 512)%nat /\ Forall (fun c => isspace c = false) (gi_name d) /\
  isspace (gi_flags d) = false /\ gi_flags d <> NUL.

(** What reading the lines of [ds] makes of the database [v]. *)
Definition listed (filter : option bytes) (flags : Z) (v : bytes -> option (Z * Z * ascii)) (ds : list bytes)
    : bytes -> option (Z * Z * ascii) :=
  fold_left (fun v d g =>
    if match filter with None => true | Some f => 0 <? matchgroup f (gi_print d) end
       && bool_decide (g = gi_name d)
    then Some (gi_first d, gi_last d,
               if negb (Z.land flags F_STORE_READONLY =? 0) then "n"%char else gi_flags d)
    else v g) ds v.

Definition list_text (ds : list bytes) : bytes := concat (adb_line m_active <$> ds).

Lemma getraw_fields g : gi_ok g -> gi_fields (getraw g) = gi_fields g.
Proof.
  intros Hg. pose proof (gi_name_len g Hg).
  assert (forall off n, (off + n <= off_name)%nat -> sub (getraw g) off n = sub g off n) as Hs.
  { intros off n Hn. unfold sub, getraw. rewrite skipn_firstn_comm, take_take. f_equal. lia. }
  unfold gi_fields, gi_first, gi_last, gi_flags. rewrite !at_sub. rewrite !Hs; [done|gi_off; lia..].
Qed.

Lemma setctime_fields v g : gi_ok g -> gi_fields (setctime v g) = gi_fields g.
Proof.
  intros [Hl _]. unfold gi_fields, gi_first, gi_last, gi_flags, setctime. rewrite !at_sub.
  by repeat (gi_get).
Qed.

Lemma setflag_ok c g : gi_ok g -> gi_ok (setflag c g) /\ gi_name (setflag c g) = gi_name g /\
  gi_fields (setflag c g) = (gi_first g, gi_last g, c).
Proof.
  intros [Hl Hn]. unfold setflag.
  assert (gi_name (put g off_flag [c]) = gi_name g) as En by (apply name_put; gi_off; cbn [length]; lia).
  split_and!; [split; [rewrite length_put; gi_len|by rewrite En]|done|].
  unfold gi_fields, gi_first, gi_last, gi_flags. rewrite !at_sub.
  rewrite !(sub_put_other g off_flag [c]) by (cbn [length]; gi_off; lia).
  pose proof (sub_put_same g off_flag [c]) as E. cbn [length] in E. rewrite E; [done|gi_off; lia].
Qed.

Lemma printed_line d : printable d ->
  (LF ∉ gi_print d ++ [CR]) /\ stripped (gi_print d ++ [CR]) (gi_print d) /\ gi_print d <> bs "." /\
  cstr (gi_print d) = gi_print d.
Proof.
  intros (Hn & Hsp & Hf & Hf0).
  assert (forall c, c ∈ gi_print d -> c <> LF /\ c <> NUL) as Hc.
  { assert (forall z c, c ∈ dec z -> 0 <= z -> c <> LF /\ c <> NUL) as Hd.
    { intros z c Hc Hz. destruct (dec_spec z Hz) as (_ & Hd & _). rewrite Forall_forall in Hd.
      specialize (Hd c Hc). split; by intros ->. }
    assert (0 <= gi_first d /\ 0 <= gi_last d) as [? ?].
    { unfold gi_first, gi_last. split; apply le_val_range. }
    intros c. unfold gi_print. rewrite !elem_of_app.
    intros [Hc|[Hc|[Hc|[Hc|[Hc|[Hc|Hc]]]]]]; try (apply list_elem_of_singleton in Hc; subst c).
    - rewrite Forall_forall in Hsp. specialize (Hsp c Hc). split; [by intros ->|]. intros ->.
      by eapply NUL_notin_cstr.
    - done.
    - by eapply Hd.
    - done.
    - by eapply Hd.
    - done.
    - split; [by intros E; rewrite E in Hf|done]. }
  split_and!.
  - rewrite elem_of_app. intros [H|H%list_elem_of_singleton]; [by apply Hc in H as [? _]|done].
  - exists [CR]. split_and!; [done|apply Forall_cons_2; [by left|by apply Forall_nil_2]|].
    intros c. unfold gi_print. rewrite !app_assoc, last_snoc. intros [= <-] [E|E]; by rewrite E in Hf.
  - intros E. apply (f_equal length) in E. unfold gi_print in E. rewrite !length_app in E. cbn in E. lia.
  - apply take_while_all. apply Forall_forall. intros c Hin. apply Hc in Hin as [_ Hin].
    apply negb_true_iff, Z.eqb_neq. intros E. apply Hin. by rewrite <- (cz_zc c), E.
Qed.

Lemma adb_view_updated bk bk' gi : gi_ok gi -> adb_updated bk bk' 0 gi ->
  forall g, adb_view bk' g = if decide (g = gi_name gi) then Some (gi_fields gi) else adb_view bk g.
Proof.
  intros Hg Hu g. destruct (adb_entry_ok bk 0 gi Hg) as [Hge _]. unfold adb_view. rewrite (Hu g).
  assert (gi_fields (getraw (adb_entry bk 0 gi)) = gi_fields gi) as Hf.
  { rewrite getraw_fields by done. unfold adb_entry. destruct (adb_lookup _ _); by apply setctime_fields. }
  change (Z.land 0 update_only =? 0) with true. case_decide; [|done].
  destruct (adb_lookup bk g); cbn [fmap option_fmap option_map]; by rewrite Hf.
Qed.

Lemma wp_adb_read_loop t filter flags rest : forall ds n line gd bk v s (Q : option exn * istream -> obj hash_ext -> Prop),
  Forall printable ds -> gi_ok gd -> nvadb t bk s -> lock_ok (core s) -> (3 <= lck_stackp (core s))%nat ->
  mem_sz (core s) + 2 ^ 19 * Z.of_nat (length ds) + 2 ^ 20 <= limit -> (length ds < n)%nat ->
  (forall g, adb_view bk g = v g) ->
  (forall bk' s', nvadb t bk' s' -> same_locks (core s) (core s') ->
     (forall g, adb_view bk' g = listed filter flags v ds g) -> Q (None, IStream rest false false) s') ->
  wp (adb_read_loop n (IStream (list_text ds ++ bs "." ++ CR :: LF :: rest) false false) line gd filter flags) Q s.
Proof.
  induction ds as [|d ds IH]; intros [|n] line gd bk v s Q Hds Hg Ha Hlk Hsp Hlim Hn Hv HQ;
    cbn [length] in *; try lia; cbn [adb_read_loop s_eof].
  - change (list_text [] ++ bs "." ++ CR :: LF :: rest) with ((bs "." ++ [CR]) ++ LF :: rest).
    rewrite (nlreadline_line (bs "." ++ [CR]) (bs ".")).
    + rewrite app_nil_r, bool_decide_eq_true_2 by done. mstep. apply (HQ bk); [done|by split|exact Hv].
    + notin.
    + exists [CR]. split_and!; [done|apply Forall_cons_2; [by left|by apply Forall_nil_2]|].
      intros c [= <-] [E|E]; discriminate E.
  - apply Forall_cons in Hds as [Hd Hds]. destruct (printed_line d Hd) as (Hlf & Hst & Hdot & Hc).
    assert (list_text (d :: ds) ++ bs "." ++ CR :: LF :: rest =
      (gi_print d ++ [CR]) ++ LF :: (list_text ds ++ bs "." ++ CR :: LF :: rest)) as ->.
    { unfold list_text. cbn [fmap list_fmap concat adb_line]. rewrite <- !app_assoc. done. }
    rewrite (nlreadline_line _ _ _ _ _ Hlf Hst), app_nil_r. rewrite bool_decide_eq_false_2 by done.
    rewrite Hc. unfold listed in HQ. cbn [fold_left] in HQ. destruct (match filter with None => _ | Some _ => _ end).
    + destruct Hd as (Hd1 & Hd2 & Hd3 & Hd4). mstep. apply wp_catch. mstep.
      eapply wp_mono; [apply (wp_print_set os_time d gd s Hd1 Hg Hd2 Hd3 Hd4)|].
      intros g1 s1 (-> & Hg1 & En & Ef & El & Efl & _ & _ & _).
      set (g2 := if negb (Z.land flags F_STORE_READONLY =? 0) then setflag "n"%char g1 else g1).
      assert (gi_ok g2 /\ gi_name g2 = gi_name d /\ gi_fields g2 = (gi_first d, gi_last d,
        if negb (Z.land flags F_STORE_READONLY =? 0) then "n"%char else gi_flags d)) as (Hg2 & En2 & Ef2).
      { unfold g2. destruct (negb _).
        - destruct (setflag_ok "n"%char g1 Hg1) as (? & ? & E). rewrite E. split_and!; [done|congruence|congruence].
        - split_and!; [done|done|]. unfold gi_fields. congruence. }
      mstep. eapply wp_adb_sset; try done; [lia|]. intros bk' s' Ha' Hl' Hsz' Hu.
      destruct (adb_entry_ok bk 0 g2 Hg2) as [Hge _]. mstep.
      eapply (IH n _ _ _ (fun g => if bool_decide (g = gi_name d) then Some (gi_first d, gi_last d,
        if negb (Z.land flags F_STORE_READONLY =? 0) then "n"%char else gi_flags d) else v g));
        [done|done|exact Ha'|by eapply lock_ok_same|by rewrite (sl_sp _ _ Hl')|lia|lia| |].
      * intros g. rewrite (adb_view_updated bk bk' g2 Hg2 Hu g), En2, Ef2, Hv.
        case_decide; [by rewrite bool_decide_eq_true_2|by rewrite bool_decide_eq_false_2].
      * intros bk2 s2 Ha2 Hl2 Hv2. eapply HQ; [exact Ha2|by eapply same_locks_trans|exact Hv2].
    + cbn [andb] in HQ. eapply IH; try done; lia.
Qed.

Lemma adb_view_clear n : forall g, adb_view (replicate n []) g = None.
Proof.
  intros g. unfold adb_view, adb_lookup, adb_bucket.
  destruct (replicate n [] !! _) as [xs|] eqn:E; [|done]. by apply lookup_replicate in E as [-> _].
Qed.

Lemma wp_adb_setmtime t bk tm force s (Q : unit -> obj hash_ext -> Prop) :
  nvadb t bk s -> lock_ok (core s) -> (1 <= lck_stackp (core s))%nat ->
  (forall s', nvadb t bk s' -> same_locks (core s) (core s') -> Q tt s') ->
  wp (setmtime tm force) Q s.
Proof.
  intros [(Ht & He & bl & Hso) Hs Hrec] Hlk Hsp HQ. unfold setmtime.
  mstep. eapply wp_lock_store; try done. intros c1 x Hc1 Hso1 Hx Hlk1.
  pose proof (cu_map _ (hp_current _ _ (so_heap _ _ _ _ _ Hso1))) as Hm.
  pose proof (cu_big _ (hp_current _ _ (so_heap _ _ _ _ _ Hso1))) as Hbig. layout.
  assert (forall c2, (c2 = c1 \/ c2 = set_data (st64 (data c1) h_mtime tm) c1) ->
    wp (lock_ UnLock) Q (Obj c2 x)) as Hfin.
  { intros c2 Hc2. assert (store c2 bl (buckets t bk) (hkeep t) (eq (HashExt t (Z.of_nat (length bk))))) as Hso2.
    { destruct Hc2 as [-> | ->]; [done|by apply store_mtime]. }
    assert (lck_stack c2 = lck_stack c1 /\ lck_stackp c2 = lck_stackp c1 /\ held c2 = held c1) as (E1 & E2 & E3)
      by (by destruct Hc2 as [-> | ->]).
    assert (lock_ok c2) as Hlk2.
    { destruct Hlk1 as [H1 H2 H3]. split; [by rewrite E1|by rewrite E2|].
      rewrite E3, H3. unfold top_lock. by rewrite E1, E2. }
    eapply wp_unlock_store; [exact Hso2|done| |done|].
    - cbn [core]. rewrite E2, Hc1. cbn. destruct Hlk. unfold LOCKSTACKSIZE in *. lia.
    - intros y Hso3 Hy. apply HQ.
      + split; [|done..]. split_and!; [done|done|by exists bl].
      + eapply (same_locks_pop (effective ExclLock (core s))); [done|lia|]. rewrite <- Hc1. by destruct Hc2 as [-> | ->]. }
  mstep. rewrite <- (upd_same c1 x). mstep. mstep. destruct (_ || _).
  - mstep. apply (Hfin (set_data _ c1)). by right.
  - mstep. rewrite upd_same. apply Hfin. by left.
Qed.

(** C36: reading a list of groups (as a server sends it, ended by a dot) ends
    behind the dot; a group of a line that the filter accepts has the numbers and
    the flag of its last such line, every other group is what it was, or gone
    with [F_CLEAR]. *)
Theorem adb_read_spec t bk ds filter flags rest gd s :
  nvadb t bk s -> lock_ok (core s) -> (4 <= lck_stackp (core s))%nat -> length gd = sizeof_GroupInfo ->
  Forall printable ds -> mem_sz (core s) + 2 ^ 19 * Z.of_nat (length ds) + 2 ^ 20 <= limit ->
  wp (adb_read (IStream (list_text ds ++ bs "." ++ CR :: LF :: rest) false false) filter flags gd)
    (fun r s' => r = (None, IStream rest false false) /\ exists bk', nvadb t bk' s' /\ same_locks (core s) (core s') /\
       forall g, adb_view bk' g =
         listed filter flags (if Z.land flags F_CLEAR =? 0 then adb_view bk else fun _ => None) ds g) s.
Proof.
  intros Ha Hlk Hsp Hg Hds Hlim. unfold adb_read.
  set (ist := IStream _ false false). set (v := if Z.land flags F_CLEAR =? 0 then _ else _).
  assert (wp (lock_ ExclLock ;;; r <- (when (negb (Z.land flags F_CLEAR =? 0)) adb_clear ;;;
     r <- adb_read_loop (S (S (length (s_rest ist)))) ist [] (gi_init gd) filter flags ;;
     match fst r with Some _ => ret r | None => setmtime os_time false ;;; ret r end) ;; lock_ UnLock ;;; ret r)
    (fun r s' => r = (None, IStream rest false false) /\ exists bk', nvadb t bk' s' /\ same_locks (core s) (core s') /\
       forall g, adb_view bk' g = listed filter flags v ds g) s) as H.
  { eapply (nvadb_locked _ t bk _ _ _
      (fun r _ bk' => r = (None, IStream rest false false) /\ forall g, adb_view bk' g = listed filter flags v ds g));
      try done; [lia| |by intros a bk' s' ? ? [-> ?]; split; [|by exists bk']].
    intros s1 Ha1 Hlk1 Hsp1 Hsz1. mstep.
    assert (wp (when (negb (Z.land flags F_CLEAR =? 0)) adb_clear) (fun _ s2 => exists bk2, nvadb t bk2 s2 /\
      same_locks (core s1) (core s2) /\ mem_sz (core s2) = mem_sz (core s1) /\ forall g, adb_view bk2 g = v g) s1) as Hclr.
    { unfold v. destruct (Z.land flags F_CLEAR =? 0); cbn [negb when]; [mstep; exists bk; by split_and!|].
      pose proof Ha1 as [Hn1 Hs1 _]. eapply wp_hash_clear; [done|done|lia|]. intros s2 Hn2 Hl2 Hsz2.
      exists (replicate (length bk) []). split_and!; [|done|done|apply adb_view_clear].
      split; [done|by rewrite length_replicate|]. intros i xs x [-> _]%lookup_replicate Hx.
      by apply not_elem_of_nil in Hx. }
    eapply wp_mono; [exact Hclr|]. intros [] s2 (bk2 & Ha2 & Hl2 & Hsz2 & Hv2). mstep.
    assert (length ds <= length (s_rest ist))%nat as Hlen.
    { unfold ist, list_text. cbn [s_rest]. rewrite length_app. clear. induction ds as [|d ds IH]; [cbn; lia|].
      cbn [fmap list_fmap concat adb_line length] in *. rewrite !length_app in *. cbn [length] in *. lia. }
    eapply wp_adb_read_loop; [exact Hds|by apply gi_init_ok|exact Ha2|by eapply lock_ok_same| |lia|lia|exact Hv2|].
    { rewrite (sl_sp _ _ Hl2). lia. }
    intros bk3 s3 Ha3 Hl3 Hv3. cbn [fst]. mstep.
    eapply wp_adb_setmtime; [exact Ha3|eapply lock_ok_same; [|exact Hl3]; by eapply lock_ok_same| |].
    { rewrite (sl_sp _ _ Hl3), (sl_sp _ _ Hl2). lia. }
    intros s4 Ha4 Hl4. mstep. exists bk3. split_and!; try done.
    eapply same_locks_trans; [exact Hl2|]. by eapply same_locks_trans. }
  unfold wp, bind, ret in *. destruct (lock_ ExclLock s) as [? s1| | |]; try done.
  destruct (when _ adb_clear s1) as [? s2| | |]; try done. destruct (adb_read_loop _ _ _ _ _ _ s2) as [[[e|] ist'] s3| | |]; try done; cbn [fst] in *.
  - by destruct (lock_ UnLock s3) as [? s4| | |]; try done; destruct H as [? _].
  - by destruct (setmtime os_time false s3) as [? s4| | |].
Qed.
End specs.

(** ** The iterator of the database

    [NVActiveDB_Iter] keeps the position an NVHashIter keeps. *)
Section iterator.
Context {os : Os}.
Implicit Types s : obj hash_ext.

Definition same_pos (it : hash_iter) (ai : adb_iter) : Prop :=
  hi_pos it = ai_pos ai /\ hi_curtail it = ai_tail ai /\ hi_hashval it = ai_hash_val ai.

(** A position on a record is in a bucket of the table. *)
Definition in_table s (it : hash_iter) : Prop := hi_pos it <> 0 -> hi_hashval it < hashsz (ext s).

Lemma seek_sim n : forall it ai s it' s', hi_seek n it s = Ret it' s' -> same_pos it ai -> hi_pos it = 0 ->
  hi_hashval it + Z.of_nat n <= hashsz (ext s) ->
  exists ai', ai_skip_nulls n ai s = Ret ai' s /\ s' = s /\ same_pos it' ai' /\
    ai_newsgroup ai' = ai_newsgroup ai /\ in_table s it'.
Proof.
  induction n as [|n IH]; intros it ai s it' s'; cbn [hi_seek ai_skip_nulls].
  - intros [= <- <-] Hs Hp _. exists ai. split_and!; try done. by intros ?.
  - intros H (E1 & E2 & E3) Hp Hn. unfold bind in *. rewrite <- E3.
    destruct (bucket _ s) as [b s1| | |] eqn:Eb; try done. apply bucket_pure in Eb as ->.
    destruct (ldw b s) as [v s1| | |] eqn:El; try done. apply ldw_pure in El as ->.
    destruct (negb (v =? 0)).
    + destruct (r_next v s) as [p s1| | |] eqn:Er; try done. apply r_next_pure in Er as ->.
      injection H as <- <-. eexists. split_and!; try done. intros _. cbn [hi_hashval]. lia.
    + apply (IH _ (AdbIter (hi_hashval it + 1) (ai_pos ai) (ai_tail ai) (ai_newsgroup ai))) in H as (ai' & ? & ? & ? & E & ?).
      * exists ai'. cbn [ai_newsgroup] in *. by split_and!.
      * done.
      * done.
      * cbn [hi_hashval]. lia.
Qed.

Lemma seek_from_sim it ai s it' s' : hi_seek_from it s = Ret it' s' -> same_pos it ai -> hi_pos it = 0 ->
  hi_hashval it <= hashsz (ext s) ->
  exists ai', ai_skip ai s = Ret ai' s /\ s' = s /\ same_pos it' ai' /\
    ai_newsgroup ai' = ai_newsgroup ai /\ in_table s it'.
Proof.
  intros H Hs Hp Hh. unfold hi_seek_from, ai_skip, bind in *. cbn [gete gets] in *. unfold gete, gets in *.
  destruct Hs as (E1 & E2 & E3). rewrite <- E3. eapply seek_sim; [exact H|done|done|lia].
Qed.

Lemma next_sim it ai s it' s' : hi_next it s = Ret it' s' -> same_pos it ai -> hi_pos it <> 0 -> in_table s it ->
  exists ai', ai_next ai s = Ret ai' s /\ s' = s /\ same_pos it' ai' /\
    ai_newsgroup ai' = ai_newsgroup ai /\ in_table s it'.
Proof.
  intros H (E1 & E2 & E3) Hp Hin. specialize (Hin Hp). unfold hi_next in H. unfold ai_next, bind, gete, gets.
  destruct (Z.eqb_spec (hi_pos it) 0) as [?|_]; [done|].
  destruct (Z.eqb_spec (ai_hash_val ai) (hashsz (ext s))) as [?|_]; [lia|]. rewrite <- E1, <- E2.
  destruct (hi_pos it =? hi_curtail it).
  - eapply (seek_from_sim _ (AdbIter (ai_hash_val ai + 1) 0 (hi_curtail it) (ai_newsgroup ai))) in H;
      [exact H|by rewrite E3|done|cbn [hi_hashval]; lia].
  - unfold bind in H. destruct (r_next (hi_pos it) s) as [p s1| | |] eqn:Er; try done.
    apply r_next_pure in Er as ->. injection H as <- <-. eexists. split_and!; try done.
    intros _. cbn [hi_hashval]. lia.
Qed.

Lemma get_sim it ai d s s' : hi_data it s = Ret d s' -> same_pos it ai -> (length d <= sizeof_GroupInfo)%nat ->
  exists ai', ai_get ai s = Ret ai' s /\ s' = s /\ same_pos it ai' /\ ai_newsgroup ai' = put (ai_newsgroup ai) 0 d.
Proof.
  intros H (E1 & E2 & E3) Hd. unfold hi_data, ai_get, bind in *. rewrite <- E1.
  destruct (r_szdata (hi_pos it) s) as [sz s1| | |] eqn:Es; try done.
  assert (w32 (s32 sz) = w32 sz) as ->.
  { unfold w32, s32. rewrite Zminus_mod, Z.mod_mod, <- Zminus_mod by done. f_equal. lia. }
  assert (s1 = s) as ->.
  { unfold r_szdata, deref, bind, guard in Es. destruct (negb _); [|done]. by apply ldw_pure in Es. }
  destruct (ldmem _ _ s) as [d1 s1| | |] eqn:El; try done. injection H as <- <-.
  assert (s1 = s) as ->.
  { unfold ldmem, bind, getc, gets, guard in El. destruct (in_map _ _ _); [|done]. by injection El. }
  unfold setraw. destruct (Nat.ltb_spec sizeof_GroupInfo (length d1)); [lia|]. eexists. by split_and!.
Qed.

(** The descriptions that reading the records [ds] one after the other into one
    object gives. *)
Fixpoint raw_copies (g : GroupInfo) (ds : list bytes) : list GroupInfo :=
  match ds with [] => [] | d :: ds => put g 0 d :: raw_copies (put g 0 d) ds end.

Lemma collect_sim last : ai_pos last = 0 -> forall fuel it ai s ds s',
  hi_collect fuel it s = Ret ds s' -> same_pos it ai -> in_table s it ->
  Forall (fun d => (length d <= sizeof_GroupInfo)%nat) ds ->
  ai_collect fuel last ai s = Ret (raw_copies (ai_newsgroup ai) ds) s'.
Proof.
  intros Hlast. induction fuel as [|fuel IH]; intros it ai s ds s' H Hs Hin Hds; [done|].
  cbn [hi_collect ai_collect] in *. unfold ai_equals, hi_valid in *. rewrite Hlast.
  destruct Hs as (E1 & E2 & E3). rewrite <- E1. destruct (Z.eqb_spec (hi_pos it) 0) as [E|E]; cbn [negb] in *.
  - by injection H as <- <-.
  - unfold bind in *. destruct (hi_data it s) as [d s1| | |] eqn:Ed; try done.
    destruct (hi_next it s1) as [it1 s2| | |] eqn:En; try done.
    destruct (hi_collect fuel it1 s2) as [rest s3| | |] eqn:Er; try done. injection H as <- <-.
    apply Forall_cons in Hds as [Hd Hds].
    destruct (get_sim it ai d s s1 Ed) as (ai1 & -> & -> & Hs1 & Eg); [done|done|].
    destruct (next_sim it ai1 s it1 s2 En Hs1 E Hin) as (ai2 & -> & -> & Hs2 & Eg2 & Hin2).
    rewrite (IH _ _ _ _ _ Er Hs2 Hin2 Hds), Eg2, Eg. done.
Qed.

(** Iterating over the database from begin to end is equivalent to iterating
    over its hash table: NVActiveDB_Iter visits the records an NVHashIter visits,
    in the same order and as often, without a lock. *)
Theorem adb_iter_equiv fuel j1 j2 gd ds s s' :
  (it <- hi_first (HashIter false 0 j1 j2) ;; hi_collect fuel it) s = Ret ds s' ->
  0 <= hashsz (ext s) -> Forall (fun d => (length d <= sizeof_GroupInfo)%nat) ds ->
  (last <- ai_new false j1 gd ;; it <- ai_new true j1 gd ;; ai_collect fuel last it) s =
    Ret (raw_copies (gi_init gd) ds) s'.
Proof.
  intros H Hsz Hds. unfold bind in *. destruct (hi_first _ s) as [it s1| | |] eqn:Ef; try done.
  assert (exists last, ai_new false j1 gd s = Ret last s /\ ai_pos last = 0) as (last & -> & Hl).
  { unfold ai_new, ai_skip, bind, gete, gets. cbn [ai_hash_val]. rewrite Z.sub_diag. cbn. by eexists. }
  apply (seek_from_sim _ (AdbIter 0 0 j1 (gi_init gd))) in Ef as (ai & Ea & -> & Hs & Eg & Hin); [|done..].
  assert (ai_new true j1 gd s = Ret ai s) as -> by exact Ea.
  rewrite (collect_sim last Hl _ _ _ _ _ _ H Hs Hin Hds). by rewrite Eg.
Qed.
End iterator.

(** ** A concrete database *)
#[local] Existing Instance good_os.
Definition ex_gi : GroupInfo :=
  setfln 7 3 10 8 "y"%char (put (gi_init (replicate sizeof_GroupInfo "x"%char)) off_name (bs "comp.x" ++ [NUL])).
Lemma ex_gi_is_ok : gi_ok ex_gi.
Proof. split; [vm_compute; reflexivity|vm_compute; lia]. Qed.
Lemma ex_gi_printable : printable (getraw ex_gi).
Proof.
  split_and!; [vm_compute; lia| |reflexivity|vm_compute; discriminate].
  vm_compute. repeat (apply Forall_cons_2; [reflexivity|]). apply Forall_nil_2.
Qed.

Definition no_buckets : list (list rcd) := replicate (Z.to_nat NVActiveDB_HASHSIZE) [].
Definition ex_adb : obj hash_ext := run (adb_open "db") new_hash.

Lemma ex_adb_ok : ready (fun t => nvadb t no_buckets) ex_adb.
Proof.
  unfold ex_adb. apply wp_run. unfold adb_open.
  pose proof (wp_hash_open "db" (Z.to_nat NVActiveDB_HASHSIZE)) as Ho. rewrite Z2Nat.id in Ho by done.
  apply Ho; try done. intros t s' Hn ? ?. split_and!; [exists t|done|done]. split.
  - exact Hn.
  - unfold no_buckets. rewrite length_replicate. by rewrite Z2Nat.id.
  - intros i xs x [-> _]%lookup_replicate Hx. by apply not_elem_of_nil in Hx.
Qed.
Lemma ex_adb_size : mem_sz (core ex_adb) + 2 ^ 21 <= limit.
Proof. vm_compute. discriminate. Qed.
#[local] Opaque ex_adb no_buckets ex_gi.

Lemma adb_set_spec_witness :
  exists t, wp (adb_set ex_gi 0) (fun _ s' => exists bk', nvadb t bk' s') ex_adb.
Proof.
  destruct ex_adb_ok as ((t & Hn) & Hlk & Hsp). exists t. pose proof ex_adb_size.
  eapply wp_mono; [apply (adb_set_spec t _ ex_gi 0 ex_adb Hn Hlk);
    [rewrite Hsp; unfold LOCKSTACKSIZE; lia|apply ex_gi_is_ok|lia]|].
  intros gi' s' (_ & bk' & ? & _). by exists bk'.
Defined.

Lemma adb_get_spec_witness :
  wp (adb_get (bs "comp.x") ex_gi) (fun r _ => r = None) ex_adb /\
  wp (adb_hasgroup (bs "comp.x")) (fun r _ => r = false) ex_adb.
Proof.
  destruct ex_adb_ok as ((t & Hn) & Hlk & Hsp).
  assert (adb_lookup no_buckets (bs "comp.x") = None) as E by (vm_compute; reflexivity).
  destruct (adb_get_spec t _ (bs "comp.x") ex_gi ex_adb Hn Hlk) as [H1 H2].
  - rewrite Hsp. unfold LOCKSTACKSIZE. lia.
  - apply ex_gi_is_ok.
  - rewrite E in H1, H2. split.
    + eapply wp_mono; [exact H1|]. intros r s' (Hr & _). exact Hr.
    + eapply wp_mono; [exact H2|]. intros r s' (Hr & _). exact Hr.
Defined.

Lemma adb_write_spec_witness : wp (adb_write (fun _ => true) 0 m_active None 0 0 ex_gi) (fun out _ => out = []) ex_adb.
Proof.
  destruct ex_adb_ok as ((t & Hn) & Hlk & Hsp).
  eapply wp_mono; [apply (adb_write_spec t _ 0 m_active None 0 0 ex_gi ex_adb Hn Hlk);
    [rewrite Hsp; unfold LOCKSTACKSIZE; lia|apply ex_gi_is_ok]|].
  intros out s' (-> & _). vm_compute. reflexivity.
Defined.

Lemma adb_read_spec_witness :
  exists t, wp (adb_read (IStream (bs "comp.x 10 3 y" ++ [CR; LF] ++ bs "." ++ [CR; LF]) false false) None 0 ex_gi)
    (fun r s' => r = (None, IStream [] false false) /\ exists bk', nvadb t bk' s' /\
       adb_view bk' (bs "comp.x") = Some (3, 10, "y"%char)) ex_adb.
Proof.
  destruct ex_adb_ok as ((t & Hn) & Hlk & Hsp). exists t. pose proof ex_adb_size.
  eapply wp_mono; [apply (adb_read_spec t _ [getraw ex_gi] None 0 [] ex_gi ex_adb Hn Hlk);
    [rewrite Hsp; unfold LOCKSTACKSIZE; lia|apply ex_gi_is_ok|apply Forall_cons_2; [apply ex_gi_printable|constructor]|
     cbn [length]; lia]|].
  intros ist s' (-> & bk' & Ha & _ & Hv). split; [done|]. exists bk'. split; [done|].
  rewrite Hv. vm_compute. reflexivity.
Defined.

Lemma adb_iter_equiv_witness :
  exists s', (last <- ai_new false 0 ex_gi ;; it <- ai_new true 0 ex_gi ;; ai_collect 2 last it) ex_hash1 =
    Ret [put (gi_init ex_gi) 0 (bs "x")] s'.
Proof.
  assert (exists s', (it <- hi_first (HashIter false 0 0 0) ;; hi_collect 2 it) ex_hash1 = Ret [bs "x"] s') as [s' H].
  { eexists. vm_compute. reflexivity. }
  exists s'. apply (adb_iter_equiv 2 0 0 ex_gi [bs "x"] ex_hash1 s' H); [vm_compute; discriminate|].
  apply Forall_cons_2; [vm_compute; lia|by apply Forall_nil_2].
Defined.
