(* ===== verification/RServer.v ===== *)
(** * RServer.v: news over the network

    The class RServer of NServer-0.9.1/NServer.{h,cc}: the dialogue with the news
    servers of the list, through the active database of class ActiveDB.  The
    state holds the members of the object, the server list it points to (its
    entries remember what a server cannot do), the database, and the world: what
    the connections to come will deliver, and what was done on the network. *)
From S2P Require Import Prelude Memory Text Matching ServerList Container GroupInfo Article OverviewFmt.

(** ** The interface ActiveDB

    The operations of the abstract class RServer uses; [db_read] gives the
    exception that ended it, if any, and the stream behind what it read. *)
Class ActiveDB (D : Type) := {
  db_get : bytes -> GroupInfo -> M D (option GroupInfo);
  db_set : GroupInfo -> Z -> M D GroupInfo;
  db_read : istream -> option bytes -> Z -> M D (option exn * istream)
}.

Inductive event :=
| EConnect (srv : nat)
| ESend (srv : nat) (b : bytes)
| EReply (line : bytes).

(** [rs_conn] is [_pServerStream], [rs_cur] the index of [_CurrentServer],
    [rs_pc] the static counter of post.  [rs_net] has one item for each connection
    to come: what it delivers up to its end, or [None] when it is refused.  [rs_sent]
    is the trace of the dialogue, the last event first. *)
Record rserver (D : Type) := RServer {
  rs_entries : list MPListEntry;
  rs_cur : option nat;
  rs_group : GroupInfo;
  rs_conn : option istream;
  rs_fmt : OverviewFmt;
  rs_pc : Z;
  rs_db : D;
  rs_net : list (option bytes);
  rs_sent : list event
}.
Arguments RServer {D}.
Arguments rs_entries {D} _. Arguments rs_cur {D} _. Arguments rs_group {D} _. Arguments rs_conn {D} _.
Arguments rs_fmt {D} _. Arguments rs_pc {D} _. Arguments rs_db {D} _. Arguments rs_net {D} _.
Arguments rs_sent {D} _.

(** What post reads from its surroundings. *)
Class Env := {
  nntp_hostname : bytes;
  nntp_posting_host : bytes;
  env_pid : Z;
  env_tv_sec : Z
}.

Section rserver.
Context {os : Os} {env : Env} {D : Type} {db : ActiveDB D}.
Abbreviation MR := (M (rserver D)).
Implicit Types s : rserver D.

Definition set_entries x s : rserver D :=
  RServer x (rs_cur s) (rs_group s) (rs_conn s) (rs_fmt s) (rs_pc s) (rs_db s) (rs_net s) (rs_sent s).
Definition set_cur_server x s : rserver D :=
  RServer (rs_entries s) x (rs_group s) (rs_conn s) (rs_fmt s) (rs_pc s) (rs_db s) (rs_net s) (rs_sent s).
Definition set_group x s : rserver D :=
  RServer (rs_entries s) (rs_cur s) x (rs_conn s) (rs_fmt s) (rs_pc s) (rs_db s) (rs_net s) (rs_sent s).
Definition set_conn x s : rserver D :=
  RServer (rs_entries s) (rs_cur s) (rs_group s) x (rs_fmt s) (rs_pc s) (rs_db s) (rs_net s) (rs_sent s).
Definition set_fmt x s : rserver D :=
  RServer (rs_entries s) (rs_cur s) (rs_group s) (rs_conn s) x (rs_pc s) (rs_db s) (rs_net s) (rs_sent s).
Definition set_pc x s : rserver D :=
  RServer (rs_entries s) (rs_cur s) (rs_group s) (rs_conn s) (rs_fmt s) x (rs_db s) (rs_net s) (rs_sent s).
Definition set_db x s : rserver D :=
  RServer (rs_entries s) (rs_cur s) (rs_group s) (rs_conn s) (rs_fmt s) (rs_pc s) x (rs_net s) (rs_sent s).
Definition set_world n t s : rserver D :=
  RServer (rs_entries s) (rs_cur s) (rs_group s) (rs_conn s) (rs_fmt s) (rs_pc s) (rs_db s) n t.

(** Running an operation of the database. *)
Definition on_db {A} (c : M D A) : MR A := fun s =>
  match c (rs_db s) with
  | Ret a d => Ret a (set_db d s)
  | Throw e d => Throw e (set_db d s)
  | Abort w => Abort w
  | Spin => Spin
  end.

(** [*_CurrentServer] *)
Definition cur_index : MR nat :=
  c <- gets rs_cur ;; match c with Some i => ret i | None => abort "null pointer" end.
Definition cur_server : MR MPListEntry :=
  i <- cur_index ;; es <- gets rs_entries ;;
  match es !! i with Some e => ret e | None => abort "dangling pointer" end.
Definition set_nntpflags (f : Z -> Z) (e : MPListEntry) : MPListEntry :=
  set_nums (groupTimeout e) (flags e) (f (nntpflags e)) (retries e) e.
(** [_CurrentServer->nntpflags &= ~fl] *)
Definition clear_nntpflag (fl : Z) : MR unit :=
  i <- cur_index ;;
  modify (fun s => set_entries (alter (set_nntpflags (fun n => Z.land n (Z.lnot fl))) i (rs_entries s)) s).
Definition has_flag (n fl : Z) : bool := negb (Z.land n fl =? 0).

(** ** The stream *)
Definition the_stream : MR istream :=
  c <- gets rs_conn ;; match c with Some ist => ret ist | None => abort "null pointer" end.
Definition is_connected : MR bool := c <- gets rs_conn ;; ret (bool_decide (is_Some c)).
Definition conn_good : MR bool := ist <- the_stream ;; ret (good ist).

(** [*_pServerStream << b << flush]: nothing is sent on a stream that is not good. *)
Definition send (b : bytes) : MR unit :=
  ist <- the_stream ;; i <- cur_index ;;
  if good ist then modify (fun s => set_world (rs_net s) (ESend i b :: rs_sent s) s) else ret tt.
Definition readline (strg : bytes) (keepnl : bool) : MR bytes :=
  ist <- the_stream ;;
  let '(l, ist) := nlreadline ist strg keepnl in
  modify (fun s => set_conn (Some ist) (set_world (rs_net s) (EReply l :: rs_sent s) s)) ;;; ret l.

(** connectTo on a new or used stream; false when the stream is not good then. *)
Definition connect_to : MR bool :=
  i <- cur_index ;; net <- gets rs_net ;;
  match net with
  | Some content :: net =>
      modify (fun s => set_conn (Some (IStream content false false)) (set_world net (EConnect i :: rs_sent s) s)) ;;;
      ret true
  | None :: net => modify (fun s => set_world net (EConnect i :: rs_sent s) s) ;;; ret false
  | [] => modify (fun s => set_world [] (EConnect i :: rs_sent s) s) ;;; ret false
  end.

Definition disconnect : MR unit :=
  c <- gets rs_conn ;;
  match c with
  | None => ret tt
  | Some _ => send (bs "quit" ++ [CR; LF]) ;;; modify (set_conn None)
  end.

(** NNTP_ISCODE, and strncmp over three characters. *)
Definition nntp_iscode (reply code : bytes) : bool :=
  bool_decide (at_ reply 0 = at_ code 0 /\ at_ reply 1 = at_ code 1 /\ at_ reply 2 = at_ code 2).
Definition greeting_ok (grt : bytes) : bool :=
  bool_decide (at_ grt 0 = "2"%char) && bool_decide (at_ grt 1 = "0"%char) &&
  (bool_decide (at_ grt 2 = "0"%char) || bool_decide (at_ grt 2 = "1"%char)).

Definition is_system (e : exn) : bool := match e with SystemError _ _ | IOError _ => true | _ => false end.

(** [int] counters that run down to 0, through the negative numbers. *)
Definition countdown (i : Z) : nat := Z.to_nat (if i <=? 0 then i + 2 ^ 32 else i).

Definition crlf (b : bytes) : bytes := b ++ [CR; LF].

(** ** connect, issue and selectgroup call each other *)
Section bodies.
Variable connect_rec : MR unit.
Variable issue_rec : bytes -> option bytes -> MR bytes.
Variable select_rec : bytes -> bool -> MR unit.

Definition drop_and_throw (e : exn) : MR unit := modify (set_conn None) ;;; raise e.

(** The user and the password. *)
Definition authenticate (e : MPListEntry) : MR unit :=
  if bool_decide (user e = []) then ret tt else
  resp <- issue_rec (crlf (bs "authinfo user " ++ user e)) None ;;
  resp <- (if bool_decide (at_ resp 0 = "3"%char)
           then issue_rec (crlf (bs "authinfo pass " ++ passwd e)) None else ret resp) ;;
  if bool_decide (at_ resp 0 = "2"%char) then ret tt
  else drop_and_throw (ResponseError (bs "_authenticate_") (bs "[23]..") resp).

Definition std_overview : bytes :=
  bs "Subject:" ++ LF :: bs "From:" ++ LF :: bs "Date:" ++ LF :: bs "Message-ID:" ++ LF ::
  bs "References:" ++ LF :: bs "Bytes:" ++ LF :: bs "Lines:" ++ [LF].
Definition no_list_overview_fmt : MR unit :=
  f <- gets rs_fmt ;;
  match readxoin (IStream std_overview false false) f with
  | Some (f, _) => modify (set_fmt f)
  | None => spin
  end.
Definition list_overview_fmt : MR unit :=
  e <- cur_server ;;
  if has_flag (nntpflags e) F_LIST_OVERVIEW_FMT then
    resp <- issue_rec (crlf (bs "list overview.fmt")) (Some (bs "215")) ;;
    ist <- the_stream ;; f <- gets rs_fmt ;;
    match readxoin ist f with
    | None => spin
    | Some (f, ist) =>
        modify (fun s => set_conn (Some ist) (set_fmt f s)) ;;;
        if negb (nntp_iscode resp (bs "215"))
        then clear_nntpflag F_LIST_OVERVIEW_FMT ;;; no_list_overview_fmt
        else ret tt
    end
  else no_list_overview_fmt.

(** What follows the greeting; the result is false when the connection has to be
    made again, else the reply that counts. *)
Definition mode_reader (grt : bytes) : MR (option bytes) :=
  e <- cur_server ;;
  if has_flag (nntpflags e) F_MODE_READER then
    resp <- issue_rec (crlf (bs "mode reader")) None ;;
    g <- conn_good ;;
    if negb g then ret None else
    when (negb (greeting_ok resp)) (clear_nntpflag F_MODE_READER) ;;;
    ret (Some resp)
  else ret (Some grt).

(** A round of the for loop; [again] is what a lost connection leads to. *)
Definition connect_round (again : bytes -> MR unit) (grt : bytes) : MR unit :=
  ok <- connect_to ;;
  if negb ok then drop_and_throw (SystemError "RServer::connect: cannot connect to news server" 0) else
  grt <- readline grt false ;;
  g <- conn_good ;;
  if negb g then again grt else
  if negb (greeting_ok grt) then drop_and_throw (ResponseError (bs "_connect_") (bs "20[01]") grt) else
  e <- cur_server ;;
  authenticate e ;;;
  r <- mode_reader grt ;;
  match r with
  | None => again grt
  | Some resp =>
      when (bool_decide (at_ resp 2 = "1"%char)) (clear_nntpflag F_POST) ;;;
      list_overview_fmt ;;;
      g <- gets rs_group ;;
      when (negb (bool_decide (gi_name g = []))) (select_rec (gi_name g) true)
  end.

(** The for loop, [i] more rounds; the time between them is left out. *)
Fixpoint connect_loop (i : nat) (grt : bytes) : MR unit :=
  connect_round (match i with O => fun _ => raise (SystemError "Connection failed" 0) | S i => connect_loop i end) grt.

Definition connect_body : MR unit :=
  c <- is_connected ;;
  if (c : bool) then ret tt else
  e <- cur_server ;;
  let i := retries e in
  connect_loop (if i =? 0 then 0 else countdown i) [].

(** The loop over the reconnections: what is left of the counter. *)
Fixpoint reconnect (i : nat) : MR nat :=
  match i with
  | O => spin
  | S i =>
      if (i =? 0)%nat then raise (SystemError "maximum number of retries reached" (-1)) else
      disconnect ;;;
      ok <- catch (connect_rec ;;; ret true) (fun e => if is_system e then ret false else raise e) ;;
      if (ok : bool) then ret i else reconnect i
  end.

Fixpoint issue_loop (k i : nat) (command resp : bytes) : MR bytes :=
  match k with
  | O => spin
  | S k =>
      send command ;;;
      resp <- readline resp false ;;
      g <- conn_good ;;
      if g && negb (bool_decide (take 3 resp = bs "400") || bool_decide (take 3 resp = bs "503")) then ret resp
      else i <- reconnect i ;; issue_loop k i command resp
  end.

(** A response without an expected code makes a string of a null pointer. *)
Definition issue_body (command : bytes) (expresp : option bytes) : MR bytes :=
  e <- cur_server ;;
  let i := countdown (retries e + 1) in
  c <- is_connected ;;
  (if (c : bool) then ret tt else connect_rec) ;;;
  resp <- issue_loop i i command [] ;;
  let wrong := match expresp with Some x => negb (bool_decide (take (length x) resp = x)) | None => false end in
  if (length resp <? 3)%nat || wrong then
    match expresp with
    | None => raise (StdException "basic_string: construction from null")
    | Some x => raise (ResponseError command x resp)
    end
  else ret resp.

Definition setserver (srv : nat) : MR unit :=
  c <- gets rs_cur ;;
  if bool_decide (c = Some srv) then ret tt else
  (if bool_decide (is_Some c) then disconnect else ret tt) ;;;
  modify (fun s => set_cur_server (Some srv) (set_group (gi_init (rs_group s)) s)).

(** [_CurrentGroup.set(name, f, l, n)]: the copied name stays when it is too long. *)
Definition cur_group_set (name : bytes) (f l n : Z) : MR unit :=
  modify (fun s => set_group (put (rs_group s) off_name (take 512 name ++ replicate (512 - length name) NUL)) s) ;;;
  g <- gets rs_group ;;
  g <- gi_set_group os_time name f l n "y"%char g ;;
  modify (set_group g).

Definition selectgroup_body (name : bytes) (force : bool) : MR unit :=
  if (512 <? length name)%nat then raise (AssertionError (ln "RServer::selectgroup: name of newsgroup too long")) else
  g <- gets rs_group ;;
  if negb force && bool_decide (gi_name g = name) then ret tt else
  es <- gets rs_entries ;;
  match server es name with
  | None => raise NoSuchGroupError
  | Some mpe =>
      setserver mpe ;;;
      resp <- issue_rec (crlf (bs "group " ++ name)) None ;;
      if negb (nntp_iscode resp (bs "211")) then
        if nntp_iscode resp (bs "411") then raise NoSuchGroupError
        else raise (ResponseError (crlf (bs "group " ++ name)) (bs "211") resp)
      else
        let '(nbr, p) := strtol (drop 3 resp) in
        let '(fst, p) := strtol p in
        let '(lst, ep) := strtol p in
        if bool_decide (ep = resp) then
          g <- gets rs_group ;;
          r <- on_db (db_get name g) ;;
          match r with
          | Some g => modify (set_group g)
          | None =>
              cur_group_set name 0 0 0 ;;;
              g <- gets rs_group ;; g <- on_db (db_set g 0) ;; modify (set_group g)
          end
        else
          g <- gets rs_group ;;
          r <- on_db (db_get name g) ;;
          modify (set_group (default g r)) ;;;
          cur_group_set name (s32 fst) (s32 lst) (s32 nbr) ;;;
          g <- gets rs_group ;; g <- on_db (db_set g 0) ;; modify (set_group g)
  end.
End bodies.

Fixpoint connect_n (n : nat) : MR unit :=
  match n with O => spin | S n => connect_body (issue_n n) (selectgroup_n n) end
with issue_n (n : nat) (command : bytes) (expresp : option bytes) : MR bytes :=
  match n with O => spin | S n => issue_body (connect_n n) command expresp end
with selectgroup_n (n : nat) (name : bytes) (force : bool) : MR unit :=
  match n with O => spin | S n => selectgroup_body (issue_n n) name force end.

(** Every nested call of connect uses up a connection of the world. *)
Definition call_fuel : MR nat := gets (fun s => 3 * length (rs_net s) + 3)%nat.
Definition connect : MR unit := n <- call_fuel ;; connect_n n.
Definition issue (command : bytes) (expresp : option bytes) : MR bytes := n <- call_fuel ;; issue_n n command expresp.
Definition selectgroup (name : bytes) (force : bool) : MR unit := n <- call_fuel ;; selectgroup_n n name force.
End rserver.
