(* ===== verification/Sstream.v ===== *)
(** * Sstream.v: the stream to a news server

    src/NServer-0.9.1/sstream.{h,cc}: connectTo and disconnect of the stream RServer
    talks on.  [connect_to] of RServer.v is connectTo as RServer sees it: the stream is good
    afterwards, or it is not. *)
From S2P Require Import Prelude Text.

(** [badbit] is the state of the stream. *)
Record sstream := SStream { ss_name : bytes; ss_service : bytes; connected : bool; badbit : bool }.
Definition new_sstream : sstream := SStream [] [] false true.

(** The socket: what bind, connect and the options give. *)
Class Socket := { so_bind : bytes -> bool; so_connect : bytes -> bytes -> bool }.

(** [setstate(ios::badbit)]; a failed shutdown is ignored. *)
Definition ss_disconnect (_ : sstream) : sstream := SStream [] [] false true.

Section connect.
Context {so : Socket}.
Abbreviation MS := (M sstream).

(** strcpy into an array of 256 bytes. *)
Definition copy_name (n : bytes) : MS bytes := if (256 <=? length n)%nat then abort "name longer than its array" else ret n.

Definition connectTo (name service from : bytes) : MS unit :=
  s <- get ;;
  (if connected s then modify ss_disconnect else ret tt) ;;;
  n <- copy_name name ;; sv <- copy_name service ;;
  modify (fun s => SStream n sv (connected s) (badbit s)) ;;;
  if negb (bool_decide (from = [])) && negb (so_bind from)
  then modify (fun s => SStream (ss_name s) (ss_service s) (connected s) true)
  else if negb (so_connect name service)
  then modify (fun s => SStream (ss_name s) (ss_service s) (connected s) true)
  else modify (fun s => SStream (ss_name s) (ss_service s) true false).

(** A stream tells that it is connected when it is good; connectTo and disconnect keep
    that, whatever the socket does, and connectTo tells whether it got through. *)
Definition ss_ok (s : sstream) : Prop := connected s = negb (badbit s).
Lemma connectTo_ok name service from s : ss_ok s -> (length name < 256)%nat -> (length service < 256)%nat ->
  wp (connectTo name service from)
    (fun _ s' => ss_ok s' /\ ss_name s' = name /\ ss_service s' = service /\
       connected s' = (bool_decide (from = []) || so_bind from) && so_connect name service) s.
Proof.
  intros Hs Hn Hsv. unfold connectTo, copy_name. rewrite (proj2 (Nat.leb_gt _ _) Hn). rewrite (proj2 (Nat.leb_gt _ _) Hsv).
  unfold ss_ok in *. unfold wp, bind, get, modify, ret. 
  destruct (connected s) eqn:Ec; destruct (badbit s) eqn:Eb; try done;
    destruct (bool_decide (from = [])), (so_bind from), (so_connect name service); cbn; rewrite ?Ec; rewrite ?Eb; done.
Qed.
Lemma disconnect_ok s : ss_ok (ss_disconnect s).
Proof. done. Qed.
End connect.
