(* ===== verification/DbLaws.v ===== *)
(** * DbLaws.v: what the active database promises to the news servers

    The laws of the interface ActiveDB of RServer.v, and that the database in a
    file of ActiveDB.v obeys them. *)
From S2P Require Import Prelude Memory Text Matching ServerList Container GroupInfo Article OverviewFmt RServer.
From S2P Require Import Heap Alloc ContainerSpec NVlist Records NVHash ActiveDB.

(** [db_rep n v d]: the database [d] holds the records [v] gives for the names of
    the groups, and takes [n] more updates. *)
Class ActiveDBLaws {os : Os} (D : Type) {db : RServer.ActiveDB D} := {
  db_rep : nat -> (bytes -> option bytes) -> D -> Prop;
  db_rep_less : forall m n v d, (m <= n)%nat -> db_rep n v d -> db_rep m v d;
  db_rep_rec : forall n v d name r, db_rep n v d -> v name = Some r -> rec_ok r /\ gi_name r = name;
  db_get_law : forall n v d name g, db_rep n v d -> length g = sizeof_GroupInfo ->
    wp (db_get name g) (fun r d' => r = put g 0 <$> v name /\ db_rep n v d') d;
  db_set_law : forall n v d g, db_rep (S n) v d -> gi_ok g ->
    wp (db_set g 0) (fun g' d' =>
      g' = setctime (match v (gi_name g) with Some r => gi_ctime r | None => os_time end) g /\
      exists v', db_rep n v' d' /\
        forall x, v' x = if decide (x = gi_name g) then Some (getraw g') else v x) d
}.

(** ** The database in a file

    An update needs at most 2^19 bytes of the file. *)
Section nvadb.
Context {os : Os} {Hos : OsOk os}.

(** The object read uses is a local variable: its bytes do not matter. *)
#[export] Instance NVActiveDB_ops : RServer.ActiveDB (obj hash_ext) := {|
  db_get := adb_get;
  db_set := adb_set;
  db_read := fun ist filter fl => adb_read ist filter fl (replicate sizeof_GroupInfo NUL)
|}.

Definition nvadb_rep (n : nat) (v : bytes -> option bytes) (d : obj hash_ext) : Prop :=
  exists t bk, nvadb t bk d /\ lock_ok (core d) /\ (4 <= lck_stackp (core d))%nat /\
    mem_sz (core d) + 2 ^ 19 * Z.of_nat n + 2 ^ 19 <= limit /\ forall x, v x = adb_lookup bk x.

Lemma adb_lookup_rec t bk d name r : nvadb t bk d -> adb_lookup bk name = Some r -> rec_ok r /\ gi_name r = name.
Proof.
  intros Ha E. unfold adb_lookup in E. destruct (List.find _ _) as [x|] eqn:Ex; [|done]. injection E as <-.
  pose proof (adb_bucket_lookup _ _ _ name Ha) as Hi. apply find_some in Ex as [Hx%list_elem_of_In Hn].
  split; [by eapply na_recs|]. unfold named in Hn. by apply bool_decide_eq_true in Hn.
Qed.

Lemma lock_ok_after c c' : lock_ok c -> same_locks c c' -> lock_ok c' /\ lck_stackp c' = lck_stackp c.
Proof. intros ? Hs. split; [by eapply lock_ok_same|apply Hs]. Qed.

#[export] Instance NVActiveDB_laws : ActiveDBLaws (obj hash_ext).
Proof.
  refine {| db_rep := nvadb_rep |}.
  - intros m n v d H (t & bk & ? & ? & ? & ? & ?). exists t, bk. split_and!; try done. lia.
  - intros n v d name r (t & bk & Ha & _ & _ & _ & Hv) E. rewrite Hv in E. by eapply adb_lookup_rec.
  - intros n v d name g (t & bk & Ha & Hlk & Hsp & Hsz & Hv) Hg. cbn [db_get db_set NVActiveDB_ops].
    eapply wp_mono; [apply (wp_adb_get t bk); [done..|lia|done]|].
    intros r s' (-> & Ha' & Hs & Ez). rewrite Hv. split; [done|]. exists t, bk.
    destruct (lock_ok_after _ _ Hlk Hs) as [? ->]. split_and!; try done. by rewrite Ez.
  - intros n v d g (t & bk & Ha & Hlk & Hsp & Hsz & Hv) Hg. cbn [db_get db_set NVActiveDB_ops].
    eapply wp_mono; [apply (wp_adb_set t bk); [done..|lia]|].
    intros r s' (-> & Ez & bk' & Ha' & Hs & Hu). split; [unfold adb_entry; rewrite Hv; by destruct (adb_lookup _ _)|].
    exists (adb_lookup bk'). split.
    + exists t, bk'. destruct (lock_ok_after _ _ Hlk Hs) as [? ->]. split_and!; try done. lia.
    + intros x. rewrite Hu, Hv. destruct (decide (x = gi_name g)); [|done]. destruct (adb_lookup bk x); reflexivity.
Defined.
End nvadb.
