(* ===== verification/RSafe.v ===== *)
(** * RSafe.v: the dialogue with the news servers ends

    The well-formed states of RServer, and that connect, issue and selectgroup end on every script of the
    network, without undefined behaviour. *)
From S2P Require Import Prelude Memory Text Matching ServerList Container GroupInfo Article OverviewFmt RServer DbLaws.
From S2P Require Import Heap Alloc NVHash ActiveDB.

(** Reads through the writes of the members. *)
Ltac rs_cbn := cbn [rs_entries rs_cur rs_group rs_conn rs_db rs_net rs_sent set_entries set_cur_server
  set_group set_conn set_db set_world].

Section safe.
Context {os : Os} {env : Env} {D : Type} {db : RServer.ActiveDB D} {laws : ActiveDBLaws D}.
Implicit Types s : rserver D.

(** ** Well-formed states *)
Definition db_ok (n : nat) (d : D) : Prop := exists v, db_rep n v d.
Lemma db_ok_less m n d : (m <= n)%nat -> db_ok n d -> db_ok m d.
Proof. intros H [v ?]. exists v. by eapply db_rep_less. Qed.

Definition entry_ok (e : MPListEntry) : Prop := - 2 ^ 31 <= retries e < 2 ^ 31.
Definition stream_ok (ist : istream) : Prop := s_fail ist = true -> s_eof ist = true.
Definition cur_ok s : Prop := exists i e, rs_cur s = Some i /\ rs_entries s !! i = Some e.

(** What an entry is besides the flags the dialogue clears. *)
Definition cfg (e : MPListEntry) : MPListEntry := set_nntpflags (fun _ => 0) e.

(** [m] updates of the database more than those the connections to come need.
    The current group, if any, belongs to the current server. *)
Record rs_ok (m : nat) s : Prop := {
  ro_entries : Forall entry_ok (rs_entries s);
  ro_cur : forall i, rs_cur s = Some i -> is_Some (rs_entries s !! i);
  ro_group : length (rs_group s) = sizeof_GroupInfo;
  ro_name : gi_name (rs_group s) = [] \/
            (is_Some (rs_cur s) /\ server (rs_entries s) (gi_name (rs_group s)) = rs_cur s);
  ro_conn : forall ist, rs_conn s = Some ist -> stream_ok ist;
  ro_db : db_ok (length (rs_net s) + m) (rs_db s)
}.

(** The server an event is for. *)
Definition ev_to (c : option nat) (ev : event) : Prop :=
  match ev with EConnect i | ESend i _ => c = Some i | EReply _ => True end.

(** [s'] comes from [s] by talking: nothing is taken back; and by talking to the
    current server only. *)
Record wlink s s' : Prop := {
  wl_net : (length (rs_net s') <= length (rs_net s))%nat;
  wl_cur : cur_ok s -> cur_ok s';
  wl_cfg : cfg <$> rs_entries s' = cfg <$> rs_entries s;
  wl_sent : exists new, rs_sent s' = new ++ rs_sent s
}.
Record link s s' : Prop := {
  lk_net : (length (rs_net s') <= length (rs_net s))%nat;
  lk_cur : rs_cur s' = rs_cur s;
  lk_cfg : cfg <$> rs_entries s' = cfg <$> rs_entries s;
  lk_sent : exists new, rs_sent s' = new ++ rs_sent s /\ Forall (ev_to (rs_cur s)) new
}.

Lemma cfg_lookup (es es' : list MPListEntry) (i : nat) : cfg <$> es' = cfg <$> es -> is_Some (es !! i) -> is_Some (es' !! i).
Proof.
  intros E. apply (f_equal length) in E. rewrite !length_fmap in E. rewrite !lookup_lt_is_Some. lia.
Qed.

Lemma find_server_cfg field es name : (forall e, field (cfg e) = field e) ->
  find_server field (cfg <$> es) name = find_server field es name.
Proof.
  intros Hf. unfold find_server.
  assert (forall i bm l, best_server field (cfg <$> es) name i bm l = best_server field es name i bm l) as ->.
  { induction es as [|e es IH]; intros i bm l; [done|]. cbn [fmap list_fmap best_server]. rewrite Hf.
    by destruct (_ <? _). }
  destruct (_ <=? _); [|done]. rewrite list_lookup_fmap. by destruct (es !! _).
Qed.

Lemma server_cfg es es' name : cfg <$> es' = cfg <$> es -> server es' name = server es name.
Proof.
  intros E. unfold server. rewrite <- (find_server_cfg e_read es'), E by done. by apply find_server_cfg.
Qed.

Lemma link_refl s : link s s.
Proof. split; try done. by exists []. Qed.
Lemma link_trans s1 s2 s3 : link s1 s2 -> link s2 s3 -> link s1 s3.
Proof.
  intros [? E ? (n1 & E1 & H1)] [? ? ? (n2 & E2 & H2)]. split; [lia|congruence|congruence|].
  exists (n2 ++ n1). rewrite E2, E1, app_assoc. split; [done|]. apply Forall_app. split; [|done].
  by rewrite E in H2.
Qed.

Lemma cur_cfg s s' : rs_cur s' = rs_cur s -> cfg <$> rs_entries s' = cfg <$> rs_entries s -> cur_ok s -> cur_ok s'.
Proof.
  intros E Ec (i & e & Hi & He). destruct (cfg_lookup _ _ i Ec ltac:(by eexists)) as [e' He'].
  exists i, e'. by rewrite E.
Qed.

Lemma link_wlink s s' : link s s' -> wlink s s'.
Proof. intros [? ? ? (n & ? & _)]. split; [done|by apply cur_cfg|done|by exists n]. Qed.
Lemma wlink_trans s1 s2 s3 : wlink s1 s2 -> wlink s2 s3 -> wlink s1 s3.
Proof.
  intros [? ? ? (n1 & E1)] [? ? ? (n2 & E2)]. split; [lia|auto|congruence|].
  exists (n2 ++ n1). by rewrite E2, E1, app_assoc.
Qed.

(** Changing what is neither a server, an event nor a connection to come. *)
Lemma link_same s s' : rs_net s' = rs_net s -> rs_cur s' = rs_cur s -> rs_entries s' = rs_entries s ->
  rs_sent s' = rs_sent s -> link s s'.
Proof. intros E1 ? E3 ?. split; [by rewrite E1|done|by rewrite E3|by exists []]. Qed.

Lemma rs_ok_less m m' s : (m <= m')%nat -> rs_ok m' s -> rs_ok m s.
Proof. intros H [? ? ? ? ? Hd]. split; try done. eapply db_ok_less; [|exact Hd]. lia. Qed.

(** ** Streams *)
Lemma getline_ok ist strg l ist' : stream_ok ist -> getline ist strg = (l, ist') ->
  stream_ok ist' /\ (s_eof ist' = true \/ (length (s_rest ist') < length (s_rest ist))%nat).
Proof.
  unfold stream_ok, getline, good. destruct ist as [r [] []]; cbn; intros Hok H; simplify_eq; cbn.
  1-2: by split; [|left]. 1: by discriminate (Hok eq_refl).
  pose proof (take_skip_while (fun c => negb (bool_decide (c = LF))) r) as E.
  destruct (skip_while _ r) as [|c r'] eqn:Es; simplify_eq; cbn; [by split; [|left]|].
  split; [done|right]. apply (f_equal length) in E. rewrite length_app in E. cbn in E. lia.
Qed.

Lemma nlreadline_ok ist strg keepnl l ist' : stream_ok ist -> nlreadline ist strg keepnl = (l, ist') ->
  stream_ok ist' /\ (s_eof ist' = true \/ (length (s_rest ist') < length (s_rest ist))%nat).
Proof.
  unfold nlreadline. destruct (getline ist strg) as [l0 i0] eqn:E. intros Hok H. simplify_eq.
  by eapply getline_ok.
Qed.

Lemma readxoin_loop_ok : forall n over ist field fn trans, (length (s_rest ist) < n)%nat -> stream_ok ist ->
  exists fn' trans' ist', readxoin_loop n over ist field fn trans = Some (fn', trans', ist') /\ stream_ok ist'.
Proof.
  induction n as [|n IH]; intros over ist field fn trans Hn Hok; [lia|]. cbn [readxoin_loop].
  destruct (nlreadline ist field false) as [l ist'] eqn:E.
  destruct (nlreadline_ok _ _ _ _ _ Hok E) as [Hok' [He|Hl]].
  - rewrite He, orb_true_r. by eauto.
  - destruct (_ || _); [by eauto|]. apply IH; [lia|done].
Qed.

Lemma readxoin_ok ist f : stream_ok ist -> exists f' ist', readxoin ist f = Some (f', ist') /\ stream_ok ist'.
Proof.
  intros Hok. unfold readxoin.
  destruct (readxoin_loop_ok (S (S (length (s_rest ist)))) (f_over f) ist [] 0 ((fun t => (-1, snd t)) <$> f_trans f)
    ltac:(lia) Hok) as (fn & tr & i & -> & H). cbn. by eauto.
Qed.

(** ** The small operations *)

(** From [s] to a well-formed [s'] of the same dialogue. *)
Definition after (m : nat) s s' : Prop := rs_ok m s' /\ link s s'.
Definition linked s : Prop := is_Some (rs_conn s).

Lemma after_trans m m' s1 s2 s3 : after m s1 s2 -> after m' s2 s3 -> after m' s1 s3.
Proof. intros [_ ?] [? ?]. split; [done|by eapply link_trans]. Qed.

Lemma runs_cur_index E s : cur_ok s -> runs cur_index (fun i s' => s' = s /\ rs_cur s = Some i) E s.
Proof. intros (i & e & Hi & He). unfold cur_index. repeat rstep. by rewrite Hi. Qed.

Lemma runs_cur_server E m s : rs_ok m s -> cur_ok s ->
  runs cur_server (fun e s' => s' = s /\ entry_ok e) E s.
Proof.
  intros Hs Hc. unfold cur_server. rstep. eapply runs_mono; [by apply runs_cur_index| |done].
  intros i s' [-> Hi]. repeat rstep. destruct Hc as (i' & e & Hi' & He). simplify_eq. rewrite He. rstep.
  split; [done|]. by eapply Forall_lookup_1; [apply Hs|].
Qed.

Lemma runs_clear E m s fl : rs_ok m s -> cur_ok s ->
  runs (clear_nntpflag fl) (fun _ s' => after m s s' /\ rs_conn s' = rs_conn s) E s.
Proof.
  intros [Hen Hcu Hg Hnm Hst Hd] Hc. unfold clear_nntpflag. rstep. eapply runs_mono; [by apply runs_cur_index| |done].
  intros i s' [-> Hi]. repeat rstep. split; [|done].
  set (f := set_nntpflags _). set (es := alter f i (rs_entries s)).
  assert (cfg <$> es = cfg <$> rs_entries s) as Ec.
  { apply list_eq. intros j. unfold es. rewrite !list_lookup_fmap, list_lookup_alter.
    case_decide; [subst j|done]. by destruct (rs_entries s !! i). }
  split; split; try done; cbn.
  - apply Forall_alter; [done|]. intros e _ [? ?]. by split.
  - intros j Hj. eapply cfg_lookup; [exact Ec|by apply Hcu].
  - by rewrite (server_cfg (rs_entries s)).
  - by exists [].
Qed.

Lemma runs_the_stream E s : linked s -> runs the_stream (fun ist s' => s' = s /\ rs_conn s = Some ist) E s.
Proof. intros [ist Hi]. unfold the_stream. repeat rstep. by rewrite Hi. Qed.

Lemma runs_conn_good E s : linked s -> runs conn_good (fun _ s' => s' = s) E s.
Proof.
  intros H. unfold conn_good. rstep. eapply runs_mono; [by apply runs_the_stream| |done].
  by intros ist s' [-> _].
Qed.

Lemma after_refl m s : rs_ok m s -> after m s s.
Proof. intros. split; [done|apply link_refl]. Qed.

Lemma runs_send E m s b : rs_ok m s -> cur_ok s -> linked s ->
  runs (send b) (fun _ s' => after m s s' /\ rs_conn s' = rs_conn s) E s.
Proof.
  intros [Hen Hcu Hg Hnm Hst Hd] Hc Hl. unfold send. rstep. eapply runs_mono; [by apply runs_the_stream| |done].
  intros ist s' [-> Hi]. rstep. eapply runs_mono; [by apply runs_cur_index| |done].
  intros i s' [-> Hi']. destruct (good ist); rstep; split; try done; [|by apply after_refl].
  split; [by split|]. split; try done. exists [ESend i b]. split; [done|by apply Forall_cons_2].
Qed.

Lemma runs_readline E m s strg keepnl : rs_ok m s -> linked s ->
  runs (readline strg keepnl) (fun _ s' => after m s s' /\ linked s') E s.
Proof.
  intros [Hen Hcu Hg Hnm Hst Hd] Hl. unfold readline. rstep. eapply runs_mono; [by apply runs_the_stream| |done].
  intros ist s' [-> Hi]. destruct (nlreadline ist strg keepnl) as [l i] eqn:E'. repeat rstep.
  split; [|by eexists]. split; [|split; try done; exists [EReply l]; split; [done|by apply Forall_cons_2]].
  split; try done. cbn. intros ? [= <-].
  by eapply (nlreadline_ok _ _ _ _ _ (Hst _ Hi) E').
Qed.

Lemma runs_connect_to E m s : rs_ok m s -> cur_ok s ->
  runs connect_to (fun b s' => after m s s' /\ (b = true -> linked s' /\
     rs_ok (S m) s' /\ (length (rs_net s') < length (rs_net s))%nat)) E s.
Proof.
  intros [Hen Hcu Hg Hnm Hst Hd] Hc. unfold connect_to. rstep. eapply runs_mono; [by apply runs_cur_index| |done].
  intros i s' [-> Hi]. repeat rstep. destruct (rs_net s) as [|[c|] net] eqn:En; repeat rstep.
  all: assert (forall net conn, (length net <= length (rs_net s))%nat ->
    link s (RServer (rs_entries s) (rs_cur s) (rs_group s) conn (rs_fmt s) (rs_pc s) (rs_db s) net
      (EConnect i :: rs_sent s))) as Hlink
    by (intros; split; [done..|]; exists [EConnect i]; split; [done|by apply Forall_cons_2]).
  - split; [|done]. split; [|apply Hlink; cbn; lia]. by split.
  - assert (forall n, (n <= S m)%nat -> rs_ok n (set_conn (Some (IStream c false false))
      (set_world net (EConnect i :: rs_sent s) s))) as Hok.
    { intros n Hn. split; try done; cbn; [by intros ? [= <-]|]. eapply db_ok_less; [|exact Hd]. cbn. lia. }
    split; [|intros _; split_and!; [by eexists|by apply Hok|by cbn; lia]].
    split; [apply Hok; lia|]. apply Hlink. rewrite En. cbn. lia.
  - split; [|done]. split; [split; try done; cbn|apply Hlink; rewrite En; cbn; lia].
    eapply db_ok_less; [|exact Hd]. cbn. lia.
Qed.

Lemma runs_disconnect E m s : rs_ok m s -> cur_ok s ->
  runs disconnect (fun _ s' => after m s s' /\ rs_conn s' = None) E s.
Proof.
  intros Hs Hc. unfold disconnect. repeat rstep. destruct (rs_conn s) as [ist|] eqn:Ei; repeat rstep.
  - eapply runs_mono; [apply runs_send; [done|done|by eexists]| |done]. intros [] s' [[[] Hk] _]. rstep.
    split; [|done]. split; [by split|]. eapply link_trans; [exact Hk|by apply link_same].
  - split; [by apply after_refl|done].
Qed.

Lemma runs_drop e (Q : unit -> rserver D -> Prop) E m s : rs_ok m s ->
  (forall s', after m s s' -> E e s') -> runs (drop_and_throw e) Q E s.
Proof. intros [] H. unfold drop_and_throw. repeat rstep. apply H. split; [by split|by apply link_same]. Qed.

(** ** The bodies of connect, issue and selectgroup

    [ends m c s]: [c] returns with a connection, or raises one of a few exceptions. *)
Definition talk_exn (e : exn) : Prop :=
  match e with
  | SystemError _ _ | ResponseError _ _ _ | AssertionError _ | NoSuchGroupError | StdException _ | Error _ => True
  | _ => False
  end.
Definition fails (m : nat) s (e : exn) s' : Prop := after m s s' /\ talk_exn e.
Definition ends {A} (m : nat) (c : M (rserver D) A) s : Prop :=
  runs c (fun _ s' => after m s s' /\ linked s') (fails m s) s.

(** [c] has led from [s] to [s1]: what follows may count from [s1]. *)
Lemma ends_from {A} m (c : M (rserver D) A) s s1 : link s s1 -> ends m c s1 ->
  runs c (fun _ s' => after m s s' /\ linked s') (fails m s) s1.
Proof.
  intros Hl H. eapply runs_mono; [exact H|..].
  - intros a s' [[? ?] ?]. split; [split; [done|by eapply link_trans]|done].
  - intros e s' [[? ?] ?]. split; [split; [done|by eapply link_trans]|done].
Qed.

Lemma ends_step {A B} m (c : M (rserver D) A) (k : A -> M (rserver D) B) s P :
  runs c P (fails m s) s ->
  (forall a s', P a s' -> link s s' /\ ends m (k a) s') -> ends m (bind c k) s.
Proof.
  intros Hc Hk. unfold ends. rstep. eapply runs_mono; [exact Hc| |done].
  intros a s' H. destruct (Hk _ _ H) as [? ?]. by apply ends_from.
Qed.

Lemma after_less m m' s s' : (m <= m')%nat -> after m' s s' -> after m s s'.
Proof. intros ? [? ?]. split; [by eapply rs_ok_less|done]. Qed.

Lemma ends_bind {A B} m m' (c : M (rserver D) A) (k : A -> M (rserver D) B) s :
  ends m' c s -> (m <= m')%nat ->
  (forall a s', rs_ok m' s' -> link s s' -> linked s' -> ends m (k a) s') -> ends m (bind c k) s.
Proof.
  intros Hc Hm Hk. eapply (ends_step _ _ _ _ (fun _ s' => after m' s s' /\ linked s')).
  - eapply runs_mono; [exact Hc|done|]. intros e s1 [? ?]. split; [by apply (after_less _ m')|done].
  - intros a s' [[? ?] ?]. split; [done|]. by apply Hk.
Qed.

Lemma ends_raise {A} m e s : rs_ok m s -> talk_exn e -> ends (A := A) m (raise e) s.
Proof. intros. apply runs_throw. split; [by apply after_refl|done]. Qed.

Lemma ends_ret {A} m (a : A) s : rs_ok m s -> linked s -> ends m (ret a) s.
Proof. intros. apply runs_ret. split; [by apply after_refl|done]. Qed.

Lemma ends_less {A} m m' (c : M (rserver D) A) s : (m <= m')%nat -> ends m' c s -> ends m c s.
Proof.
  intros ? H. eapply runs_mono; [exact H|..].
  - intros a s' [? ?]. split; [by apply (after_less _ m')|done].
  - intros e s' [? ?]. split; [by apply (after_less _ m')|done].
Qed.

Lemma ends_cur {B} m (k : MPListEntry -> M (rserver D) B) s : rs_ok m s -> cur_ok s ->
  (forall e, entry_ok e -> ends m (k e) s) -> ends m (bind cur_server k) s.
Proof.
  intros Hs Hc Hk. eapply ends_step; [by eapply runs_cur_server|]. intros e s' [-> ?].
  split; [apply link_refl|by apply Hk].
Qed.

Lemma ends_gets {A B} m (f : rserver D -> A) (k : A -> M (rserver D) B) s :
  ends m (k (f s)) s -> ends m (bind (gets f) k) s.
Proof. done. Qed.

Lemma ends_connected {B} m (k : bool -> M (rserver D) B) s :
  ends m (k (bool_decide (linked s))) s -> ends m (bind is_connected k) s.
Proof. done. Qed.

Lemma ends_modify {B} m (f : rserver D -> rserver D) (k : unit -> M (rserver D) B) s :
  link s (f s) -> ends m (k tt) (f s) -> ends m (bind (modify f) k) s.
Proof. intros. eapply (ends_step _ _ _ _ (fun _ s' => s' = f s)); [done|]. by intros [] ? ->. Qed.

Lemma ends_clear m s fl : rs_ok m s -> cur_ok s -> linked s -> ends m (clear_nntpflag fl) s.
Proof.
  intros ? ? Hl. eapply runs_mono; [by apply (runs_clear (fails m s) m)| |done]. intros ? s' [? E]. split; [done|].
  unfold linked. by rewrite E.
Qed.

Lemma ends_drop m e s : rs_ok m s -> talk_exn e -> ends m (drop_and_throw e) s.
Proof. intros. by eapply runs_drop. Qed.

Lemma cur_link s s' : cur_ok s -> link s s' -> cur_ok s'.
Proof. intros Hc []. by eapply cur_cfg. Qed.
(** *** connect *)
Section connect.
Context (N : nat) (issue_rec : bytes -> option bytes -> M (rserver D) bytes)
        (select_rec : bytes -> bool -> M (rserver D) unit).
Hypothesis Hissue : forall m s cmd ex, (length (rs_net s) < N)%nat -> rs_ok m s -> cur_ok s ->
  ends m (issue_rec cmd ex) s.
Hypothesis Hsel : forall m s name, (length (rs_net s) < N)%nat -> (length name <= 512)%nat -> (NUL ∉ name) ->
  rs_ok (S m) s -> cur_ok s -> server (rs_entries s) name = rs_cur s -> ends m (select_rec name true) s.

Lemma ends_authenticate m e s : (length (rs_net s) < N)%nat -> rs_ok m s -> cur_ok s -> linked s ->
  ends m (authenticate issue_rec e) s.
Proof.
  intros Hn Hs Hc Hl. unfold authenticate. case_bool_decide; [by apply ends_ret|].
  eapply ends_bind; [by apply Hissue|done|]. intros resp s1 Hs1 Hk1 ?.
  pose proof (cur_link _ _ Hc Hk1) as Hc1. pose proof (lk_net _ _ Hk1).
  apply (ends_bind _ m).
  - case_bool_decide; [|by apply ends_ret]. apply Hissue; [lia|done..].
  - done.
  - intros r s2 ? ? ?. case_bool_decide; [by apply ends_ret|by apply ends_drop].
Qed.

Lemma ends_no_list m s : rs_ok m s -> linked s -> ends m no_list_overview_fmt s.
Proof.
  intros Hs Hl. unfold no_list_overview_fmt. apply ends_gets.
  destruct (readxoin_ok (IStream std_overview false false) (rs_fmt s)) as (f & i & -> & _); [done|].
  apply runs_modify. split; [|done]. split; [by destruct Hs|by apply link_same].
Qed.

Lemma ends_list m s : (length (rs_net s) < N)%nat -> rs_ok m s -> cur_ok s -> linked s ->
  ends m (list_overview_fmt issue_rec) s.
Proof.
  intros Hn Hs Hc Hl. unfold list_overview_fmt. apply ends_cur; [done..|]. intros e _.
  destruct (has_flag _ _); [|by apply ends_no_list].
  eapply ends_bind; [by apply Hissue|done|]. intros resp s1 Hs1 Hk1 Hl1.
  pose proof (cur_link _ _ Hc Hk1) as Hc1. pose proof (lk_net _ _ Hk1).
  eapply ends_step; [by apply runs_the_stream|]. intros ist s' [-> Hi]. split; [apply link_refl|].
  apply ends_gets. destruct (readxoin_ok ist (rs_fmt s1)) as (f & i & -> & Hok); [by eapply ro_conn|].
  assert (rs_ok m (set_conn (Some i) (set_fmt f s1))) as Hs2.
  { destruct Hs1. split; try done. by intros ? [= <-]. }
  assert (linked (set_conn (Some i) (set_fmt f s1))) as Hl2 by by eexists.
  apply ends_modify; [by apply link_same|]. destruct (negb _); [|by apply ends_ret].
  eapply ends_bind; [by apply ends_clear|done|]. intros [] s3 ? ? ?. by apply ends_no_list.
Qed.

(** What mode_reader leaves: the connection, or none that is good. *)
Lemma ends_mode_reader m grt s : (length (rs_net s) < N)%nat -> rs_ok m s -> cur_ok s -> linked s ->
  ends m (mode_reader issue_rec grt) s.
Proof.
  intros Hn Hs Hc Hl. unfold mode_reader. apply ends_cur; [done..|]. intros e _.
  destruct (has_flag _ _); [|by apply ends_ret].
  eapply ends_bind; [by apply Hissue|done|]. intros resp s1 Hs1 Hk1 Hl1.
  pose proof (cur_link _ _ Hc Hk1) as Hc1. pose proof (lk_net _ _ Hk1).
  eapply ends_step; [by apply runs_conn_good|]. intros g s' ->. split; [apply link_refl|].
  destruct (negb g); [by apply ends_ret|].
  apply (ends_bind _ m); [|done|by intros; apply ends_ret].
  destruct (negb _); cbn [when]; [by apply ends_clear|by apply ends_ret].
Qed.

Lemma gi_name_length g : (length g <= sizeof_GroupInfo)%nat -> (length (gi_name g) <= 512)%nat.
Proof.
  intros H. unfold gi_name. destruct (cstr_prefix (drop off_name g)) as (r & E & _).
  apply (f_equal length) in E. rewrite length_app, length_drop in E. unfold sizeof_GroupInfo, off_name in *. lia.
Qed.

Lemma ends_connect_round m again grt s : (length (rs_net s) <= N)%nat -> rs_ok m s -> cur_ok s ->
  (forall g s', (length (rs_net s') <= N)%nat -> rs_ok m s' -> cur_ok s' -> ends m (again g) s') ->
  ends m (connect_round issue_rec select_rec again grt) s.
Proof.
  intros Hn Hs Hc Hagain. unfold connect_round.
  eapply ends_step; [by apply (runs_connect_to _ m)|]. intros ok s1 [[Hs1 Hk1] Hok]. split; [done|].
  destruct ok; cbn [negb]; [|by apply ends_drop]. destruct (Hok eq_refl) as (Hl1 & Hs1' & Hn1).
  eapply ends_bind; [by apply (runs_readline _ (S m))|lia|]. intros g s2 Hs2 Hk2 Hl2.
  pose proof (cur_link _ _ Hc (link_trans _ _ _ Hk1 Hk2)) as Hc2. pose proof (lk_net _ _ Hk2).
  pose proof (rs_ok_less m (S m) s2 ltac:(lia) Hs2) as Hs2'.
  eapply ends_step; [by apply runs_conn_good|]. intros gd s' ->. split; [apply link_refl|].
  destruct (negb gd); [apply Hagain; [lia|done..]|]. destruct (negb _); [by apply ends_drop|].
  apply ends_cur; [done..|]. intros e _.
  apply (ends_bind _ (S m)); [apply ends_authenticate; [lia|done..]|lia|]. intros [] s3 Hs3 Hk3 Hl3.
  pose proof (cur_link _ _ Hc2 Hk3) as Hc3. pose proof (lk_net _ _ Hk3).
  apply (ends_bind _ (S m)); [apply ends_mode_reader; [lia|done..]|lia|]. intros r s4 Hs4 Hk4 Hl4.
  pose proof (cur_link _ _ Hc3 Hk4) as Hc4. pose proof (lk_net _ _ Hk4).
  destruct r as [resp|]; [|apply Hagain; [lia|by apply (rs_ok_less m (S m)); [lia|]|done]].
  apply (ends_bind _ (S m)); [|lia|].
  { case_bool_decide; cbn [when]; [by apply ends_clear|by apply ends_ret]. }
  intros [] s5 Hs5 Hk5 Hl5. pose proof (cur_link _ _ Hc4 Hk5) as Hc5. pose proof (lk_net _ _ Hk5).
  apply (ends_bind _ (S m)); [apply ends_list; [lia|done..]|lia|]. intros [] s6 Hs6 Hk6 Hl6.
  pose proof (cur_link _ _ Hc5 Hk6) as Hc6. pose proof (lk_net _ _ Hk6). apply ends_gets.
  case_bool_decide; cbn [negb when].
  - apply ends_ret; [by apply (rs_ok_less m (S m)); [lia|]|done].
  - apply Hsel; [lia| |apply NUL_notin_cstr|done..|].
    + apply gi_name_length. by rewrite (ro_group _ _ Hs6).
    + by destruct (ro_name _ _ Hs6) as [|[_ ?]].
Qed.

Lemma ends_connect_loop m : forall i grt s, (length (rs_net s) <= N)%nat -> rs_ok m s -> cur_ok s ->
  ends m (connect_loop issue_rec select_rec i grt) s.
Proof.
  induction i as [|i IH]; intros grt s ???; cbn [connect_loop]; apply ends_connect_round; try done.
  intros. by apply ends_raise.
Qed.

Lemma ends_connect m s : (length (rs_net s) <= N)%nat -> rs_ok m s -> cur_ok s ->
  ends m (connect_body issue_rec select_rec) s.
Proof.
  intros ???. unfold connect_body. apply ends_connected. case_bool_decide; [by apply ends_ret|].
  apply ends_cur; [done..|]. intros e _. by apply ends_connect_loop.
Qed.
End connect.

(** *** issue *)
Section issue.
Context (N : nat) (connect_rec : M (rserver D) unit).
Hypothesis Hconn : forall m s, (length (rs_net s) <= N)%nat -> rs_ok m s -> cur_ok s -> ends m connect_rec s.

Lemma reconnect_ends m : forall i s, (1 <= i)%nat -> (length (rs_net s) <= N)%nat -> rs_ok m s -> cur_ok s ->
  runs (reconnect connect_rec i) (fun j s' => after m s s' /\ linked s' /\ (1 <= j < i)%nat)
    (fails m s) s.
Proof.
  induction i as [|i IH]; intros s Hi Hn Hs Hc; [lia|]. cbn [reconnect].
  destruct (Nat.eqb_spec i 0); [apply runs_throw; split; [by apply after_refl|done]|].
  rstep. eapply runs_mono; [by apply (runs_disconnect (fails m s) m)| |done]. intros [] s1 [[Hs1 Hk1] _].
  pose proof (lk_net _ _ Hk1). pose proof (cur_link _ _ Hc Hk1) as Hc1.
  rstep. apply runs_catch. rstep.
  eapply runs_mono; [apply (Hconn m); [lia|done..]|..].
  - intros [] s2 [[Hs2 Hk2] Hl2]. rstep. cbn beta iota. rstep.
    split_and!; [split; [done|by eapply link_trans]|done|lia|lia].
  - intros e s2 [[Hs2 Hk2] He]. pose proof (link_trans _ _ _ Hk1 Hk2) as Hk. pose proof (lk_net _ _ Hk2).
    destruct (is_system e); rstep; cbn beta iota; [|by split; [split|]].
    eapply runs_mono; [apply IH; [lia|lia|done|by eapply cur_link]|..].
    + intros j s3 ([? ?] & ? & ?). split_and!; [split; [done|by eapply link_trans]|done|lia|lia].
    + intros e3 s3 [[? ?] ?]. split; [split; [done|by eapply link_trans]|done].
Qed.

Lemma ends_issue_loop m command : forall k i resp s, (1 <= i <= k)%nat -> (length (rs_net s) <= N)%nat ->
  rs_ok m s -> cur_ok s -> linked s -> ends m (issue_loop connect_rec k i command resp) s.
Proof.
  induction k as [|k IH]; intros i resp s Hi Hn Hs Hc Hl; [lia|]. cbn [issue_loop].
  eapply ends_step; [by apply (runs_send _ m)|]. intros [] s1 [[Hs1 Hk1] El]. split; [done|].
  assert (linked s1) as Hl1 by (unfold linked; by rewrite El).
  pose proof (cur_link _ _ Hc Hk1) as Hc1. pose proof (lk_net _ _ Hk1).
  eapply ends_bind; [by apply (runs_readline _ m)|done|]. intros r s2 Hs2 Hk2 Hl2.
  pose proof (cur_link _ _ Hc1 Hk2) as Hc2. pose proof (lk_net _ _ Hk2).
  eapply ends_step; [by apply runs_conn_good|]. intros g s' ->. split; [apply link_refl|].
  destruct (_ && _); [by apply ends_ret|].
  eapply ends_step; [apply (reconnect_ends m); [lia|lia|done..]|]. intros j s3 ([Hs3 Hk3] & Hl3 & Hj).
  split; [done|]. pose proof (lk_net _ _ Hk3). apply IH; [lia|lia|done|by eapply cur_link|done].
Qed.

Lemma ends_issue m command ex s : (length (rs_net s) <= N)%nat -> rs_ok m s -> cur_ok s ->
  ends m (issue_body connect_rec command ex) s.
Proof.
  intros Hn Hs Hc. unfold issue_body. apply ends_cur; [done..|]. intros e [He1 He2]. cbv zeta.
  assert (1 <= countdown (retries e + 1))%nat as Hcd.
  { unfold countdown. destruct (Z.leb_spec (retries e + 1) 0); lia. }
  apply ends_connected. eapply (ends_bind _ m); [|done|].
  - case_bool_decide; [by apply ends_ret|by apply Hconn].
  - intros [] s1 Hs1 Hk1 Hl1. pose proof (lk_net _ _ Hk1).
    eapply (ends_bind _ m); [apply ends_issue_loop; [lia|lia|done|by eapply cur_link|done]|done|].
    intros resp s2 Hs2 Hk2 Hl2. destruct (_ || _); [|by apply ends_ret].
    destruct ex; by apply ends_raise.
Qed.
End issue.

(** *** selectgroup *)
Lemma cur_of_ok m s i : rs_ok m s -> rs_cur s = Some i -> cur_ok s.
Proof. intros Hs Hi. destruct (ro_cur _ _ Hs i Hi) as [e He]. by exists i, e. Qed.

Lemma find_server_lookup field es name i : find_server field es name = Some i -> is_Some (es !! i).
Proof.
  unfold find_server. destruct (_ <=? _); [|done].
  destruct (es !! Z.to_nat _) eqn:E; [|done]. case_bool_decide; intros [= <-]. by eexists.
Qed.

Lemma server_lookup es name i : server es name = Some i -> is_Some (es !! i).
Proof. apply find_server_lookup. Qed.

(** From [s] with the server [i] made current: nothing happens when it is already;
    else the connection is closed, and a server is told only if it was connected. *)
Record moved (i : nat) s s' : Prop := {
  mv_link : wlink s s';
  mv_same : rs_cur s = Some i -> s' = s;
  mv_cur : rs_cur s' = Some i;
  mv_conn : rs_cur s <> Some i -> (rs_cur s = None -> rs_conn s = None) -> rs_conn s' = None;
  mv_sent : exists new, rs_sent s' = new ++ rs_sent s /\ Forall (ev_to (rs_cur s)) new /\
              (rs_conn s = None -> new = [])
}.

Lemma runs_setserver E m s i : rs_ok m s -> is_Some (rs_entries s !! i) ->
  runs (setserver i) (fun _ s' => rs_ok m s' /\ moved i s s') E s.
Proof.
  intros Hs Hi. unfold setserver. repeat rstep. case_bool_decide as Hc.
  { rstep. split; [done|]. split; try done; [apply link_wlink, link_refl|by exists []]. }
  rstep. apply (runs_mono _ (fun _ s1 => after m s s1 /\ (is_Some (rs_cur s) -> rs_conn s1 = None) /\
    (rs_conn s = None -> s1 = s \/ s1 = set_conn None s) /\ (rs_cur s = None -> s1 = s)) _ E).
  - case_bool_decide as Hc2; [|by apply runs_ret; split; [by apply after_refl|split_and!; auto]].
    destruct Hc2 as [j Hj]. destruct (rs_conn s) as [ist|] eqn:Ec.
    + eapply runs_mono; [apply (runs_disconnect E m); [done|by eapply cur_of_ok]| |done].
      intros _ s1 [? ?]. split_and!; try done. by rewrite Hj.
    + unfold disconnect. rstep. rstep. rewrite Ec. rstep. split_and!; try done; [by apply after_refl|auto].
  - intros _ s1 ([[] Hk] & Hcn & Hsame & Hnone). pose proof (cfg_lookup _ _ i (lk_cfg _ _ Hk) Hi) as Hi1.
    destruct (link_wlink _ _ Hk). rstep.
    split; [split; try done; cbn; [by intros ? [= <-]|by apply length_init|left; by apply name_init]|].
    split; try done.
    + split; try done. intros _. destruct Hi1 as [e He]. by exists i, e.
    + intros _ Hn. rs_cbn. destruct (rs_cur s) as [j|] eqn:Ej; [by apply Hcn|]. rewrite Hnone by done. by apply Hn.
    + destruct (lk_sent _ _ Hk) as (new & En & Hnew). exists new. split_and!; [done|done|].
      intros Hn. assert (rs_sent s1 = rs_sent s) as Es by (destruct (Hsame Hn); by subst s1).
      rewrite Es in En. apply (f_equal length) in En. rewrite length_app in En. destruct new; [done|].
      cbn in En. lia.
  - done.
Qed.

(** The name of the group is one of the current server. *)
Definition of_server name s : Prop := is_Some (rs_cur s) /\ server (rs_entries s) name = rs_cur s.

Lemma runs_cur_group_set m s name f l n : rs_ok m s -> (length name <= 512)%nat -> (NUL ∉ name) ->
  of_server name s ->
  runs (cur_group_set name f l n) (fun _ s' => after m s s' /\ rs_conn s' = rs_conn s /\ gi_ok (rs_group s') /\
    gi_name (rs_group s') = name) (fails m s) s.
Proof.
  intros [] Hn Hnul Hof. unfold cur_group_set. repeat rstep.
  pose proof (gi_name_padded name (rs_group s) ltac:(done) Hn) as En. rewrite cstr_all in En by done.
  set (g := put _ _ _) in *. cbn [rs_group set_group]. assert (length g = sizeof_GroupInfo) as Hg.
  { subst g. rewrite length_put; [done|]. rewrite length_app, length_take, length_replicate. gi_off. lia. }
  eapply runs_mono; [by apply (gi_set_group_fields (os_time) name f l n "y"%char g)|..].
  - intros r s' (-> & Hr & Er & _). rewrite cstr_all in Er by done. rstep. split_and!; [|done..].
    split; [|by apply link_same]. split; try done; [by destruct Hr|]. right. rs_cbn. by rewrite Er.
  - intros e s' [-> He]. split; [|by destruct He as [_ ->]]. split; [|by apply link_same].
    split; try done. right. rs_cbn. by rewrite En.
Qed.

Lemma runs_on_db {A} (c : M D A) (P : A -> D -> Prop) (Q : A -> rserver D -> Prop) E s :
  wp c P (rs_db s) -> (forall a d, P a d -> Q a (set_db d s)) -> runs (on_db c) Q E s.
Proof. unfold wp, runs, on_db. destruct (c (rs_db s)); try done. intros H HQ. by apply HQ. Qed.

Lemma runs_db_get E m s name g : rs_ok m s -> length g = sizeof_GroupInfo ->
  runs (on_db (db_get name g)) (fun r s' => after m s s' /\ rs_conn s' = rs_conn s /\
    rs_group s' = rs_group s /\ forall g', r = Some g' -> length g' = sizeof_GroupInfo /\ gi_name g' = name) E s.
Proof.
  intros [? ? ? ? ? [v Hd]] Hg. eapply runs_on_db; [by apply (db_get_law _ _ _ name g Hd)|].
  intros r d (-> & Hd'). split_and!; [|done|done|].
  - split; [split; try done; by exists v|by apply link_same].
  - intros g'. destruct (v name) as [x|] eqn:E1; cbn [fmap option_fmap option_map]; intros [= <-].
    destruct (db_rep_rec _ _ _ _ _ Hd E1) as [Hr Ex]. split; [|by rewrite put_raw_name].
    destruct Hr. rewrite length_put; cbn [Nat.add]; lia.
Qed.

Lemma runs_store E m s name f l n : rs_ok (S m) s -> (length name <= 512)%nat -> (NUL ∉ name) -> of_server name s ->
  (forall e s', fails (S m) s e s' -> E e s') ->
  runs (cur_group_set name f l n ;;; g <- gets rs_group ;; g <- on_db (db_set g 0) ;; modify (set_group g))
    (fun _ s' => after m s s' /\ rs_conn s' = rs_conn s) E s.
Proof.
  intros Hs Hn Hnul Hof HE. rstep. eapply runs_mono; [by apply (runs_cur_group_set (S m))| |by intros; apply HE].
  intros [] s1 ([[? ? ? Hnm ? [v Hd]] Hk] & Ec & Hg & En). do 3 rstep.
  eapply (runs_on_db _ _ _ _ _ (db_set_law (length (rs_net s1) + m) _ _ _ ltac:(by rewrite <- plus_n_Sm in Hd) Hg)).
  intros g' d (-> & v' & Hd' & _). rstep. split; [|done].
  destruct (setctime_keeps (match v (gi_name (rs_group s1)) with Some r => gi_ctime r | None => os_time end) _ Hg)
    as (Hg2 & En2 & _).
  split; [split; try done; [| |by exists v']|eapply link_trans; [exact Hk|by apply link_same]].
  - apply Hg2.
  - rs_cbn. by rewrite En2.
Qed.

(** What selectgroup leads to: its server is current, and was talked to. *)
Definition selected (m : nat) (name : bytes) s s' : Prop :=
  rs_ok m s' /\ (s' = s \/ exists i s1, server (rs_entries s) name = Some i /\ moved i s s1 /\ link s1 s').

(** What it returns with; without [force] the group may be selected already. *)
Definition chosen (m : nat) (name : bytes) s s' : Prop :=
  rs_ok m s' /\ ((s' = s /\ gi_name (rs_group s) = name) \/
                  exists i s1, server (rs_entries s) name = Some i /\ moved i s s1 /\ link s1 s').

Lemma chosen_selected m name s s' : chosen m name s s' -> selected m name s s'.
Proof. intros [? [[? _]|?]]; split; auto. Qed.

Lemma chosen_from m name i s s1 s2 : server (rs_entries s) name = Some i -> moved i s s1 -> after m s1 s2 ->
  chosen m name s s2.
Proof. intros Hsrv Hm [Hs2 Hk2]. split; [done|]. right. by exists i, s1. Qed.

Lemma selected_from m name i s s1 s2 : server (rs_entries s) name = Some i -> moved i s s1 -> after m s1 s2 ->
  selected m name s s2.
Proof. intros Hsrv Hm [Hs2 Hk2]. split; [done|]. right. by exists i, s1. Qed.

Lemma selected_link m name s s' : selected m name s s' -> server (rs_entries s) name = rs_cur s -> link s s'.
Proof.
  intros [_ [->|(i & s1 & E & Hm & Hk)]] Hsrv; [apply link_refl|]. rewrite Hsrv in E.
  by rewrite (mv_same _ _ _ Hm E) in Hk.
Qed.

Section selectgroup.
Context (N : nat) (issue_rec : bytes -> option bytes -> M (rserver D) bytes).
Hypothesis Hissue : forall m s cmd ex, (length (rs_net s) <= N)%nat -> rs_ok m s -> cur_ok s ->
  ends m (issue_rec cmd ex) s.

(** With [force] selectgroup leaves a connection. *)
Lemma selectgroup_ends m name force s : (length (rs_net s) <= N)%nat -> (NUL ∉ name) -> rs_ok (S m) s ->
  runs (selectgroup_body issue_rec name force)
    (fun _ s' => chosen m name s s' /\ (force = true -> linked s')) (fun e s' => selected m name s s' /\ talk_exn e) s.
Proof.
  intros Hn Hnul Hs. pose proof (rs_ok_less m (S m) s ltac:(lia) Hs) as Hs'.
  assert (selected m name s s) as Hself by (split; [done|by left]).
  unfold selectgroup_body. destruct (Nat.ltb_spec 512 (length name)); [by apply runs_throw; split|].
  do 2 rstep. destruct (negb force && _) eqn:Ef.
  { apply andb_true_iff in Ef as [Ef En]. apply bool_decide_eq_true in En. rstep.
    split; [split; [done|by left]|]. by intros ->. }
  do 2 rstep. destruct (server _ _) as [i|] eqn:Ei; [|by apply runs_throw; split].
  rstep. eapply runs_mono; [apply (runs_setserver (fun e s' => selected m name s s' /\ talk_exn e) (S m)); [done|by eapply server_lookup]| |done].
  intros [] s1 [Hs1 Hm]. pose proof (wl_net _ _ (mv_link _ _ _ Hm)). pose proof (mv_cur _ _ _ Hm) as Hi1.
  assert (of_server name s1) as Hof.
  { split; [by rewrite Hi1|]. rewrite Hi1, <- Ei. apply server_cfg, (mv_link _ _ _ Hm). }
  apply (runs_mono _ (fun _ s' => after m s1 s' /\ linked s') _ (fails m s1)).
  2: { intros _ s' [? ?]. split; [by eapply chosen_from|done]. }
  2: { intros e s' [? ?]. split; [by eapply selected_from|done]. }
  apply (ends_bind m (S m)); [apply (Hissue (S m)); [lia|done|by eapply cur_of_ok]|lia|].
  intros resp s2 Hs2 Hk2 Hl2. pose proof (rs_ok_less m (S m) s2 ltac:(lia) Hs2) as Hs2'.
  destruct (nntp_iscode resp (bs "211")); cbn [negb]; [|destruct (nntp_iscode _ _); by apply ends_raise].
  destruct (strtol _) as [nbr p]. destruct (strtol _) as [fst p2]. destruct (strtol p2) as [lst ep].
  assert (forall s3, link s2 s3 -> of_server name s3) as Hof3.
  { intros s3 Hk3. pose proof (link_trans _ _ _ Hk2 Hk3) as [_ Ec Ee _]. destruct Hof as [? ?].
    split; [by rewrite Ec|]. rewrite Ec. by rewrite (server_cfg (rs_entries s1)). }
  assert (forall s3 f l n, rs_ok (S m) s3 -> link s2 s3 -> linked s3 ->
    ends m (cur_group_set name f l n ;;; g <- gets rs_group ;; g <- on_db (db_set g 0) ;; modify (set_group g)) s3)
    as Hstore.
  { intros s3 f l n Hs3 Hk3 Hl3. eapply runs_mono; [apply (runs_store (fails (S m) s3) m); [done..|by apply Hof3|done]|..].
    - intros [] s4 [? Ec]. split; [done|]. unfold linked. by rewrite Ec.
    - intros e s4 [? ?]. split; [apply (after_less _ (S m)); [lia|done]|done]. }
  destruct (bool_decide (ep = resp)); apply ends_gets;
    (eapply ends_step; [apply (runs_db_get (fails m s2) (S m)); [done|by apply Hs2]|]);
    intros r s3 ([Hs3 Hk3] & Ec & Eg & Hr); (split; [done|]);
    assert (linked s3) as Hl3 by (unfold linked; by rewrite Ec).
  - destruct r as [g|]; [|by apply Hstore]. destruct (Hr g eq_refl) as [Hgl Hgn]. destruct (Hof3 _ Hk3) as [? ?].
    apply runs_modify. split; [|done]. split; [|by apply link_same]. destruct Hs3.
    split; try done; [right; rs_cbn; by rewrite Hgn|]. eapply db_ok_less; [|eassumption]. cbn. lia.
  - assert (default (rs_group s2) r = rs_group s3 \/ (length (default (rs_group s2) r) = sizeof_GroupInfo /\
      gi_name (default (rs_group s2) r) = name)) as Hg.
    { destruct r as [g|]; [right; by apply Hr|by left]. }
    set (g := default (rs_group s2) r) in *. assert (link s3 (set_group g s3)) as Hk4 by by apply link_same.
    apply ends_modify; [done|]. apply Hstore; [|by eapply link_trans|done].
    destruct (Hof3 _ Hk3) as [? ?]. destruct Hs3 as [? ? Hl Hnm ? ?].
    destruct Hg as [->|[Hgl Hgn]]; split; try done. right. rs_cbn. by rewrite Hgn.
Qed.
End selectgroup.

(** *** Tying the knot *)
Lemma calls_end : forall n,
  (forall m s, (3 * length (rs_net s) + 1 <= n)%nat -> rs_ok m s -> cur_ok s -> ends m (connect_n n) s) /\
  (forall m s cmd ex, (3 * length (rs_net s) + 2 <= n)%nat -> rs_ok m s -> cur_ok s ->
     ends m (issue_n n cmd ex) s) /\
  (forall m s name force, (3 * length (rs_net s) + 3 <= n)%nat -> (NUL ∉ name) -> rs_ok (S m) s ->
     runs (selectgroup_n n name force)
       (fun _ s' => chosen m name s s' /\ (force = true -> linked s')) (fun e s' => selected m name s s' /\ talk_exn e) s).
Proof.
  induction n as [|n (IHc & IHi & IHs)]; [split_and!; intros; lia|]. cbn [connect_n issue_n selectgroup_n].
  split_and!.
  - intros m s Hn. apply (ends_connect (length (rs_net s))); [| |done].
    + intros. apply IHi; [lia|done..].
    + intros m' s' name Hl _ Hnul Hs' _ Hsrv. eapply runs_mono; [apply (IHs m'); [lia|done..]|..].
      * intros _ s2 [Hsel ?]. split; [split; [apply Hsel|by eapply selected_link, Hsrv; apply chosen_selected]|auto].
      * intros e s2 [Hsel ?]. split; [split; [apply Hsel|by eapply selected_link]|done].
  - intros m s cmd ex Hn. apply (ends_issue (length (rs_net s))); [|done].
    intros. apply IHc; [lia|done..].
  - intros m s name force Hn. apply (selectgroup_ends (length (rs_net s))); [|done].
    intros. apply IHi; [lia|done..].
Qed.

Lemma connect_ends m s : rs_ok m s -> cur_ok s -> ends m connect s.
Proof. intros. apply (calls_end (3 * length (rs_net s) + 3)); [lia|done..]. Qed.
Lemma issue_ends m s cmd ex : rs_ok m s -> cur_ok s -> ends m (issue cmd ex) s.
Proof. intros. apply (calls_end (3 * length (rs_net s) + 3)); [lia|done..]. Qed.
Lemma select_ends m s name force : (NUL ∉ name) -> rs_ok (S m) s ->
  runs (selectgroup name force)
    (fun _ s' => chosen m name s s' /\ (force = true -> linked s')) (fun e s' => selected m name s s' /\ talk_exn e) s.
Proof. intros. apply (calls_end (3 * length (rs_net s) + 3)); [lia|done..]. Qed.

(** C18: connect, issue and selectgroup end on every script of the network: from a
    well-formed state, whatever the connections to come deliver, they return (with
    a connection) or raise an exception, without undefined behaviour and without
    exhausting the fuel, and leave a well-formed state.  The nesting of connect,
    issue and selectgroup is bounded by the connections that are left, the retry
    counters by their loops. *)
Theorem dialogue_ends m s : rs_ok (S m) s ->
  (cur_ok s -> ends m connect s /\ forall cmd ex, ends m (issue cmd ex) s) /\
  forall name force, (NUL ∉ name) -> runs (selectgroup name force)
    (fun _ s' => chosen m name s s' /\ (force = true -> linked s')) (fun e s' => selected m name s s' /\ talk_exn e) s.
Proof.
  intros Hs. pose proof (rs_ok_less m (S m) s ltac:(lia) Hs) as Hs'. split; [intros Hcur; split|].
  - by apply connect_ends.
  - intros cmd ex. by apply issue_ends.
  - intros name force ?. by apply select_ends.
Qed.
End safe.

(** ** A concrete state: one server, three connections to come *)
Definition ex_server : MPListEntry :=
  set_groups (bs "*") (bs "*") [] (set_host (bs "news.example") (bs "119") init_entry).
Definition ex_net : list (option bytes) :=
  [Some (bs "200 hello" ++ [CR; LF]); None;
   Some (bs "200 hello" ++ [CR; LF] ++ bs "200 reader" ++ [CR; LF] ++ bs "503 no" ++ [CR; LF])].
Definition ex_rserver {D} (d : D) : rserver D :=
  RServer [ex_server] (Some 0%nat) (gi_init (replicate sizeof_GroupInfo "x"%char)) None (new_fmt []) 1 d ex_net [].

Section example.
#[local] Existing Instance good_os.

Lemma ex_adb_room : mem_sz (core ex_adb) + 2 ^ 24 <= limit.
Proof. vm_compute. discriminate. Qed.
#[local] Opaque ex_adb no_buckets.

Lemma ex_db_rep : db_rep 20 (adb_lookup no_buckets) ex_adb.
Proof.
  destruct ex_adb_ok as ((t & Hn) & Hlk & Hsp). exists t, no_buckets.
  pose proof ex_adb_room. rewrite Hsp. unfold LOCKSTACKSIZE.
  split_and!; [exact Hn|exact Hlk|lia|lia|intros x; reflexivity].
Qed.
Lemma ex_db_ok : db_ok 20 ex_adb.
Proof. eexists. exact ex_db_rep. Qed.

Lemma ex_rs_ok : rs_ok 10 (ex_rserver ex_adb) /\ cur_ok (ex_rserver ex_adb).
Proof.
  split; [split|].
  - apply Forall_cons_2; [split; vm_compute; [discriminate|reflexivity]|apply Forall_nil_2].
  - intros i [= <-]. by eexists.
  - vm_compute. reflexivity.
  - left. vm_compute. reflexivity.
  - done.
  - eapply db_ok_less; [|apply ex_db_ok]. cbn. lia.
  - by exists 0%nat, ex_server.
Qed.

(** The same with another network. *)
Definition ex_talk {D} (d : D) (net : list bytes) : rserver D :=
  set_world (Some <$> net) [] (ex_rserver d).

Lemma ex_talk_ok net : (length net <= 10)%nat -> rs_ok 5 (ex_talk ex_adb net) /\ cur_ok (ex_talk ex_adb net).
Proof.
  intros Hn. destruct ex_rs_ok as [[H1 H2 H3 H4 H5 _] H7]. split; [|exact H7]. split; [exact H1|exact H2|exact H3|exact H4|exact H5|].
  eapply db_ok_less; [|apply ex_db_ok]. unfold ex_talk. rs_cbn. rewrite length_fmap. lia.
Qed.
Definition ex_state (net : list bytes) : rserver (obj hash_ext) := ex_talk ex_adb net.
#[local] Opaque ex_talk.

Lemma dialogue_ends_witness : ends 9 (issue (crlf (bs "date")) None) (ex_rserver ex_adb) /\
  runs (selectgroup (bs "comp.x") true) (fun _ s' => linked s') (fun _ _ => True) (ex_rserver ex_adb).
Proof.
  destruct ex_rs_ok as [H1 H2]. destruct (dialogue_ends 9 _ H1) as [H3 H4]. split.
  - apply (H3 H2).
  - eapply runs_mono; [apply (H4 (bs "comp.x") true); notin| |done]. intros ? ? [_ Hl]. by apply Hl.
Defined.
End example.
