(* ===== verification/RNews.v ===== *)
(** * RNews.v: retrieving and posting articles over the network

    The operations of the class RServer (NServer-0.9.1/NServer.cc) behind connect,
    issue and selectgroup. *)
From S2P Require Import Prelude Memory Text Matching ServerList Container GroupInfo Article OverviewFmt RServer.

(** What overviewdb uses of a newsgroup; its format is the one of the server. *)
Class Newsgroup (G : Type) := {
  ng_name : G -> bytes;
  ng_readoverdb : OverviewFmt -> istream -> M G istream
}.

Section rnews.
Context {os : Os} {env : Env} {D : Type} {db : ActiveDB D}.
Abbreviation MR := (M (rserver D)).

(** [_ActiveDB->read( *_pServerStream, ...)] *)
Definition read_active (filter : option bytes) (fl : Z) : MR unit :=
  ist <- the_stream ;;
  r <- on_db (db_read ist filter fl) ;;
  modify (set_conn (Some (snd r))) ;;;
  match fst r with Some e => raise e | None => ret tt end.

(** The filter for the groups of a server. *)
Definition the_filter (i : nat) (arg : bytes) : MR bytes :=
  es <- gets rs_entries ;;
  match makeFilter es i arg with Some f => ret f | None => abort "makeFilter" end.

(** The expressions of the server, one [list active] for each. *)
Fixpoint list_active_loop (i : nat) (fl : Z) (exprs : list bytes) : MR unit :=
  match exprs with
  | [] => ret tt
  | cgroup :: rest =>
      if (512 <? length cgroup)%nat then abort "expression longer than its buffer" else
      issue (crlf (bs "list active " ++ cgroup)) (Some (bs "215")) ;;;
      f <- the_filter i cgroup ;;
      read_active (Some f) fl ;;;
      list_active_loop i fl rest
  end.

Definition is_response (e : exn) : bool := match e with ResponseError _ _ _ => true | _ => false end.
(** The classes derived from Error. *)
Definition is_error (e : exn) : bool := match e with CharPtr _ | StdException _ => false | _ => true end.

(** Body of the try block of active. *)
Definition active_server (i : nat) : MR unit :=
  setserver i ;;;
  e <- cur_server ;;
  if has_flag (flags e) (Z.lor F_OFFLINE F_SEMIOFFLINE) then ret tt else
  let fl := if has_flag (nntpflags e) F_POST || negb (has_flag (flags e) F_SETPOSTFLAG) then 0 else 1 in
  connect ;;;
  e <- cur_server ;;
  (if has_flag (nntpflags e) F_LIST_ACTIVE_WILDMAT then
     catch (list_active_loop i fl (rules_of (e_read e)))
       (fun x => if is_response x then clear_nntpflag F_LIST_ACTIVE_WILDMAT else raise x)
   else ret tt) ;;;
  e <- cur_server ;;
  if has_flag (nntpflags e) F_LIST_ACTIVE_WILDMAT then ret tt else
  issue (crlf (bs "list active")) (Some (bs "215")) ;;;
  f <- the_filter i (bs "*") ;;
  read_active (Some f) fl.

Fixpoint active_loop (n i : nat) : MR unit :=
  match n with
  | O => ret tt
  | S n =>
      es <- gets rs_entries ;;
      match es !! i with
      | None => ret tt
      | Some e =>
          (if bool_decide (hostname e = []) then ret tt
           else catch (active_server i) (fun x => if is_error x then ret tt else raise x)) ;;;
          active_loop n (i + 1)
      end
  end.
Definition r_active : MR unit := es <- gets rs_entries ;; active_loop (length es) 0.

(** groupinfo; [agroup] is the static object that holds the result. *)
Definition r_groupinfo (name : bytes) (agroup : GroupInfo) : MR GroupInfo :=
  if (510 <? length name)%nat then raise (AssertionError (ln "RServer::groupinfo: name of newsgroup too long")) else
  r <- on_db (db_get name agroup) ;;
  match r with
  | Some g => ret g
  | None => selectgroup name true ;;; gets rs_group
  end.

(** The loop of listgroup; [lstgrp] holds the marks of [f] to [l]. *)
Fixpoint listgroup_loop (n : nat) (line : bytes) (f l : Z) (lstgrp : list bool) : MR (list bool) :=
  match n with
  | O => spin
  | S n =>
      line <- readline line true ;;
      if bool_decide (line = bs "." ++ [CR; LF]) then ret lstgrp else
      g <- conn_good ;;
      if negb g then raise (SystemError "error while reading from server" 0) else
      let i := w32 (atoi (cstr line)) in
      if (f <=? i) && (i <=? l) then
        let k := Z.to_nat (i - f) in
        if (k <? length lstgrp)%nat then listgroup_loop n line f l (<[k := true]> lstgrp)
        else abort "mark outside the array"
      else listgroup_loop n line f l lstgrp
  end.
Definition r_listgroup (gname : bytes) (f l : Z) (lstgrp : list bool) : MR (list bool) :=
  selectgroup gname false ;;;
  resp <- issue (crlf (bs "listgroup")) None ;;
  if negb (nntp_iscode resp (bs "211")) then raise (ResponseError (crlf (bs "listgroup")) (bs "211") resp) else
  ist <- the_stream ;;
  listgroup_loop (S (S (length (s_rest ist)))) [] f l lstgrp.

(** Running an operation of a newsgroup on the stream. *)
Definition on_group {G} {ng : Newsgroup G} (g : G) : MR G :=
  ist <- the_stream ;; fmt <- gets rs_fmt ;;
  match ng_readoverdb fmt ist g with
  | Ret ist g => modify (set_conn (Some ist)) ;;; ret g
  | Throw e _ => raise e
  | Abort w => abort w
  | Spin => spin
  end.

Definition over_cmd (xover : bool) (fst lst : Z) : bytes :=
  crlf ((if xover then bs "xover " else bs "over ") ++ dec (s32 fst) ++ bs "-" ++ dec (s32 lst)).

(** The loop of overviewdb; each round clears a flag. *)
Fixpoint overviewdb_loop {G} {ng : Newsgroup G} (n : nat) (g : G) (xover : bool) (fst lst : Z) : MR G :=
  match n with
  | O => spin
  | S n =>
      e <- cur_server ;;
      let xover := xover || negb (has_flag (nntpflags e) F_OVER) in
      if negb (has_flag (nntpflags e) F_XOVER)
      then raise (NSError "news server neither implements OVER nor XOVER") else
      resp <- issue (over_cmd xover fst lst) None ;;
      if nntp_iscode resp (bs "224") then on_group g
      else if nntp_iscode resp (bs "502") then raise NotAllowedError
      else if nntp_iscode resp (bs "412") then raise NoSuchGroupError
      else if nntp_iscode resp (bs "420") then raise (ResponseError (over_cmd xover fst lst) (bs "224") resp)
      else clear_nntpflag (if xover then F_XOVER else F_OVER) ;;; overviewdb_loop n g xover fst lst
  end.
Definition r_overviewdb {G} {ng : Newsgroup G} (g : G) (fst lst : Z) : MR G :=
  selectgroup (ng_name g) false ;;; overviewdb_loop 3 g false fst lst.

(** [art->read( *_pServerStream)] *)
Definition read_article (nbr : Z) (art : Article) : MR Article :=
  ist <- the_stream ;;
  match a_read ist art with
  | None => spin
  | Some (art, ist) => modify (set_conn (Some ist)) ;;; ret (a_setnbr nbr art)
  end.

Definition r_article (gname : bytes) (nbr : Z) (art : Article) : MR Article :=
  selectgroup gname false ;;;
  resp <- issue (crlf (bs "article " ++ dec (w32 nbr))) None ;;
  if negb (bool_decide (take 3 resp = bs "220")) then
    if bool_decide (take 3 resp = bs "423") then raise NoSuchArticleError
    else raise (ResponseError (crlf (bs "article " ++ dec (w32 nbr))) (bs "220") resp)
  else read_article (s32 nbr) art.

(** The other news servers, in article by its identifier; [skip] tells which of
    them are passed over. *)
Fixpoint article_servers (n i : nat) (skip : nat -> MPListEntry -> bool) (cmd : bytes) (art : Article) : MR Article :=
  match n with
  | O => raise NoSuchArticleError
  | S n =>
      es <- gets rs_entries ;;
      match es !! i with
      | None => raise NoSuchArticleError
      | Some e =>
          if skip i e || bool_decide (hostname e = []) then article_servers n (i + 1) skip cmd art else
          setserver i ;;;
          connect ;;;
          resp <- issue cmd None ;;
          if bool_decide (take 3 resp = bs "220") then read_article (-1) art
          else article_servers n (i + 1) skip cmd art
      end
  end.

(** The current server first, when [first] says so. *)
Definition article_by_id (first : MPListEntry -> bool) (skip : MPListEntry -> bool) (id : bytes) (art : Article)
    : MR Article :=
  if (1013 <? length id)%nat then abort "identifier longer than its buffer" else
  let cmd := crlf (bs "article " ++ id) in
  cs <- gets rs_cur ;;
  here <- match cs with None => ret false | Some _ => e <- cur_server ;; ret (first e) end ;;
  found <- (if (here : bool) then
              resp <- issue cmd None ;;
              if bool_decide (take 3 resp = bs "220") then a <- read_article (-1) art ;; ret (Some a) else ret None
            else ret None) ;;
  match found with
  | Some a => ret a
  | None =>
      cs <- gets rs_cur ;;
      es <- gets rs_entries ;;
      article_servers (length es) 0 (fun i e => bool_decide (cs = Some i) || skip e) cmd art
  end.
Definition r_article_id : bytes -> Article -> MR Article := article_by_id (fun _ => true) (fun _ => false).

(** ** Posting *)

(** post of an article to one server: the loop until the reply arrives. *)
Fixpoint post_send (k i : nat) (article : Article) : MR bytes :=
  match k with
  | O => spin
  | S k =>
      resp <- issue (crlf (bs "post")) None ;;
      if negb (bool_decide (take 3 resp = bs "340")) then
        if bool_decide (take 3 resp = bs "440") then raise NotAllowedError
        else raise (ResponseError (crlf (bs "post")) (bs "[34]40") resp)
      else
        send (a_text article ++ bs "." ++ [CR; LF]) ;;;
        resp <- readline resp true ;;
        g <- conn_good ;;
        if (g : bool) then ret resp
        else i <- reconnect connect i ;; post_send k i article
  end.

(** Whether the server has the article already. *)
Definition post_check (article : Article) : MR unit :=
  id <- catch (x <- getfield (bs "message-id:") false article ;; ret (Some x))
          (fun e => match e with NoSuchFieldError _ => ret None | e => raise e end) ;;
  match id with
  | None => ret tt
  | Some id =>
      if (505 <? length id)%nat then abort "identifier longer than its buffer" else
      resp <- issue (crlf (bs "stat " ++ id)) None ;;
      if bool_decide (take 3 resp = bs "223") then raise DuplicateArticleError
      else if negb (bool_decide (take 3 resp = bs "430"))
      then raise (ResponseError (crlf (bs "stat " ++ id)) (bs "223|430") resp)
      else ret tt
  end.

Definition post_server (srvr : nat) (article : Article) : MR unit :=
  setserver srvr ;;;
  connect ;;;
  post_check article ;;;
  e <- cur_server ;;
  let i := countdown (retries e + 1) in
  resp <- post_send i i article ;;
  if bool_decide (take 3 resp = bs "240") then ret tt
  else if bool_decide (take 3 resp = bs "440") then raise NotAllowedError
  else if bool_decide (take 3 resp = bs "441") then raise PostingFailedError
  else raise (ResponseError (crlf (bs "post")) (bs "[23]40,44[01]") resp).

(** TOBASE36 *)
Fixpoint base36 (fuel : nat) (j : Z) : bytes :=
  match fuel with
  | O => []
  | S f => if j =? 0 then [] else
           let i := j mod 36 in
           (if i <? 10 then cz (48 + i) else cz (97 + i - 10)) :: base36 f (j / 36)
  end.
Definition tobase36 (j : Z) : bytes := base36 (S (Z.to_nat (Z.log2 j))) j.

Definition add_message_id (article : Article) : MR Article :=
  h <- has_field (bs "message-id:") article ;;
  if (h : bool) then ret article else
  pc <- gets rs_pc ;;
  let mid := tobase36 env_tv_sec ++ bs "$" ++ tobase36 env_pid ++ bs "$" ++ tobase36 pc ++ bs "@" ++ nntp_hostname in
  modify (set_pc (pc + 1)) ;;;
  setfield (bs "Message-ID:") (crlf (bs "Message-ID: <newscache$" ++ mid ++ bs ">")) article.

Definition list_sep (c : ascii) : bool := isspace c || bool_decide (c = c_comma).
Definition not_list_sep (c : ascii) : bool := negb (list_sep c).

(** The servers of the groups, each once, in the order of the groups. *)
Fixpoint post_servers (fuel : nat) (es : list MPListEntry) (q : bytes) (mpe : list nat) : list nat :=
  match fuel with
  | O => mpe
  | S f =>
      let mpe := match postserver es (take_while not_list_sep q) with
                 | Some c => if bool_decide (c ∈ mpe) then mpe else mpe ++ [c]
                 | None => mpe
                 end in
      match skip_while list_sep (skip_while not_list_sep q) with
      | [] => mpe
      | q => post_servers f es q mpe
      end
  end.

(** The results of posting to the servers. *)
Record post_count := PostCount { pc_posts : Z; pc_spool : Z; pc_err : Z }.

Definition classify (e : exn) (p : post_count) : option post_count :=
  match e with
  | DuplicateArticleError => Some (PostCount (pc_posts p + 1) (pc_spool p) (pc_err p))
  | NotAllowedError => Some (PostCount (pc_posts p) (pc_spool p) (Z.lor (pc_err p) 1))
  | PostingFailedError => Some (PostCount (pc_posts p) (pc_spool p) (Z.lor (pc_err p) 2))
  | ResponseError _ _ _ | SystemError _ _ | IOError _ => Some (PostCount (pc_posts p) (pc_spool p + 1) (pc_err p))
  | CharPtr _ | StdException _ => None
  | _ => Some (PostCount (pc_posts p) (pc_spool p) (Z.lor (pc_err p) 4))
  end.

Fixpoint post_loop (mpe : list nat) (article : Article) (p : post_count) : MR post_count :=
  match mpe with
  | [] => ret p
  | i :: rest =>
      es <- gets rs_entries ;;
      match es !! i with
      | None => abort "dangling pointer"
      | Some e =>
          p <- (if has_flag (flags e) F_OFFLINE then ret (PostCount (pc_posts p) (pc_spool p + 1) (pc_err p))
                else catch (post_server i article ;;; ret (PostCount (pc_posts p + 1) (pc_spool p) (pc_err p)))
                       (fun x => match classify x p with Some p => ret p | None => raise x end)) ;;
          post_loop rest article p
      end
  end.

Definition post_result (p : post_count) : exn + Z :=
  if pc_err p =? 0 then inr (if pc_spool p =? 0 then 0 else -1)
  else if pc_posts p =? 0
  then inl (InvalidArticleError "illegaly formatted article or no post permission") else inr (-2).

(** post: the article with the fields it added, and the result or the exception. *)
Definition r_post (article : Article) : MR (Article * (exn + Z)) :=
  newsgroups <- catch
    (f <- has_field (bs "from:") article ;;
     if negb f then raise (InvalidArticleError "no from field") else
     f <- has_field (bs "subject:") article ;;
     if negb f then raise (InvalidArticleError "no subject field") else
     getfield (bs "newsgroups:") false article)
    (fun e => match e with NoSuchFieldError _ => raise (InvalidArticleError "no newsgroups field") | e => raise e end) ;;
  article <- (if bool_decide (nntp_posting_host = []) then ret article
              else setfield (bs "X-NNTP-Posting-Host:")
                     (crlf (bs "X-NNTP-Posting-Host: " ++ nntp_posting_host)) article) ;;
  r <- catch (a <- add_message_id article ;; ret (inr a)) (fun e => ret (inl e)) ;;
  match r with
  | inl e => ret (article, inl e)
  | inr article =>
      es <- gets rs_entries ;;
      let q := skip_while list_sep (cstr newsgroups) in
      match post_servers (S (length q)) es q [] with
      | [] => ret (article, inl (InvalidArticleError "no valid newsgroup"))
      | mpe => p <- post_loop mpe article (PostCount 0 0 0) ;; ret (article, post_result p)
      end
  end.
End rnews.
