(* ===== verification/RActive.v ===== *)
(** * RActive.v: retrieving the list of groups talks to one server at a time

    Whatever becomes of the active database, which the transfer may leave locked or
    full: connect, issue and the reading of the list talk to the current server
    only, and the group that a new connection selects again is one of that server. *)
From S2P Require Import Prelude Memory Text Matching ServerList Container GroupInfo Article OverviewFmt RServer DbLaws.
From S2P Require Import Heap Alloc NVHash ActiveDB RSafe RNews.

Lemma strtol_shorter s : (length (snd (strtol s)) <= length s)%nat.
Proof.
  assert (forall p (l : bytes), (length (skip_while p l) <= length l)%nat) as Hsk.
  { intros p l. rewrite <- (take_skip_while p l) at 2. rewrite length_app. lia. }
  unfold strtol. pose proof (Hsk isspace s) as H1. set (s1 := skip_while isspace s) in *.
  set (x := match s1 with [] => (false, s1) | _ => _ end).
  assert (length (snd x) <= length s1)%nat as H2.
  { subst x. destruct s1 as [|c r]; [done|]. destruct (decide (c = "-"%char)) as [->|Hm]; [cbn; lia|].
    destruct (decide (c = "+"%char)) as [->|Hp]; [cbn; lia|]. destruct c as [[] [] [] [] [] [] [] []]; cbn; try lia; done. }
  destruct x as [neg s2]. cbn [snd] in H2. pose proof (Hsk isdigit s2).
  destruct (take_while isdigit s2); cbn [snd]; lia.
Qed.

(** ** What no state of the database can change *)

(** The current server is one of the list; the current group is one of its groups. *)
Record tied {D} (s : rserver D) : Prop := {
  td_cur : forall i, rs_cur s = Some i -> is_Some (rs_entries s !! i);
  td_group : length (rs_group s) = sizeof_GroupInfo;
  td_name : gi_name (rs_group s) = [] \/ of_server (gi_name (rs_group s)) s
}.

(** What get and set leave in the description, whatever the database holds. *)
Class ActiveDBFrame {os : Os} (D : Type) {db : RServer.ActiveDB D} := {
  db_get_frame : forall name g d, length g = sizeof_GroupInfo ->
    may (db_get name g) (fun r _ => forall g', r = Some g' -> length g' = sizeof_GroupInfo) (fun _ _ => True) d;
  db_set_frame : forall g fl d, gi_ok g ->
    may (db_set g fl) (fun g' _ => g' = g \/ exists t, g' = setctime t g) (fun _ _ => True) d
}.

Section steadily.
Context {os : Os} {env : Env} {D : Type} {db : RServer.ActiveDB D} {frame : ActiveDBFrame D}.
Implicit Types s : rserver D.

(** [c] talks to the current server only, from whatever state. *)
Definition goes s s' : Prop := tied s' /\ link s s'.
Definition steady_at {A} (c : M (rserver D) A) s : Prop := may c (fun _ => goes s) (fun _ => goes s) s.
Definition steady {A} (c : M (rserver D) A) : Prop := forall s, tied s -> steady_at c s.

Lemma goes_refl s : tied s -> goes s s.
Proof. intros. split; [done|apply link_refl]. Qed.

Lemma goes_trans s1 s2 s3 : goes s1 s2 -> goes s2 s3 -> goes s1 s3.
Proof. intros [_ ?] [? ?]. split; [done|by eapply link_trans]. Qed.

Lemma tied_link s s' : tied s -> link s s' -> rs_group s' = rs_group s -> tied s'.
Proof.
  intros [Hc Hg Hn] [_ Ec Ee _] Eg. split.
  - intros i Hi. rewrite Ec in Hi. eapply cfg_lookup; [exact Ee|by apply Hc].
  - by rewrite Eg.
  - rewrite Eg. destruct Hn as [?|[? Hs]]; [by left|right]. split; [by rewrite Ec|].
    by rewrite Ec, (server_cfg (rs_entries s)).
Qed.

Lemma at_bind {A B} (c : M (rserver D) A) (k : A -> M (rserver D) B) s :
  steady_at c s -> (forall a s', goes s s' -> steady_at (k a) s') -> steady_at (bind c k) s.
Proof.
  intros Hc Hk. unfold steady_at. pstep. eapply may_mono; [exact Hc| |done]. intros a s1 H1.
  eapply may_mono; [by apply Hk|..]; cbv beta; intros ? ? ?; by apply (goes_trans s s1).
Qed.

Lemma steady_bind {A B} (c : M (rserver D) A) (k : A -> M (rserver D) B) :
  steady c -> (forall a, steady (k a)) -> steady (bind c k).
Proof. intros Hc Hk s Hs. apply at_bind; [by apply Hc|]. intros a s1 [? ?]. by apply Hk. Qed.

Lemma steady_catch {A} (c : M (rserver D) A) h : steady c -> (forall e, steady (h e)) -> steady (catch c h).
Proof.
  intros Hc Hh s Hs. unfold steady_at. pstep. eapply may_mono; [by apply Hc|done|]. intros e s1 H1.
  eapply may_mono; [apply Hh, H1|..]; cbv beta; intros ? ? ?; by apply (goes_trans s s1).
Qed.

Lemma steady_ret {A} (a : A) : steady (ret a).
Proof. intros s Hs. unfold steady_at. pstep. by apply goes_refl. Qed.
Lemma steady_throw {A} e : steady (A := A) (throw e).
Proof. intros s Hs. unfold steady_at. pstep. by apply goes_refl. Qed.
Lemma steady_abort {A} w : steady (A := A) (abort w).
Proof. by intros s Hs. Qed.
Lemma steady_spin {A} : steady (A := A) spin.
Proof. by intros s Hs. Qed.
Lemma steady_gets {A} (f : rserver D -> A) : steady (gets f).
Proof. intros s Hs. unfold steady_at. pstep. by apply goes_refl. Qed.

Lemma steady_modify (f : rserver D -> rserver D) : (forall s, link s (f s) /\ rs_group (f s) = rs_group s) ->
  steady (modify f).
Proof.
  intros H s Hs. destruct (H s). unfold steady_at. pstep. split; [by eapply tied_link|done].
Qed.
Lemma steady_same (f : rserver D -> rserver D) : (forall s, rs_net (f s) = rs_net s /\ rs_cur (f s) = rs_cur s /\
  rs_entries (f s) = rs_entries s /\ rs_sent (f s) = rs_sent s /\ rs_group (f s) = rs_group s) -> steady (modify f).
Proof. intros H. apply steady_modify. intros s. destruct (H s) as (? & ? & ? & ? & ?). split; [by apply link_same|done]. Qed.

(** Changing the database. *)
Lemma on_db_steady {A} (c : M D A) : steady (on_db c).
Proof.
  intros s Hs. unfold steady_at, may, on_db.
  assert (forall d, goes s (set_db d s)) as H; [|by destruct (c (rs_db s))].
  intros d. assert (link s (set_db d s)) by by apply link_same. split; [by eapply tied_link|done].
Qed.
End steadily.

Create HintDb steadily.
#[export] Hint Resolve steady_ret steady_throw steady_abort steady_spin steady_gets on_db_steady : steadily.
(** Follows the structure of a program, to its calls. *)
Ltac steadily :=
  repeat match goal with
  | _ => assumption
  | |- forall _, _ => intro
  | |- steady (bind (gets rs_group) _) => solve [auto with steadily nocore]
  | |- steady (bind _ _) => apply steady_bind
  | |- steady (catch _ _) => apply steady_catch
  | |- steady (match ?x with _ => _ end) => destruct x
  | |- steady (when ?b _) => destruct b; cbn [when]
  | |- _ => solve [auto with steadily nocore]
  | |- steady (modify _) => apply steady_same; intros; by split_and!
  end.

Section dialogue.
Context {os : Os} {env : Env} {D : Type} {db : RServer.ActiveDB D} {frame : ActiveDBFrame D}.
Implicit Types s : rserver D.

(** ** The small operations *)
Lemma steady_cur_index : steady (D := D) cur_index.
Proof. unfold cur_index. steadily. Qed.
#[local] Hint Resolve steady_cur_index : steadily.
Lemma steady_cur_server : steady (D := D) cur_server.
Proof. unfold cur_server. steadily. Qed.
Lemma steady_the_stream : steady (D := D) the_stream.
Proof. unfold the_stream. steadily. Qed.
Lemma steady_is_connected : steady (D := D) is_connected.
Proof. unfold is_connected. steadily. Qed.
#[local] Hint Resolve steady_cur_server steady_the_stream steady_is_connected : steadily.
Lemma steady_conn_good : steady (D := D) conn_good.
Proof. unfold conn_good. steadily. Qed.
#[local] Hint Resolve steady_conn_good : steadily.

Lemma steady_clear fl : steady (D := D) (clear_nntpflag fl).
Proof.
  unfold clear_nntpflag. steadily. apply steady_modify. intros s. split; [|done]. split; try done; [|by exists []].
  cbn. apply list_eq. intros j. rewrite !list_lookup_fmap, list_lookup_alter.
  case_decide; [subst j|done]. by destruct (rs_entries s !! _).
Qed.

(** An event for the server that is current. *)
Lemma at_event (s s' : rserver D) new : tied s -> (length (rs_net s') <= length (rs_net s))%nat ->
  rs_cur s' = rs_cur s -> rs_entries s' = rs_entries s -> rs_group s' = rs_group s ->
  rs_sent s' = new ++ rs_sent s -> Forall (ev_to (rs_cur s)) new -> goes s s'.
Proof.
  intros Hs ? ? Ee ? ? ?. assert (link s s') as Hl by (split; [done|done|by rewrite Ee|by exists new]).
  split; [by eapply tied_link|done].
Qed.

Lemma steady_send b : steady (D := D) (send b).
Proof.
  intros s Hs. unfold send, the_stream, cur_index, steady_at. do 2 pstep. pstep.
  destruct (rs_conn s) as [ist|]; [|done]. repeat pstep. destruct (rs_cur s) as [i|] eqn:Ei; [|done]. repeat pstep.
  destruct (good ist); pstep; [|by apply goes_refl].
  apply (at_event _ _ [ESend i b]); try done. by apply Forall_cons_2.
Qed.

Lemma steady_readline strg keepnl : steady (D := D) (readline strg keepnl).
Proof.
  intros s Hs. unfold readline, the_stream, steady_at. do 2 pstep. pstep.
  destruct (rs_conn s) as [ist|]; [|done]. pstep. destruct (nlreadline _ _ _) as [l i]. repeat pstep.
  apply (at_event _ _ [EReply l]); try done. by apply Forall_cons_2.
Qed.

Lemma steady_connect_to : steady (D := D) connect_to.
Proof.
  intros s Hs. unfold connect_to, cur_index, steady_at. repeat pstep.
  destruct (rs_cur s) as [i|] eqn:Ei; [|done]. repeat pstep.
  destruct (rs_net s) as [|[x|] net] eqn:En; repeat pstep.
  all: apply (at_event _ _ [EConnect i]); try done; [by rewrite En; cbn; lia|by apply Forall_cons_2].
Qed.
#[local] Hint Resolve steady_clear steady_send steady_readline steady_connect_to : steadily.

Lemma steady_disconnect : steady (D := D) disconnect.
Proof. unfold disconnect. steadily. Qed.
Lemma steady_drop e : steady (D := D) (drop_and_throw e).
Proof. unfold drop_and_throw. steadily. Qed.
#[local] Hint Resolve steady_disconnect steady_drop : steadily.

(** ** connect, issue and selectgroup *)
Section bodies.
Context (connect_rec : M (rserver D) unit) (issue_rec : bytes -> option bytes -> M (rserver D) bytes)
        (select_rec : bytes -> bool -> M (rserver D) unit).
Hypothesis Hconn : steady connect_rec.
Hypothesis Hissue : forall cmd ex, steady (issue_rec cmd ex).
Hypothesis Hsel : forall name force s, tied s -> (NUL ∉ name) -> of_server name s ->
  steady_at (select_rec name force) s.
#[local] Hint Resolve Hconn Hissue : steadily.

Lemma steady_no_list : steady (D := D) no_list_overview_fmt.
Proof. unfold no_list_overview_fmt. steadily. Qed.
#[local] Hint Resolve steady_no_list : steadily.

Lemma steady_list : steady (list_overview_fmt issue_rec).
Proof. unfold list_overview_fmt. steadily. Qed.
Lemma steady_authenticate e : steady (authenticate issue_rec e).
Proof. unfold authenticate. steadily. Qed.
Lemma steady_mode_reader grt : steady (mode_reader issue_rec grt).
Proof. unfold mode_reader. steadily. Qed.
#[local] Hint Resolve steady_list steady_authenticate steady_mode_reader : steadily.

Lemma steady_reselect : steady (g <- gets rs_group ;;
  when (negb (bool_decide (gi_name g = []))) (select_rec (gi_name g) true)).
Proof.
  intros s Hs. unfold steady_at. do 2 pstep. case_bool_decide as Hn; cbn [negb when].
  - pstep. by apply goes_refl.
  - apply Hsel; [done|apply NUL_notin_cstr|]. by destruct (td_name _ Hs).
Qed.

#[local] Hint Resolve steady_reselect : steadily.

Lemma steady_round again grt : (forall g, steady (again g)) ->
  steady (connect_round issue_rec select_rec again grt).
Proof. intros. unfold connect_round. steadily. Qed.

Lemma steady_connect_loop : forall i grt, steady (connect_loop issue_rec select_rec i grt).
Proof. induction i as [|i IH]; intros grt; cbn [connect_loop]; apply steady_round; steadily. Qed.

Lemma connect_steady : steady (connect_body issue_rec select_rec).
Proof. unfold connect_body. steadily; apply steady_connect_loop. Qed.

Lemma steady_reconnect : forall i, steady (reconnect connect_rec i).
Proof. induction i as [|i IH]; cbn [reconnect]; steadily. Qed.
#[local] Hint Resolve steady_reconnect : steadily.
Lemma steady_issue_loop : forall k i cmd resp, steady (issue_loop connect_rec k i cmd resp).
Proof. induction k as [|k IH]; intros; cbn [issue_loop]; steadily. Qed.
#[local] Hint Resolve steady_issue_loop : steadily.
Lemma issue_steady cmd ex : steady (issue_body connect_rec cmd ex).
Proof. unfold issue_body. steadily. Qed.

(** The record of the group, whatever was in the description. *)
Lemma tied_group s g : tied s -> length g = sizeof_GroupInfo -> of_server (gi_name g) s -> tied (set_group g s).
Proof. intros [? ? ?] ??. split; [done..|by right]. Qed.

Lemma at_store s name f l n g : tied s -> length g = sizeof_GroupInfo -> (length name <= 512)%nat ->
  (NUL ∉ name) -> of_server name s ->
  may (cur_group_set name f l n ;;; g <- gets rs_group ;; g <- on_db (db_set g 0) ;; modify (set_group g))
    (fun _ => goes s) (fun _ => goes s) (set_group g s).
Proof.
  intros Hs Hg Hn Hnul Hof. unfold cur_group_set. repeat pstep. rs_cbn.
  pose proof (gi_name_padded name g Hg Hn) as En. rewrite cstr_all in En by done.
  set (g1 := put g off_name _) in *. assert (length g1 = sizeof_GroupInfo) as Hg1.
  { subst g1. rewrite length_put; [done|]. rewrite length_app, length_take, length_replicate. gi_off. lia. }
  assert (forall g' d, length g' = sizeof_GroupInfo -> gi_name g' = name -> goes s (set_db d (set_group g' s))) as Hgo.
  { intros g' d ? E. split; [|by apply link_same]. destruct Hs. split; [done..|]. right. rs_cbn. by rewrite E. }
  eapply may_mono; [apply runs_may, (gi_set_group_fields os_time name f l n "y"%char g1); done|..].
  - intros r s' (-> & Hr & Er & _). rewrite cstr_all in Er by done. do 4 pstep. rs_cbn.
    unfold may at 1, on_db. rs_cbn. pose proof (db_set_frame r 0 (rs_db s) Hr) as H. unfold may in H.
    destruct (db_set r 0 (rs_db s)) as [g' d|e d| |]; [|by apply (Hgo r); [apply Hr|]|done..].
    destruct H as [->|[t ->]]; pstep; [by apply (Hgo r); [apply Hr|]|]. destruct (setctime_keeps t _ Hr) as ([? _] & En2 & _).
    apply (Hgo (setctime t r)); [done|by rewrite En2].
  - intros e s' [-> _]. by apply (Hgo g1 (rs_db s)).
Qed.

Lemma at_select name force s : tied s -> (NUL ∉ name) -> of_server name s ->
  steady_at (selectgroup_body issue_rec name force) s.
Proof.
  intros Hs Hnul [[i Hi] Hof]. unfold selectgroup_body, setserver, steady_at. rewrite Hi in Hof.
  destruct (Nat.ltb_spec 512 (length name)); [by apply steady_throw|]. repeat pstep.
  destruct (negb force && _); [pstep; by apply goes_refl|]. repeat pstep. rewrite Hof. repeat pstep.
  rewrite bool_decide_eq_true_2 by done. repeat pstep.
  eapply may_mono; [by apply Hissue| |done]. intros resp s1 [Hs1 Hk1].
  assert (of_server name s1) as Hof1.
  { destruct Hk1 as [_ Ec Ee _]. split; [by rewrite Ec; eexists|]. by rewrite Ec, Hi, <- Hof; apply server_cfg. }
  destruct (nntp_iscode resp (bs "211")) eqn:E211; cbn [negb]; [|destruct (nntp_iscode resp (bs "411")); by pstep].
  destruct (strtol (drop 3 resp)) as [nbr p] eqn:E1. destruct (strtol p) as [fst p2] eqn:E2.
  destruct (strtol p2) as [lst ep] eqn:E3. rewrite bool_decide_eq_false_2.
  2: { pose proof (strtol_shorter (drop 3 resp)) as H1. pose proof (strtol_shorter p) as H2.
       pose proof (strtol_shorter p2) as H3. rewrite E1 in H1. rewrite E2 in H2. rewrite E3 in H3. cbn [snd] in *.
       intros ->. destruct resp as [|c r]; [by vm_compute in E211|]. rewrite length_drop in H1. cbn in *. lia. }
  do 3 pstep. unfold may at 1, on_db. pose proof (db_get_frame name (rs_group s1) (rs_db s1) (td_group _ Hs1)) as Hget.
  unfold may in Hget. destruct (db_get _ _ _) as [r d|e d| |]; [|by apply (goes_trans s s1); [done|]; split; [by destruct Hs1|by apply link_same]|done..].
  assert (tied (set_db d s1) /\ link s (set_db d s1)) as [Hs2 Hk2].
  { split; [by destruct Hs1|]. eapply link_trans; [exact Hk1|by apply link_same]. }
  do 2 pstep. eapply may_mono; [apply (at_store (set_db d s1)); try done|..].
  - destruct r as [g'|]; [by apply Hget|apply Hs1].
  - cbv beta. intros ? s3 ?. by apply (goes_trans s (set_db d s1)).
  - cbv beta. intros ? s3 ?. by apply (goes_trans s (set_db d s1)).
Qed.
End bodies.

(** The same for the functions that call each other. *)
Lemma calls_steady : forall n, steady (connect_n n) /\ (forall cmd ex, steady (issue_n n cmd ex)) /\
  (forall name force s, tied s -> (NUL ∉ name) -> of_server name s -> steady_at (selectgroup_n n name force) s).
Proof.
  induction n as [|n (IHc & IHi & IHs)]; [split_and!; intros; try apply steady_spin; done|].
  cbn [connect_n issue_n selectgroup_n]. split_and!.
  - by apply connect_steady.
  - by apply issue_steady.
  - by apply at_select.
Qed.

Lemma steady_connect : steady connect.
Proof. unfold connect, call_fuel. steadily. apply calls_steady. Qed.
Lemma steady_issue cmd ex : steady (issue cmd ex).
Proof. unfold issue, call_fuel. steadily. apply calls_steady. Qed.
#[local] Hint Resolve steady_connect steady_issue : steadily.

(** ** Reading the list *)
Lemma steady_read_active filter fl : steady (read_active filter fl).
Proof. unfold read_active. steadily. Qed.
Lemma steady_filter i arg : steady (D := D) (the_filter i arg).
Proof. unfold the_filter. steadily. Qed.
#[local] Hint Resolve steady_read_active steady_filter : steadily.

Lemma steady_list_active i fl : forall exprs, steady (list_active_loop i fl exprs).
Proof. induction exprs; cbn [list_active_loop]; steadily. Qed.
#[local] Hint Resolve steady_list_active : steadily.

(** The group of another server is forgotten with the connection to it. *)
Lemma at_setserver i s : tied s -> is_Some (rs_entries s !! i) ->
  may (setserver i) (fun _ s' => tied s' /\ moved i s s') (fun _ _ => False) s.
Proof.
  intros Hs Hi. unfold setserver. repeat pstep. case_bool_decide as Hc.
  { pstep. split; [done|]. split; try done; [apply link_wlink, link_refl|by exists []]. }
  pstep. apply (may_mono _ (fun _ s1 => goes s s1 /\ (is_Some (rs_cur s) -> rs_conn s1 = None) /\
    (rs_conn s = None -> s1 = s) /\ (rs_cur s = None -> s1 = s)) _ (fun _ _ => False)); [| |done].
  - case_bool_decide as Hc2; [|pstep; split; [by apply goes_refl|by split_and!]].
    unfold disconnect. do 2 pstep. destruct (rs_conn s) as [ist|] eqn:Ec.
    2: { pstep. split; [by apply goes_refl|]. by rewrite Ec. }
    unfold send, the_stream, cur_index. repeat pstep. rewrite Ec. pstep. repeat pstep.
    destruct (rs_cur s) as [j|] eqn:Ej; [|by destruct Hc2]. repeat pstep. destruct (good ist); repeat pstep.
    + split_and!; try done. apply (at_event _ _ [ESend j (bs "quit" ++ [CR; LF])]); try done. by apply Forall_cons_2.
    + split_and!; try done. by apply (at_event _ _ []).
  - intros _ s1 ([Hs1 Hk] & Hcn & Hsame & Hnone). pose proof (cfg_lookup _ _ i (lk_cfg _ _ Hk) Hi) as Hi1.
    destruct (link_wlink _ _ Hk). pstep. pose proof (td_group _ Hs1).
    split; [split; rs_cbn; [by intros ? [= <-]|by apply length_init|left; by apply name_init]|].
    split; try done.
    + split; try done. intros _. destruct Hi1 as [e He]. by exists i, e.
    + intros _ Hn. rs_cbn. destruct (rs_cur s) as [j|] eqn:Ej; [by apply Hcn|]. rewrite Hnone by done. by apply Hn.
    + destruct (lk_sent _ _ Hk) as (new & En & Hnew). exists new. split_and!; [done|done|].
      intros Hn. rewrite (Hsame Hn) in En. apply (f_equal length) in En. rewrite length_app in En.
      destruct new; [done|]. cbn in En. lia.
Qed.

(** A round of active: a server that is offline, or half, is not talked to. *)
Definition visited (i : nat) s s' : Prop :=
  tied s' /\ exists s1, moved i s s1 /\ link s1 s' /\
    (s' = s1 \/ exists e, rs_entries s1 !! i = Some e /\ has_flag (flags e) (Z.lor F_OFFLINE F_SEMIOFFLINE) = false).

Lemma active_server_visits i s : tied s -> is_Some (rs_entries s !! i) ->
  may (active_server i) (fun _ => visited i s) (fun _ => visited i s) s.
Proof.
  intros Hs Hi. unfold active_server. pstep. eapply may_mono; [by apply at_setserver| |done]. cbv beta.
  intros _ s1 [Hs1 Hm]. unfold cur_server at 1, cur_index. repeat pstep. rewrite (mv_cur _ _ _ Hm). repeat pstep.
  destruct (rs_entries s1 !! i) as [e|] eqn:He; [|done]. pstep.
  destruct (has_flag (flags e) _) eqn:Hf.
  { pstep. split; [done|]. exists s1. split_and!; [done|apply link_refl|by left]. }
  cbv zeta. eapply may_mono.
  - assert (forall c : M (rserver D) unit, steady c -> steady_at c s1) as H by (intros c Hc; by apply Hc).
    apply H. steadily.
  - intros _ s2 [Hs2 Hk]. split; [done|]. exists s1. split_and!; [done|done|]. right. by exists e.
  - intros _ s2 [Hs2 Hk]. split; [done|]. exists s1. split_and!; [done|done|]. right. by exists e.
Qed.
End dialogue.

(** ** The database in a file *)
Section frame.
Context {os : Os}.

Lemma may_any {A B S} (c : M S A) (k : A -> M S B) (P : A -> Prop) (Q : B -> S -> Prop) s :
  may c (fun a _ => P a) (fun _ _ => True) s -> (forall a s', P a -> may (k a) Q (fun _ _ => True) s') ->
  may (bind c k) Q (fun _ _ => True) s.
Proof. intros Hc Hk. pstep. eapply may_mono; [exact Hc|by intros; apply Hk|done]. Qed.

Lemma adb_sset_frame g fl d : may (adb_sset g fl) (fun g' _ => g' = g \/ exists t, g' = setctime t g) (fun _ _ => True) d.
Proof.
  unfold adb_sset. apply may_then; [done|]. intros r d1. destruct (negb _).
  - apply may_then; [done|]. intros ct d2. cbv zeta. apply may_then; [done|]. intros sz d3.
    apply may_then; [done|]. intros _ d4. pstep. right. by exists ct.
  - destruct (negb _); [pstep; by left|]. cbv zeta. apply may_then; [done|]. intros _ d2. pstep. right. by eexists.
Qed.

#[export] Instance NVActiveDB_frame : ActiveDBFrame (obj hash_ext).
Proof.
  split.
  - intros name g d Hg. cbn [db_get NVActiveDB_ops]. unfold adb_get.
    apply may_then; [done|]. intros _ d1. apply may_then; [done|]. intros r d2.
    apply (may_any _ _ (fun x => forall g', x = Some g' -> length g' = sizeof_GroupInfo)).
    + destruct (r =? 0); [by pstep|]. apply may_then; [done|]. intros sz d3. apply may_then; [done|]. intros b d4.
      unfold setraw. destruct (Nat.ltb_spec sizeof_GroupInfo (length b)); repeat pstep; [done|].
      intros g' [= <-]. rewrite length_put; [done|lia].
    + intros x d3 Hx. apply may_then; [done|]. intros _ d4. by pstep.
  - intros g fl d Hg. cbn [db_set NVActiveDB_ops]. unfold adb_set.
    apply may_then; [done|]. intros _ d1. apply (may_any _ _ _ _ _ (adb_sset_frame _ _ _)).
    intros g' d2 Hg'. apply may_then; [done|]. intros _ d3. pstep. exact Hg'.
Qed.
End frame.
