(* ===== verification/RTalk.v ===== *)
(** * RTalk.v: what a dialogue achieves

    One exchange with a server that answers, and the operations of RServer.v and
    RNews.v that consist of such exchanges. *)
From S2P Require Import Prelude Memory Text Matching ServerList Container GroupInfo Article OverviewFmt RServer.
From S2P Require Import DbLaws RSafe RNews.

Section talk.
Context {os : Os} {env : Env} {D : Type} {db : RServer.ActiveDB D}.
Implicit Types s : rserver D.

(** [s] talks to the server [i], which is about to send [b]. *)
Record talking (i : nat) (b : bytes) s : Prop := {
  tk_cur : rs_cur s = Some i;
  tk_entry : exists e, rs_entries s !! i = Some e /\ entry_ok e;
  tk_conn : rs_conn s = Some (IStream b false false)
}.

(** The state after [cmd] was sent and [resp] read, with [rest] still to come. *)
Definition told (i : nat) (cmd resp rest : bytes) s : rserver D :=
  set_conn (Some (IStream rest false false))
    (set_world (rs_net s) (EReply resp :: ESend i cmd :: rs_sent s) s).

(** [b] starts with a line that gives [resp]. *)
Definition answers (b resp rest : bytes) : Prop :=
  exists line, b = line ++ LF :: rest /\ (LF ∉ line) /\ stripped line resp.

Lemma answers_crlf resp rest : LF ∉ resp -> (forall c, last resp = Some c -> c <> CR) ->
  answers (resp ++ CR :: LF :: rest) resp rest.
Proof.
  intros Hlf Hcr. exists (resp ++ [CR]). rewrite <- app_assoc. split_and!; [done| |].
  - intros [?|[?|H]%elem_of_cons]%elem_of_app; [done..|by apply not_elem_of_nil in H].
  - exists [CR]. split_and!; [done|by repeat constructor|].
    intros c Hc [?|?]; [by apply (Hcr c)|]. subst c. apply Hlf. by apply last_Some_elem_of in Hc.
Qed.

Lemma talking_told i b cmd resp rest s : talking i b s -> talking i rest (told i cmd resp rest s).
Proof. by intros [? ? ?]. Qed.

Lemma wp_cur_server i b (Q : MPListEntry -> rserver D -> Prop) s : talking i b s ->
  (forall e, rs_entries s !! i = Some e -> entry_ok e -> Q e s) -> wp cur_server Q s.
Proof.
  intros [Hc (e & He & Hok) _] HQ. unfold cur_server, cur_index. repeat wstep. rewrite Hc. repeat wstep. rewrite He.
  wstep. by apply HQ.
Qed.

Lemma wp_send i b cmd (Q : unit -> rserver D -> Prop) s : talking i b s ->
  Q tt (set_world (rs_net s) (ESend i cmd :: rs_sent s) s) -> wp (send cmd) Q s.
Proof.
  intros [Hc _ Hi] HQ. unfold send, the_stream, cur_index. repeat wstep. rewrite Hi. repeat wstep. rewrite Hc.
  repeat wstep. exact HQ.
Qed.

Lemma wp_readline i b strg (keepnl : bool) resp rest (Q : bytes -> rserver D -> Prop) s : talking i b s ->
  answers b resp rest ->
  (forall l, l = resp ++ (if keepnl then [CR; LF] else []) ->
     Q l (set_conn (Some (IStream rest false false)) (set_world (rs_net s) (EReply l :: rs_sent s) s))) ->
  wp (readline strg keepnl) Q s.
Proof.
  intros [_ _ Hi] (line & -> & Hlf & Hst) HQ. unfold readline, the_stream. repeat wstep. rewrite Hi. wstep.
  rewrite (nlreadline_line _ _ _ _ _ Hlf Hst). repeat wstep. by apply HQ.
Qed.

Lemma wp_conn_good i b (Q : bool -> rserver D -> Prop) s : talking i b s -> Q true s -> wp conn_good Q s.
Proof. intros [_ _ Hi] HQ. unfold conn_good, the_stream. repeat wstep. rewrite Hi. repeat wstep. exact HQ. Qed.

(** An exchange: the command is sent, the answer is the reply. *)
Definition final (resp : bytes) : Prop :=
  (3 <= length resp)%nat /\ take 3 resp <> bs "400" /\ take 3 resp <> bs "503".

Lemma wp_issue_body c i b cmd ex resp rest (Q : bytes -> rserver D -> Prop) s :
  talking i b s -> answers b resp rest -> final resp ->
  (forall x, ex = Some x -> take (length x) resp = x) ->
  Q resp (told i cmd resp rest s) -> wp (issue_body c cmd ex) Q s.
Proof.
  intros Ht Ha (Hl & H4 & H5) Hex HQ. unfold issue_body. wstep. eapply wp_cur_server; [done|].
  intros e _ [He1 He2]. cbv zeta.
  assert (exists k, countdown (retries e + 1) = S k) as [k ->].
  { destruct (countdown (retries e + 1)) eqn:E; [|by eexists]. exfalso. unfold countdown in E.
    destruct (Z.leb_spec (retries e + 1) 0); lia. }
  unfold is_connected. repeat wstep. rewrite (tk_conn _ _ _ Ht). rewrite bool_decide_eq_true_2 by by eexists.
  repeat wstep. cbn [issue_loop].
  wstep. eapply wp_send; [done|]. wstep. eapply wp_readline; [by split; destruct Ht|done|].
  intros l El. cbn [app] in El. rewrite app_nil_r in El. subst l.
  wstep. eapply wp_conn_good; [by apply (talking_told i b cmd resp rest)|].
  rewrite !(bool_decide_eq_false_2 (take 3 resp = _)) by done. cbn [andb orb negb]. wstep.
  destruct (Nat.ltb_spec (length resp) 3); [lia|]. cbn [orb].
  destruct ex as [x|]; [|exact HQ]. rewrite bool_decide_eq_true_2 by auto. exact HQ.
Qed.

Lemma wp_issue_n n i b cmd ex resp rest (Q : bytes -> rserver D -> Prop) s :
  talking i b s -> answers b resp rest -> final resp ->
  (forall x, ex = Some x -> take (length x) resp = x) ->
  Q resp (told i cmd resp rest s) -> wp (issue_n (S n) cmd ex) Q s.
Proof. apply wp_issue_body. Qed.

Lemma wp_issue i b cmd ex resp rest (Q : bytes -> rserver D -> Prop) s :
  talking i b s -> answers b resp rest -> final resp ->
  (forall x, ex = Some x -> take (length x) resp = x) ->
  Q resp (told i cmd resp rest s) -> wp (issue cmd ex) Q s.
Proof.
  intros. unfold issue, call_fuel. repeat wstep. rewrite Nat.add_comm. by eapply wp_issue_n.
Qed.

Lemma selectgroup_n_S n name force :
  selectgroup_n (D := D) (S n) name force = selectgroup_body (issue_n n) name force.
Proof. done. Qed.

Lemma wp_setserver_same i b (Q : unit -> rserver D -> Prop) s : talking i b s -> Q tt s -> wp (setserver i) Q s.
Proof.
  intros Ht HQ. unfold setserver. repeat wstep. rewrite bool_decide_eq_true_2 by apply Ht. by wstep.
Qed.

(** ** The numbers of a group *)
Section selectgroup.
Context {laws : ActiveDBLaws D}.

Definition group_reply (nbr fst lst : Z) (t : bytes) : bytes :=
  bs "211 " ++ dec nbr ++ bs " " ++ dec fst ++ bs " " ++ dec lst ++ t.

Lemma group_reply_parse nbr fst lst t : 0 <= nbr <= LONG_MAX -> 0 <= fst <= LONG_MAX -> 0 <= lst <= LONG_MAX ->
  match t with c :: _ => isdigit c = false | [] => True end ->
  strtol (drop 3 (group_reply nbr fst lst t)) = (nbr, bs " " ++ dec fst ++ bs " " ++ dec lst ++ t) /\
  strtol (bs " " ++ dec fst ++ bs " " ++ dec lst ++ t) = (fst, bs " " ++ dec lst ++ t) /\
  strtol (bs " " ++ dec lst ++ t) = (lst, t).
Proof.
  intros Hn Hf Hl Ht. split_and!.
  - apply (strtol_dec (bs " ")); [done|by apply Forall_cons_2|done].
  - apply (strtol_dec (bs " ")); [done|by apply Forall_cons_2|done].
  - apply (strtol_dec (bs " ")); [done|by apply Forall_cons_2|done].
Qed.

(** [on_db] with a database that returns. *)
Lemma wp_on_db {A} (c : M D A) (P : A -> D -> Prop) (Q : A -> rserver D -> Prop) s :
  wp c P (rs_db s) -> (forall a d, P a d -> Q a (set_db d s)) -> wp (on_db c) Q s.
Proof. unfold wp, on_db. destruct (c (rs_db s)); try done. intros H HQ. by apply HQ. Qed.

Lemma wp_cur_group_set name f l n (Q : unit -> rserver D -> Prop) s :
  length (rs_group s) = sizeof_GroupInfo -> (length name < 512)%nat -> (NUL ∉ name) ->
  (forall g, gi_ok g -> gi_name g = name -> gi_first g = w32 f -> gi_last g = w32 l -> gi_n g = w32 n ->
     gi_flags g = "y"%char -> gi_mtime g = w64 os_time -> Q tt (set_group g s)) ->
  wp (cur_group_set name f l n) Q s.
Proof.
  intros Hg Hn Hnul HQ. apply wp_runs. unfold cur_group_set. repeat rstep.
  set (g0 := put _ _ _). cbn [rs_group set_group]. assert (length g0 = sizeof_GroupInfo) as Hg0.
  { subst g0. rewrite length_put; [done|]. rewrite length_app, length_take, length_replicate. gi_off. lia. }
  eapply runs_mono; [by apply (gi_set_group_fields os_time name f l n "y"%char g0); [|lia|]|..].
  - intros r s' (-> & Hr & En & ? & ? & ? & ? & ? & _). rstep. apply HQ; try done.
    rewrite En. by apply cstr_all.
  - intros _ s' [_ [? _]]. lia.
Qed.

(** selectgroup, when the reply gives the numbers of the group. *)
Lemma wp_selectgroup k v i b rest nbr fst lst t name (Q : unit -> rserver D -> Prop) s :
  talking i b s -> server (rs_entries s) name = Some i ->
  answers b (group_reply nbr fst lst t) rest ->
  0 <= nbr < 2 ^ 31 -> 0 <= fst < 2 ^ 31 -> 0 <= lst < 2 ^ 31 ->
  match t with c :: _ => isdigit c = false | [] => True end ->
  (length name < 512)%nat -> (NUL ∉ name) -> length (rs_group s) = sizeof_GroupInfo ->
  db_rep (S k) v (rs_db s) ->
  (forall s' g v', rs_group s' = g -> gi_ok g -> gi_name g = name -> gi_first g = fst -> gi_last g = lst ->
     gi_n g = nbr -> gi_flags g = "y"%char -> gi_mtime g = w64 os_time ->
     gi_ctime g = w64 (match v name with Some r => gi_ctime r | None => os_time end) ->
     rs_conn s' = Some (IStream rest false false) ->
     rs_sent s' = EReply (group_reply nbr fst lst t) :: ESend i (crlf (bs "group " ++ name)) :: rs_sent s ->
     db_rep k v' (rs_db s') -> (forall x, v' x = if decide (x = name) then Some (getraw g) else v x) -> Q tt s') ->
  wp (selectgroup name true) Q s.
Proof.
  intros Ht Hsrv Ha Hn Hf Hl Htl Hnm Hnul Hgl Hd HQ. unfold selectgroup, call_fuel. repeat wstep. rewrite Nat.add_comm.
  cbn [Nat.add]. rewrite selectgroup_n_S. unfold selectgroup_body. destruct (Nat.ltb_spec 512 (length name)); [lia|].
  wstep. wstep. cbn [negb andb]. wstep. wstep. rewrite Hsrv. wstep. eapply wp_setserver_same; [done|].
  set (resp := group_reply nbr fst lst t) in *. wstep.
  eapply wp_issue_n; [done|exact Ha|split_and!; [cbn; lia|done..]|done|].
  change (nntp_iscode resp (bs "211")) with true. cbn [negb].
  destruct (group_reply_parse nbr fst lst t) as (P1 & P2 & P3); [unfold LONG_MAX; lia..|done|]. fold resp in P1.
  rewrite P1. cbv beta match. rewrite P2. cbv beta match. rewrite P3. cbv beta match.
  assert (bool_decide (t = resp) = false) as ->.
  { apply bool_decide_eq_false_2. intros E. apply (f_equal length) in E. unfold resp, group_reply in E.
    rewrite !length_app in E. cbn in E. lia. }
  assert (forall z, 0 <= z < 2 ^ 31 -> s32 z = z) as Es32.
  { intros z Hz. unfold s32. rewrite Z.mod_small by lia. lia. }
  assert (forall z, 0 <= z < 2 ^ 31 -> w32 z = z) as Ew32 by (intros z Hz; apply w32_small; lia).
  rewrite !Es32 by done. wstep. wstep. wstep.
  eapply wp_on_db; [exact (db_get_law (S k) v (rs_db s) name (rs_group s) Hd Hgl)|]. intros r d [Er Hd']. subst r.
  wstep. wstep. wstep. apply wp_cur_group_set; [|done..|].
  { cbn. destruct (v name) as [x|] eqn:Ev; cbn; [|done].
    destruct (db_rep_rec _ _ _ _ _ Hd Ev) as [[_ ?] _]. rewrite length_put; cbn; lia. }
  intros g Hg En E1 E2 E3 E4 E5. rewrite Ew32 in E1, E2, E3 by done. wstep. wstep. wstep.
  eapply wp_on_db; [exact (db_set_law k v d g Hd' Hg)|]. intros g' d' (-> & v' & Hd2 & Hv). wstep.
  set (c := match v (gi_name g) with Some r => gi_ctime r | None => os_time end) in *.
  destruct (setctime_keeps c g Hg) as (Hg2 & E7 & E8 & E9 & E10 & E11 & E12).
  apply (HQ _ (setctime c g) v').
  all: try done; try congruence.
  - rewrite setctime_ctime by done. unfold c. by rewrite En.
  - intros x. by rewrite Hv, En.
Qed.

(** C22: selecting a group at its server: the command goes to the server, the
    reply "211 n f l ..." gives the numbers of the group, and the description with
    them becomes the current group and replaces the record of the group in the
    active database; the time the group was first seen stays, and no other record
    changes.  (What becomes of the posting flag is in [selectgroup_loses_flag].) *)
Theorem selectgroup_stores k v i b rest nbr fst lst t name s :
  talking i b s -> server (rs_entries s) name = Some i ->
  answers b (group_reply nbr fst lst t) rest ->
  0 <= nbr < 2 ^ 31 -> 0 <= fst < 2 ^ 31 -> 0 <= lst < 2 ^ 31 ->
  match t with c :: _ => isdigit c = false | [] => True end ->
  (length name < 512)%nat -> (NUL ∉ name) -> length (rs_group s) = sizeof_GroupInfo ->
  db_rep (S k) v (rs_db s) ->
  wp (selectgroup name true) (fun _ s' => exists g v',
    rs_group s' = g /\ gi_ok g /\ gi_name g = name /\ gi_first g = fst /\ gi_last g = lst /\ gi_n g = nbr /\
    gi_mtime g = w64 os_time /\ gi_ctime g = w64 (match v name with Some r => gi_ctime r | None => os_time end) /\
    rs_conn s' = Some (IStream rest false false) /\
    rs_sent s' = EReply (group_reply nbr fst lst t) :: ESend i (crlf (bs "group " ++ name)) :: rs_sent s /\
    db_rep k v' (rs_db s') /\ forall x, v' x = if decide (x = name) then Some (getraw g) else v x) s.
Proof. intros. eapply wp_selectgroup; try done. intros s' g v' **. exists g, v'. by split_and!. Qed.

(** The posting flag is not kept: it becomes y, also when the record said n, as it does
    for the groups of a server whose posting flags are to be stored (setpostflag). *)
Theorem selectgroup_loses_flag k v i b rest nbr fst lst t name r s :
  talking i b s -> server (rs_entries s) name = Some i ->
  answers b (group_reply nbr fst lst t) rest ->
  0 <= nbr < 2 ^ 31 -> 0 <= fst < 2 ^ 31 -> 0 <= lst < 2 ^ 31 ->
  match t with c :: _ => isdigit c = false | [] => True end ->
  (length name < 512)%nat -> (NUL ∉ name) -> length (rs_group s) = sizeof_GroupInfo ->
  db_rep (S k) v (rs_db s) ->
  v name = Some r -> gi_flags r = "n"%char ->
  wp (selectgroup name true) (fun _ s' => exists v' r', db_rep k v' (rs_db s') /\ v' name = Some r' /\
    gi_flags (rs_group s') = "y"%char /\ r' = getraw (rs_group s')) s.
Proof.
  intros. eapply wp_selectgroup; try done. intros s' g v' <- ** . eexists v', _. split_and!; [done| |done|done].
  match goal with H : forall x, v' x = _ |- _ => rewrite H end. by rewrite decide_True.
Qed.
End selectgroup.

(** ** The text of an article *)

(** What a server sends for the lines [ls] of a text. *)
Definition sent_text (ls : list bytes) : bytes := concat ((fun l => l ++ [CR; LF]) <$> ls).
Definition plain_line (l : bytes) : Prop := (LF ∉ l) /\ (forall c, last l = Some c -> c <> CR) /\ l <> bs ".".

Lemma stripped_crlf l : (LF ∉ l) -> (forall c, last l = Some c -> c <> CR) -> stripped (l ++ [CR]) l.
Proof.
  intros Hlf Hcr. exists [CR]. split_and!; [done|by repeat constructor|].
  intros c Hc [?|?]; [by apply (Hcr c)|]. subst c. apply Hlf. by apply last_Some_elem_of in Hc.
Qed.

Lemma a_read_text ls rest art : Forall plain_line ls ->
  a_read (IStream (sent_text ls ++ bs "." ++ CR :: LF :: rest) false false) art =
    Some (a_settext (sent_text ls) art, IStream rest false false).
Proof.
  intros Hls. unfold a_read.
  assert (sent_text ls ++ bs "." ++ CR :: LF :: rest =
    concat (map (fun l => l ++ [LF]) (map (fun l => l ++ [CR]) ls)) ++ (bs "." ++ [CR]) ++ LF :: rest) as ->.
  { unfold sent_text. rewrite map_map. f_equal. f_equal. apply map_ext. intros l. by rewrite <- app_assoc. }
  rewrite (readtext_lines (map (fun l => l ++ [CR]) ls) ls); [done|..].
  - rewrite <- (map_id ls) at 2. apply Forall2_fmap_2. apply Forall_Forall2_diag.
    eapply Forall_impl; [exact Hls|]. intros l (? & ? & _). by apply stripped_crlf.
  - apply Forall_fmap. eapply Forall_impl; [exact Hls|]. intros l (Hlf & _). cbn.
    intros [?|H]%elem_of_app; [done|]. revert H. notin.
  - eapply Forall_impl; [exact Hls|]. by intros l (_ & _ & ?).
  - notin.
  - apply (stripped_crlf (bs ".")); [notin|]. by intros c [= <-].
Qed.

(** An article of the current group by its number: the command goes to the
    server, and after the reply 220 the article holds the lines the server sends up
    to the line with a single period, in their order and each with CR LF, and the
    number that was asked for; the stream is left behind the period. *)
Theorem r_article_text i b ls resp rest gname nbr art s :
  talking i b s -> gi_name (rs_group s) = gname -> (length gname <= 512)%nat ->
  answers b resp (sent_text ls ++ bs "." ++ CR :: LF :: rest) -> take 3 resp = bs "220" ->
  Forall plain_line ls ->
  wp (r_article gname nbr art) (fun a s' =>
    a = MkArticle (s32 nbr) (sent_text ls) /\ rs_conn s' = Some (IStream rest false false) /\
    rs_sent s' = EReply resp :: ESend i (crlf (bs "article " ++ dec (w32 nbr))) :: rs_sent s /\
    rs_group s' = rs_group s) s.
Proof.
  intros Ht Hg Hgl Ha H220 Hls. unfold r_article. wstep.
  unfold selectgroup, call_fuel. repeat wstep. rewrite Nat.add_comm. cbn [Nat.add]. rewrite selectgroup_n_S.
  unfold selectgroup_body. destruct (Nat.ltb_spec 512 (length gname)); [lia|].
  repeat wstep. rewrite bool_decide_eq_true_2 by done. cbn [negb andb]. repeat wstep.
  eapply wp_issue; [done|exact Ha| |done|].
  { split_and!; [|by rewrite H220|by rewrite H220]. apply (f_equal length) in H220.
    rewrite length_take in H220. change (length (bs "220")) with 3%nat in H220. lia. }
  rewrite bool_decide_eq_true_2 by done. cbn [negb]. unfold read_article, the_stream. repeat wstep.
  cbn [rs_conn told set_conn]. repeat wstep. rewrite a_read_text by done. by repeat wstep.
Qed.
End talk.

(** ** Examples *)
Section example.
#[local] Existing Instance good_os.

Definition ex_group : GroupInfo :=
  put (gi_init (replicate sizeof_GroupInfo "x"%char)) off_name (bs "comp.x" ++ [NUL]).
Definition ex_talking (b : bytes) := set_group ex_group (set_conn (Some (IStream b false false)) (ex_state [])).

Lemma ex_talking_ok b : talking 0 b (ex_talking b).
Proof.
  split; [reflexivity| |reflexivity].
  exists ex_server. split; [reflexivity|]. split; vm_compute; [discriminate|reflexivity].
Qed.

Lemma selectgroup_stores_witness : exists v,
  wp (selectgroup (bs "comp.y") true) (fun _ s' => exists g v', gi_name g = bs "comp.y" /\ gi_first g = 3 /\
    gi_last g = 10 /\ db_rep 4 v' (rs_db s') /\ v' (bs "comp.y") = Some (getraw g) /\
    v' (bs "comp.x") = v (bs "comp.x"))
    (ex_talking (group_reply 8 3 10 (bs " comp.y") ++ CR :: LF :: bs "200 next")).
Proof.
  destruct (ex_talk_ok [] ltac:(cbn; lia)) as [[_ _ _ _ _ [v Hv]] _]. exists v.
  set (b := _ ++ _). eapply wp_mono.
  - apply (selectgroup_stores 4 v 0 b (bs "200 next") 8 3 10 (bs " comp.y") (bs "comp.y")); try lia.
    + apply ex_talking_ok.
    + vm_compute. reflexivity.
    + apply answers_crlf; [notin|]. by intros c [= <-].
    + reflexivity.
    + cbn. lia.
    + notin.
    + vm_compute. reflexivity.
    + exact Hv.
  - intros _ s' (g & v' & _ & _ & En & Ef & El & _ & _ & _ & _ & _ & Hd & Hv').
    exists g, v'. rewrite !Hv'. split_and!; [exact En|exact Ef|exact El|exact Hd| |].
    + by rewrite decide_True.
    + by rewrite decide_False.
Defined.

Lemma r_article_text_witness :
  let ls := [bs "Subject: x"; []; bs "..dots"] in
  wp (r_article (bs "comp.x") 5 (MkArticle 0 [])) (fun a _ => a = MkArticle 5 (sent_text ls))
    (ex_talking (bs "220 5" ++ CR :: LF :: sent_text ls ++ bs "." ++ CR :: LF :: [])).
Proof.
  intros ls. set (b := _ ++ _). eapply wp_mono.
  - apply (r_article_text 0 b ls (bs "220 5") [] (bs "comp.x") 5 (MkArticle 0 [])).
    + apply ex_talking_ok.
    + vm_compute. reflexivity.
    + cbn. lia.
    + apply (answers_crlf (bs "220 5")); [notin|]. by intros c [= <-].
    + reflexivity.
    + repeat apply Forall_cons_2; [..|apply Forall_nil_2]; (split; [notin|split; [|done]]); by intros c [= <-].
  - intros a s' [-> _]. reflexivity.
Defined.
End example.
