(* ===== verification/RPost.v ===== *)
(** * RPost.v: posting

    What the result 0 of post means for the servers of the newsgroups. *)
From S2P Require Import Prelude Memory Text Matching ServerList Container GroupInfo Article OverviewFmt RServer.
From S2P Require Import DbLaws RSafe RNews.

(** ** Articles are read without an effect *)
Definition pure {S A} (c : M S A) : Prop :=
  forall s, may c (fun _ s' => s' = s) (fun e s' => s' = s /\ e <> DuplicateArticleError) s.

Section pure.
Context {S : Type}.

Lemma pure_bind {A B} (c : M S A) (k : A -> M S B) : pure c -> (forall a, pure (k a)) -> pure (bind c k).
Proof.
  intros Hc Hk s. pstep. eapply may_mono; [apply Hc| |done]. intros a s' ->. apply Hk.
Qed.
Lemma pure_ret {A} (a : A) : pure (S := S) (ret a).
Proof. done. Qed.
Lemma pure_throw {A} e : e <> DuplicateArticleError -> pure (S := S) (A := A) (throw e).
Proof. done. Qed.
Lemma pure_spin {A} : pure (S := S) (A := A) spin.
Proof. done. Qed.
Lemma pure_abort {A} w : pure (S := S) (A := A) (abort w).
Proof. done. Qed.

Ltac pures := repeat first
  [ apply pure_bind; [|intros ?] | apply pure_ret | by apply pure_throw | apply pure_spin | apply pure_abort
  | match goal with |- pure (if ?b then _ else _) => destruct b end
  | match goal with |- pure (match ?x with _ => _ end) => destruct x end
  | match goal with |- pure (let _ := _ in _) => cbv zeta end ].

Lemma pure_find_field f a : pure (S := S) (find_field f a).
Proof.
  unfold find_field. cbv zeta. generalize (cstr (a_text a)) at 2. generalize (Datatypes.S (length (cstr (a_text a)))).
  intros n. induction n as [|n IH]; intros q; cbn [find_field_loop]; [apply pure_spin|].
  destruct (match_field _ _) as [p q']. pures; apply IH.
Qed.

Lemma pure_next_line p : pure (S := S) (next_line p).
Proof. unfold next_line. pures. Qed.

Lemma pure_getfield f b a : pure (S := S) (getfield f b a).
Proof.
  unfold getfield. destruct (strcaseeq _ _); [apply pure_ret|]. apply pure_bind; [apply pure_find_field|].
  intros fld. destruct (eol _); [by apply pure_throw|]. apply pure_bind; [apply pure_next_line|]. intros p.
  generalize (take (length (if b then fld else skip_while blank (drop (length f) fld)) -
    length (skip_while not_eol (skip_while blank (drop (length f) fld))))
    (if b then fld else skip_while blank (drop (length f) fld))). intros rfld.
  generalize (Datatypes.S (length p)). intros n. revert rfld p.
  induction n as [|n IH]; intros rfld p; cbn [getfield_multi]; [apply pure_spin|].
  destruct (blank _); [|apply pure_ret]. apply pure_bind; [apply pure_next_line|]. intros q. apply IH.
Qed.

Lemma pure_has_field f a : pure (S := S) (has_field f a).
Proof. unfold has_field. apply pure_bind; [apply pure_find_field|]. intros q. apply pure_ret. Qed.

Lemma pure_setfield f d a : pure (S := S) (setfield f d a).
Proof.
  unfold setfield. apply pure_bind; [apply pure_find_field|]. intros fld.
  destruct (eol _); [apply pure_ret|]. apply pure_bind; [|intros q; apply pure_ret].
  generalize (over_eol (skip_while not_eol (skip_while isspace (drop (length f) fld)))). intros p.
  generalize (Datatypes.S (length (skip_while not_eol (skip_while isspace (drop (length f) fld))))). intros n. revert p.
  induction n as [|n IH]; intros p; cbn [setfield_multi]; [apply pure_spin|]. pures. apply IH.
Qed.
End pure.

(** *** and without looking at the state *)
Definition alike {S T A} (c : M S A) (d : M T A) : Prop := forall s t,
  match c s, d t with
  | Ret a s', Ret b t' => a = b /\ s' = s /\ t' = t
  | Throw e s', Throw x t' => e = x /\ s' = s /\ t' = t
  | Abort _, Abort _ => True
  | Spin, Spin => True
  | _, _ => False
  end.

Section alike.
Context {S T : Type}.

Lemma alike_bind {A B} (c : M S A) (d : M T A) (k : A -> M S B) (h : A -> M T B) :
  alike c d -> (forall a, alike (k a) (h a)) -> alike (bind c k) (bind d h).
Proof.
  intros Hc Hk s t. specialize (Hc s t). unfold bind. destruct (c s), (d t); try done.
  destruct Hc as (-> & -> & ->). apply Hk.
Qed.
Lemma alike_ret {A} (a : A) : alike (ret (S := S) a) (ret (S := T) a).
Proof. done. Qed.

Ltac alikes := repeat first
  [ apply alike_bind; [|intros ?] | apply alike_ret | done
  | match goal with |- alike (if ?b then _ else _) _ => destruct b end
  | match goal with |- alike (match ?x with _ => _ end) _ => destruct x end ].

Lemma alike_find_field f a : alike (find_field (S := S) f a) (find_field (S := T) f a).
Proof.
  unfold find_field. cbv zeta. generalize (cstr (a_text a)) at 2 4. generalize (Datatypes.S (length (cstr (a_text a)))).
  intros n. induction n as [|n IH]; intros q; cbn [find_field_loop]; [done|].
  destruct (match_field _ _) as [p q']. alikes; apply IH.
Qed.
Lemma alike_next_line p : alike (next_line (S := S) p) (next_line (S := T) p).
Proof. unfold next_line. alikes. Qed.
Lemma alike_multi : forall n rfld p, alike (getfield_multi (S := S) n rfld p) (getfield_multi (S := T) n rfld p).
Proof.
  induction n as [|n IH]; intros rfld p; cbn [getfield_multi]; [done|]. destruct (blank _); [|apply alike_ret].
  apply alike_bind; [apply alike_next_line|]. intros q. apply IH.
Qed.
Lemma alike_getfield f b a : alike (getfield (S := S) f b a) (getfield (S := T) f b a).
Proof.
  unfold getfield. destruct (strcaseeq _ _); [apply alike_ret|]. apply alike_bind; [apply alike_find_field|].
  intros fld. destruct (eol _); [done|]. cbv zeta. apply alike_bind; [apply alike_next_line|]. intros p. apply alike_multi.
Qed.
End alike.

Lemma may_self {S A} (c : M S A) s : may c (fun a s' => c s = Ret a s') (fun _ _ => True) s.
Proof. unfold may. by destruct (c s). Qed.

(** The Message-ID of an article. *)
Definition identifier (a : Article) : option bytes :=
  match getfield (bs "message-id:") false a tt with Ret id _ => Some id | _ => None end.
Lemma getfield_identifier {S} a id (s s' : S) : getfield (bs "message-id:") false a s = Ret id s' -> identifier a = Some id.
Proof.
  intros E. pose proof (alike_getfield (S := S) (T := unit) (bs "message-id:") false a s tt) as H. rewrite E in H.
  unfold identifier. destruct (getfield _ _ _ tt); try done. by destruct H as [-> _].
Qed.

(** ** What a trace says *)
Definition replied (i : nat) (cmd l : bytes) (tr : list event) : Prop :=
  exists tr1 tr2, tr = tr1 ++ EReply l :: ESend i cmd :: tr2.

(** The server [i] took the article, or says that it has its identifier already. *)
Definition accepted (i : nat) (a : Article) (tr : list event) : Prop :=
  (exists l, replied i (a_text a ++ bs "." ++ [CR; LF]) l tr /\ take 3 l = bs "240") \/
  (exists id l, identifier a = Some id /\ replied i (crlf (bs "stat " ++ id)) l tr /\ take 3 l = bs "223").

Lemma replied_app i cmd l tr new : replied i cmd l tr -> replied i cmd l (new ++ tr).
Proof. intros (tr1 & tr2 & ->). exists (new ++ tr1), tr2. by rewrite app_assoc. Qed.

Lemma accepted_app i a tr new : accepted i a tr -> accepted i a (new ++ tr).
Proof.
  intros [(l & ? & ?)|(id & l & ? & ? & ?)]; [left; exists l|right; exists id, l]; split_and?; try done; by apply replied_app.
Qed.

Section trace.
Context {os : Os} {env : Env} {D : Type} {db : RServer.ActiveDB D}.
Implicit Types s : rserver D.

(** The state after an exchange: the reply was the last thing read, the stream is
    still good. *)
Definition exchanged (cmd resp : bytes) s : Prop :=
  exists i ist tr, rs_cur s = Some i /\ rs_conn s = Some ist /\ good ist = true /\
    rs_sent s = EReply resp :: ESend i cmd :: tr.

Lemma nlreadline_good ist strg keepnl l ist' : nlreadline ist strg keepnl = (l, ist') -> good ist' = true ->
  good ist = true.
Proof.
  unfold nlreadline, getline. destruct (good ist) eqn:E; [done|]. intros [= <- <-]. unfold good. cbn.
  by rewrite andb_false_r.
Qed.

(** Sending, reading the reply and looking at the stream. *)
Lemma may_exchange {A} cmd strg keepnl (k : bytes -> bool -> M (rserver D) A) Q E s :
  (forall l s', exchanged cmd l s' -> may (k l true) Q E s') ->
  (forall l s', may (k l false) Q E s') ->
  may (send cmd ;;; l <- readline strg keepnl ;; g <- conn_good ;; k l g) Q E s.
Proof.
  intros H1 H2. unfold send, readline, conn_good, the_stream, cur_index, may, bind, gets, ret, modify, abort.
  destruct (rs_conn s) as [ist|] eqn:Ei; [|done]. destruct (rs_cur s) as [i|] eqn:Ec; [|done].
  destruct (good ist) eqn:Eg; rs_cbn; rewrite ?Ei; destruct (nlreadline ist strg keepnl) as [l ist'] eqn:El; rs_cbn;
    destruct (good ist') eqn:Eg'; try apply H2.
  - apply H1. exists i, ist', (rs_sent s). by rs_cbn.
  - by rewrite (nlreadline_good _ _ _ _ _ El Eg') in Eg.
Qed.

Lemma issue_loop_trace c cmd : forall k i resp s,
  may (issue_loop c k i cmd resp) (fun r s' => exchanged cmd r s') (fun _ _ => True) s.
Proof.
  induction k as [|k IH]; intros i resp s; cbn [issue_loop]; [done|]. apply may_exchange.
  - intros l s' H. destruct (_ && _); [done|]. pstep. unfold may. destruct (reconnect _ _ _); try done. apply IH.
  - intros l s'. cbn [andb]. pstep. unfold may. destruct (reconnect _ _ _); try done. apply IH.
Qed.

Lemma issue_trace cmd ex s : may (issue cmd ex) (fun r s' => exchanged cmd r s') (fun _ _ => True) s.
Proof.
  unfold issue, call_fuel. pstep. unfold may at 1, gets. rewrite Nat.add_comm. cbn [Nat.add issue_n].
  unfold issue_body. apply may_then; [done|]. intros e s1. cbv zeta.
  apply may_then; [done|]. intros b s2. apply may_then; [done|]. intros _ s3.
  pstep. eapply may_mono; [apply issue_loop_trace| |done]. intros r s4 H. destruct (_ || _); [|done].
  by destruct ex.
Qed.

(** ** Posting to one server *)
Section post.
Context {laws : ActiveDBLaws D}.

Definition post_data (a : Article) : bytes := a_text a ++ bs "." ++ [CR; LF].

Lemma post_send_trace a : forall k i s,
  may (post_send k i a) (fun l s' => exchanged (post_data a) l s') (fun _ _ => True) s.
Proof.
  induction k as [|k IH]; intros i s; cbn [post_send]; [done|]. apply may_then; [done|]. intros resp s1.
  destruct (negb _); [by destruct (bool_decide _)|]. apply may_exchange; [done|].
  intros l s2. apply may_then; [done|]. intros j s3. apply IH.
Qed.

(** [c] stays in the dialogue, and does not find a duplicate. *)
Definition talks {A} (m : nat) (c : M (rserver D) A) s1 : Prop :=
  rs_ok m s1 -> cur_ok s1 -> linked s1 ->
  may c (fun _ s' => after m s1 s' /\ linked s')
    (fun e s' => after m s1 s' /\ e <> DuplicateArticleError) s1.

Lemma talks_bind {A B} m (c : M (rserver D) A) (k : A -> M (rserver D) B) s :
  talks m c s -> (forall a s', talks m (k a) s') -> talks m (bind c k) s.
Proof.
  intros Hc Hk Hs Hcur Hl. pstep. eapply may_mono; [by apply Hc| |done].
  intros a s1 [[Hs1 Hk1] Hl1]. eapply may_mono; [apply Hk; [done|by eapply cur_link|done]|..].
  - intros b s2 [[? ?] ?]. split; [split; [done|by eapply link_trans]|done].
  - intros e s2 [[? ?] ?]. split; [split; [done|by eapply link_trans]|done].
Qed.

Lemma talk_exn_dup e : talk_exn e -> e <> DuplicateArticleError.
Proof. by destruct e. Qed.

Lemma talks_ends {A} m (c : M (rserver D) A) s : (rs_ok m s -> cur_ok s -> linked s -> ends m c s) -> talks m c s.
Proof.
  intros H ???. eapply may_mono; [by apply runs_may, H|done|]. intros e s' [? ?]. split; [done|by apply talk_exn_dup].
Qed.

Lemma talks_ret {A} m (a : A) s : talks m (ret a) s.
Proof. apply talks_ends. intros. by apply ends_ret. Qed.
Lemma talks_throw {A} m e s : e <> DuplicateArticleError -> talks (A := A) m (throw e) s.
Proof. intros ????. pstep. split; [by apply after_refl|done]. Qed.
Lemma talks_pure {A} m (c : M (rserver D) A) s : pure c -> talks m c s.
Proof.
  intros H Hs Hc Hl. eapply may_mono; [apply H|..].
  - intros ? ? ->. split; [by apply after_refl|done].
  - intros ? ? [-> ?]. split; [by apply after_refl|done].
Qed.

Lemma talks_post_send a m : forall k i s, talks m (post_send k i a) s.
Proof.
  induction k as [|k IH]; intros i s; cbn [post_send]; [done|].
  apply talks_bind; [apply talks_ends; intros; by apply issue_ends|]. intros l s1.
  destruct (negb _); [destruct (bool_decide _); by apply talks_throw|].
  apply talks_bind; [|intros _ s2; apply talks_bind; [|intros r s3; apply talks_bind; [|intros g s4]]].
  - apply talks_ends. intros ? ? Hl. eapply runs_mono; [by apply (runs_send (fails m s1) m)| |done].
    intros _ s' [? E]. split; [done|]. unfold linked. by rewrite E.
  - apply talks_ends. intros ? ? Hl. by apply runs_readline.
  - apply talks_ends. intros ? ? Hl. eapply runs_mono; [by apply (runs_conn_good (fails m s3))| |done].
    intros g s' ->. split; [by apply after_refl|done].
  - destruct g; [apply talks_ret|]. apply talks_bind; [|intros j s5; apply IH].
    destruct i as [|i]; [done|]. apply talks_ends. intros ? ? ?. unfold ends.
    eapply runs_mono; [apply (reconnect_ends (length (rs_net s4)) connect); [|lia|done..]|..].
    + intros. by apply connect_ends.
    + by intros ? ? (? & ? & _).
    + done.
Qed.

Lemma exchanged_replied i cmd l s : exchanged cmd l s -> rs_cur s = Some i -> replied i cmd l (rs_sent s).
Proof. intros (j & ist & tr & Hj & _ & _ & ->) Hi. simplify_eq. by exists [], tr. Qed.

Lemma post_check_spec m i a s : rs_ok m s -> rs_cur s = Some i -> linked s ->
  may (post_check a) (fun _ s' => after m s s' /\ linked s')
    (fun e s' => after m s s' /\ (e = DuplicateArticleError -> accepted i a (rs_sent s'))) s.
Proof.
  intros Hs Hi Hl. pose proof (cur_of_ok _ _ _ Hs Hi) as Hc. unfold post_check.
  pstep. pstep. pstep. eapply may_mono; [apply may_and; [apply pure_getfield|apply may_self]|..].
  2: { intros e s' [[-> He] _]. destruct e; pstep; try by (split; [by apply after_refl|done]). }
  intros id s' [-> Hid%getfield_identifier]. pstep. destruct (505 <? length id)%nat; [done|].
  pstep. eapply may_mono; [apply may_and; [by apply runs_may, (issue_ends m)|apply issue_trace]|..]; cbv beta.
  - intros l s1 [[Ha Hl1] Ht]. pose proof (lk_cur _ _ (proj2 Ha)) as Ec. rewrite Hi in Ec.
    case_bool_decide as E.
    + pstep. split; [done|]. intros _. right. exists id, l. split_and!; [done|by apply exchanged_replied|done].
    + destruct (negb _); by pstep.
  - intros e s1 [[Ha He] _]. split; [done|]. by intros ->.
Qed.

(** The server [i] was made current and talked to. *)
Definition went (m i : nat) s s' : Prop := rs_ok m s' /\ exists s1, moved i s s1 /\ link s1 s'.

Lemma went_wlink m i s s' : went m i s s' -> wlink s s'.
Proof. intros [_ (s1 & Hm & Hk)]. eapply wlink_trans; [apply Hm|by apply link_wlink]. Qed.

Lemma post_server_spec m i a s : rs_ok m s -> is_Some (rs_entries s !! i) ->
  may (post_server i a)
    (fun _ s' => went m i s s' /\ accepted i a (rs_sent s'))
    (fun e s' => went m i s s' /\ (e = DuplicateArticleError -> accepted i a (rs_sent s'))) s.
Proof.
  intros Hs Hi. unfold post_server.
  pstep. eapply may_mono; [by apply runs_may, (runs_setserver (fun _ _ => False) m)| |done].
  intros _ s1 (Hs1 & Hm). pose proof (mv_cur _ _ _ Hm) as Hc. pose proof (cur_of_ok _ _ _ Hs1 Hc) as Hcur.
  apply (may_mono _ (fun _ s' => after m s1 s' /\ accepted i a (rs_sent s')) _
    (fun e s' => after m s1 s' /\ (e = DuplicateArticleError -> accepted i a (rs_sent s')))).
  2: { intros _ s' [[? Hk] ?]. split; [split; [done|by exists s1]|done]. }
  2: { intros e s' [[? Hk] ?]. split; [split; [done|by exists s1]|done]. }
  pstep. eapply may_mono; [by apply runs_may, (connect_ends m)|..]; cbv beta.
  2: { intros e s2 [? He]. split; [done|]. by intros ->. }
  intros _ s2 [[Hs2 Hk2] Hl2]. pose proof (lk_cur _ _ Hk2) as Ec2. rewrite Hc in Ec2.
  pstep. eapply may_mono; [by apply (post_check_spec m i)|..]; cbv beta.
  2: { intros e s3 [[? ?] ?]. split; [split; [done|by eapply link_trans]|done]. }
  intros _ s3 [[Hs3 Hk3] Hl3]. pose proof (link_trans _ _ _ Hk2 Hk3) as Hk.
  pose proof (cur_link _ _ Hcur Hk) as Hcur3.
  pstep. eapply may_mono; [by apply runs_may, (runs_cur_server (fun _ _ => False) m)| |done].
  intros e s' [-> _]. cbv zeta.
  pstep. eapply may_mono; [apply may_and; [by apply talks_post_send|apply post_send_trace]|..]; cbv beta.
  2: { intros e' s4 [[[? ?] ?] _]. split; [split; [done|by eapply link_trans]|done]. }
  intros l s4 [[[Hs4 Hk4] _] Ht]. assert (after m s1 s4) as Ha by (split; [done|by eapply link_trans]).
  case_bool_decide as E.
  - pstep. split; [done|]. left. exists l. split; [|done]. eapply exchanged_replied; [done|].
    rewrite (lk_cur _ _ (proj2 Ha)). done.
  - repeat (destruct (bool_decide _); [by pstep|]). by pstep.
Qed.

(** ** Posting to the servers of the groups *)
Lemma rs_ok_pc m n s : rs_ok m s -> rs_ok m (set_pc n s).
Proof. by intros []. Qed.

Lemma classify_fine e p p' : classify e p = Some p' -> 0 <= pc_spool p -> pc_err p' = 0 -> pc_spool p' = 0 ->
  e = DuplicateArticleError /\ pc_err p = 0 /\ pc_spool p = 0.
Proof.
  intros H Hp He Hs.
  destruct e; cbn in H; injection H as <- || done; cbn in *; try (apply Z.lor_eq_0_iff in He as [_ ?]); try done; lia.
Qed.

Lemma classify_spool e p p' : classify e p = Some p' -> 0 <= pc_spool p -> 0 <= pc_spool p'.
Proof. intros H. destruct e; cbn in H; injection H as <- || done; cbn; lia. Qed.

Lemma post_loop_spec m a : forall mpe p s, rs_ok m s -> (forall i, i ∈ mpe -> is_Some (rs_entries s !! i)) ->
  0 <= pc_spool p ->
  may (post_loop mpe a p) (fun p' s' => wlink s s' /\ (pc_err p' = 0 -> pc_spool p' = 0 ->
    pc_err p = 0 /\ pc_spool p = 0 /\ forall i, i ∈ mpe -> accepted i a (rs_sent s'))) (fun _ _ => True) s.
Proof.
  induction mpe as [|i mpe IH]; intros p s Hs Hi Hp; cbn [post_loop].
  { pstep. split; [apply link_wlink, link_refl|]. intros ??. split_and!; try done. intros i Hin. by apply not_elem_of_nil in Hin. }
  pstep. pstep. destruct (Hi i ltac:(by left)) as [e He]. rewrite He.
  assert (forall p1 s1, rs_ok m s1 -> wlink s s1 -> 0 <= pc_spool p1 ->
    (pc_err p1 = 0 -> pc_spool p1 = 0 -> pc_err p = 0 /\ pc_spool p = 0 /\ accepted i a (rs_sent s1)) ->
    may (post_loop mpe a p1) (fun p' s' => wlink s s' /\ (pc_err p' = 0 -> pc_spool p' = 0 ->
      pc_err p = 0 /\ pc_spool p = 0 /\ forall j, j ∈ i :: mpe -> accepted j a (rs_sent s')))
      (fun _ _ => True) s1) as Hrest.
  { intros p1 s1 Hs1 Hw Hp1 H1. eapply may_mono; [apply (IH p1 s1); [done| |done]| |done].
    - intros j Hj. eapply cfg_lookup; [apply Hw|]. apply Hi. by right.
    - intros p' s' [Hw' H']. split; [by eapply wlink_trans|]. intros E1 E2.
      destruct (H' E1 E2) as (E3 & E4 & Hall). destruct (H1 E3 E4) as (? & ? & Hacc). split_and!; try done.
      intros j [->|Hj]%elem_of_cons; [|by apply Hall].
      destruct (wl_sent _ _ Hw') as [new ->]. by apply accepted_app. }
  pstep. destruct (has_flag _ _).
  - pstep. apply Hrest; [done|apply link_wlink, link_refl|cbn; lia|]. cbn. lia.
  - pstep. pstep. eapply may_mono; [apply (post_server_spec m); [done|by eexists]|..]; cbv beta.
    + intros _ s1 [Hw ?]. pose proof (went_wlink _ _ _ _ Hw). pstep. apply Hrest; try done. apply Hw.
    + intros x s1 [Hw Hd]. pose proof (went_wlink _ _ _ _ Hw). destruct (classify x p) as [p1|] eqn:Ex; pstep; [|done].
      apply Hrest; [apply Hw|done|by eapply classify_spool|]. intros E1 E2.
      destruct (classify_fine _ _ _ Ex Hp E1 E2) as (-> & ? & ?). split_and!; try done. by apply Hd.
Qed.
End post.
End trace.

(** ** The groups of the Newsgroups field

    The words between commas and white space; an empty field names the empty group. *)
Fixpoint split_words (s : bytes) : list bytes :=
  match s with
  | [] => [[]]
  | c :: r => if list_sep c then [] :: split_words r
              else match split_words r with x :: l => (c :: x) :: l | [] => [[c]] end
  end.
Definition q_words (s : bytes) : list bytes := List.filter (fun w => negb (bool_decide (w = []))) (split_words s).
Definition newsgroups_of (s : bytes) : list bytes := match q_words s with [] => [[]] | ws => ws end.

Lemma q_words_skip s : q_words (skip_while list_sep s) = q_words s.
Proof.
  induction s as [|c s IH]; [done|]. cbn [skip_while]. destruct (list_sep c) eqn:E; [|done].
  rewrite IH. unfold q_words. cbn [split_words]. by rewrite E.
Qed.

Lemma q_words_cons w r : w <> [] -> Forall (fun c => list_sep c = false) w ->
  match r with c :: _ => list_sep c = true | [] => True end -> q_words (w ++ r) = w :: q_words r.
Proof.
  intros Hw Hf Hr. assert (split_words (w ++ r) = w :: match r with [] => [] | _ :: r' => split_words r' end) as E.
  { clear Hw. induction Hf as [|c w Hc Hf IH]; cbn [app split_words]; [|by rewrite Hc, IH].
    destruct r as [|c r]; [done|]. cbn [split_words]. by rewrite Hr. }
  unfold q_words. rewrite E. cbn [List.filter]. rewrite bool_decide_eq_false_2 by done. cbn [negb]. f_equal.
  destruct r as [|c r]; [done|]. cbn [split_words]. by rewrite Hr.
Qed.

Lemma skip_while_head f (s : bytes) : match skip_while f s with c :: _ => f c = false | [] => True end.
Proof. induction s as [|c s IH]; [done|]. cbn [skip_while]. by destruct (f c) eqn:E. Qed.

Lemma take_while_Forall f (s : bytes) : Forall (fun c => f c = true) (take_while f s).
Proof. induction s as [|c s IH]; cbn [take_while]; [constructor|]. destruct (f c) eqn:E; by constructor. Qed.

Lemma words_head c q : list_sep c = false ->
  q_words (c :: q) = take_while not_list_sep (c :: q) :: q_words (skip_while not_list_sep (c :: q)).
Proof.
  intros Hc. rewrite <- (take_skip_while not_list_sep (c :: q)) at 1. apply q_words_cons.
  - cbn [take_while]. unfold not_list_sep at 1. by rewrite Hc.
  - eapply Forall_impl; [apply take_while_Forall|]. intros x Hx. by apply negb_true_iff.
  - pose proof (skip_while_head not_list_sep (c :: q)) as H. destruct (skip_while _ _); [done|].
    by apply negb_false_iff in H.
Qed.

Lemma newsgroups_head c q : list_sep c = false -> newsgroups_of (c :: q) = q_words (c :: q).
Proof. intros Hc. unfold newsgroups_of. by rewrite words_head. Qed.

Lemma or_exists_cons (P : Prop) (Q : bytes -> Prop) w l :
  ((P \/ Q w) \/ exists g, g ∈ l /\ Q g) <-> P \/ exists g, g ∈ w :: l /\ Q g.
Proof.
  split.
  - intros [[?|?]|(g & ? & ?)]; [by left|right; exists w|right; exists g]; (split; [|done]); [by left|by right].
  - intros [?|(g & [->|?]%elem_of_cons & ?)]; auto. right. by exists g.
Qed.
(** The loop over the groups collects the servers of the words. *)
Lemma post_servers_spec es i : forall fuel q mpe, (length q < fuel)%nat ->
  match q with c :: _ => list_sep c = false | [] => True end ->
  i ∈ post_servers fuel es q mpe <-> i ∈ mpe \/ exists g, g ∈ newsgroups_of q /\ postserver es g = Some i.
Proof.
  induction fuel as [|fuel IH]; intros q mpe Hf Hq; [lia|]. cbn [post_servers].
  set (w := take_while not_list_sep q). set (r := skip_while not_list_sep q).
  set (mpe' := match postserver es w with Some _ => _ | None => mpe end).
  assert (i ∈ mpe' <-> i ∈ mpe \/ postserver es w = Some i) as Hm.
  { unfold mpe'. destruct (postserver es w) as [c|]; [case_bool_decide|].
    - split; [by left|]. by intros [?|[= <-]].
    - rewrite elem_of_app, list_elem_of_singleton. split; [intros [?| ->]; auto|]. intros [?|[= <-]]; auto.
    - split; [by left|]. by intros [?|?]. }
  assert (newsgroups_of q = w :: q_words r) as Eg.
  { destruct q as [|c q]; [done|]. by rewrite newsgroups_head, words_head. }
  pose proof (or_exists_cons (i ∈ mpe) (fun g => postserver es g = Some i) w) as Hor.
  rewrite Eg. pose proof (q_words_skip r) as Ew. pose proof (skip_while_head list_sep r) as Hh.
  destruct (skip_while list_sep r) as [|c q'] eqn:Er.
  - rewrite <- Ew. change (q_words []) with (@nil bytes). rewrite Hm, <- (Hor []). split; [by left|].
    intros [?|(g & Hg & _)]; [done|by apply not_elem_of_nil in Hg].
  - assert (length (c :: q') <= length r)%nat as H1.
    { rewrite <- Er. pose proof (take_skip_while list_sep r) as E. apply (f_equal length) in E.
      rewrite length_app in E. lia. }
    assert (length r < length q)%nat as H2.
    { destruct q as [|x q]; [done|]. pose proof (take_skip_while not_list_sep (x :: q)) as E.
      apply (f_equal length) in E. rewrite length_app in E. fold w r in E. unfold w in E. cbn [take_while] in E.
      unfold not_list_sep at 1 in E. rewrite Hq in E. cbn [negb length] in *. lia. }
    rewrite IH by (done || lia). rewrite Hm, newsgroups_head, Ew by done. apply Hor.
Qed.

Section result.
Context {os : Os} {env : Env} {D : Type} {db : RServer.ActiveDB D} {laws : ActiveDBLaws D}.
Implicit Types s : rserver D.

(** C21: when post returns 0, every news server that is responsible for one of the
    groups in the Newsgroups field of the article has accepted it: it was sent to
    the server, as completed by post, and the server answered 240, or the server
    answered 223 to the question whether it has the Message-ID of the article (the one
    post gave it, if it had none) already. *)
Theorem post_accepted m a a' s s' : rs_ok m s -> r_post a s = Ret (a', inr 0) s' ->
  exists v, getfield (bs "newsgroups:") false a s = Ret v s /\
    forall g i, g ∈ newsgroups_of (skip_while list_sep (cstr v)) -> postserver (rs_entries s) g = Some i ->
      accepted i a' (rs_sent s').
Proof.
  intros Hs. set (q v := skip_while list_sep (cstr v)).
  assert (may (r_post a) (fun r s' => forall a', r = (a', inr 0) ->
    exists v, getfield (bs "newsgroups:") false a s = Ret v s /\
    forall g i, g ∈ newsgroups_of (q v) -> postserver (rs_entries s) g = Some i ->
      accepted i a' (rs_sent s')) (fun _ _ => True) s) as H.
  2: { intros E. unfold may in H. rewrite E in H. by apply H. }
  unfold r_post. pstep. pstep. pstep.
  eapply may_mono; [apply pure_has_field|..]; cbv beta; [|by intros [] ? [-> _]; pstep].
  intros f1 s1 ->. destruct (negb f1); [by pstep|]. pstep.
  eapply may_mono; [apply pure_has_field|..]; cbv beta; [|by intros [] ? [-> _]; pstep].
  intros f2 s1 ->. destruct (negb f2); [by pstep|].
  pose proof (pure_getfield (bs "newsgroups:") false a s) as Hg.
  unfold may at 1. destruct (getfield (bs "newsgroups:") false a s) as [v sg|e sg| |] eqn:Ev; [|by destruct e|done..].
  unfold may in Hg. rewrite Ev in Hg. subst sg.
  pstep. eapply (may_mono _ (fun _ s1 => s1 = s) _ (fun _ _ => True)); [|..]; cbv beta; [| |done].
  { destruct (bool_decide _); [by pstep|]. eapply may_mono; [apply pure_setfield|done|done]. }
  intros a1 s1 ->. pstep.
  apply (may_mono _ (fun r s1 => rs_entries s1 = rs_entries s /\ rs_ok m s1) _ (fun _ _ => True)); [| |done].
  { pstep. pstep. unfold add_message_id. pstep.
    eapply may_mono; [apply pure_has_field|..]; cbv beta; [|by intros e s1 [-> _]; pstep].
    intros h s1 ->. destruct h; [by repeat pstep|]. pstep. pstep. pstep. pstep.
    eapply may_mono; [apply pure_setfield|..]; cbv beta.
    - intros a2 s2 ->. pstep. split; [done|by apply rs_ok_pc].
    - intros e s2 [-> _]. pstep. split; [done|by apply rs_ok_pc]. }
  intros r s1 [Ee Hs1]. destruct r as [e|a2]; [by pstep|].
  pstep. pstep. fold (q v). pose proof (fun i => post_servers_spec (rs_entries s1) i (S (length (q v))) (q v) []
    ltac:(lia) (skip_while_head list_sep (cstr v))) as Hsrv.
  destruct (post_servers _ _ _ _) as [|i0 mpe] eqn:Em; [by pstep|].
  pstep. eapply may_mono; [apply (post_loop_spec m); [done| |done]| |done].
  - intros i Hi. apply Hsrv in Hi as [Hi|(g & _ & Hi)]; [by apply not_elem_of_nil in Hi|].
    by eapply find_server_lookup.
  - intros p s2 [Hw Hacc]. pstep. intros a'' [= <- Hr]. exists v. split; [done|]. intros g i Hgr Hi.
    unfold post_result in Hr. destruct (Z.eqb_spec (pc_err p) 0) as [Ep|]; [|by destruct (_ =? _)].
    destruct (Z.eqb_spec (pc_spool p) 0) as [Esp|]; [|done].
    destruct (Hacc Ep Esp) as (_ & _ & Hall). apply Hall, Hsrv. right. exists g. by rewrite Ee.
Qed.
End result.

(** ** An article posted to one server *)
Section example.
#[local] Existing Instance good_os.
#[local] Instance ex_env : Env := {|
  nntp_hostname := bs "cache"; nntp_posting_host := []; env_pid := 77; env_tv_sec := 1000
|}.

Definition line (s : string) : bytes := bs s ++ [CR; LF].
Definition ex_article : Article := MkArticle 0
  (line "From: a" ++ line "Subject: b" ++ line "Newsgroups: comp.x, comp.y" ++ line "" ++ line "hi").
Definition ex_replies : list bytes :=
  [line "200 hello" ++ line "200 reader" ++ line "215 format" ++ line "." ++
   line "430 no" ++ line "340 go on" ++ line "240 thanks"].

Lemma ex_posted {D} {db : RServer.ActiveDB D} (d : D) :
  exists a' s', r_post ex_article (ex_talk d ex_replies) = Ret (a', inr 0) s'.
Proof. eexists _, _. vm_compute. reflexivity. Qed.

Lemma ret_inj {S A} (a b : A) (s s' : S) : Ret a s = Ret b s' -> a = b.
Proof. by intros [= ->]. Qed.

Lemma post_accepted_witness : exists a' s', r_post ex_article (ex_state ex_replies) = Ret (a', inr 0) s' /\
  accepted 0 a' (rs_sent s').
Proof.
  destruct (ex_posted (rs_db (ex_state ex_replies))) as (a' & s' & E). exists a', s'. split; [exact E|].
  destruct (ex_talk_ok ex_replies ltac:(cbn; lia)) as [Hok _].
  destruct (post_accepted 5 ex_article a' (ex_state ex_replies) s' Hok E) as (v & Ev & H).
  assert (forall S (s : S), getfield (bs "newsgroups:") false ex_article s = Ret (bs "comp.x, comp.y") s) as Eg
    by (intros S s; vm_compute; reflexivity).
  rewrite Eg in Ev. apply ret_inj in Ev. subst v. apply (H (bs "comp.x")); [vm_compute; by left|vm_compute; reflexivity].
Defined.
End example.
