(* ===== verification/RNewsgroup.v ===== *)
(** * RNewsgroup.v: a newsgroup on a news server

    NServer-0.9.1/RNewsgroup.{h,cc}, the parts of Newsgroup.h it inherits, and
    RServer::getgroup.  The map of overview records is the list of its entries in
    the order of their numbers. *)
From S2P Require Import Prelude Memory Text Matching ServerList Container GroupInfo Article OverviewFmt RServer.
From S2P Require Import RNews.

(** ** std::map<unsigned int, string> *)
Definition omap : Type := list (Z * bytes).
Definition om_find (i : Z) (m : omap) : option bytes := snd <$> List.find (fun x => fst x =? i) m.
(** [m[i] = v] *)
Fixpoint om_set (i : Z) (v : bytes) (m : omap) : omap :=
  match m with
  | [] => [(i, v)]
  | (j, w) :: r => if i <? j then (i, v) :: m else if i =? j then (i, v) :: r else (j, w) :: om_set i v r
  end.
(** From [lower_bound(f)] on. *)
Fixpoint om_from (f : Z) (m : omap) : omap :=
  match m with
  | [] => []
  | (j, w) :: r => if j <? f then om_from f r else m
  end.

Record RNewsgroup := RNg { rn_name : bytes; rn_first : Z; rn_last : Z; rn_db : omap }.

(** The constructor; [strncpy] cuts the name. *)
Definition rn_new (name : bytes) : RNewsgroup := RNg (take 512 name) 1 0 [].
Definition rn_put_db (m : omap) (g : RNewsgroup) : RNewsgroup := RNg (rn_name g) (rn_first g) (rn_last g) m.
Definition rn_put_size (f l : Z) (g : RNewsgroup) : RNewsgroup := RNg (rn_name g) f l (rn_db g).

Definition rn_getover (nbr : Z) (g : RNewsgroup) : option bytes := om_find nbr (rn_db g).
Definition rn_hasrecord (i : Z) (g : RNewsgroup) : bool := bool_decide (is_Some (om_find i (rn_db g))).

Definition rn_setover (over : bytes) (g : RNewsgroup) : RNewsgroup :=
  let i := w32 (atoi (cstr over)) in
  if (rn_first g <=? i) && (i <=? rn_last g) then rn_put_db (om_set i over (rn_db g)) g else g.

(** readoverdb; every line takes a character off the stream. *)
Fixpoint rn_readoverdb_loop (n : nat) (fmt : OverviewFmt) (ist : istream) (line1 : bytes) : M RNewsgroup istream :=
  match n with
  | O => spin
  | S n =>
      let '(line1, ist) := nlreadline ist line1 false in
      if bool_decide (line1 = bs ".") || s_eof ist then ret ist else
      (if dotrans fmt then line2 <- convert fmt line1 ;; modify (rn_setover line2)
       else modify (rn_setover line1)) ;;;
      rn_readoverdb_loop n fmt ist line1
  end.
Definition rn_readoverdb (fmt : OverviewFmt) (ist : istream) : M RNewsgroup istream :=
  rn_readoverdb_loop (S (S (length (s_rest ist)))) fmt ist [].

#[export] Instance RNewsgroup_ops : Newsgroup RNewsgroup := {|
  ng_name := rn_name; ng_readoverdb := rn_readoverdb
|}.

(** printoverdb of Newsgroup.h: the records from [i] on; [i] wraps around. *)
Fixpoint printoverdb_loop (n : nat) (i l : Z) (g : RNewsgroup) : bytes :=
  match n with
  | O => []
  | S n =>
      if i <=? l then
        (match rn_getover i g with Some o => cstr o ++ [CR; LF] | None => [] end) ++ printoverdb_loop n (w32 (i + 1)) l g
      else []
  end.
(** The code does not stop at the greatest number; the caller's [l] is below it. *)
Definition rn_printoverdb (f l : Z) (g : RNewsgroup) : option bytes :=
  let i := if rn_first g <? f then f else rn_first g in
  let l := if rn_last g <? l then rn_last g else l in
  if l =? 2 ^ 32 - 1 then None else Some (printoverdb_loop (S (Z.to_nat (l + 1 - i))) i l g).
Definition rn_printover (nbr : Z) (g : RNewsgroup) : bytes :=
  match rn_getover nbr g with Some o => cstr o ++ [CR; LF] | None => [] end.

Fixpoint printheaderdb_loop {S} (fmt : OverviewFmt) (xheader : bytes) (l : Z) (m : omap) : M S bytes :=
  match m with
  | [] => ret []
  | (i, over) :: r =>
      if l <? i then ret [] else
      t <- catch (fld <- over_getfield fmt (cstr over) xheader 0 ;; ret (dec i ++ bs " " ++ fld ++ [CR; LF]))
             (fun e => match e with
                       | NoSuchFieldError _ => ret (dec i ++ bs " (none)" ++ [CR; LF])
                       | e => raise e end) ;;
      u <- printheaderdb_loop fmt xheader l r ;;
      ret (t ++ u)
  end.
Definition rn_printheaderdb {S} (fmt : OverviewFmt) (header : bytes) (f l : Z) (g : RNewsgroup) : M S bytes :=
  if (510 <? length header)%nat then abort "header longer than its buffer" else
  printheaderdb_loop fmt (header ++ bs ":") l (om_from f (rn_db g)).
Definition rn_printlistgroup (g : RNewsgroup) : bytes :=
  concat ((fun x => dec (fst x) ++ [CR; LF]) <$> rn_db g).

(** ** With the server

    [overviewdb] and [article] are virtual: those of the server the group belongs to. *)
Section remote.
Context {S : Type}.
Variable overviewdb : RNewsgroup -> Z -> Z -> M S RNewsgroup.
Variable article : bytes -> Z -> Article -> M S Article.

Definition rn_setsize (f l : Z) (g : RNewsgroup) : M S RNewsgroup :=
  if (f <? rn_first g) || (l <? rn_last g) then overviewdb (rn_put_size f l (rn_put_db [] g)) f l
  else
    let g := if rn_first g <? f then rn_put_db (om_from f (rn_db g)) g else g in
    if rn_last g <? l then
      let old_last := s32 (rn_last g) in
      overviewdb (rn_put_size f l g) (w32 (old_last + 1)) l
    else ret g.

Definition rn_getarticle (nbr : Z) (g : RNewsgroup) : M S (option Article) :=
  catch (a <- article (rn_name g) nbr (MkArticle 0 []) ;; ret (Some a)) (fun _ => ret None).
Definition rn_printarticle (nbr : Z) (g : RNewsgroup) : M S bytes :=
  catch (a <- article (rn_name g) nbr (MkArticle 0 []) ;; ret (a_text a)) (fun _ => ret []).
End remote.

Definition r_getgroup {os : Os} {D} {db : RServer.ActiveDB D} (name : bytes) : M (rserver D) RNewsgroup :=
  selectgroup name false ;;;
  g <- gets rs_group ;;
  rn_setsize r_overviewdb (gi_first g) (gi_last g) (rn_new name).
