(* ===== verification/CServer.v ===== *)
(** * CServer.v: the caching news server

    The classes LServer and CServer of NServer-0.9.1/NServer.{h,cc} and the spool of
    NServer-0.9.1/ArtSpooler.{h,cc}.  A CServer is a RServer whose active database is
    the one in a file, with two directories of articles. *)
From S2P Require Import Prelude Memory Text Matching ServerList Container GroupInfo Article OverviewFmt RServer.
From S2P Require Import RNews RNewsgroup Heap Alloc NVlist NVHash ActiveDB DbLaws.

(** ** The spool

    A directory is the list of its files.  [sp_times] holds the times (seconds and
    microseconds) gettimeofday will give, [sp_orders] the orders in which readdir
    will give the files of the directory, one for each time it is opened. *)
Definition directory := list (bytes * bytes).
Record spooler := Spooler {
  sp_art : directory;
  sp_bad : directory;
  sp_times : list (Z * Z);
  sp_orders : list (directory -> directory)
}.

(** [sb << (int) pid << (int) t.tv_sec << (int) t.tv_usec] *)
Definition createID (pid : Z) (t : Z * Z) : bytes := dec (s32 pid) ++ dec (s32 (fst t)) ++ dec (s32 (snd t)).
Definition art_prefix : bytes := bs "art_".

(** storeArticle in one directory: [None] when the file is there already.  Where the
    new file stands in the list is of no account: readdir decides about the order. *)
Definition storeArticle (id : bytes) (a : Article) (dir : directory) : option directory :=
  let fn := art_prefix ++ id in
  if bool_decide (fn ∈ dir.*1) then None else Some (dir ++ [(fn, a_text a)]).

Section spool.
Context {env : Env}.

Definition next_id : M spooler bytes :=
  ts <- gets sp_times ;;
  match ts with
  | t :: ts => modify (fun sp => Spooler (sp_art sp) (sp_bad sp) ts (sp_orders sp)) ;;; ret (createID env_pid t)
  | [] => ret (createID env_pid (0, 0))
  end.

Definition spoolArt (a : Article) : M spooler unit :=
  id <- next_id ;; dir <- gets sp_art ;;
  match storeArticle id a dir with
  | Some dir => modify (fun sp => Spooler dir (sp_bad sp) (sp_times sp) (sp_orders sp))
  | None => raise (Error "spoolArt: duplicateArt")
  end.
Definition storeBadArt (a : Article) : M spooler unit :=
  id <- next_id ;; dir <- gets sp_bad ;;
  match storeArticle id a dir with
  | Some dir => modify (fun sp => Spooler (sp_art sp) dir (sp_times sp) (sp_orders sp))
  | None => raise (Error "storeBadArt: duplicateArt")
  end.

(** The first file with the prefix of those readdir gives. *)
Definition first_file (dir : directory) : option (bytes * bytes) :=
  List.find (fun f => bool_decide (take 4 (fst f) = art_prefix)) dir.
(** Removal of a file. *)
Definition unlink_file (fn : bytes) (dir : directory) : directory :=
  List.filter (fun f => negb (bool_decide (fst f = fn))) dir.

(** opendir: the order of the scan that begins. *)
Definition next_order : M spooler (directory -> directory) :=
  os <- gets sp_orders ;;
  match os with
  | o :: os => modify (fun sp => Spooler (sp_art sp) (sp_bad sp) (sp_times sp) os) ;;; ret o
  | [] => ret id
  end.
Definition getSpooledArt : M spooler (option Article) :=
  order <- next_order ;; dir <- gets sp_art ;;
  match first_file (order dir) with
  | None => ret None
  | Some (fn, text) =>
      match a_read (IStream text false false) (MkArticle 0 []) with
      | None => spin
      | Some (a, _) =>
          modify (fun sp => Spooler (unlink_file fn dir) (sp_bad sp) (sp_times sp) (sp_orders sp)) ;;; ret (Some a)
      end
  end.
End spool.

(** ** The state: [cs_ttl] is [_TTLActive] *)
Abbreviation adb := (obj hash_ext).
Record cserver := CSrv { cs_rs : rserver adb; cs_spool : spooler; cs_ttl : Z }.

Section cserver.
Context {os : Os} {env : Env}.
Abbreviation MS := (M cserver).

(** The operations of the base class and of the spool. *)
Definition on_rs {A} (c : M (rserver adb) A) : MS A := fun s =>
  match c (cs_rs s) with
  | Ret a r => Ret a (CSrv r (cs_spool s) (cs_ttl s))
  | Throw e r => Throw e (CSrv r (cs_spool s) (cs_ttl s))
  | Abort w => Abort w
  | Spin => Spin
  end.
Definition on_spool {A} (c : M spooler A) : MS A := fun s =>
  match c (cs_spool s) with
  | Ret a r => Ret a (CSrv (cs_rs s) r (cs_ttl s))
  | Throw e r => Throw e (CSrv (cs_rs s) r (cs_ttl s))
  | Abort w => Abort w
  | Spin => Spin
  end.
Definition on_adb {A} (c : M adb A) : MS A := on_rs (on_db c).

(** ** LServer *)
Definition l_groupinfo (name : bytes) (agroup : GroupInfo) : M (rserver adb) GroupInfo :=
  if (512 <? length name)%nat then raise (AssertionError (ln "LServer::groupinfo: name of newsgroup too long")) else
  r <- on_db (adb_get name agroup) ;;
  match r with Some g => ret g | None => raise NoSuchGroupError end.

(** ** CServer *)
Definition offline (e : MPListEntry) : bool := has_flag (flags e) F_OFFLINE.

(** [mpe = _ServerList->server(name)] and what it points to. *)
Definition find_mpe (name : bytes) : M (rserver adb) (option MPListEntry) :=
  es <- gets rs_entries ;;
  match server es name with
  | None => ret None
  | Some i => match es !! i with Some e => ret (Some e) | None => abort "dangling pointer" end
  end.
(** The callers that use [mpe] without a test. *)
Definition deref_mpe (name : bytes) : M (rserver adb) MPListEntry :=
  m <- find_mpe name ;; match m with Some e => ret e | None => abort "null pointer" end.

Definition active_valid : MS bool :=
  tm <- on_adb getmtime ;;
  ttl <- gets cs_ttl ;;
  ret (os_time <? w64 (tm + ttl)).

(** active: every exception of the transfer is caught, the lock is given back. *)
Definition c_active : MS unit :=
  v <- active_valid ;;
  if (v : bool) then ret tt else
  on_adb (lock_ ExclLock) ;;;
  catch (v <- active_valid ;; if (v : bool) then ret tt else on_rs r_active) (fun _ => ret tt) ;;;
  on_adb (lock_ UnLock).

Definition invalidateActiveDB : MS unit := on_adb (setmtime 0 true).

(** groupinfo; [agroup] is its static object.  The comparison is on unsigned long. *)
Definition c_groupinfo (name : bytes) (agroup : GroupInfo) : M (rserver adb) GroupInfo :=
  if (512 <? length name)%nat then raise (AssertionError (ln "CServer::groupinfo: Name of newsgroup too long")) else
  m <- find_mpe name ;;
  match m with
  | None => raise NoSuchGroupError
  | Some mpe =>
      if offline mpe then l_groupinfo name agroup else
      r <- on_db (adb_get name agroup) ;;
      let agroup := default agroup r in
      if bool_decide (r = None) || (w64 (gi_mtime agroup + groupTimeout mpe) <? os_time) then
        catch (selectgroup name true ;;; gets rs_group)
          (fun e => match e with
                    | ResponseError _ _ _ | SystemError _ _ | IOError _ =>
                        if bool_decide (r = None) then raise NoSuchGroupError else ret agroup
                    | e => raise e
                    end)
      else ret agroup
  end.

(** listgroup, overviewdb and article use the server of the group unchecked. *)
Definition c_listgroup (gname : bytes) (f l : Z) (lstgrp : list bool) : M (rserver adb) (list bool) :=
  mpe <- deref_mpe gname ;;
  if offline mpe then raise (NSError "cannot listgroup in offline mode") else r_listgroup gname f l lstgrp.
Definition c_overviewdb {G} {ng : Newsgroup G} (g : G) (fst lst : Z) : M (rserver adb) G :=
  mpe <- deref_mpe (ng_name g) ;;
  if offline mpe then ret g else r_overviewdb g fst lst.
Definition c_article (gname : bytes) (nbr : Z) (art : Article) : M (rserver adb) Article :=
  mpe <- deref_mpe gname ;;
  if offline mpe then raise (NSError "cannot retrieve articles in offline mode") else r_article gname nbr art.
Definition c_article_id : bytes -> Article -> M (rserver adb) Article :=
  article_by_id (fun e => negb (offline e)) offline.

(** getgroup of a group that is not cached; the others are kept in files. *)
Definition c_getgroup_remote (name : bytes) (agroup : GroupInfo) : M (rserver adb) RNewsgroup :=
  g <- c_groupinfo name agroup ;;
  r <- on_db (adb_get name g) ;;
  match r with
  | None => raise NoSuchGroupError
  | Some g => rn_setsize c_overviewdb (gi_first g) (gi_last g) (rn_new name)
  end.

(** Which newsgroup getgroup makes. *)
Inductive group_kind := NVNewsgroup_kind | RNewsgroup_kind | CNewsgroup_kind.
Definition c_group_kind (name : bytes) : M (rserver adb) group_kind :=
  m <- find_mpe name ;;
  match m with
  | None => raise NoSuchGroupError
  | Some mpe =>
      ret (if offline mpe then NVNewsgroup_kind
           else if has_flag (flags mpe) F_CACHED then CNewsgroup_kind else RNewsgroup_kind)
  end.

(** ** Posting *)
Definition spoolarticle (article : Article) : MS unit := on_spool (spoolArt article).

(** post, with the article as post of the base class left it; 1 when it was spooled. *)
Definition c_post (article : Article) : MS Z :=
  r <- on_rs (r_post article) ;;
  match snd r with
  | inl e => raise e
  | inr r0 => if r0 <? 0 then spoolarticle (fst r) ;;; ret 1 else ret 0
  end.

(** [pA->getfield("message-id")] for the log. *)
Definition log_id (a : Article) : MS unit := getfield (bs "message-id") false a ;;; ret tt.

(** The body of the loop of postspooled. *)
Definition postspooled_one (pA : Article) : MS unit :=
  r <- catch (on_rs (r_post pA)) (fun e => ret (pA, inl e)) ;;
  let pA := fst r in
  match snd r with
  | inr s =>
      if (s =? -1) || (s =? -2) then log_id pA ;;; on_spool (storeBadArt pA) else ret tt
  | inl (InvalidArticleError _) => log_id pA ;;; on_spool (storeBadArt pA)
  | inl e => raise e
  end.
Fixpoint postspooled_loop (n : nat) : MS unit :=
  match n with
  | O => spin
  | S n =>
      p <- on_spool getSpooledArt ;;
      match p with
      | None => ret tt
      | Some pA => postspooled_one pA ;;; postspooled_loop n
      end
  end.
Definition postspooled : MS unit :=
  sp <- gets cs_spool ;; postspooled_loop (S (length (sp_art sp))).
End cserver.
