(* ===== verification/NVArray.v ===== *)
(** * NVArray.v: arrays of records in a database file

    NVClasses-0.9.1/NVArray.{h,cc}: a table of offsets for the indices [arrfst] to
    [arrlst], stored in a block of its own behind the two numbers; the header's user
    data points to it.  A record is its size and its bytes.  NVArray::nvalloc and
    NVArray::nvfree check that no block lies in the table, as assertions do. *)
From S2P Require Import Prelude Memory Container.
From S2P Require Import NVlist NVHash.

(** ** Operations *)

(** The data members; [arrtab] is an offset, 0 is NULL. *)
Record array_ext := ArrExt { arrtab : Z; arrfst : Z; arrlst : Z }.

#[export] Instance array_ext_eq_dec : EqDecision array_ext.
Proof. solve_decision. Defined.

Section with_os.
Context {os : Os}.
Abbreviation MC := (M (obj array_ext)).

Definition arr_make_current : MC unit :=
  p <- getc mem_p ;;
  current <- (if decide (p = NullMap) then ret false else is_current) ;;
  (if (current : bool) then ret tt else base_make_current) ;;;
  adata <- getdata ;;
  if adata =? 0 then sete (ArrExt 0 1 0)
  else f <- ldw adata ;; l <- ldw (adata + 8) ;; sete (ArrExt (adata + 2 * sizeof_ulong) f l).

#[export] Instance array_vtable : VTable array_ext := {| make_current := arr_make_current |}.

(** [arrtab[i]] and [arrtab[i] = v] *)
Definition slot (i : Z) : MC Z :=
  t <- gete arrtab ;; guard (negb (t =? 0)) "null pointer" ;;; ret (w64 (t + 8 * i)).
Definition elem (i : Z) : MC Z := a <- slot i ;; ldw a.
Definition set_elem (i v : Z) : MC unit := a <- slot i ;; stw a v.

(** [arrtab + (arrlst - arrfst)], the last entry of the table. *)
Definition table_end : MC Z := e <- gete id ;; ret (w64 (arrtab e + 8 * (arrlst e - arrfst e))).
Definition arr_nvalloc (rsz : Z) : MC Z :=
  r <- nvalloc rsz ;;
  t <- gete arrtab ;;
  if t =? 0 then ret r else
  last <- table_end ;;
  if (last <=? r) || (r + rsz <=? t) then ret r else abort "killed: allocated illegal memory block".
Definition arr_nvfree (p : Z) : MC unit :=
  t <- gete arrtab ;;
  if t =? 0 then nvfree p else
  last <- table_end ;;
  if last <=? p then nvfree p else
  psz <- ldw (p - sizeof_ulong) ;;
  if p + s32 psz <=? t then nvfree p else abort "killed: freed illegal memory block".

(** The number of entries of the table, where it has any. *)
Definition arr_count : MC Z := e <- gete id ;; ret (w64 (arrlst e - arrfst e + 1)).

Fixpoint arr_sclear_loop (n : nat) (i : Z) : MC unit :=
  match n with
  | O => ret tt
  | S n => v <- elem i ;; (if v =? 0 then ret tt else arr_nvfree v) ;;; arr_sclear_loop n (i + 1)
  end.
Definition arr_sclear : MC unit :=
  e <- gete id ;;
  if arrlst e <? arrfst e then ret tt else n <- arr_count ;; arr_sclear_loop (Z.to_nat n) 0.

(** The new record and its place in the table. *)
Definition new_record (i : Z) (data : bytes) : MC unit :=
  let szdata := Z.of_nat (length data) in
  x <- arr_nvalloc (w64 (szdata + sizeof_ulong)) ;;
  set_elem i x ;;;
  stw x szdata ;;;
  stmem (x + sizeof_ulong) data.
Definition arr_sset (i : Z) (data : bytes) : MC unit :=
  v <- elem i ;;
  (if v =? 0 then ret tt else arr_nvfree v) ;;;
  new_record i data.

Definition arr_sdel (i : Z) : MC unit :=
  v <- elem i ;; if v =? 0 then ret tt else arr_nvfree v ;;; set_elem i 0.

Fixpoint arr_sis_empty_loop (n : nat) (i : Z) : MC bool :=
  match n with
  | O => ret true
  | S n => v <- elem i ;; if negb (v =? 0) then ret false else arr_sis_empty_loop n (i + 1)
  end.
Definition arr_sis_empty : MC bool :=
  e <- gete id ;;
  if arrlst e <? arrfst e then ret true else n <- arr_count ;; arr_sis_empty_loop (Z.to_nat n) 0.

(** shas_element returns the offset as an int. *)
Definition shas_element (i : Z) : MC bool :=
  e <- gete id ;;
  if (i <? arrfst e) || (arrlst e <? i) then ret false
  else v <- elem (i - arrfst e) ;; ret (negb (s32 v =? 0)).

(** sget: where the data begin, and their size; [None] for the null pointer. *)
Definition sget (i : Z) : MC (option (Z * Z)) :=
  e <- gete id ;;
  if (arrfst e <=? i) && (i <=? arrlst e) then
    v <- elem (i - arrfst e) ;;
    if v =? 0 then ret None else sz <- ldw v ;; ret (Some (v + sizeof_ulong, sz))
  else ret None.

Fixpoint arr_sprint_loop (n : nat) (i f : Z) : MC bytes :=
  match n with
  | O => ret []
  | S n =>
      v <- elem i ;;
      line <- (if v =? 0 then ret (dec (w64 (f + i)) ++ bs "/(null):" ++ [LF])
               else sz <- ldw v ;; d <- ldcstr (v + sizeof_ulong) ;;
                    ret (dec (w64 (f + i)) ++ bs "/" ++ dec sz ++ bs ":" ++ d ++ [LF])) ;;
      rest <- arr_sprint_loop n (i + 1) f ;;
      ret (line ++ rest)
  end.
Definition arr_sprint : MC bytes :=
  e <- gete id ;;
  if arrlst e <? arrfst e then ret [] else n <- arr_count ;; arr_sprint_loop (Z.to_nat n) 0 (arrfst e).

(** ssetsize: the loop that fills the new table at [ndata]. *)
Fixpoint copy_loop (n : nat) (i fst ndata : Z) : MC unit :=
  match n with
  | O => ret tt
  | S n =>
      e <- gete id ;;
      let k := w64 (i + fst) in
      v <- (if (arrfst e <=? arrlst e) && (arrfst e <=? k) && (k <=? arrlst e) then elem (w64 (k - arrfst e)) else ret 0) ;;
      stw (ndata + 8 * (2 + i)) v ;;;
      copy_loop n (i + 1) fst ndata
  end.
Definition ssetsize (fst lst : Z) : MC unit :=
  p <- arr_nvalloc (w64 (w64 (lst - fst + 1 + 2) * sizeof_ulong)) ;;
  q <- getdata ;;
  stw p fst ;;; stw (p + 8) lst ;;;
  copy_loop (Z.to_nat (w64 (lst - fst + 1))) 0 fst p ;;;
  setdata p ;;;
  sete (ArrExt (p + 16) fst lst) ;;;
  if q =? 0 then ret tt else arr_nvfree q.

(** setsize: entries [i] to [n - 1] are removed, or forbid the new size. *)
Fixpoint drop_loop (n : nat) (i : Z) (force reset : bool) (ok : bool) : MC bool :=
  match n with
  | O => ret ok
  | S n =>
      v <- elem i ;;
      ok <- (if v =? 0 then ret ok
             else if force then arr_nvfree v ;;; (if reset then set_elem i 0 else ret tt) ;;; ret ok
             else ret false) ;;
      drop_loop n (i + 1) force reset ok
  end.
Definition arr_setsize (fst lst : Z) (force : bool) : MC Z :=
  lock_ ExclLock ;;;
  e <- gete id ;;
  ok <- (if arrfst e <=? arrlst e then
           ok <- (if arrfst e <? fst then drop_loop (Z.to_nat (w64 (fst - arrfst e + 1))) 0 force false true
                  else ret true) ;;
           if lst <? arrlst e then
             let i := w64 (lst - arrfst e + 1) in
             drop_loop (Z.to_nat (w64 (arrlst e - arrfst e + 1) - i)) i force true ok
           else ret ok
         else ret true) ;;
  (if (ok : bool) then ssetsize fst lst else ret tt) ;;;
  lock_ UnLock ;;;
  ret (if ok then 0 else -1).

Definition arr_open (dbname : string) : MC unit := open dbname.
Definition arr_clear : MC unit := lock_ ExclLock ;;; arr_sclear ;;; lock_ UnLock.
Definition arr_set (i : Z) (data : bytes) : MC unit := lock_ ExclLock ;;; arr_sset i data ;;; lock_ UnLock.
Definition arr_del (i : Z) : MC unit := lock_ ExclLock ;;; arr_sdel i ;;; lock_ UnLock.
Definition arr_is_empty : MC bool := lock_ ShrdLock ;;; r <- arr_sis_empty ;; lock_ UnLock ;;; ret r.
Definition has_element (i : Z) : MC bool := lock_ ShrdLock ;;; r <- shas_element i ;; lock_ UnLock ;;; ret r.
Definition arr_get (i : Z) : MC (option (Z * Z)) := lock_ ShrdLock ;;; r <- sget i ;; lock_ UnLock ;;; ret r.
Definition arr_print : MC bytes := lock_ ShrdLock ;;; r <- arr_sprint ;; lock_ UnLock ;;; ret r.
End with_os.

(** The object after [new NVArray()]; what the members hold is not defined. *)
Definition new_array (fs : gmap string file) (junk : array_ext) : obj array_ext := Obj (new_container fs) junk.
