(* ===== verification/ArrayLaws.v ===== *)
(** * ArrayLaws.v: an NVArray is a map from its indices to records

    The invariant of a database file that holds an array, and the specifications of
    the operations of NVArray.v in terms of the list of its entries. *)
From S2P Require Import Prelude Memory Container Heap Alloc Nvalloc Nvfree ContainerSpec.
From S2P Require Import NVlist.
From S2P Require Import NVHash.
From S2P Require Import NVArray.

(** ** The invariant *)

(** An entry of the table: 0, the offset of a record, or the offset of a block that
    was freed. *)
Inductive entry := Free | Rec (o : Z) (d : bytes) | Stale.
Abbreviation len l := (Z.of_nat (length l)).

Definition members (t f : Z) (n : nat) : array_ext := ArrExt t f (f + Z.of_nat n - 1).

Record rec_at (m : mem) (bl : list blk) (o : Z) (d : bytes) : Prop := {
  ra_blk : exists b, b ∈ bl /\ b_live b = true /\ b_off b = o - 8 /\ o + 8 + len d <= b_end b;
  ra_size : ld64 m o = len d;
  ra_data : ldn m (o + 8) (length d) = d
}.
Definition entry_at (m : mem) (bl : list blk) (w : Z) (e : entry) : Prop :=
  match e with Free => w = 0 | Rec o d => w = o /\ rec_at m bl o d | Stale => True end.

(** The table at [t], behind the two words that hold the range. *)
Record table (m : mem) (bl : list blk) (t : Z) (es : list entry) : Prop := {
  tb_blk : exists b, b ∈ bl /\ b_live b = true /\ b_off b = t - 24 /\ t + 8 * len es <= b_end b;
  tb_entry : forall i e, es !! i = Some e -> entry_at m bl (ld64 m (t + 8 * Z.of_nat i)) e;
  tb_inj : forall i j o d d', es !! i = Some (Rec o d) -> es !! j = Some (Rec o d') -> i = j;
  tb_off : forall i o d, es !! i = Some (Rec o d) -> o <> t - 16
}.

(** No table yet, or a table the user data points to. *)
Inductive array_in (m : mem) (bl : list blk) : Z -> Z -> list entry -> Prop :=
| array_none : ld64 m h_userdata = 0 -> array_in m bl 0 1 []
| array_some t f es :
    ld64 m h_userdata = t - 16 -> ld64 m (t - 16) = f -> ld64 m (t - 8) = f + len es - 1 ->
    1 <= f + len es -> f + len es <= 2 ^ 63 -> 56 <= t - 16 -> table m bl t es -> array_in m bl t f es.

(** The blocks of the array, by their offsets. *)
Definition owned (t : Z) (es : list entry) (a : Z) : Prop :=
  t <> 0 /\ (a = t - 24 \/ exists i o d, es !! i = Some (Rec o d) /\ a = o - 8).

Record nvarr_in {os : Os} (bl : list blk) (t f : Z) (es : list entry) (s : obj array_ext) : Prop := {
  na_heap : heap (core s) bl;
  na_ext : ext s = members t f (length es);
  na_in : array_in (data (core s)) bl t f es
}.

(** What make_current reads. *)
Definition fresh_members (c : container) : array_ext :=
  let d := hdr c h_userdata in
  if d =? 0 then ArrExt 0 1 0 else ArrExt (d + 2 * sizeof_ulong) (hdr c d) (hdr c (d + 8)).
Definition table_ready (c : container) : Prop := hdr c h_userdata = 0 \/ hdr c h_userdata + 16 <= mem_sz c.

Lemma wp_arr_make_current {os : Os} {Hos : OsOk os} (Q : unit -> obj array_ext -> Prop) s :
  mappable (core s) -> table_ready (remap (core s)) ->
  Q tt (Obj (remap (core s)) (fresh_members (remap (core s)))) -> wp arr_make_current Q s.
Proof.
  intros Hm Hr HQ. set (x0 := fresh_members (remap (core s))) in *.
  assert (mem_p (remap (core s)) = Mapped /\ 64 < mem_sz (remap (core s))) as [Hmp Hsz].
  { destruct Hm as (Hp & Hf & _). unfold remap. layout. destruct (decide _) as [[? ?]|].
    - destruct Hp as [?|[? ?]]; [congruence|done].
    - done. }
  unfold arr_make_current. do 2 mstep.
  assert (wp (adata <- getdata ;;
    if adata =? 0 then sete (ArrExt 0 1 0)
    else f <- ldw adata ;; l <- ldw (adata + 8) ;; sete (ArrExt (adata + 2 * sizeof_ulong) f l))
    Q (Obj (remap (core s)) (ext s))) as Hread.
  { rewrite <- (upd_self (Obj (remap (core s)) (ext s))). unfold getdata. repeat mstep.
    cbn [core]. change (ld64 (data ?c) h_userdata) with (hdr c h_userdata). unfold x0, fresh_members in HQ.
    unfold table_ready in Hr. destruct (Z.eqb_spec (hdr (remap (core s)) h_userdata) 0) as [E|E].
    - rewrite upd_same. by apply wp_modify.
    - destruct Hr as [?|Hr]; [done|]. pose proof (ld64_range (data (remap (core s))) h_userdata).
      fold (hdr (remap (core s)) h_userdata) in *. do 4 mstep. rewrite upd_same. by apply wp_modify. }
  pose proof Hm as ([Hp|[Hp Hbig]] & _).
  - rewrite decide_True by done. do 3 mstep. by apply wp_base_make_current.
  - rewrite decide_False by congruence. unfold is_current. repeat mstep.
    rewrite <- (upd_self s). layout. repeat mstep. rewrite upd_self.
    destruct (Z.eqb_spec (mem_sz (core s)) (ld64 (data (core s)) 8)) as [E|E].
    + mstep. assert (Obj (remap (core s)) (ext s) = s) as Es.
      { unfold remap. rewrite decide_True by done. by destruct s. }
      rewrite Es in Hread. exact Hread.
    + by apply wp_base_make_current.
Qed.

#[export] Instance array_vtable_ok {os : Os} : VTableOk array_ext.
Proof.
  refine {| vt_fresh := fresh_members; vt_ready := table_ready |}.
  intros s Hos Hm Hr. exists (fresh_members (remap (core s))).
  assert (wp arr_make_current (fun _ s' => s' = Obj (remap (core s)) (fresh_members (remap (core s)))) s) as H
    by (by apply wp_arr_make_current).
  apply wp_inv in H as ([] & s' & Heq & ->). split; [exact Heq|by right].
Defined.

(** ** Frames *)
Lemma rec_at_frame m m' bl bl' o d :
  (forall b, b ∈ bl -> b_live b = true -> b_off b = o - 8 -> b ∈ bl' /\ same_on m m' o (b_end b)) ->
  rec_at m bl o d -> rec_at m' bl' o d.
Proof.
  intros Hf [(b & Hb & Hl & Ho & He) Hs Hd]. destruct (Hf b Hb Hl Ho) as [Hb' Hsm]. split.
  - by exists b.
  - rewrite <- Hs. symmetry. apply ld64_same. eapply same_on_mono; [exact Hsm|lia..].
  - rewrite <- Hd at 2. symmetry. apply ldn_same. eapply same_on_mono; [exact Hsm|lia..].
Qed.

(** What leaves the words of the header, the table and the records as they are. *)
Lemma array_frame m m' bl bl' t f es :
  array_in m bl t f es -> ld64 m' h_userdata = ld64 m h_userdata ->
  (forall b, b ∈ bl -> b_live b = true -> owned t es (b_off b) ->
     b ∈ bl' /\ same_on m m' (b_off b + 8) (b_end b)) ->
  array_in m' bl' t f es.
Proof.
  intros [Hu|t0 f0 es0 Hu Hf Hl H1 H2 Ht56 [(b & Hb & Hbl & Ho & He) Hent Hinj Hoff]] Hu' Hfr.
  - constructor. by rewrite Hu'.
  - assert (b ∈ bl' /\ same_on m m' (b_off b + 8) (b_end b)) as [Hb' Hsm].
    { apply Hfr; [done..|]. split; [lia|]. by left. }
    assert (forall a, t0 - 16 <= a -> a + 8 <= t0 + 8 * len es0 \/ a + 8 <= t0 -> ld64 m' a = ld64 m a) as Hw.
    { intros a ? ?. symmetry. apply ld64_same. eapply same_on_mono; [exact Hsm|lia..]. }
    constructor; rewrite ?Hu', ?Hw by lia; try done. split; [by exists b| |done..].
    intros i e Hi. pose proof (lookup_lt_Some _ _ _ Hi). rewrite Hw by lia.
    pose proof (Hent i e Hi) as Hx. destruct e as [|o d|]; [done| |done]. destruct Hx as [-> Hx].
    split; [done|]. eapply rec_at_frame; [|exact Hx]. intros b1 Hb1 Hl1 Ho1.
    destruct (Hfr b1 Hb1 Hl1) as [Hb1' Hs1].
    { split; [lia|]. right. by exists i, o, d. }
    split; [done|]. replace o with (b_off b1 + 8) by lia. done.
Qed.

Lemma array_kept bl bl' c c' t f es :
  array_in (data c) bl t f es -> kept bl c c' -> (forall b, b ∈ bl -> b_live b = true -> b ∈ bl') ->
  array_in (data c') bl' t f es.
Proof.
  intros Ha Hk Hin. eapply array_frame; [exact Ha|apply Hk|]. intros b Hb Hl _. split; [by apply Hin|].
  eapply same_on_mono; [by apply (kp_live _ _ _ Hk)|lia..].
Qed.

(** The members are those of the file, whatever happens to other blocks. *)
Lemma array_stable {os : Os} bl bl0 t f es c :
  array_in (data c) bl t f es -> tiles bl sizeof_Header (mem_sz c) ->
  (forall b, b ∈ bl -> b_live b = true -> owned t es (b_off b) -> b ∈ bl0) ->
  stable bl0 (eq (members t f (length es))) c.
Proof.
  intros Ha Ht Hin c' Hk. assert (array_in (data c') bl t f es) as Ha'.
  { eapply array_frame; [exact Ha|apply Hk|]. intros b Hb Hl Ho. split; [done|].
    eapply same_on_mono; [apply (kp_live _ _ _ Hk); [by apply Hin|done]|lia..]. }
  change (table_ready c' /\ members t f (length es) = fresh_members c').
  unfold table_ready, fresh_members, members, hdr.
  destruct Ha' as [Hu|t0 f0 es0 Hu Hf Hl H1 H2 Ht56 [(b & Hb & Hbl & Ho & He) _ _ _]].
  - rewrite Hu. split; [by left|]. done.
  - rewrite Hu. destruct (tiles_in _ _ _ _ Ht Hb) as (? & ? & _ & _). pose proof (kp_sz _ _ _ Hk).
    split; [right; lia|]. destruct (Z.eqb_spec (t0 - 16) 0); [lia|]. rewrite Hf.
    replace (t0 - 16 + 8) with (t0 - 8) by lia. rewrite Hl. unfold sizeof_ulong. f_equal. lia.
Qed.

(** Forgetting an entry. *)
Lemma array_stale m bl t f es i : array_in m bl t f es -> array_in m bl t f (<[i := Stale]> es).
Proof.
  intros [Hu|t0 f0 es0 Hu Hf Hl H1 H2 Ht56 [Hb Hent Hinj Hoff]]; [by destruct i; constructor|].
  assert (forall j o d, <[i := Stale]> es0 !! j = Some (Rec o d) -> es0 !! j = Some (Rec o d)) as Hin.
  { intros j o d Hj. destruct (decide (i = j)) as [->|Hne].
    - apply list_lookup_insert_Some in Hj as [(_ & ? & _)|[? _]]; congruence.
    - by rewrite list_lookup_insert_ne in Hj. }
  constructor; rewrite ?length_insert; try done. split; rewrite ?length_insert; try done.
  - intros j e Hj. destruct e as [|o d|]; [|by eapply Hent, Hin|done].
    apply Hent. apply list_lookup_insert_Some in Hj as [(_ & ? & _)|[? ?]]; [congruence|done].
  - intros j k o d d' Hj Hk. eapply Hinj; by apply Hin.
  - intros j o d Hj. by eapply Hoff, Hin.
Qed.

Lemma owned_insert t es i e a : owned t (<[i := e]> es) a ->
  owned t es a \/ exists o d, e = Rec o d /\ a = o - 8.
Proof.
  intros [Ht [->|(j & o & d & Hj & ->)]]; [left; by split; [|left]|].
  apply list_lookup_insert_Some in Hj as [(-> & -> & _)|[_ Hj]].
  - right. by exists o, d.
  - left. split; [done|]. right. by exists j, o, d.
Qed.

(** Writing an entry that is not known. *)
Lemma array_poke m bl t f es i v lo hi :
  array_in m bl t f es -> tiles bl lo hi -> 48 <= lo -> es !! i = Some Stale ->
  array_in (st64 m (t + 8 * Z.of_nat i) v) bl t f es.
Proof.
  intros Ha Ht Hlo Hi. pose proof (lookup_lt_Some _ _ _ Hi).
  destruct Ha as [Hu|t0 f0 es0 Hu Hf Hl H1 H2 Ht56 [(b & Hb & Hbl & Ho & Hbe) Hent Hinj Hoff]]; [done|].
  destruct (tiles_in _ _ _ _ Ht Hb) as (? & ? & ? & _). layout.
  constructor; layout; rewrite ?ld64_st64_ne by lia; try done.
  split; [by exists b| |done..]. intros j e Hj. destruct (decide (i = j)) as [->|Hne].
  - rewrite Hi in Hj. by injection Hj as <-.
  - rewrite ld64_st64_ne by lia. pose proof (Hent _ _ Hj) as Hx.
    destruct e as [|o d|]; [done| |done]. destruct Hx as [-> Hx]. split; [done|].
    eapply rec_at_frame; [|exact Hx]. intros b1 Hb1 Hl1 Ho1. split; [done|].
    destruct (tiles_disjoint _ _ _ _ _ Ht Hb1 Hb) as [->|Hd]; [by destruct (Hoff _ _ _ Hj); lia|].
    unfold b_end in *. rframe.
Qed.

Definition fresh_entry (t : Z) (es : list entry) (i : nat) (e : entry) : Prop :=
  forall o d, e = Rec o d -> o <> t - 16 /\ forall j d', j <> i -> es !! j <> Some (Rec o d').

(** Learning what an entry is. *)
Lemma array_entry m bl t f es i e :
  array_in m bl t f es -> (i < length es)%nat -> entry_at m bl (ld64 m (t + 8 * Z.of_nat i)) e ->
  fresh_entry t es i e -> array_in m bl t f (<[i := e]> es).
Proof.
  intros Ha Hi He Hnew.
  destruct Ha as [Hu|t0 f0 es0 Hu Hf Hl H1 H2 Ht56 [Hb Hent Hinj Hoff]]; [cbn in Hi; lia|].
  constructor; rewrite ?length_insert; try done. split; rewrite ?length_insert; try done.
  - intros j x Hj. apply list_lookup_insert_Some in Hj as [(<- & <- & _)|[_ Hj]]; [done|by apply Hent].
  - intros j k o d d' Hj Hk.
    apply list_lookup_insert_Some in Hj as [(-> & Ej & _)|[Hnj Hj]];
    apply list_lookup_insert_Some in Hk as [(-> & Ek & _)|[Hnk Hk]]; [done|..].
    + destruct (Hnew o d Ej) as [_ Hx]. by destruct (Hx k d' ltac:(done)).
    + destruct (Hnew o d' Ek) as [_ Hx]. by destruct (Hx j d ltac:(done)).
    + by eapply Hinj.
  - intros j o d Hj. apply list_lookup_insert_Some in Hj as [(-> & Ej & _)|[Hnj Hj]].
    + by eapply Hnew.
    + by eapply Hoff.
Qed.

(** Writing into a live block that is not the array's. *)
Lemma array_write m bl t f es b a l lo hi :
  array_in m bl t f es -> tiles bl lo hi -> 48 <= lo -> b ∈ bl -> b_live b = true -> ~ owned t es (b_off b) ->
  b_off b + 8 <= a -> a + len l <= b_end b -> array_in (stn m a l) bl t f es.
Proof.
  intros Ha Ht Hlo Hb Hbl Hown H1 H2. destruct (tiles_in _ _ _ _ Ht Hb) as (? & _).
  eapply array_frame; [exact Ha| |].
  - layout. rewrite ld64_stn_ne by lia. done.
  - intros b1 Hb1 Hl1 Ho1. split; [done|].
    destruct (tiles_disjoint _ _ _ _ _ Ht Hb1 Hb) as [->|Hd]; [done|]. unfold b_end in *. rframe.
Qed.

(** ** Allocation *)
Lemma owned_block m bl t f es a : array_in m bl t f es -> owned t es a ->
  exists b, b ∈ bl /\ b_live b = true /\ b_off b = a.
Proof.
  intros [Hu|t0 f0 es0 Hu Hf Hl H1 H2 Ht56 [(b & Hb & Hbl & Ho & He) Hent Hinj Hoff]] [Ht [->|(i & o & d & Hi & ->)]].
  - done.
  - done.
  - by exists b.
  - destruct (Hent _ _ Hi) as [_ [(b1 & Hb1 & Hl1 & Ho1 & _) _ _]]. by exists b1.
Qed.

Section rules.
Context {os : Os} {Hos : OsOk os}.
Implicit Types s : obj array_ext.

Lemma nvarr_tiles bl t f es s : nvarr_in bl t f es s ->
  tiles bl sizeof_Header (mem_sz (core s)) /\ mem_sz (core s) < limit /\ current (core s).
Proof. intros [[Hc Hl _ Hm] _ _]. split_and!; [apply Hm|done|done]. Qed.

(** The block of the table, when there is one. *)
Lemma nvarr_table bl t f es s : nvarr_in bl t f es s -> t <> 0 ->
  exists b, b ∈ bl /\ b_live b = true /\ b_off b = t - 24 /\ 72 <= t /\ t + 8 * len es <= b_end b /\
    b_end b <= mem_sz (core s) /\ 1 <= f + len es <= 2 ^ 63.
Proof.
  intros Hn Ht. destruct (nvarr_tiles _ _ _ _ _ Hn) as (Htl & _ & _).
  destruct (na_in _ _ _ _ _ Hn) as [Hu|t0 f0 es0 Hu Hf Hl H1 H2 Ht56 [(b & Hb & Hbl & Ho & He) _ _ _]]; [done|].
  destruct (tiles_in _ _ _ _ Htl Hb) as (_ & ? & _ & _). exists b. split_and!; try done; lia.
Qed.

Lemma nvarr_stable bl t f es s : nvarr_in bl t f es s -> stable bl (eq (members t f (length es))) (core s).
Proof. intros Hn. eapply array_stable; [apply Hn|apply (nvarr_tiles _ _ _ _ _ Hn)|done]. Qed.

Lemma nvarr_zero bl t f es s : nvarr_in bl t f es s -> t = 0 -> f = 1 /\ es = [].
Proof. intros Hn E. destruct (na_in _ _ _ _ _ Hn) as [|]; [done|lia]. Qed.

Lemma nvarr_first bl t f es s : nvarr_in bl t f es s -> 0 <= f.
Proof.
  intros Hn. destruct (na_in _ _ _ _ _ Hn) as [|t0 f0 es0 _ <- _ _ _ _ _]; [lia|apply ld64_range].
Qed.

Lemma nvarr_user bl t f es s : nvarr_in bl t f es s ->
  ld64 (data (core s)) h_userdata = if decide (t = 0) then 0 else t - 16.
Proof.
  intros Hn. destruct (na_in _ _ _ _ _ Hn); [by rewrite decide_True|by rewrite decide_False by lia].
Qed.

Lemma wp_table_end bl t f es (Q : Z -> obj array_ext -> Prop) s :
  nvarr_in bl t f es s -> t <> 0 -> Q (t + 8 * (len es - 1)) s -> wp table_end Q s.
Proof.
  intros Hn Ht HQ. destruct (nvarr_table _ _ _ _ _ Hn Ht) as (b & _ & _ & _ & ? & ? & ? & _).
  destruct (nvarr_tiles _ _ _ _ _ Hn) as (_ & Hlim & _). unfold table_end. mstep. apply wp_gets.
  unfold id. rewrite (na_ext _ _ _ _ _ Hn). cbn [arrtab arrfst arrlst members]. apply wp_ret. layout.
  replace (t + 8 * (f + len es - 1 - f)) with (t + 8 * (len es - 1)) by lia. by rewrite w64_small by lia.
Qed.

Lemma wp_arrtab {A} bl t f es (k : Z -> M (obj array_ext) A) (Q : A -> obj array_ext -> Prop) s :
  nvarr_in bl t f es s -> wp (k t) Q s -> wp (t <- gete arrtab ;; k t) Q s.
Proof. intros Hn HQ. mstep. apply wp_gets. by rewrite (na_ext _ _ _ _ _ Hn). Qed.

Lemma wp_arr_nvalloc bl t f es rsz (Q : Z -> obj array_ext -> Prop) s :
  nvarr_in bl t f es s -> lock_ok (core s) -> (2 <= lck_stackp (core s))%nat -> 0 <= rsz ->
  mem_sz (core s) + rsz + 2 ^ 18 <= limit ->
  (forall p sz bl' s', nvarr_in bl' t f es s' -> Blk p sz true ∈ bl' -> rsz + 8 <= sz ->
     (forall b, b ∈ bl -> b_live b = true -> b ∈ bl' /\ b_off b <> p) ->
     same_locks (core s) (core s') -> mem_sz (core s') <= mem_sz (core s) + rsz + 2 ^ 17 -> Q (p + 8) s') ->
  wp (arr_nvalloc rsz) Q s.
Proof.
  intros Hn Hlk Hsp Hr Hlim HQ. pose proof Hn as [Hh He Ha]. unfold arr_nvalloc. mstep.
  eapply (wp_nvalloc (eq (members t f (length es))) bl); try done; [by apply nvarr_stable|].
  intros p bl' c' x Hspec Hh' Hsz Hk Hl Hx. pose proof (hm_tiles _ _ _ (hp_mem _ _ Hh')) as Ht'.
  destruct (alloc_spec_new _ _ _ _ _ _ (hp_mem _ _ Hh) Hspec _ Ht') as (sz & Hp & Hge & _ & Hnew).
  assert (rsz + 8 <= alloc_round rsz) as Hrd.
  { pose proof (cu_big _ (hp_current _ _ Hh)). layout. rewrite alloc_round_eq by lia. Z.div_mod_to_equations. lia. }
  assert (nvarr_in bl' t f es (Obj c' x)) as Hn'.
  { split; [done|done|]. eapply array_kept; [exact Ha|exact Hk|]. intros b Hb Hbl. by apply Hnew. }
  assert (Q (p + 8) (Obj c' x)) as Hdone.
  { eapply (HQ p sz); try done; [lia| |].
    - intros b Hb Hbl. destruct (Hnew b Hb Hbl) as [Hb' Hd]. split; [done|].
      destruct (tiles_in _ _ _ _ Ht' Hb') as (_ & _ & ? & _).
      destruct (tiles_in _ _ _ _ Ht' Hp) as (_ & _ & ? & _). layout. cbn [b_sz] in *. lia.
    - cbn [core]. rewrite Hsz. apply (grown_bound _ _ _ Hh); lia. }
  eapply wp_arrtab; [exact Hn'|cbv beta]. destruct (Z.eqb_spec t 0) as [->|Ht]; [by apply wp_ret|].
  cbn match. mstep. eapply wp_table_end; [exact Hn'|done|].
  destruct (nvarr_table _ _ _ _ _ Hn Ht) as (b & Hb & Hbl & Ho & ? & ? & _ & _).
  destruct (Hnew b Hb Hbl) as [_ Hd]. destruct (tiles_in _ _ _ _ Ht' Hp) as (_ & _ & ? & _). layout. cbn [b_sz] in *.
  destruct (Z.leb_spec (t + 8 * (len es - 1)) (p + 8)); [by apply wp_ret|].
  destruct (Z.leb_spec (p + 8 + rsz) t); [by apply wp_ret|lia].
Qed.

Lemma wp_arr_nvfree bl t f es b (Q : unit -> obj array_ext -> Prop) s :
  nvarr_in bl t f es s -> lock_ok (core s) -> (1 <= lck_stackp (core s))%nat ->
  b ∈ bl -> b_live b = true -> ~ owned t es (b_off b) ->
  (forall bl' s', nvarr_in bl' t f es s' -> (forall y, y ∈ bl -> b_live y = true -> y <> b -> y ∈ bl') ->
     same_locks (core s) (core s') -> mem_sz (core s') = mem_sz (core s) -> Q tt s') ->
  wp (arr_nvfree (b_off b + 8)) Q s.
Proof.
  intros Hn Hlk Hsp Hb Hbl Hown HQ. pose proof Hn as [Hh He Ha].
  destruct (nvarr_tiles _ _ _ _ _ Hn) as (Htl & Hlim & Hcur).
  pose proof Hb as (p1 & p2 & E)%list_elem_of_split.
  assert (forall y, y ∈ bl -> b_live y = true -> y <> b -> y ∈ p1 ++ p2) as Hrest.
  { intros y Hy _ Hne. rewrite E in Hy. rewrite elem_of_app, elem_of_cons in *. tauto. }
  assert (wp (nvfree (b_off b + 8)) Q s) as Hfree.
  { rewrite E in Hh. eapply (wp_nvfree (eq (members t f (length es))) p1 b p2); try done.
    - eapply array_stable; [exact Ha|exact Htl|]. intros y Hy Hyl Hyo. apply Hrest; [done..|]. by intros ->.
    - intros c' x Hh' Hsz Hk Hl Hx.
      destruct (free_abs_ok _ _ _ _ _ (hm_tiles _ _ _ (hp_mem _ _ Hh)) (hm_apart _ _ _ (hp_mem _ _ Hh)) Hbl)
        as (_ & _ & _ & _ & Hin).
      apply (HQ (free_abs (b_off b) (p1 ++ b :: p2))); try done.
      + split; [exact Hh'|done|]. eapply array_frame; [exact Ha|apply Hk|]. intros y Hy Hyl Hyo.
        assert (y ∈ p1 ++ p2) as Hy' by (apply Hrest; [done..|]; by intros ->).
        split; [by apply Hin|]. eapply same_on_mono; [by apply (kp_live _ _ _ Hk)|lia..].
      + intros y Hy Hyl Hne. by apply Hin; [apply Hrest|]. }
  unfold arr_nvfree. eapply wp_arrtab; [exact Hn|cbv beta]. destruct (Z.eqb_spec t 0) as [->|Ht]; [done|].
  cbn match. mstep. eapply wp_table_end; [exact Hn|done|]. destruct (Z.leb_spec (t + 8 * (len es - 1)) (b_off b + 8)); [done|]. cbn match.
  destruct (nvarr_table _ _ _ _ _ Hn Ht) as (b0 & Hb0 & Hbl0 & Ho & ? & ? & ? & _).
  destruct (tiles_in _ _ _ _ Htl Hb) as (? & ? & ? & _). layout.
  rewrite <- (upd_self s). unfold sizeof_ulong. replace (b_off b + 8 - 8) with (b_off b) by lia.
  pose proof (cu_map _ Hcur). repeat mstep. rewrite (hm_live _ _ _ (hp_mem _ _ Hh) b Hb Hbl), upd_self, s32_small by lia.
  destruct (tiles_disjoint _ _ _ _ _ Htl Hb Hb0) as [->|Hd].
  - destruct Hown. split; [done|]. left. lia.
  - destruct (Z.leb_spec (b_off b + 8 + b_sz b) t); [done|]. unfold b_end in *. lia.
Qed.
End rules.

(** ** Entries *)
Section entries.
Context {os : Os} {Hos : OsOk os}.
Implicit Types s : obj array_ext.

Lemma entry_table bl t f es i s : nvarr_in bl t f es s -> (i < length es)%nat -> t <> 0.
Proof. intros Hn Hi Ht. destruct (nvarr_zero _ _ _ _ _ Hn Ht) as [_ ->]. cbn in Hi. lia. Qed.

Lemma wp_slot bl t f es i (Q : Z -> obj array_ext -> Prop) s :
  nvarr_in bl t f es s -> (i < length es)%nat -> Q (t + 8 * Z.of_nat i) s -> wp (slot (Z.of_nat i)) Q s.
Proof.
  intros Hn Hi HQ. pose proof (entry_table _ _ _ _ _ _ Hn Hi) as Ht.
  destruct (nvarr_table _ _ _ _ _ Hn Ht) as (b & _ & _ & _ & ? & ? & ? & _).
  destruct (nvarr_tiles _ _ _ _ _ Hn) as (_ & Hlim & _). unfold slot.
  eapply wp_arrtab; [exact Hn|cbv beta]. destruct (Z.eqb_spec t 0); [done|]. cbn [negb guard]. do 2 mstep.
  apply wp_ret. layout. by rewrite w64_small by lia.
Qed.

Definition word (t : Z) (i : nat) s : Z := ld64 (data (core s)) (t + 8 * Z.of_nat i).

Lemma nvarr_entry bl t f es i e s : nvarr_in bl t f es s -> es !! i = Some e ->
  entry_at (data (core s)) bl (word t i s) e.
Proof.
  intros [_ _ Ha] Hi. destruct Ha as [|t0 f0 es0 _ _ _ _ _ _ [_ He _ _]]; [done|]. by apply He.
Qed.

Lemma wp_elem bl t f es i e (Q : Z -> obj array_ext -> Prop) s :
  nvarr_in bl t f es s -> es !! i = Some e ->
  (entry_at (data (core s)) bl (word t i s) e -> Q (word t i s) s) -> wp (elem (Z.of_nat i)) Q s.
Proof.
  intros Hn Hi HQ. pose proof (lookup_lt_Some _ _ _ Hi) as Hlt.
  pose proof (entry_table _ _ _ _ _ _ Hn Hlt) as Ht.
  destruct (nvarr_table _ _ _ _ _ Hn Ht) as (b & _ & _ & _ & ? & ? & ? & _).
  destruct (nvarr_tiles _ _ _ _ _ Hn) as (_ & Hlim & Hc). unfold elem. mstep.
  eapply wp_slot; [done..|]. rewrite <- (upd_self s). pose proof (cu_map _ Hc). mstep. rewrite upd_self.
  apply HQ. by eapply nvarr_entry.
Qed.

(** The block of a record. *)
Lemma entry_block bl t f es i o d s : nvarr_in bl t f es s -> es !! i = Some (Rec o d) ->
  exists b, b ∈ bl /\ b_live b = true /\ b_off b = o - 8 /\ 56 <= o /\ o + 8 + len d <= b_end b /\
    b_end b <= mem_sz (core s) /\ word t i s = o /\ ld64 (data (core s)) o = len d /\
    ldn (data (core s)) (o + 8) (length d) = d.
Proof.
  intros Hn Hi. destruct (nvarr_entry _ _ _ _ _ _ _ Hn Hi) as [Hw [(b & Hb & Hbl & Ho & He) Hs Hd]].
  destruct (nvarr_tiles _ _ _ _ _ Hn) as (Htl & _ & _). destruct (tiles_in _ _ _ _ Htl Hb) as (? & ? & _ & _).
  exists b. layout. split_and!; try done; lia.
Qed.

Lemma nvarr_stale bl t f es i s : nvarr_in bl t f es s -> nvarr_in bl t f (<[i := Stale]> es) s.
Proof.
  intros [Hh He Ha]. split; [done|by rewrite length_insert|]. by apply array_stale.
Qed.

Lemma nvarr_inj bl t f es i j o d d' s : nvarr_in bl t f es s ->
  es !! i = Some (Rec o d) -> es !! j = Some (Rec o d') -> i = j.
Proof. intros [_ _ Ha]. destruct Ha as [|t0 f0 es0 _ _ _ _ _ _ [_ _ Hinj _]]; [done|]. by eapply Hinj. Qed.

Lemma nvarr_off bl t f es i o d s : nvarr_in bl t f es s -> es !! i = Some (Rec o d) -> o <> t - 16.
Proof. intros [_ _ Ha]. destruct Ha as [|t0 f0 es0 _ _ _ _ _ _ [_ _ _ Hoff]]; [done|]. by eapply Hoff. Qed.

(** A write that keeps the heap. *)
Lemma nvarr_upd bl t f es m s : nvarr_in bl t f es s -> hmem m (mem_sz (core s)) bl ->
  array_in m bl t f es -> nvarr_in bl t f es (upd m s).
Proof. intros [Hh He _] Hm Ha. split; [by apply heap_data|done|done]. Qed.

Lemma nvarr_write bl t f es b a l s : nvarr_in bl t f es s -> b ∈ bl -> b_live b = true ->
  ~ owned t es (b_off b) -> b_off b + 8 <= a -> a + len l <= b_end b ->
  nvarr_in bl t f es (upd (stn (data (core s)) a l) s).
Proof.
  intros Hn Hb Hbl Ho H1 H2. destruct (nvarr_tiles _ _ _ _ _ Hn) as (Htl & _ & _).
  apply nvarr_upd; [done| |].
  - apply hmem_stn; [apply Hn|]. by eapply payload_in.
  - eapply array_write; try done; apply Hn.
Qed.

Lemma wp_set_elem bl t f es i v (Q : unit -> obj array_ext -> Prop) s :
  nvarr_in bl t f es s -> es !! i = Some Stale -> 0 <= v < 2 ^ 64 ->
  (forall s', nvarr_in bl t f es s' -> s' = upd (st64 (data (core s)) (t + 8 * Z.of_nat i) v) s ->
     word t i s' = v -> Q tt s') ->
  wp (set_elem (Z.of_nat i) v) Q s.
Proof.
  intros Hn Hi Hv HQ. pose proof (lookup_lt_Some _ _ _ Hi) as Hlt.
  pose proof (entry_table _ _ _ _ _ _ Hn Hlt) as Ht.
  destruct (nvarr_table _ _ _ _ _ Hn Ht) as (b & Hb & Hbl & Ho & ? & ? & ? & _).
  destruct (nvarr_tiles _ _ _ _ _ Hn) as (Htl & Hlim & Hc). unfold set_elem. mstep.
  eapply wp_slot; [done..|]. rewrite <- (upd_self s) at 1. pose proof (cu_map _ Hc). mstep.
  apply HQ; [|done|by apply ld64_st64].
  apply nvarr_upd; [done| |].
  - apply hmem_st64; [apply Hn|]. eapply payload_in; [exact Hb|done|lia|lia].
  - eapply array_poke; [apply Hn|exact Htl|done|done].
Qed.

(** An entry becomes known. *)
Lemma nvarr_learn bl t f es i e s : nvarr_in bl t f es s -> (i < length es)%nat ->
  entry_at (data (core s)) bl (word t i s) e -> fresh_entry t es i e -> nvarr_in bl t f (<[i := e]> es) s.
Proof.
  intros [Hh He Ha] Hi Hat Hf. split; [done|by rewrite length_insert|]. by apply array_entry.
Qed.

(** Freeing the block of a record. *)
Lemma not_owned_stale bl t f es i o d s : nvarr_in bl t f es s -> es !! i = Some (Rec o d) ->
  ~ owned t (<[i := Stale]> es) (o - 8).
Proof.
  intros [_ _ Ha] Hi [Ht [E|(j & o' & d' & Hj & E)]];
    (destruct Ha as [|t0 f0 es0 _ _ _ _ _ _ [_ _ Hinj Hoff]]; [done|]).
  - apply (Hoff _ _ _ Hi). lia.
  - apply list_lookup_insert_Some in Hj as [(_ & ? & _)|[Hne Hj]]; [done|].
    apply Hne. assert (o' = o) as -> by lia. by eapply Hinj.
Qed.

Lemma wp_free_rec bl t f es i o d (Q : unit -> obj array_ext -> Prop) s :
  nvarr_in bl t f es s -> es !! i = Some (Rec o d) -> lock_ok (core s) -> (1 <= lck_stackp (core s))%nat ->
  (forall bl' s', nvarr_in bl' t f (<[i := Stale]> es) s' -> same_locks (core s) (core s') ->
     mem_sz (core s') = mem_sz (core s) -> Q tt s') ->
  wp (arr_nvfree o) Q s.
Proof.
  intros Hn Hi Hlk Hsp HQ. destruct (entry_block _ _ _ _ _ _ _ _ Hn Hi) as (b & Hb & Hbl & Ho & _).
  pose proof (not_owned_stale _ _ _ _ _ _ _ _ Hn Hi) as Hown.
  replace o with (b_off b + 8) by lia. rewrite <- Ho in Hown.
  eapply wp_arr_nvfree; [by apply nvarr_stale|done..|]. intros bl' s' Hn' _ Hl Hsz. by eapply HQ.
Qed.

(** The new record of an entry whose old one is gone. *)
Lemma wp_new_record bl t f es i d (Q : unit -> obj array_ext -> Prop) s :
  nvarr_in bl t f es s -> (i < length es)%nat -> (forall o d, es !! i <> Some (Rec o d)) ->
  lock_ok (core s) -> (2 <= lck_stackp (core s))%nat -> mem_sz (core s) + len d + 2 ^ 18 + 16 <= limit ->
  (forall bl' o s', nvarr_in bl' t f (<[i := Rec o d]> es) s' -> same_locks (core s) (core s') ->
     mem_sz (core s') <= mem_sz (core s) + len d + 2 ^ 18 -> Q tt s') ->
  wp (new_record (Z.of_nat i) d) Q s.
Proof.
  intros Hn Hi Hne Hlk Hsp Hlim HQ. unfold new_record.
  destruct (nvarr_tiles _ _ _ _ _ Hn) as (_ & _ & Hc). pose proof (cu_big _ Hc) as Hbig. layout.
  rewrite w64_small by lia. mstep. apply (nvarr_stale _ _ _ _ i) in Hn as Hst.
  eapply wp_arr_nvalloc; [exact Hst|done|done|lia|layout; lia|].
  intros p sz bl' s1 Hn1 Hp Hsz Hnew Hl1 Hm1. destruct (nvarr_tiles _ _ _ _ _ Hn1) as (Htl1 & Hlim1 & Hc1).
  destruct (tiles_in _ _ _ _ Htl1 Hp) as (? & ? & _ & _). layout. cbn [b_off b_sz] in *.
  assert (~ owned t (<[i := Stale]> es) p) as Hown.
  { intros Ho. destruct (owned_block _ _ _ _ _ _ (na_in _ _ _ _ _ Hst) Ho) as (b & Hb & Hbl & E).
    by destruct (Hnew b Hb Hbl). }
  mstep. eapply (wp_set_elem _ _ _ _ i); [exact Hn1|by apply list_lookup_insert_eq|lia|].
  intros s2 Hn2 -> Hw2. set (s2 := upd _ s1) in *. rewrite <- (upd_self s2).
  pose proof (cu_map _ Hc1) as Hmap. mstep. mstep.
  apply wp_stmem; [bounds|].
  set (s3 := upd (st64 (data (core s2)) (p + 8) (len d)) s2).
  assert (nvarr_in bl' t f (<[i := Stale]> es) s3) as Hn3.
  { eapply (nvarr_write _ _ _ _ (Blk p sz true) _ (le_bytes 8 (len d))); try done;
      rewrite ?length_le_bytes; layout; cbn [b_off b_sz]; lia. }
  assert (nvarr_in bl' t f (<[i := Stale]> es) (upd (stn (data (core s3)) (p + 8 + 8) d) s3)) as Hn4.
  { eapply (nvarr_write _ _ _ _ (Blk p sz true)); try done; layout; cbn [b_off b_sz]; lia. }
  pose proof (entry_table _ _ _ _ _ _ Hn Hi) as Ht.
  eapply (HQ bl' (p + 8)); [|by split; apply Hl1|change (mem_sz (core s1) <= mem_sz (core s) + len d + 2 ^ 18); lia].
  rewrite <- (list_insert_insert_eq es i _ Stale). apply nvarr_learn; [exact Hn4|by rewrite length_insert| |].
  - destruct (nvarr_table _ _ _ _ _ Hn1 Ht) as (b0 & Hb0 & Hbl0 & Ho0 & ? & Hb0e & ? & _).
    rewrite length_insert in Hb0e.
    assert (b_end b0 <= p \/ p + sz <= b_off b0) as Hd.
    { destruct (tiles_disjoint _ _ _ _ _ Htl1 Hb0 Hp) as [E|Hd]; [|layout; cbn [b_off b_sz] in *; lia].
      destruct Hown. split; [done|]. left. rewrite <- Ho0, E. done. }
    unfold word in *. cbn [core data upd set_data cur set_cur f_data] in *. layout. split.
    + rewrite ld64_stn_ne, ld64_st64_ne by lia. exact Hw2.
    + split.
      * exists (Blk p sz true). layout. cbn [b_off b_sz b_live]. split_and!; [done|done|lia|lia].
      * rewrite ld64_stn_ne, ld64_st64 by lia. done.
      * apply ldn_stn_same.
  - intros o d' [= <- <-]. split.
    + intros E. apply Hown. split; [done|]. left. lia.
    + intros j d'' Hj Hjj. apply Hown. split; [done|]. right. exists j, (p + 8), d''. split; [done|lia].
Qed.
End entries.

(** ** A new range *)

(** The part of [l], whose indices begin at [f], with the indices from [f'] on. *)
Definition window {A} (z : A) (f : Z) (l : list A) (f' : Z) (n : nat) : list A :=
  (fun j => let k := f' + Z.of_nat j in
     if f <=? k then default z (l !! Z.to_nat (k - f)) else z) <$> seq 0 n.

Lemma length_window {A} (z : A) f l f' n : length (window z f l f' n) = n.
Proof. unfold window. by rewrite length_fmap, length_seq. Qed.

Lemma window_lookup {A} (z : A) f l f' n j : (j < n)%nat ->
  window z f l f' n !! j = Some (let k := f' + Z.of_nat j in
     if f <=? k then default z (l !! Z.to_nat (k - f)) else z).
Proof. intros Hj. unfold window. by rewrite list_lookup_fmap, lookup_seq_lt by done. Qed.

(** An entry of the window is one of the old ones, or free. *)
Lemma window_inv {A} (z : A) f l f' n j x : window z f l f' n !! j = Some x ->
  (j < n)%nat /\ (x = z \/ f <= f' + Z.of_nat j /\ l !! Z.to_nat (f' + Z.of_nat j - f) = Some x).
Proof.
  intros Hj. pose proof (lookup_lt_Some _ _ _ Hj) as Hlt. rewrite length_window in Hlt. split; [done|].
  rewrite window_lookup in Hj by done. injection Hj as <-. destruct (Z.leb_spec f (f' + Z.of_nat j)); [|by left].
  destruct (l !! _); [right; by split|by left].
Qed.

Section resizing.
Context {os : Os} {Hos : OsOk os}.
Implicit Types s : obj array_ext.
Variables (bl : list blk) (t f : Z) (es : list entry) (s0 : obj array_ext) (p sz f' : Z) (n : nat).
Hypothesis Hn0 : nvarr_in bl t f es s0.
Hypothesis Hp : Blk p sz true ∈ bl.
Hypothesis Hown : ~ owned t es p.
Hypothesis Hsz : 24 + 8 * Z.of_nat n <= sz.
Hypothesis Hf' : 0 <= f' /\ 1 <= f' + Z.of_nat n <= 2 ^ 63.

(** The word of the old table for the index [f' + j]. *)
Definition old_word (j : nat) : Z :=
  let k := f' + Z.of_nat j in
  if (f <=? k) && (k <? f + len es) then word t (Z.to_nat (k - f)) s0 else 0.

(** The first [i] words of the new table are there, the other blocks are as before. *)
Record copied (i : nat) (m : mem) : Prop := {
  cp_in : nvarr_in bl t f es (upd m s0);
  cp_same : forall b, b ∈ bl -> b_live b = true -> b_off b <> p -> same_on (data (core s0)) m (b_off b) (b_end b);
  cp_fst : ld64 m (p + 8) = f';
  cp_lst : ld64 m (p + 16) = f' + Z.of_nat n - 1;
  cp_word : forall j, (j < i)%nat -> ld64 m (p + 24 + 8 * Z.of_nat j) = old_word j
}.

Lemma p_bounds : 48 <= p /\ p + sz <= mem_sz (core s0) /\ mem_sz (core s0) < limit.
Proof using All.
  destruct (nvarr_tiles _ _ _ _ _ Hn0) as (Htl & Hl & _). destruct (tiles_in _ _ _ _ Htl Hp) as (? & ? & _ & _).
  by layout.
Qed.

(** Writing a word of the new block. *)
Lemma copied_write m a v :
  nvarr_in bl t f es (upd m s0) ->
  (forall b, b ∈ bl -> b_live b = true -> b_off b <> p -> same_on (data (core s0)) m (b_off b) (b_end b)) ->
  p + 8 <= a -> a + 8 <= p + sz ->
  nvarr_in bl t f es (upd (st64 m a v) s0) /\
  (forall b, b ∈ bl -> b_live b = true -> b_off b <> p -> same_on (data (core s0)) (st64 m a v) (b_off b) (b_end b)).
Proof using All.
  intros Hn Hs H1 H2. split.
  - apply (nvarr_write _ _ _ _ (Blk p sz true) a (le_bytes 8 v)) in Hn; [done..|by layout; cbn|].
    rewrite length_le_bytes. by layout; cbn.
  - intros b Hb Hbl Hne. destruct (nvarr_tiles _ _ _ _ _ Hn0) as (Htl & _ & _).
    destruct (tiles_disjoint _ _ _ _ _ Htl Hb Hp) as [->|Hd]; [by destruct Hne|].
    eapply same_on_trans; [by apply Hs|]. unfold b_end in *. cbn [b_off b_sz] in *. rframe.
Qed.

(** The words of the old table have not changed. *)
Lemma copied_old i m j : copied i m -> (Z.to_nat (f' + Z.of_nat j - f) < length es)%nat -> f <= f' + Z.of_nat j ->
  word t (Z.to_nat (f' + Z.of_nat j - f)) (upd m s0) = old_word j.
Proof using All.
  intros Hc Hlt Hle. pose proof (entry_table _ _ _ _ _ _ Hn0 Hlt) as Ht.
  destruct (nvarr_table _ _ _ _ _ Hn0 Ht) as (b & Hb & Hbl & Ho & ? & ? & _ & _).
  unfold old_word. destruct (Z.leb_spec f (f' + Z.of_nat j)); [|lia].
  destruct (Z.ltb_spec (f' + Z.of_nat j) (f + len es)); [|lia]. cbn [andb].
  symmetry. apply ld64_same. eapply same_on_mono; [apply (cp_same _ _ Hc b Hb Hbl)|lia|lia].
  intros E. apply Hown. split; [done|]. left. lia.
Qed.

Lemma wp_copy_loop (Q : unit -> obj array_ext -> Prop) : forall k i m, (k + i = n)%nat -> copied i m ->
  (forall m', copied n m' -> Q tt (upd m' s0)) ->
  wp (copy_loop k (Z.of_nat i) f' (p + 8)) Q (upd m s0).
Proof using All.
  induction k as [|k IH]; intros i m Hk Hc HQ; cbn [copy_loop].
  { mstep. apply HQ. by replace n with i by lia. }
  destruct p_bounds as (? & ? & ?). destruct (nvarr_tiles _ _ _ _ _ Hn0) as (_ & _ & Hcur).
  mstep. apply wp_gets. unfold id. rewrite (na_ext _ _ _ _ _ (cp_in _ _ Hc)). cbn [arrfst arrlst members]. layout.
  rewrite (w64_small (Z.of_nat i + f')) by lia. rewrite (Z.add_comm (Z.of_nat i) f').
  replace (Z.of_nat i + 1) with (Z.of_nat (S i)) by lia.
  assert (forall w, w = old_word i ->
    wp (stw (p + 8 + 8 * (2 + Z.of_nat i)) w ;;; copy_loop k (Z.of_nat (S i)) f' (p + 8)) Q (upd m s0)) as Hstep.
  { intros w ->. pose proof (cu_map _ Hcur) as Hmap. mstep. mstep.
    replace (p + 8 + 8 * (2 + Z.of_nat i)) with (p + 24 + 8 * Z.of_nat i) by lia.
    apply IH; [lia| |done].
    destruct (copied_write m (p + 24 + 8 * Z.of_nat i) (old_word i) (cp_in _ _ Hc) (cp_same _ _ Hc)) as (H1' & H2'); [lia..|].
    assert (0 <= old_word i < 2 ^ 64).
    { unfold old_word, word. destruct (_ && _); [apply ld64_range|lia]. }
    split; [done|done| | |].
    - rewrite ld64_st64_ne by lia. apply Hc.
    - rewrite ld64_st64_ne by lia. apply Hc.
    - intros j Hj. destruct (decide (j = i)) as [->|Hne]; [by rewrite ld64_st64|].
      rewrite ld64_st64_ne by lia. apply (cp_word _ _ Hc). lia. }
  destruct (Z.leb_spec f (f + len es - 1)) as [H4|H4]; cbn [andb].
  2: { mstep. apply wp_ret. apply Hstep. unfold old_word.
       destruct (Z.leb_spec f (f' + Z.of_nat i)); [|done].
       destruct (Z.ltb_spec (f' + Z.of_nat i) (f + len es)); [lia|done]. }
  destruct (Z.leb_spec f (f' + Z.of_nat i)) as [H5|H5]; cbn [andb].
  2: { mstep. apply wp_ret. apply Hstep. unfold old_word. destruct (Z.leb_spec f (f' + Z.of_nat i)); [lia|done]. }
  destruct (Z.leb_spec (f' + Z.of_nat i) (f + len es - 1)) as [H6|H6]; cbn [andb].
  2: { mstep. apply wp_ret. apply Hstep. unfold old_word.
       destruct (Z.leb_spec f (f' + Z.of_nat i)); [|done].
       destruct (Z.ltb_spec (f' + Z.of_nat i) (f + len es)); [lia|done]. }
  pose proof (nvarr_first _ _ _ _ _ Hn0). mstep. rewrite (w64_small (f' + Z.of_nat i - f)) by lia.
  replace (f' + Z.of_nat i - f) with (Z.of_nat (Z.to_nat (f' + Z.of_nat i - f))) by lia.
  destruct (lookup_lt_is_Some_2 es (Z.to_nat (f' + Z.of_nat i - f))) as [e He]; [lia|].
  eapply wp_elem; [apply Hc|exact He|]. intros _. apply Hstep. eapply copied_old; [exact Hc|lia|lia].
Qed.

(** The new table with the user data pointing to it. *)
Lemma copied_array m : copied n m ->
  array_in (st64 m h_userdata (p + 8)) bl (p + 24) f' (window Free f es f' n).
Proof using All.
  intros Hc. destruct p_bounds as (? & ? & ?). destruct (nvarr_tiles _ _ _ _ _ Hn0) as (Htl & _ & _). layout.
  assert (forall j o d, window Free f es f' n !! j = Some (Rec o d) -> f <= f' + Z.of_nat j /\
    (Z.to_nat (f' + Z.of_nat j - f) < length es)%nat /\ es !! Z.to_nat (f' + Z.of_nat j - f) = Some (Rec o d)) as Hin.
  { intros j o d Hj. apply window_inv in Hj as (_ & [?|[? Hj]]); [done|].
    pose proof (lookup_lt_Some _ _ _ Hj). done. }
  constructor; layout; rewrite ?length_window; try lia.
  - rewrite ld64_st64 by lia. lia.
  - rewrite ld64_st64_ne by lia. replace (p + 24 - 16) with (p + 8) by lia. apply Hc.
  - rewrite ld64_st64_ne by lia. replace (p + 24 - 8) with (p + 16) by lia. apply Hc.
  - split; rewrite ?length_window.
    + exists (Blk p sz true). cbn [b_off b_live]. layout. cbn [b_off b_sz]. split_and!; [done|done|lia|lia].
    + intros j e Hj. pose proof (lookup_lt_Some _ _ _ Hj) as Hjn. rewrite length_window in Hjn.
      rewrite ld64_st64_ne by lia. rewrite (cp_word _ _ Hc) by done.
      rewrite window_lookup in Hj by done. injection Hj as Hj. cbv zeta in Hj.
      unfold old_word. destruct (Z.leb_spec f (f' + Z.of_nat j)) as [H4|H4]; [|by subst e].
      destruct (Z.ltb_spec (f' + Z.of_nat j) (f + len es)) as [H5|H5]; cbn [andb].
      2: { rewrite lookup_ge_None_2 in Hj by lia. by subst e. }
      destruct (lookup_lt_is_Some_2 es (Z.to_nat (f' + Z.of_nat j - f))) as [e' He]; [lia|].
      rewrite He in Hj. change (e' = e) in Hj. subst e'. pose proof (nvarr_entry _ _ _ _ _ _ _ Hn0 He) as Hx.
      destruct e as [|o d|]; [done| |done]. destruct Hx as [Hw Hx]. split; [exact Hw|].
      eapply rec_at_frame; [|exact Hx]. intros b Hb Hbl Ho. split; [done|].
      destruct (tiles_in _ _ _ _ Htl Hb) as (? & _). layout.
      assert (same_on (data (core s0)) m (b_off b) (b_end b)) as Hs.
      { apply (cp_same _ _ Hc b Hb Hbl). intros E. apply Hown. rewrite <- E, Ho. split.
        - eapply entry_table; [exact Hn0|]. by eapply lookup_lt_Some.
        - right. by eexists _, o, d. }
      eapply same_on_trans; [eapply same_on_mono; [exact Hs|lia|unfold b_end; lia]|]. rframe.
    + intros i j o d d' Hi Hj. destruct (Hin _ _ _ Hi) as (? & _ & Hi'). destruct (Hin _ _ _ Hj) as (? & _ & Hj').
      pose proof (nvarr_inj _ _ _ _ _ _ _ _ _ _ Hn0 Hi' Hj'). lia.
    + intros i o d Hi. destruct (Hin _ _ _ Hi) as (_ & Hlt & Hi'). intros E. apply Hown. split.
      * by eapply entry_table.
      * right. eexists _, o, d. split; [exact Hi'|lia].
Qed.
End resizing.

(** ** The operations *)
Section operations.
Context {os : Os} {Hos : OsOk os}.
Implicit Types s : obj array_ext.

Lemma wp_ssetsize bl t f es f' n (Q : unit -> obj array_ext -> Prop) s :
  nvarr_in bl t f es s -> lock_ok (core s) -> (2 <= lck_stackp (core s))%nat ->
  0 <= f' -> 1 <= f' + Z.of_nat n <= 2 ^ 63 -> mem_sz (core s) + 8 * Z.of_nat n + 16 + 2 ^ 18 <= limit ->
  (forall bl' t' s', nvarr_in bl' t' f' (window Free f es f' n) s' -> same_locks (core s) (core s') ->
     mem_sz (core s') <= mem_sz (core s) + 8 * Z.of_nat n + 2 ^ 18 -> Q tt s') ->
  wp (ssetsize f' (f' + Z.of_nat n - 1)) Q s.
Proof.
  intros Hn Hlk Hsp Hf1 Hf2 Hlim HQ. destruct (nvarr_tiles _ _ _ _ _ Hn) as (_ & _ & Hc).
  pose proof (cu_big _ Hc) as Hbig. unfold ssetsize. layout.
  replace (f' + Z.of_nat n - 1 - f' + 1 + 2) with (Z.of_nat n + 2) by lia.
  replace (f' + Z.of_nat n - 1 - f' + 1) with (Z.of_nat n) by lia.
  rewrite !w64_small by (rewrite ?w64_small by lia; lia). rewrite Nat2Z.id. mstep.
  eapply wp_arr_nvalloc; [exact Hn|done|done|lia|layout; lia|].
  intros p sz bl' s1 Hn1 Hp Hsz Hnew Hl1 Hm1. destruct (nvarr_tiles _ _ _ _ _ Hn1) as (Htl1 & Hlim1 & Hc1).
  destruct (tiles_in _ _ _ _ Htl1 Hp) as (? & ? & _ & _). layout. cbn [b_off b_sz] in *.
  assert (~ owned t es p) as Hown.
  { intros Ho. destruct (owned_block _ _ _ _ _ _ (na_in _ _ _ _ _ Hn) Ho) as (b & Hb & Hbl & E).
    by destruct (Hnew b Hb Hbl). }
  pose proof (cu_map _ Hc1) as Hmap. rewrite <- (upd_self s1). unfold getdata, setdata. repeat mstep. layout.
  pose proof (copied_write bl' t f es s1 p sz f' n Hn1 Hp Hown ltac:(lia) ltac:(lia)) as Hwr.
  destruct (Hwr (data (core s1)) (p + 8) f') as (Hn2 & Hs2);
    [by rewrite upd_self|done|lia|lia|].
  destruct (Hwr _ (p + 8 + 8) (f' + Z.of_nat n - 1) Hn2 Hs2) as (Hn3 & Hs3);
    [lia|lia|].
  eapply (wp_copy_loop bl' t f es s1 p sz f' n Hn1 Hp Hown ltac:(lia) ltac:(lia) _ n 0); [lia| |].
  { split; [done|done| | |].
    - rewrite ld64_st64_ne, ld64_st64 by lia. done.
    - replace (p + 16) with (p + 8 + 8) by lia. rewrite ld64_st64 by lia. done.
    - intros j Hj. lia. }
  intros m' Hc'. mstep. mstep. mstep. apply wp_modify.
  pose proof (copied_array bl' t f es s1 p sz f' n Hn1 Hp Hown ltac:(lia) ltac:(lia) m' Hc') as Ha.
  set (s4 := Obj _ _). layout.
  assert (nvarr_in bl' (p + 24) f' (window Free f es f' n) s4) as Hn4.
  { split; [|unfold members; rewrite length_window; cbn [s4 ext]; f_equal; lia|exact Ha].
    cbn [s4 core]. apply (heap_data (st64 m' h_userdata (p + 8)) (core s1)); [apply Hn1|].
    apply hmem_st64; [|left; layout; lia]. apply (hp_mem _ _ (na_heap _ _ _ _ _ (cp_in _ _ _ _ _ _ _ _ _ _ Hc'))). }
  assert (Q tt s4) as Hdone.
  { eapply HQ; [exact Hn4|by split; apply Hl1|]. change (mem_sz (core s1) <= mem_sz (core s) + 8 * Z.of_nat n + 2 ^ 18). lia. }
  pose proof (nvarr_user _ _ _ _ _ Hn1) as Hu. layout. rewrite Hu. destruct (decide (t = 0)) as [_|Ht].
  - by apply wp_ret.
  - destruct (nvarr_table _ _ _ _ _ Hn1 Ht) as (b & Hb & Hbl & Ho & ? & ? & ? & _).
    destruct (Z.eqb_spec (t - 16) 0); [lia|]. replace (t - 16) with (b_off b + 8) by lia.
    eapply wp_arr_nvfree; [exact Hn4|by split; apply (lock_ok_same _ _ Hlk Hl1)|
      change (1 <= lck_stackp (core s1))%nat; rewrite (sl_sp _ _ Hl1); lia|done|done| |].
    + rewrite Ho. intros [_ [E|(i & o & d & Hi & E)]].
      * apply Hown. split; [done|]. left. lia.
      * apply window_inv in Hi as (_ & [?|[_ Hi]]); [done|]. apply (nvarr_off _ _ _ _ _ _ _ _ Hn1 Hi). lia.
    + intros bl2 s5 Hn5 _ Hl5 Hm5. eapply HQ; [exact Hn5|eapply same_locks_trans; [exact Hl1|]; by split; apply Hl5|].
      rewrite Hm5. change (mem_sz (core s1) <= mem_sz (core s) + 8 * Z.of_nat n + 2 ^ 18). lia.
Qed.

(** *** Locks *)
Lemma nvarr_ext bl t f es s s' : nvarr_in bl t f es s ->
  mem_p (core s') = mem_p (core s) -> mem_sz (core s') = mem_sz (core s) -> cur (core s') = cur (core s) ->
  ext s' = ext s -> nvarr_in bl t f es s'.
Proof.
  intros [[Hc Hl Hp Hm] He Ha] H1 H2 H3 H4. unfold data in *.
  split; [split|by rewrite H4|unfold data; by rewrite H3]; unfold data; rewrite ?H2, ?H3; try done.
  by eapply current_ext, Hc.
Qed.

Lemma wp_arr_lock l bl t f es (Q : unit -> obj array_ext -> Prop) s :
  l <> UnLock -> nvarr_in bl t f es s -> lock_ok (core s) -> (0 < lck_stackp (core s))%nat ->
  (forall s', nvarr_in bl t f es s' -> core s' = push_lock (effective l (core s)) (core s) ->
     lock_ok (core s') -> Q tt s') ->
  wp (lock_ l) Q s.
Proof.
  intros Hl Hn Hlk Hsp HQ. eapply (wp_lock_push l bl (eq (members t f (length es)))); try done;
    [apply Hn|by eapply nvarr_stable|by rewrite (na_ext _ _ _ _ _ Hn)|].
  intros x <-. apply HQ; [|done|by apply lock_ok_push].
  eapply nvarr_ext; try done. by rewrite (na_ext _ _ _ _ _ Hn).
Qed.

Lemma wp_arr_unlock l bl t f es (Q : unit -> obj array_ext -> Prop) s0 s :
  nvarr_in bl t f es s -> lock_ok (core s0) -> (0 < lck_stackp (core s0))%nat ->
  same_locks (push_lock l (core s0)) (core s) ->
  (forall s', nvarr_in bl t f es s' -> same_locks (core s0) (core s') -> mem_sz (core s') = mem_sz (core s) ->
     cur (core s') = cur (core s) -> Q tt s') ->
  wp (lock_ UnLock) Q s.
Proof.
  intros Hn Hlk Hsp Hl HQ. eapply (wp_lock_unlock bl (eq (members t f (length es)))); try done;
    [apply Hn| | |by eapply nvarr_stable|by rewrite (na_ext _ _ _ _ _ Hn)|].
  - eapply lock_ok_same; [|exact Hl]. by apply lock_ok_push.
  - rewrite (sl_sp _ _ Hl). cbn. destruct Hlk. lia.
  - intros x <-. apply HQ; try done; [|by eapply same_locks_pop].
    eapply nvarr_ext; try done. by rewrite (na_ext _ _ _ _ _ Hn).
Qed.

(** An operation in its lock. *)
Lemma wp_arr_locked {A} l (c : M (obj array_ext) A) bl t f es (Q : A -> obj array_ext -> Prop) s
    (post : A -> Z -> list entry -> Z -> Prop) :
  l <> UnLock -> nvarr_in bl t f es s -> lock_ok (core s) -> (0 < lck_stackp (core s))%nat ->
  (forall s1, nvarr_in bl t f es s1 -> lock_ok (core s1) -> S (lck_stackp (core s1)) = lck_stackp (core s) ->
     mem_sz (core s1) = mem_sz (core s) -> cur (core s1) = cur (core s) ->
     wp c (fun a s2 => exists bl' t' f' es', nvarr_in bl' t' f' es' s2 /\ same_locks (core s1) (core s2) /\
                         post a f' es' (mem_sz (core s2))) s1) ->
  (forall a bl' t' f' es' s', nvarr_in bl' t' f' es' s' -> same_locks (core s) (core s') ->
     post a f' es' (mem_sz (core s')) -> Q a s') ->
  wp (lock_ l ;;; a <- c ;; lock_ UnLock ;;; ret a) Q s.
Proof.
  intros Hl Hn Hlk Hsp Hc HQ. mstep. eapply wp_arr_lock; [done..|]. intros s1 Hn1 E1 Hlk1. mstep.
  eapply wp_mono.
  { apply (Hc s1); try done; rewrite E1; cbn; [lia|done..]. }
  intros a s2 (bl' & t' & f' & es' & Hn2 & Hl2 & Hpost). mstep. rewrite E1 in Hl2.
  eapply (wp_arr_unlock _ _ _ _ _ _ s s2); [exact Hn2|done|done|exact Hl2|]. intros s3 Hn3 Hl3 Hsz _. mstep.
  eapply HQ; [done..|]. by rewrite Hsz.
Qed.

Lemma wp_tail (c : M (obj array_ext) unit) (l1 l2 : lockcmd) (Q : unit -> obj array_ext -> Prop) s :
  wp (lock_ l1 ;;; a <- c ;; lock_ l2 ;;; ret a) Q s -> wp (lock_ l1 ;;; c ;;; lock_ l2) Q s.
Proof.
  unfold wp, bind, ret. destruct (lock_ l1 s) as [? s1| | |]; try done.
  destruct (c s1) as [[] s2| | |]; try done. by destruct (lock_ l2 s2) as [[] ?| | |].
Qed.

(** *** Records *)
Lemma wp_arr_sset bl t f es i e d (Q : unit -> obj array_ext -> Prop) s :
  nvarr_in bl t f es s -> es !! i = Some e -> e <> Stale -> lock_ok (core s) -> (2 <= lck_stackp (core s))%nat ->
  mem_sz (core s) + len d + 2 ^ 18 + 16 <= limit ->
  (forall bl' o s', nvarr_in bl' t f (<[i := Rec o d]> es) s' -> same_locks (core s) (core s') ->
     mem_sz (core s') <= mem_sz (core s) + len d + 2 ^ 18 -> Q tt s') ->
  wp (arr_sset (Z.of_nat i) d) Q s.
Proof.
  intros Hn Hi He Hlk Hsp Hlim HQ. pose proof (lookup_lt_Some _ _ _ Hi) as Hlt. unfold arr_sset. mstep.
  eapply wp_elem; [exact Hn|exact Hi|]. intros Hw. mstep. destruct e as [|o d0|]; [| |done].
  - change (word t i s = 0) in Hw. rewrite Hw. cbn [Z.eqb]. apply wp_ret. eapply wp_new_record; try done. intros o d'. congruence.
  - destruct (entry_block _ _ _ _ _ _ _ _ Hn Hi) as (b & _ & _ & _ & ? & _ & _ & -> & _).
    destruct (Z.eqb_spec o 0); [lia|]. eapply wp_free_rec; [exact Hn|exact Hi|done|lia|].
    intros bl1 s1 Hn1 Hl1 Hm1. eapply wp_new_record; [exact Hn1|by rewrite length_insert| | | |layout; lia|].
    + intros o' d'. rewrite list_lookup_insert_eq by done. done.
    + by eapply lock_ok_same.
    + by rewrite (sl_sp _ _ Hl1).
    + intros bl2 o2 s2 Hn2 Hl2 Hm2. rewrite list_insert_insert_eq in Hn2. eapply HQ; [exact Hn2| |lia].
      by eapply same_locks_trans.
Qed.

Lemma wp_arr_sdel bl t f es i e (Q : unit -> obj array_ext -> Prop) s :
  nvarr_in bl t f es s -> es !! i = Some e -> e <> Stale -> lock_ok (core s) -> (1 <= lck_stackp (core s))%nat ->
  (forall bl' s', nvarr_in bl' t f (<[i := Free]> es) s' -> same_locks (core s) (core s') ->
     mem_sz (core s') = mem_sz (core s) -> Q tt s') ->
  wp (arr_sdel (Z.of_nat i)) Q s.
Proof.
  intros Hn Hi He Hlk Hsp HQ. pose proof (lookup_lt_Some _ _ _ Hi) as Hlt. unfold arr_sdel. mstep.
  eapply wp_elem; [exact Hn|exact Hi|]. intros Hw. destruct e as [|o d0|]; [| |done].
  - change (word t i s = 0) in Hw. rewrite Hw. cbn [Z.eqb]. apply wp_ret. apply (HQ bl); [|apply same_locks_refl|done].
    rewrite list_insert_id by done. exact Hn.
  - destruct (entry_block _ _ _ _ _ _ _ _ Hn Hi) as (b & _ & _ & _ & ? & _ & _ & -> & _).
    destruct (Z.eqb_spec o 0); [lia|]. mstep. eapply wp_free_rec; [exact Hn|exact Hi|done|lia|].
    intros bl1 s1 Hn1 Hl1 Hm1. eapply (wp_set_elem _ _ _ _ i); [exact Hn1|by apply list_lookup_insert_eq|lia|].
    intros s2 Hn2 E2 Hw2. eapply (HQ bl1).
    + rewrite <- (list_insert_insert_eq es i _ Stale). apply nvarr_learn; [exact Hn2|by rewrite length_insert|exact Hw2|].
      intros o' d' [=].
    + eapply same_locks_trans; [exact Hl1|]. by rewrite E2.
    + by rewrite E2.
Qed.

(** sget of an index in the range, and out of it. *)
Lemma wp_sget_in bl t f es j e (Q : option (Z * Z) -> obj array_ext -> Prop) s :
  nvarr_in bl t f es s -> es !! j = Some e -> e <> Stale ->
  Q (match e with Rec o d => Some (o + 8, len d) | _ => None end) s ->
  wp (sget (f + Z.of_nat j)) Q s.
Proof.
  intros Hn Hj He HQ. pose proof (lookup_lt_Some _ _ _ Hj) as Hlt. unfold sget. mstep. apply wp_gets.
  unfold id. rewrite (na_ext _ _ _ _ _ Hn). cbn [arrfst arrlst members].
  destruct (Z.leb_spec f (f + Z.of_nat j)); [|lia]. destruct (Z.leb_spec (f + Z.of_nat j) (f + len es - 1)); [|lia].
  cbn [andb]. mstep. replace (f + Z.of_nat j - f) with (Z.of_nat j) by lia.
  eapply wp_elem; [exact Hn|exact Hj|]. intros Hw. destruct e as [|o d|]; [| |done].
  - change (word t j s = 0) in Hw. rewrite Hw. cbn [Z.eqb]. by apply wp_ret.
  - destruct (entry_block _ _ _ _ _ _ _ _ Hn Hj) as (b & Hb & Hbl & Ho & ? & ? & ? & -> & Hs & _).
    destruct (Z.eqb_spec o 0); [lia|]. destruct (nvarr_tiles _ _ _ _ _ Hn) as (_ & _ & Hc).
    pose proof (cu_map _ Hc). rewrite <- (upd_self s). repeat mstep. rewrite upd_self, Hs. done.
Qed.

Lemma wp_sget_out bl t f es i (Q : option (Z * Z) -> obj array_ext -> Prop) s :
  nvarr_in bl t f es s -> ~ (f <= i < f + len es) -> Q None s -> wp (sget i) Q s.
Proof.
  intros Hn Hi HQ. unfold sget. mstep. apply wp_gets. unfold id. rewrite (na_ext _ _ _ _ _ Hn).
  cbn [arrfst arrlst members]. destruct (Z.leb_spec f i); [|by apply wp_ret].
  destruct (Z.leb_spec i (f + len es - 1)); [lia|by apply wp_ret].
Qed.
End operations.
