(* ===== verification/ArrayMap.v ===== *)
(** * ArrayMap.v: the operations of an NVArray refine those of a list of records

    The operations with their locks, run on the file, against the same operations on
    the list of what the entries hold. *)
From S2P Require Import Prelude Memory Container Heap Alloc Nvalloc Nvfree ContainerSpec.
From S2P Require Import NVlist.
From S2P Require Import NVHash.
From S2P Require Import NVArray.
From S2P Require Import ArrayLaws.

Definition holds (e : entry) (r : option bytes) : Prop :=
  match e, r with Free, None => True | Rec _ d, Some d' => d = d' | _, _ => False end.
(** The file holds these records, at the indices from [f] on. *)
Definition nvarray {os : Os} (f : Z) (recs : list (option bytes)) (s : obj array_ext) : Prop :=
  exists bl t es, nvarr_in bl t f es s /\ Forall2 holds es recs.

Lemma holds_insert es recs i e r : Forall2 holds es recs -> holds e r -> Forall2 holds (<[i := e]> es) (<[i := r]> recs).
Proof. intros. by apply Forall2_insert. Qed.

Lemma holds_lookup es recs i r : Forall2 holds es recs -> recs !! i = Some r ->
  exists e, es !! i = Some e /\ holds e r /\ e <> Stale.
Proof.
  intros H Hi. destruct (Forall2_lookup_r _ _ _ _ _ H Hi) as (e & He & Hh). exists e.
  split_and!; [done|done|]. by intros ->.
Qed.

Lemma holds_window es recs f f' n : Forall2 holds es recs ->
  Forall2 holds (window Free f es f' n) (window None f recs f' n).
Proof.
  intros H. apply Forall2_fmap, Forall2_same_length_lookup. split; [done|].
  intros i j k Hj Hk. rewrite Hj in Hk. injection Hk as <-. cbv zeta. destruct (f <=? f' + Z.of_nat j); [|done].
  destruct (recs !! _) as [r|] eqn:Er.
  - by destruct (holds_lookup _ _ _ _ H Er) as (e & -> & Hh & _).
  - apply lookup_ge_None in Er. rewrite <- (Forall2_length _ _ _ H) in Er. by rewrite lookup_ge_None_2.
Qed.

(** ** The operations *)
Inductive arr_op :=
| OpSet (i : nat) (d : bytes) | OpDel (i : nat) | OpGet (k : Z) | OpHas (k : Z) | OpEmpty.
Inductive arr_result := Done | Data (r : option bytes) | Flag (b : bool).

Section operations.
Context {os : Os}.
Abbreviation MC := (M (obj array_ext)).

(** What a caller of get finds behind the pointer. *)
Definition arr_read (k : Z) : MC (option bytes) :=
  r <- arr_get k ;;
  match r with None => ret None | Some (p, n) => d <- ldmem p n ;; ret (Some d) end.
Definition run_op (o : arr_op) : MC arr_result :=
  match o with
  | OpSet i d => arr_set (Z.of_nat i) d ;;; ret Done
  | OpDel i => arr_del (Z.of_nat i) ;;; ret Done
  | OpGet k => r <- arr_read k ;; ret (Data r)
  | OpHas k => b <- has_element k ;; ret (Flag b)
  | OpEmpty => b <- arr_is_empty ;; ret (Flag b)
  end.
Fixpoint run_ops (l : list arr_op) : MC (list arr_result) :=
  match l with [] => ret [] | o :: l => r <- run_op o ;; rs <- run_ops l ;; ret (r :: rs) end.
End operations.

(** The same on the list. *)
Definition at_index (f : Z) (recs : list (option bytes)) (k : Z) : option bytes :=
  if f <=? k then default None (recs !! Z.to_nat (k - f)) else None.
Definition is_some {A} (o : option A) : bool := match o with Some _ => true | None => false end.
Definition op_result (f : Z) (recs : list (option bytes)) (o : arr_op) : arr_result :=
  match o with
  | OpSet _ _ | OpDel _ => Done
  | OpGet k => Data (at_index f recs k)
  | OpHas k => Flag (is_some (at_index f recs k))
  | OpEmpty => Flag (negb (existsb is_some recs))
  end.
Definition op_after (recs : list (option bytes)) (o : arr_op) : list (option bytes) :=
  match o with OpSet i d => <[i := Some d]> recs | OpDel i => <[i := None]> recs | _ => recs end.
Fixpoint ops_results (f : Z) (recs : list (option bytes)) (l : list arr_op) : list arr_result :=
  match l with [] => [] | o :: l => op_result f recs o :: ops_results f (op_after recs o) l end.
Definition ops_after (recs : list (option bytes)) (l : list arr_op) : list (option bytes) := foldl op_after recs l.

(** set and del take an index into the table. *)
Definition op_ok (n : nat) (o : arr_op) : Prop := match o with OpSet i _ | OpDel i => (i < n)%nat | _ => True end.
(** How much the file may grow. *)
Definition op_cost (o : arr_op) : Z := match o with OpSet _ d => len d + 2 ^ 18 | _ => 0 end.
Definition ops_cost (l : list arr_op) : Z := foldr (fun o n => op_cost o + n) 0 l.

Lemma op_cost_nonneg o : 0 <= op_cost o.
Proof. destruct o; cbn; lia. Qed.
Lemma ops_cost_nonneg l : 0 <= ops_cost l.
Proof. induction l as [|o l IH]; cbn; [done|]. fold (ops_cost l). pose proof (op_cost_nonneg o). lia. Qed.
Lemma length_op_after recs o : length (op_after recs o) = length recs.
Proof. destruct o; cbn; by rewrite ?length_insert. Qed.

Section refinement.
Context {os : Os} {Hos : OsOk os}.
Implicit Types s : obj array_ext.

(** A lookup is in the range, or finds nothing. *)
Lemma at_index_cases f es recs k : Forall2 holds es recs ->
  (exists j e r, k = f + Z.of_nat j /\ es !! j = Some e /\ recs !! j = Some r /\ holds e r /\ e <> Stale /\ at_index f recs k = r) \/
  (~ (f <= k < f + len es) /\ at_index f recs k = None).
Proof.
  intros H. unfold at_index. destruct (Z.leb_spec f k) as [Hle|Hle]; [|right; split; [lia|done]].
  destruct (recs !! Z.to_nat (k - f)) as [r|] eqn:Er.
  - destruct (holds_lookup _ _ _ _ H Er) as (e & He & Hh & Hs). left. exists (Z.to_nat (k - f)), e, r.
    split_and!; try done. lia.
  - right. apply lookup_ge_None in Er. rewrite <- (Forall2_length _ _ _ H) in Er. split; [lia|done].
Qed.

Lemma wp_arr_get f es recs k bl t (Q : option (Z * Z) -> obj array_ext -> Prop) s :
  nvarr_in bl t f es s -> Forall2 holds es recs -> lock_ok (core s) -> (0 < lck_stackp (core s))%nat ->
  (forall r s', nvarr_in bl t f es s' -> same_locks (core s) (core s') -> mem_sz (core s') = mem_sz (core s) ->
     match r with
     | None => at_index f recs k = None
     | Some (p, n) => exists j o d, es !! j = Some (Rec o d) /\ p = o + 8 /\ n = len d /\ at_index f recs k = Some d
     end -> Q r s') ->
  wp (arr_get k) Q s.
Proof.
  intros Hn Hh Hlk Hsp HQ. unfold arr_get. mstep. eapply wp_arr_lock; [done|exact Hn|done|done|].
  intros s1 Hn1 E1 Hlk1. mstep.
  assert (forall r, match r with
     | None => at_index f recs k = None
     | Some (p, n) => exists j o d, es !! j = Some (Rec o d) /\ p = o + 8 /\ n = len d /\ at_index f recs k = Some d
     end -> wp (lock_ UnLock ;;; ret r) Q s1) as Hend.
  { intros r Hr. mstep. eapply (wp_arr_unlock _ _ _ _ _ _ s s1); [exact Hn1|done|done|rewrite E1; apply same_locks_refl|].
    intros s2 Hn2 Hl2 Hm2 _. mstep. apply HQ; [done|done| |done]. rewrite Hm2, E1. done. }
  destruct (at_index_cases f es recs k Hh) as [(j & e & r & -> & He & Hr & Hhr & Hs & E)|[Hout E]].
  - eapply wp_sget_in; [exact Hn1|exact He|done|]. apply Hend.
    destruct e as [|o d|]; [by destruct r; rewrite E| |done].
    destruct r as [d'|]; [|done]. cbn in Hhr. subst d'. exists j, o, d. by rewrite E.
  - eapply wp_sget_out; [exact Hn1|done|]. by apply Hend.
Qed.

Lemma wp_arr_read f recs k (Q : option bytes -> obj array_ext -> Prop) s :
  nvarray f recs s -> lock_ok (core s) -> (0 < lck_stackp (core s))%nat ->
  (forall s', nvarray f recs s' -> same_locks (core s) (core s') -> mem_sz (core s') = mem_sz (core s) ->
     Q (at_index f recs k) s') ->
  wp (arr_read k) Q s.
Proof.
  intros (bl & t & es & Hn & Hh) Hlk Hsp HQ. unfold arr_read. mstep.
  eapply wp_arr_get; [exact Hn|exact Hh|done|done|]. intros r s1 Hn1 Hl1 Hm1 Hr.
  assert (nvarray f recs s1) as Hn1' by (by exists bl, t, es).
  destruct r as [[p n]|].
  - destruct Hr as (j & o & d & Hj & -> & -> & E).
    destruct (entry_block _ _ _ _ _ _ _ _ Hn1 Hj) as (b & _ & _ & _ & ? & ? & ? & _ & _ & Hd).
    destruct (nvarr_tiles _ _ _ _ _ Hn1) as (_ & _ & Hc). pose proof (cu_map _ Hc).
    mstep. rewrite <- (upd_self s1). apply wp_ldmem; [layout; split_and!; [done|lia|lia]|].
    rewrite Nat2Z.id, Hd, upd_self. mstep. rewrite <- E. by apply HQ.
  - mstep. rewrite <- Hr. by apply HQ.
Qed.

Lemma wp_arr_set f recs i d (Q : unit -> obj array_ext -> Prop) s :
  nvarray f recs s -> (i < length recs)%nat -> lock_ok (core s) -> (3 <= lck_stackp (core s))%nat ->
  mem_sz (core s) + len d + 2 ^ 19 <= limit ->
  (forall s', nvarray f (<[i := Some d]> recs) s' -> same_locks (core s) (core s') ->
     mem_sz (core s') <= mem_sz (core s) + len d + 2 ^ 18 -> Q tt s') ->
  wp (arr_set (Z.of_nat i) d) Q s.
Proof.
  intros (bl & t & es & Hn & Hh) Hi Hlk Hsp Hlim HQ. apply wp_tail.
  destruct (lookup_lt_is_Some_2 recs i Hi) as [r Hr]. destruct (holds_lookup _ _ _ _ Hh Hr) as (e & He & _ & Hs).
  eapply (wp_arr_locked _ _ bl t f es _ _ (fun _ f' es' sz => f' = f /\ Forall2 holds es' (<[i := Some d]> recs) /\
    sz <= mem_sz (core s) + len d + 2 ^ 18)); [done|done|done|lia| |].
  - intros s1 Hn1 Hlk1 Hsp1 Hm1 _. eapply wp_arr_sset; [exact Hn1|exact He|done|done|lia|layout; lia|].
    intros bl' o s' Hn' Hl' Hm'. exists bl', t, f, (<[i := Rec o d]> es).
    split_and!; [done|done|done|by apply holds_insert|lia].
  - intros [] bl' t' f' es' s' Hn' Hl' (-> & Hh' & Hm'). apply HQ; [|done|done]. by exists bl', t', es'.
Qed.

Lemma wp_arr_del f recs i (Q : unit -> obj array_ext -> Prop) s :
  nvarray f recs s -> (i < length recs)%nat -> lock_ok (core s) -> (2 <= lck_stackp (core s))%nat ->
  (forall s', nvarray f (<[i := None]> recs) s' -> same_locks (core s) (core s') ->
     mem_sz (core s') = mem_sz (core s) -> Q tt s') ->
  wp (arr_del (Z.of_nat i)) Q s.
Proof.
  intros (bl & t & es & Hn & Hh) Hi Hlk Hsp HQ. apply wp_tail.
  destruct (lookup_lt_is_Some_2 recs i Hi) as [r Hr]. destruct (holds_lookup _ _ _ _ Hh Hr) as (e & He & _ & Hs).
  eapply (wp_arr_locked _ _ bl t f es _ _ (fun _ f' es' sz => f' = f /\ Forall2 holds es' (<[i := None]> recs) /\
    sz = mem_sz (core s))); [done|done|done|lia| |].
  - intros s1 Hn1 Hlk1 Hsp1 Hm1 _. eapply wp_arr_sdel; [exact Hn1|exact He|done|done|lia|].
    intros bl' s' Hn' Hl' Hm'. exists bl', t, f, (<[i := Free]> es).
    split_and!; [done|done|done|by apply holds_insert|lia].
  - intros [] bl' t' f' es' s' Hn' Hl' (-> & Hh' & Hm'). apply HQ; [|done|done]. by exists bl', t', es'.
Qed.

(** A read operation in its lock. *)
Lemma wp_arr_query {A} (c : M (obj array_ext) A) f recs (a : A) (Q : A -> obj array_ext -> Prop) s :
  nvarray f recs s -> lock_ok (core s) -> (0 < lck_stackp (core s))%nat ->
  (forall bl t es s1, nvarr_in bl t f es s1 -> Forall2 holds es recs -> wp c (fun r s2 => r = a /\ s2 = s1) s1) ->
  (forall s', nvarray f recs s' -> same_locks (core s) (core s') -> mem_sz (core s') = mem_sz (core s) -> Q a s') ->
  wp (lock_ ShrdLock ;;; r <- c ;; lock_ UnLock ;;; ret r) Q s.
Proof.
  intros (bl & t & es & Hn & Hh) Hlk Hsp Hc HQ.
  eapply (wp_arr_locked _ _ bl t f es _ _ (fun r f' es' sz => r = a /\ f' = f /\ Forall2 holds es' recs /\
    sz = mem_sz (core s))); [done|done|done|done| |].
  - intros s1 Hn1 _ _ Hm1 _. eapply wp_mono; [eapply Hc; [exact Hn1|exact Hh]|]. intros r s2 [-> ->]. exists bl, t, f, es.
    by split_and!.
  - intros r bl' t' f' es' s' Hn' Hl' (-> & -> & Hh' & Hm'). apply HQ; [|done|done]. by exists bl', t', es'.
Qed.

Lemma wp_shas_element bl t f es recs k (Q : bool -> obj array_ext -> Prop) s :
  nvarr_in bl t f es s -> Forall2 holds es recs -> Q (is_some (at_index f recs k)) s -> wp (shas_element k) Q s.
Proof.
  intros Hn Hh HQ. unfold shas_element. mstep. apply wp_gets. unfold id. rewrite (na_ext _ _ _ _ _ Hn).
  cbn [arrfst arrlst members].
  destruct (at_index_cases f es recs k Hh) as [(j & e & r & -> & He & Hr & Hhr & Hs & E)|[Hout E]].
  - pose proof (lookup_lt_Some _ _ _ He). destruct (Z.ltb_spec (f + Z.of_nat j) f); [lia|].
    destruct (Z.ltb_spec (f + len es - 1) (f + Z.of_nat j)); [lia|]. cbn [orb]. mstep.
    replace (f + Z.of_nat j - f) with (Z.of_nat j) by lia.
    eapply wp_elem; [exact Hn|exact He|]. intros Hw. apply wp_ret. rewrite E in HQ.
    destruct (nvarr_tiles _ _ _ _ _ Hn) as (_ & Hlim & _). layout.
    destruct e as [|o d|]; [| |done].
    + change (word t j s = 0) in Hw. rewrite Hw. by destruct r.
    + destruct r as [d'|]; [|done]. destruct (entry_block _ _ _ _ _ _ _ _ Hn He) as (b & _ & _ & Ho & ? & ? & ? & -> & _).
      rewrite s32_small by (layout; lia). destruct (Z.eqb_spec o 0); [lia|]. exact HQ.
  - rewrite E in HQ. destruct (Z.ltb_spec k f); [by apply wp_ret|].
    destruct (Z.ltb_spec (f + len es - 1) k); [by apply wp_ret|lia].
Qed.

Lemma wp_is_empty_loop bl t f es recs (Q : bool -> obj array_ext -> Prop) s :
  nvarr_in bl t f es s -> Forall2 holds es recs -> forall n i, (i + n = length es)%nat ->
  Q (negb (existsb is_some (drop i recs))) s -> wp (arr_sis_empty_loop n (Z.of_nat i)) Q s.
Proof.
  intros Hn Hh. induction n as [|n IH]; intros i Hi HQ; cbn [arr_sis_empty_loop].
  - apply wp_ret. rewrite drop_ge in HQ by (rewrite <- (Forall2_length _ _ _ Hh); lia). exact HQ.
  - destruct (lookup_lt_is_Some_2 recs i) as [r Hr]; [rewrite <- (Forall2_length _ _ _ Hh); lia|].
    destruct (holds_lookup _ _ _ _ Hh Hr) as (e & He & Hhr & Hs). rewrite (drop_S _ _ _ Hr) in HQ. cbn [existsb] in HQ.
    mstep. eapply wp_elem; [exact Hn|exact He|]. intros Hw. destruct e as [|o d|]; [| |done].
    + change (word t i s = 0) in Hw. rewrite Hw. cbn [Z.eqb negb]. replace (Z.of_nat i + 1) with (Z.of_nat (S i)) by lia.
      apply IH; [lia|]. by destruct r.
    + destruct (entry_block _ _ _ _ _ _ _ _ Hn He) as (b & _ & _ & _ & ? & _ & _ & -> & _).
      destruct (Z.eqb_spec o 0); [lia|]. apply wp_ret. by destruct r.
Qed.

Lemma wp_arr_sis_empty bl t f es recs (Q : bool -> obj array_ext -> Prop) s :
  nvarr_in bl t f es s -> Forall2 holds es recs -> Q (negb (existsb is_some recs)) s -> wp arr_sis_empty Q s.
Proof.
  intros Hn Hh HQ. unfold arr_sis_empty. mstep. apply wp_gets. unfold id. rewrite (na_ext _ _ _ _ _ Hn).
  cbn [arrfst arrlst members]. destruct (Z.ltb_spec (f + len es - 1) f).
  - apply wp_ret. destruct es; [|cbn in *; lia]. by inversion Hh; subst.
  - destruct (decide (t = 0)) as [->|Ht].
    { destruct (nvarr_zero _ _ _ _ _ Hn eq_refl) as [-> ->]. cbn in *. lia. }
    destruct (nvarr_table _ _ _ _ _ Hn Ht) as (b & _ & _ & _ & ? & ? & ? & ?).
    destruct (nvarr_tiles _ _ _ _ _ Hn) as (_ & Hlim & _). layout.
    unfold arr_count. do 2 mstep. apply wp_gets. unfold id. rewrite (na_ext _ _ _ _ _ Hn).
    cbn [arrfst arrlst members]. mstep. replace (f + len es - 1 - f + 1) with (len es) by lia.
    rewrite w64_small, Nat2Z.id by lia. by eapply (wp_is_empty_loop _ _ _ _ _ _ _ Hn Hh (length es) 0).
Qed.

(** One operation. *)
Lemma wp_run_op f recs o (Q : arr_result -> obj array_ext -> Prop) s :
  nvarray f recs s -> op_ok (length recs) o -> lock_ok (core s) -> (3 <= lck_stackp (core s))%nat ->
  mem_sz (core s) + op_cost o + 2 ^ 18 <= limit ->
  (forall s', nvarray f (op_after recs o) s' -> same_locks (core s) (core s') ->
     mem_sz (core s') <= mem_sz (core s) + op_cost o -> Q (op_result f recs o) s') ->
  wp (run_op o) Q s.
Proof.
  intros Hn Hok Hlk Hsp Hlim HQ. destruct o as [i d|i|k|k|]; cbn [run_op op_result op_after op_cost op_ok] in *; mstep.
  - eapply wp_arr_set; [exact Hn|done..|layout; lia|]. intros s' Hn' Hl' Hm'. mstep. apply HQ; [done..|lia].
  - eapply wp_arr_del; [exact Hn|done|done|lia|]. intros s' Hn' Hl' Hm'. mstep. apply HQ; [done..|lia].
  - eapply wp_arr_read; [exact Hn|done|lia|]. intros s' Hn' Hl' Hm'. mstep. apply HQ; [done..|lia].
  - eapply wp_arr_query; [exact Hn|done|lia| |].
    + intros bl t es s1 Hn1 Hh1. eapply wp_shas_element; [exact Hn1|exact Hh1|]. by split.
    + intros s' Hn' Hl' Hm'. mstep. apply HQ; [done..|lia].
  - eapply wp_arr_query; [exact Hn|done|lia| |].
    + intros bl t es s1 Hn1 Hh1. eapply wp_arr_sis_empty; [exact Hn1|exact Hh1|]. by split.
    + intros s' Hn' Hl' Hm'. mstep. apply HQ; [done..|lia].
Qed.

(** C11: an NVArray is a list of optional records: any sequence of set, del, get,
    has_element and is_empty on the file gives the results it gives on the list, and
    leaves a file that holds the list it leaves, while there is room for the records. *)
Theorem array_refines_list f l : forall recs s,
  nvarray f recs s -> Forall (op_ok (length recs)) l -> lock_ok (core s) -> (3 <= lck_stackp (core s))%nat ->
  mem_sz (core s) + ops_cost l + 2 ^ 18 <= limit ->
  wp (run_ops l) (fun rs s' => rs = ops_results f recs l /\ nvarray f (ops_after recs l) s' /\
    same_locks (core s) (core s')) s.
Proof.
  induction l as [|o l IH]; intros recs s Hn Hok Hlk Hsp Hlim; cbn [run_ops ops_results ops_after foldl].
  - apply wp_ret. split_and!; [done|done|apply same_locks_refl].
  - apply Forall_cons in Hok as [Ho Hok]. change (ops_cost (o :: l)) with (op_cost o + ops_cost l) in Hlim.
    pose proof (ops_cost_nonneg l). mstep. eapply wp_run_op; [exact Hn|exact Ho|done|done|lia|].
    intros s1 Hn1 Hl1 Hm1. mstep. eapply wp_mono; [eapply (IH (op_after recs o) s1)|].
    + done.
    + by rewrite length_op_after.
    + by eapply lock_ok_same.
    + by rewrite (sl_sp _ _ Hl1).
    + lia.
    + intros rs s2 (-> & Hn2 & Hl2). mstep. split_and!; [done|done|by eapply same_locks_trans].
Qed.
End refinement.

(** ** Opening and resizing *)
Section creation.
Context {os : Os} {Hos : OsOk os}.
Implicit Types s : obj array_ext.

(** A file that does not exist is an array without a table. *)
Lemma wp_arr_open dbname (Q : unit -> obj array_ext -> Prop) s :
  mem_fn (core s) <> dbname -> mem_fd (core s) = false -> mem_p (core s) = NullMap ->
  length (lck_stack (core s)) = LOCKSTACKSIZE -> lck_stackp (core s) = LOCKSTACKSIZE ->
  files (core s) !! dbname = None -> os_open dbname = None -> (forall m, os_write m = None) ->
  (forall s', nvarray 1 [] s' -> lock_ok (core s') -> lck_stackp (core s') = LOCKSTACKSIZE ->
     mem_sz (core s') = 65536 -> Q tt s') ->
  wp (arr_open dbname) Q s.
Proof.
  intros Hfn Hfd Hmap Hlen Hsp Hfile Hopen Hwrite HQ. unfold arr_open.
  apply (wp_open dbname fresh_bl); try done; [by left; rewrite Hfile|].
  intros c Hmp Hp Hh Hcur Hheld Hst Hspc.
  assert (hdr (remap c) h_userdata = 0) as Hu.
  { unfold hdr, data. rewrite Hcur. unfold opened. rewrite Hfile. cbn [default f_size Z.eqb f_data].
    by destruct (fresh_reads ∅) as (_ & _ & _ & _ & _ & _ & _ & ?). }
  assert (mem_sz (remap c) = 65536) as Hsz.
  { rewrite <- (cu_fsize _ (hp_current _ _ Hh)), Hcur. unfold opened. by rewrite Hfile. }
  assert (lck_stackp (remap c) = LOCKSTACKSIZE /\ lck_stack (remap c) = lck_stack (core s) /\
    held (remap c) = UnLock) as (E1 & E2 & E3)
    by (unfold remap; rewrite <- Hsp, <- Hspc, <- Hst, <- Hheld; by destruct (decide _)).
  apply wp_arr_make_current; [done|by left|]. cbn [core]. apply HQ; cbn [core]; try done.
  - exists fresh_bl, 0, []. split; [|done]. split; [done|cbn [ext core]; unfold fresh_members; by rewrite Hu|by constructor].
  - split; [by rewrite E2|by rewrite E1|]. rewrite E3. unfold top_lock. by rewrite E1.
Qed.

Lemma wp_arr_resize f recs f' n (Q : unit -> obj array_ext -> Prop) s :
  nvarray f recs s -> lock_ok (core s) -> (2 <= lck_stackp (core s))%nat ->
  0 <= f' -> 1 <= f' + Z.of_nat n <= 2 ^ 63 -> mem_sz (core s) + 8 * Z.of_nat n + 16 + 2 ^ 18 <= limit ->
  (forall s', nvarray f' (window None f recs f' n) s' -> same_locks (core s) (core s') ->
     mem_sz (core s') <= mem_sz (core s) + 8 * Z.of_nat n + 2 ^ 18 -> Q tt s') ->
  wp (ssetsize f' (f' + Z.of_nat n - 1)) Q s.
Proof.
  intros (bl & t & es & Hn & Hh) Hlk Hsp H1 H2 Hlim HQ. eapply wp_ssetsize; [exact Hn|done..|].
  intros bl' t' s' Hn' Hl' Hm'. apply HQ; [|done|done]. exists bl', t', (window Free f es f' n).
  split; [done|by apply holds_window].
Qed.

(** Changing the range of an NVArray keeps the record of every index that is in
    the old and in the new range, and leaves the other indices of the new range empty. *)
Theorem ssetsize_keeps f recs f' n s :
  nvarray f recs s -> lock_ok (core s) -> (2 <= lck_stackp (core s))%nat ->
  0 <= f' -> 1 <= f' + Z.of_nat n <= 2 ^ 63 -> mem_sz (core s) + 8 * Z.of_nat n + 16 + 2 ^ 18 <= limit ->
  wp (ssetsize f' (f' + Z.of_nat n - 1))
    (fun _ s' => exists recs', nvarray f' recs' s' /\ length recs' = n /\ same_locks (core s) (core s') /\
       forall k, f' <= k < f' + Z.of_nat n -> at_index f' recs' k = at_index f recs k) s.
Proof.
  intros. eapply wp_arr_resize; [done..|]. intros s' Hn' Hl' _. eexists. split_and!; [exact Hn'|apply length_window|done|].
  intros k Hk. unfold at_index at 1. destruct (Z.leb_spec f' k); [|lia].
  rewrite window_lookup by lia. cbv zeta. replace (f' + Z.of_nat (Z.to_nat (k - f'))) with k by lia. done.
Qed.
End creation.

(** ** An example *)
#[local] Existing Instance good_os.
Definition ex_array0 : obj array_ext := run (arr_open "db") (new_array ∅ (ArrExt 7 7 7)).
Definition ex_array : obj array_ext := run (ssetsize 5 7) ex_array0.

(** A file of at most [mx] bytes that no one has locked. *)
Definition usable (f : Z) (recs : list (option bytes)) (mx : Z) (s : obj array_ext) : Prop :=
  nvarray f recs s /\ lock_ok (core s) /\ lck_stackp (core s) = LOCKSTACKSIZE /\ mem_sz (core s) <= mx.
Lemma ex_array0_ok : usable 1 [] (2 ^ 16) ex_array0.
Proof.
  assert (wp (arr_open "db") (fun _ s => usable 1 [] (2 ^ 16) s) (new_array ∅ (ArrExt 7 7 7))) as H.
  { apply wp_arr_open; try done. intros s' Hn Hlk Hsp Hm. split_and!; [done|done|done|rewrite Hm; done]. }
  apply wp_inv in H as ([] & s' & E & H). unfold ex_array0, run. by rewrite E.
Qed.
Lemma ex_array_ok : usable 5 [None; None; None] (2 ^ 19) ex_array.
Proof.
  destruct ex_array0_ok as (Hn & Hlk & Hsp & Hm).
  assert (wp (ssetsize 5 7) (fun _ s => usable 5 [None; None; None] (2 ^ 19) s) ex_array0) as H.
  { eapply (wp_arr_resize 1 [] 5 3); [exact Hn|done|rewrite Hsp; unfold LOCKSTACKSIZE; lia|lia|lia|layout; lia|].
    intros s' Hn' Hl' Hm'. split_and!; [exact Hn'|by eapply lock_ok_same|by rewrite (sl_sp _ _ Hl')|lia]. }
  apply wp_inv in H as ([] & s' & E & H). unfold ex_array, run. by rewrite E.
Qed.

Lemma array_refines_list_witness :
  wp (run_ops [OpGet 6; OpSet 1 (bs "ab"); OpHas 6; OpGet 6; OpGet 9; OpDel 1; OpEmpty])
    (fun rs _ => rs = [Data None; Done; Flag true; Data (Some (bs "ab")); Data None; Done; Flag true]) ex_array.
Proof.
  destruct ex_array_ok as (Hn & Hlk & Hsp & Hm). eapply wp_mono.
  - apply (array_refines_list 5 _ _ _ Hn).
    + repeat (apply List.Forall_cons; [cbn; lia|]). apply List.Forall_nil.
    + exact Hlk.
    + rewrite Hsp. unfold LOCKSTACKSIZE. lia.
    + cbn. layout. lia.
  - intros rs s' (-> & _). vm_compute. reflexivity.
Defined.

Lemma ssetsize_keeps_witness : wp (ssetsize 6 9) (fun _ s' => exists recs', nvarray 6 recs' s' /\ length recs' = 4%nat) ex_array.
Proof.
  destruct ex_array_ok as (Hn & Hlk & Hsp & Hm). eapply wp_mono.
  - apply (ssetsize_keeps 5 _ 6 4 _ Hn); [exact Hlk|rewrite Hsp; unfold LOCKSTACKSIZE; lia|lia|lia|layout; lia].
  - intros _ s' (recs' & H1 & H2 & _). exists recs'. exact (conj H1 H2).
Defined.

(** ** Where the array does not do what its functions say *)
Definition value {S A} (o : outcome S A) : option A := match o with Ret a _ => Some a | _ => None end.

(** clear leaves the offsets of the freed records in the table. *)
Lemma clear_leaves_elements :
  value ((arr_set 1 (bs "ab") ;;; arr_clear ;;; has_element 6) ex_array) = Some true.
Proof. vm_compute. reflexivity. Qed.

(** setsize to a range that begins later frees the record of the new first index and
    keeps its offset: the memory of the record is handed out again. *)
Lemma setsize_frees_first :
  value ((arr_set 1 (bs "ab") ;;; arr_setsize 6 8 true ;;; arr_set 1 (bs "cd") ;;; arr_read 6) ex_array)
    <> Some (Some (bs "ab")).
Proof. vm_compute. discriminate. Qed.
