(* ===== verification/NVNewsgroup.v ===== *)
(** * NVNewsgroup.v: a newsgroup in a database file

    NServer-0.9.1/NVNewsgroup.{h,cc}: the overview records and the small articles
    of a newsgroup are the elements of an NVArray, its big articles files of their
    own in the directory of the group.  An element is a character that tells what
    follows, the text and its terminator. *)
From S2P Require Import Prelude Memory Text Container Article OverviewFmt.
From S2P Require Import ServerList.
From S2P Require Import NVlist.
From S2P Require Import NVHash.
From S2P Require Import NVArray.

Definition t_overview : Z := 2.
Definition t_article : Z := 3.
Definition t_bigarticle : Z := 4.

(** The object and the files of its directory. *)
Record NVNewsgroup := NVNg { nv_arr : obj array_ext; nv_name : bytes; nv_dir : list (bytes * bytes) }.

(** The files [.art%lu] and [.art%u]. *)
Definition art_file (n : Z) : bytes := bs ".art" ++ dec n.
Definition dir_unlink (fn : bytes) (d : list (bytes * bytes)) : list (bytes * bytes) :=
  List.filter (fun x => negb (bool_decide (fst x = fn))) d.
Definition dir_find (fn : bytes) (d : list (bytes * bytes)) : option bytes :=
  snd <$> List.find (fun x => bool_decide (fst x = fn)) d.
(** [ofstream fs(fn); fs << text] *)
Definition dir_write (fn text : bytes) (d : list (bytes * bytes)) : list (bytes * bytes) :=
  dir_unlink fn d ++ [(fn, text)].

(** group2dir *)
Definition group2dir (name : bytes) : bytes :=
  map (fun c => if bool_decide (c = "."%char) then "/"%char else c) name.

Section with_os.
Context {os : Os}.
Abbreviation MG := (M NVNewsgroup).

(** The operations of the base class NVArray. *)
Definition on_arr {A} (c : M (obj array_ext) A) : MG A := fun g =>
  match c (nv_arr g) with
  | Ret a s => Ret a (NVNg s (nv_name g) (nv_dir g))
  | Throw e s => Throw e (NVNg s (nv_name g) (nv_dir g))
  | Abort w => Abort w
  | Spin => Spin
  end.
Definition alock (l : lockcmd) : MG unit := on_arr (lock_ l).
Definition unlink (fn : bytes) : MG unit := modify (fun g => NVNg (nv_arr g) (nv_name g) (dir_unlink fn (nv_dir g))).
Definition write_file (fn text : bytes) : MG unit :=
  modify (fun g => NVNg (nv_arr g) (nv_name g) (dir_write fn text (nv_dir g))).

(** The constructor; [dir] is what the directory of the group holds.  The name of
    the file, with its terminator, goes to a buffer of MAXPATHLEN bytes. *)
Definition nv_new (spooldir name : bytes) (fs : gmap string file) (dir : list (bytes * bytes)) (junk : array_ext)
    : outcome NVNewsgroup unit :=
  if (4096 <? length spooldir + 1 + length name + 4 + 1)%nat then Abort "path longer than its buffer" else
  on_arr (arr_open ".db") (NVNg (new_array fs junk) (take 512 name) dir).

(** [unsigned int] results of arrfst and arrlst. *)
Definition nv_getsize : MG (Z * Z) := on_arr (e <- gete id ;; ret (w32 (arrfst e), w32 (arrlst e))).
Definition nv_hasrecord (i : Z) : MG bool := on_arr (has_element i).

(** [*data] and the C string behind it. *)
Definition type_at (data : Z) : M (obj array_ext) Z := b <- ldmem data 1 ;; ret (zc (at_ b 0)).
Definition text_at (data : Z) : M (obj array_ext) bytes := ldcstr (data + 1).
(** [Article(nbr, data + 1, n)] *)
Definition article_at (nbr data n : Z) : M (obj array_ext) Article :=
  t <- ldmem (data + 1) n ;; ret (MkArticle (s32 nbr) t).

(** Where the record of a number in the range is: [None] out of the range,
    [Some None] when there is none. *)
Definition find_record (nbr : Z) : M (obj array_ext) (option (option (Z * Z))) :=
  e <- gete id ;;
  if (arrfst e <=? nbr) && (nbr <=? arrlst e) then d <- sget nbr ;; ret (Some d) else ret None.

(** The overview record at [data]; [None] for a type that cannot be. *)
Definition over_at (fmt : OverviewFmt) (nbr data sz : Z) : M (obj array_ext) (option bytes) :=
  t <- type_at data ;;
  if t =? t_article then a <- article_at nbr data (w64 (sz - 2)) ;; o <- convert_article fmt a ;; ret (Some o)
  else if (t =? t_bigarticle) || (t =? t_overview) then o <- text_at data ;; ret (Some o)
  else ret None.

Definition sprintover (fmt : OverviewFmt) (nbr : Z) : M (obj array_ext) bytes :=
  r <- find_record nbr ;;
  match r with
  | Some (Some (data, sz)) =>
      o <- over_at fmt nbr data sz ;;
      ret (match o with Some o => o ++ [CR; LF] | None => [] end)
  | _ => ret []
  end.

(** *** setsize

    The elements with the indices [i] to [n1 - 1] of the table, with the files of
    big articles. *)
Definition drop_elem (i : Z) : MG unit :=
  v <- on_arr (elem i) ;;
  if v =? 0 then ret tt else
  t <- on_arr (type_at (v + sizeof_ulong)) ;;
  e <- on_arr (gete id) ;;
  (if t =? t_bigarticle then unlink (art_file (w64 (arrfst e + i))) else ret tt) ;;;
  on_arr (arr_nvfree v).
Fixpoint drop_elems (n : nat) (i : Z) : MG unit :=
  match n with O => ret tt | S n => drop_elem i ;;; drop_elems n (i + 1) end.

Definition nv_setsize (f l : Z) : MG unit :=
  alock ShrdLock ;;;
  e <- on_arr (gete id) ;;
  (if negb (f =? arrfst e) || negb (l =? arrlst e) then
     alock ExclLock ;;;
     e <- on_arr (gete id) ;;
     (if arrfst e <=? arrlst e then
        let n1 := s64 (f - arrfst e) in
        let n2 := s64 (arrlst e - arrfst e + 1) in
        drop_elems (Z.to_nat (if n2 <? n1 then n2 else n1)) 0 ;;;
        let i := Z.max 0 (s64 (l - arrfst e + 1)) in
        drop_elems (Z.to_nat (n2 - i)) i
      else ret tt) ;;;
     on_arr (ssetsize f l) ;;;
     alock UnLock
   else ret tt) ;;;
  alock UnLock.

(** *** Articles *)
Definition big_size : Z := 15360.

(** The elements that hold an article, or an overview record. *)
Definition elem_of (t : Z) (text : bytes) : bytes := cz t :: text ++ [NUL].

Definition nv_setarticle (fmt : OverviewFmt) (art : Article) : MG unit :=
  let nbr := w32 (a_nbr art) in
  alock ExclLock ;;;
  r <- on_arr (find_record nbr) ;;
  match r with
  | None => ret tt
  | Some d =>
      e <- on_arr (gete id) ;;
      let i := nbr - arrfst e in
      if a_length art <=? big_size then
        (match d with Some _ => on_arr (v <- elem i ;; arr_nvfree v) | None => ret tt end) ;;;
        on_arr (new_record i (elem_of t_article (a_text art)))
      else
        (** Where the record is; an article in the database is removed. *)
        d <- (match d with
              | None => ret None
              | Some (data, sz) =>
                  t <- on_arr (type_at data) ;;
                  if negb (t =? t_overview) && negb (t =? t_bigarticle)
                  then on_arr (v <- elem i ;; arr_nvfree v) ;;; ret None else ret (Some data)
              end) ;;
        data <- (match d with
                 | Some data => ret data
                 | None =>
                     over <- on_arr (convert_article fmt art) ;;
                     on_arr (new_record i (elem_of 0 over)) ;;;
                     v <- on_arr (elem i) ;; ret (v + sizeof_ulong)
                 end) ;;
        on_arr (stmem data [cz t_bigarticle]) ;;;
        write_file (art_file nbr) (a_text art) ;;;
        on_arr (stmem data [cz t_bigarticle])
  end ;;;
  alock UnLock.

(** *** Overview records *)
Definition nv_getover (fmt : OverviewFmt) (nbr : Z) : MG bytes :=
  alock ShrdLock ;;;
  r <- on_arr (find_record nbr) ;;
  o <- (match r with
        | Some (Some (data, sz)) => o <- on_arr (over_at fmt nbr data sz) ;; ret (default [] o)
        | _ => ret []
        end) ;;
  alock UnLock ;;;
  ret (cstr o).

Definition nv_setover (over : bytes) : MG unit :=
  let nbr := w64 (atoi (cstr over)) in
  alock ExclLock ;;;
  r <- on_arr (find_record nbr) ;;
  (match r with
   | Some None =>
       e <- on_arr (gete id) ;;
       on_arr (new_record (nbr - arrfst e) (elem_of t_overview over))
   | _ => ret tt
   end) ;;;
  alock UnLock.

(** readoverdb: the exception that ended it, if any, and the stream. *)
Fixpoint nv_readoverdb_loop (n : nat) (fmt : OverviewFmt) (ist : istream) (line1 : bytes) : MG (option exn * istream) :=
  match n with
  | O => spin
  | S n =>
      let '(line1, ist) := nlreadline ist line1 false in
      if bool_decide (line1 = bs ".") || s_eof ist then ret (None, ist) else
      r <- catch ((if dotrans fmt then line2 <- convert fmt line1 ;; nv_setover line2 else nv_setover line1) ;;; ret None)
             (fun e => ret (Some e)) ;;
      match r with Some e => ret (Some e, ist) | None => nv_readoverdb_loop n fmt ist line1 end
  end.
Definition nv_readoverdb (fmt : OverviewFmt) (ist : istream) : MG (option exn * istream) :=
  alock ExclLock ;;;
  r <- nv_readoverdb_loop (S (S (length (s_rest ist)))) fmt ist [] ;;
  match fst r with
  | Some _ => ret r
  | None =>
      x <- catch (on_arr (setmtime os_time false) ;;; alock UnLock ;;; ret None) (fun e => ret (Some e)) ;;
      ret (x, snd r)
  end.

(** *** Printing

    [i] and [l] are unsigned int: a loop up to the greatest number does not end. *)
Fixpoint print_range (n : nat) (one : Z -> M (obj array_ext) bytes) (i : Z) : M (obj array_ext) bytes :=
  match n with
  | O => ret []
  | S n => x <- one i ;; y <- print_range n one (i + 1) ;; ret (x ++ y)
  end.
Definition for_range (one : Z -> M (obj array_ext) bytes) (f l : Z) : MG bytes :=
  if 2 ^ 32 - 1 <=? l then spin else on_arr (print_range (Z.to_nat (l + 1 - f)) one f).

Definition nv_printover (fmt : OverviewFmt) (nbr : Z) : MG bytes :=
  alock ShrdLock ;;; o <- on_arr (sprintover fmt nbr) ;; alock UnLock ;;; ret o.

Definition nv_printoverdb (fmt : OverviewFmt) (f l : Z) : MG bytes :=
  alock ShrdLock ;;;
  e <- on_arr (gete id) ;;
  let f := if f <? arrfst e then w32 (arrfst e) else f in
  let l := if arrlst e <? l then w32 (arrlst e) else l in
  o <- for_range (sprintover fmt) f l ;;
  alock UnLock ;;;
  ret o.

Definition header_line_of (i : Z) (fld : M (obj array_ext) bytes) : M (obj array_ext) bytes :=
  catch (f <- fld ;; ret (dec i ++ bs " " ++ f ++ [CR; LF]))
    (fun e => match e with NoSuchFieldError _ => ret (dec i ++ bs " (none)" ++ [CR; LF]) | e => raise e end).
Definition print_header (fmt : OverviewFmt) (xheader : bytes) (i : Z) : M (obj array_ext) bytes :=
  r <- sget i ;;
  match r with
  | None => ret []
  | Some (data, sz) =>
      t <- type_at data ;;
      if t =? t_article then
        a <- article_at i data (w64 (sz - 1)) ;; header_line_of i (getfield xheader false a)
      else if (t =? t_bigarticle) || (t =? t_overview) then
        over <- text_at data ;; header_line_of i (over_getfield fmt over xheader 0)
      else ret []
  end.
Definition nv_printheaderdb (fmt : OverviewFmt) (header : bytes) (f l : Z) : MG bytes :=
  if (510 <? length header)%nat then abort "header longer than its buffer" else
  alock ShrdLock ;;;
  e <- on_arr (gete id) ;;
  let f := if f <? arrfst e then w32 (arrfst e) else f in
  let l := if arrlst e <? l then w32 (arrlst e) else l in
  o <- on_arr (print_range (Z.to_nat (l + 1 - f)) (print_header fmt (header ++ bs ":")) f) ;;
  alock UnLock ;;;
  ret o.

Definition nv_printlistgroup : MG bytes :=
  alock ShrdLock ;;;
  e <- on_arr (gete id) ;;
  o <- for_range (fun i => h <- shas_element i ;; ret (if (h : bool) then dec i ++ [CR; LF] else []))
         (w32 (arrfst e)) (arrlst e) ;;
  alock UnLock ;;;
  ret o.

(** testdb: what the assertions look for; the number of bad records. *)
Fixpoint testdb_loop (n : nat) (i : Z) : M (obj array_ext) Z :=
  match n with
  | O => ret 0
  | S n =>
      r <- sget i ;;
      bad <- (match r with
              | None => ret 0
              | Some (data, _) =>
                  t <- type_at data ;;
                  ret (if (t =? t_overview) || (t =? t_article) || (t =? t_bigarticle) then 0 else 1)
              end) ;;
      rest <- testdb_loop n (i + 1) ;;
      ret (bad + rest)
  end.
Definition testdb : MG Z :=
  alock ShrdLock ;;;
  e <- on_arr (gete id) ;;
  corr <- on_arr (testdb_loop (Z.to_nat (arrlst e + 1 - arrfst e)) (arrfst e)) ;;
  alock UnLock ;;;
  ret corr.
End with_os.

(** ** Articles that may have to be retrieved

    The group with what retrievearticle, which is virtual, works on.  The format is
    the one of the server. *)
Record ngw (S : Type) := NgW { w_srv : S; w_ng : NVNewsgroup }.
Arguments NgW {S} _ _. Arguments w_srv {S} _. Arguments w_ng {S} _.

Section world.
Context {os : Os} {S : Type}.
Variable fmt_of : S -> OverviewFmt.
Variable retrievearticle : Z -> M (ngw S) (option Article).
Abbreviation MW := (M (ngw S)).

Definition on_ng {A} (c : M NVNewsgroup A) : MW A := fun w =>
  match c (w_ng w) with
  | Ret a g => Ret a (NgW (w_srv w) g)
  | Throw e g => Throw e (NgW (w_srv w) g)
  | Abort x => Abort x
  | Spin => Spin
  end.
Definition on_server {A} (c : M S A) : MW A := fun w =>
  match c (w_srv w) with
  | Ret a s => Ret a (NgW s (w_ng w))
  | Throw e s => Throw e (NgW s (w_ng w))
  | Abort x => Abort x
  | Spin => Spin
  end.
Definition fmt : MW OverviewFmt := gets (fun w => fmt_of (w_srv w)).

(** [if ((art = retrievearticle(nbr)) != NULL) setarticle(art)] *)
Definition retrieve_and_set (nbr : Z) : MW (option Article) :=
  a <- retrievearticle nbr ;;
  (match a with Some art => f <- fmt ;; on_ng (nv_setarticle f art) | None => ret tt end) ;;;
  ret a.

(** The article in the file of a big one, where the file exists. *)
Definition read_big (nbr : Z) : MW (option Article) :=
  g <- gets w_ng ;;
  match dir_find (art_file nbr) (nv_dir g) with
  | None => ret None
  | Some text =>
      match a_read (IStream text false false) (MkArticle (s32 nbr) []) with
      | Some (a, _) => ret (Some a)
      | None => spin
      end
  end.

Definition nv_getarticle (nbr : Z) : MW (option Article) :=
  on_ng (alock ShrdLock) ;;;
  r <- on_ng (on_arr (find_record nbr)) ;;
  a <- (match r with
        | None => ret None
        | Some None => retrieve_and_set nbr
        | Some (Some (data, sz)) =>
            t <- on_ng (on_arr (type_at data)) ;;
            if t =? t_article then a <- on_ng (on_arr (article_at nbr data (w64 (sz - 2)))) ;; ret (Some a)
            else if t =? t_bigarticle then
              a <- read_big nbr ;;
              match a with Some a => ret (Some a) | None => retrieve_and_set nbr end
            else retrieve_and_set nbr
        end) ;;
  on_ng (alock UnLock) ;;;
  ret a.

(** printarticle; a file that is missing reads as the empty article. *)
Definition nv_printarticle (nbr : Z) : MW bytes :=
  on_ng (alock ShrdLock) ;;;
  r <- on_ng (on_arr (find_record nbr)) ;;
  t <- (match r with
        | Some (Some (data, sz)) =>
            t <- on_ng (on_arr (type_at data)) ;;
            if t =? t_article then on_ng (on_arr (text_at data))
            else if t =? t_bigarticle then
              a <- read_big nbr ;; ret (match a with Some a => a_text a | None => [] end)
            else
              a <- retrieve_and_set nbr ;;
              match a with Some a => ret (a_text a) | None => abort "null pointer" end
        | _ => ret []
        end) ;;
  on_ng (alock UnLock) ;;;
  ret t.
End world.
