(* ===== verification/NgLaws.v ===== *)
(** * NgLaws.v: what a cached newsgroup keeps

    The operations of NVNewsgroup.v on the records of a group: an overview record or
    an article that was stored is found again. *)
From S2P Require Import Prelude Memory Text Container Heap Alloc ContainerSpec Article OverviewFmt.
From S2P Require Import GroupInfo.
From S2P Require Import NVlist Records.
From S2P Require Import NVHash.
From S2P Require Import NVArray.
From S2P Require Import ArrayLaws.
From S2P Require Import ArrayMap.
From S2P Require Import NVNewsgroup.

(** The records of the group, from the number [f] on. *)
Definition ngroup {os : Os} (f : Z) (recs : list (option bytes)) (g : NVNewsgroup) : Prop := nvarray f recs (nv_arr g).
(** [n] places are left on the lock stack, and [room] bytes in the file. *)
Record ready {os : Os} (n : nat) (room : Z) (g : NVNewsgroup) : Prop := {
  rd_locks : lock_ok (core (nv_arr g));
  rd_places : (n <= lck_stackp (core (nv_arr g)))%nat;
  rd_room : mem_sz (core (nv_arr g)) + room + 2 ^ 19 <= limit
}.
Definition in_range (f : Z) (recs : list (option bytes)) (nbr : Z) : bool := (f <=? nbr) && (nbr <? f + len recs).
Definition put (f : Z) (recs : list (option bytes)) (nbr : Z) (d : bytes) : list (option bytes) :=
  if in_range f recs nbr then <[Z.to_nat (nbr - f) := Some d]> recs else recs.

Section rules.
Context {os : Os} {Hos : OsOk os}.
Implicit Types g : NVNewsgroup.

Definition with_arr (s : obj array_ext) (g : NVNewsgroup) : NVNewsgroup := NVNg s (nv_name g) (nv_dir g).

Lemma wp_on_arr {A} (c : M (obj array_ext) A) (Q : A -> NVNewsgroup -> Prop) g :
  wp c (fun a s => Q a (with_arr s g)) (nv_arr g) -> wp (on_arr c) Q g.
Proof. unfold wp, on_arr, with_arr. by destruct (c (nv_arr g)). Qed.

(** *** The parts of a record *)
Lemma wp_find_record bl t f es recs nbr (Q : option (option (Z * Z)) -> obj array_ext -> Prop) s :
  nvarr_in bl t f es s -> Forall2 holds es recs ->
  (in_range f recs nbr = false -> Q None s) ->
  (forall j, nbr = f + Z.of_nat j -> in_range f recs nbr = true ->
     (es !! j = Some Free -> recs !! j = Some None -> Q (Some None) s) /\
     (forall o d, es !! j = Some (Rec o d) -> recs !! j = Some (Some d) -> Q (Some (Some (o + 8, len d))) s)) ->
  wp (find_record nbr) Q s.
Proof.
  intros Hn Hh Hout Hin. unfold find_record. mstep. apply wp_gets. unfold id. rewrite (na_ext _ _ _ _ _ Hn).
  cbn [arrfst arrlst members]. unfold in_range in *. rewrite <- (Forall2_length _ _ _ Hh) in *.
  destruct (Z.leb_spec f nbr) as [H1|H1]; cbn [andb] in *; [|apply wp_ret; by apply Hout].
  destruct (Z.leb_spec nbr (f + len es - 1)) as [H2|H2].
  - destruct (Z.ltb_spec nbr (f + len es)); [|lia].
    destruct (Hin (Z.to_nat (nbr - f))) as [Hfree Hrec]; [lia|done|].
    destruct (lookup_lt_is_Some_2 recs (Z.to_nat (nbr - f))) as [r Hr]; [rewrite <- (Forall2_length _ _ _ Hh); lia|].
    destruct (holds_lookup _ _ _ _ Hh Hr) as (e & He & Hhr & Hs). mstep.
    replace nbr with (f + Z.of_nat (Z.to_nat (nbr - f))) by lia. eapply wp_sget_in; [exact Hn|exact He|done|].
    apply wp_ret. destruct e as [|o d|]; [| |done].
    + destruct r; [done|]. by apply Hfree.
    + destruct r as [d'|]; [|done]. cbn in Hhr. subst d'. by apply Hrec.
  - destruct (Z.ltb_spec nbr (f + len es)); [lia|]. apply wp_ret. by apply Hout.
Qed.

(** The bytes of a record can be read. *)
Lemma rec_ready bl t f es j o d s : nvarr_in bl t f es s -> es !! j = Some (Rec o d) ->
  mem_p (core s) = Mapped /\ 0 <= o /\ o + 8 + len d <= mem_sz (core s) /\
  ldn (data (core s)) (o + 8) (length d) = d /\ mem_sz (core s) < limit.
Proof.
  intros Hn Hj. destruct (entry_block _ _ _ _ _ _ _ _ Hn Hj) as (b & _ & _ & _ & ? & ? & ? & _ & _ & Hd).
  destruct (nvarr_tiles _ _ _ _ _ Hn) as (_ & ? & Hc). split_and!; [apply Hc|lia|lia|done|done].
Qed.

Lemma wp_type_at bl t f es j o c d (Q : Z -> obj array_ext -> Prop) s :
  nvarr_in bl t f es s -> es !! j = Some (Rec o (c :: d)) -> Q (zc c) s -> wp (type_at (o + 8)) Q s.
Proof.
  intros Hn Hj HQ. destruct (rec_ready _ _ _ _ _ _ _ _ Hn Hj) as (Hm & ? & ? & Hd & ?). unfold type_at. mstep.
  rewrite <- (upd_self s). cbn [length] in *. apply wp_ldmem; [split_and!; [done|lia|lia]|]. rewrite upd_self. mstep.
  cbn [ldn] in Hd. injection Hd as Hc _. change (Z.to_nat 1) with 1%nat. cbn [ldn]. by rewrite Hc.
Qed.

Lemma wp_text_at bl t f es j o c x r (Q : bytes -> obj array_ext -> Prop) s :
  nvarr_in bl t f es s -> es !! j = Some (Rec o (c :: x ++ NUL :: r)) -> NUL ∉ x -> Q x s ->
  wp (text_at (o + 8)) Q s.
Proof.
  intros Hn Hj Hx HQ. destruct (rec_ready _ _ _ _ _ _ _ _ Hn Hj) as (Hm & ? & Hsz & Hd & ?).
  pose proof (ldn_sub _ _ _ 1 (S (length x)) Hd) as E.
  cbn [length] in *. rewrite length_app in *. cbn [length] in *. specialize (E ltac:(lia)).
  change (drop 1 (c :: x ++ NUL :: r)) with (x ++ NUL :: r) in E.
  rewrite take_app_ge in E by lia. replace (S (length x) - length x)%nat with 1%nat in E by lia.
  cbn [take] in E. change (Z.of_nat 1) with 1 in E.
  assert (ldstr (data (core s)) (o + 8 + 1) (Z.to_nat (mem_sz (core s) - (o + 8 + 1))) = x) as Es.
  { apply ldstr_ldn; [exact E|done|lia]. }
  unfold text_at, ldcstr. mstep. apply wp_getc. unfold id. rewrite Es.
  unfold in_map. rewrite bool_decide_eq_true_2 by done.
  destruct (Z.leb_spec 0 (o + 8 + 1)); [|lia].
  destruct (Z.leb_spec (o + 8 + 1 + (len x + 1)) (mem_sz (core s))); [|lia].
  cbn [andb guard]. by repeat mstep.
Qed.

Lemma wp_article_at bl t f es j o c x r nbr (Q : Article -> obj array_ext -> Prop) s :
  nvarr_in bl t f es s -> es !! j = Some (Rec o (c :: x ++ r)) -> Q (MkArticle (s32 nbr) x) s ->
  wp (article_at nbr (o + 8) (len x)) Q s.
Proof.
  intros Hn Hj HQ. destruct (rec_ready _ _ _ _ _ _ _ _ Hn Hj) as (Hm & ? & Hsz & Hd & ?).
  pose proof (ldn_sub _ _ _ 1 (length x) Hd) as E. cbn [length] in *. rewrite length_app in *.
  specialize (E ltac:(lia)). change (drop 1 (c :: x ++ r)) with (x ++ r) in E. rewrite take_app_length in E. change (Z.of_nat 1) with 1 in E.
  unfold article_at. mstep. rewrite <- (upd_self s). apply wp_ldmem; [split_and!; [done|lia|lia]|].
  rewrite upd_self, Nat2Z.id, E. by mstep.
Qed.

(** *** Locks *)
Lemma wp_alock l bl t f es n room (Q : unit -> NVNewsgroup -> Prop) g :
  l <> UnLock -> nvarr_in bl t f es (nv_arr g) -> ready (S n) room g ->
  (forall s', nvarr_in bl t f es s' -> ready n room (with_arr s' g) ->
     core s' = push_lock (effective l (core (nv_arr g))) (core (nv_arr g)) -> Q tt (with_arr s' g)) ->
  wp (alock l) Q g.
Proof.
  intros Hl Hn [Hlk Hp Hr] HQ. apply wp_on_arr. eapply wp_arr_lock; [done|exact Hn|done|lia|].
  intros s1 Hn1 E1 Hlk1. apply HQ; [done| |done]. split; cbn [with_arr nv_arr]; [done|rewrite E1; cbn; lia|by rewrite E1].
Qed.

Lemma wp_aunlock l bl t f es n room (Q : unit -> NVNewsgroup -> Prop) g0 g :
  nvarr_in bl t f es (nv_arr g) -> ready (S n) room g0 ->
  same_locks (push_lock l (core (nv_arr g0))) (core (nv_arr g)) ->
  (forall s', nvarr_in bl t f es s' -> same_locks (core (nv_arr g0)) (core s') ->
     mem_sz (core s') = mem_sz (core (nv_arr g)) -> Q tt (with_arr s' g)) ->
  wp (alock UnLock) Q g.
Proof.
  intros Hn [Hlk Hp _] Hl HQ. apply wp_on_arr.
  eapply (wp_arr_unlock l _ _ _ _ _ (nv_arr g0)); [exact Hn|done|lia|exact Hl|]. intros s1 Hn1 Hl1 Hm1 _. by apply HQ.
Qed.

Lemma ready_after n room room' g g' : ready n room g -> same_locks (core (nv_arr g)) (core (nv_arr g')) ->
  mem_sz (core (nv_arr g')) + room' <= mem_sz (core (nv_arr g)) + room -> ready n room' g'.
Proof.
  intros [Hlk Hp Hr] Hl Hm. split; [by eapply lock_ok_same|by rewrite (sl_sp _ _ Hl)|lia].
Qed.

(** Storing a record where there is none. *)
Lemma wp_store_new bl t f es recs j d n room (Q : unit -> NVNewsgroup -> Prop) g :
  nvarr_in bl t f es (nv_arr g) -> Forall2 holds es recs -> (j < length es)%nat ->
  (forall o d, es !! j <> Some (Rec o d)) -> ready (S (S n)) room g -> len d <= room ->
  (forall bl' es' s', nvarr_in bl' t f es' s' -> Forall2 holds es' (<[j := Some d]> recs) ->
     (exists o, es' !! j = Some (Rec o d)) -> same_locks (core (nv_arr g)) (core s') ->
     mem_sz (core s') <= mem_sz (core (nv_arr g)) + len d + 2 ^ 18 -> Q tt (with_arr s' g)) ->
  wp (on_arr (e <- gete id ;; new_record (f + Z.of_nat j - arrfst e) d)) Q g.
Proof.
  intros Hn Hh Hj Hno [Hlk Hp Hr] Hd HQ. apply wp_on_arr. mstep. apply wp_gets. unfold id.
  rewrite (na_ext _ _ _ _ _ Hn). cbn [arrfst members]. replace (f + Z.of_nat j - f) with (Z.of_nat j) by lia.
  eapply wp_new_record; [exact Hn|done|done|done|lia|layout; lia|]. intros bl' o s' Hn' Hl' Hm'.
  eapply HQ; [exact Hn'|by apply holds_insert| |done|done]. exists o. by apply list_lookup_insert_eq.
Qed.
End rules.

(** ** Overview records *)
Section over.
Context {os : Os} {Hos : OsOk os}.
Implicit Types g : NVNewsgroup.

(** What setover makes of the records. *)
Definition over_added (f : Z) (recs : list (option bytes)) (over : bytes) : list (option bytes) :=
  let nbr := w64 (atoi (cstr over)) in
  match at_index f recs nbr with Some _ => recs | None => put f recs nbr (elem_of t_overview over) end.

Lemma at_index_nat f recs j r : recs !! j = Some r -> at_index f recs (f + Z.of_nat j) = r.
Proof.
  intros Hj. unfold at_index. destruct (Z.leb_spec f (f + Z.of_nat j)); [|lia].
  replace (Z.to_nat (f + Z.of_nat j - f)) with j by lia. by rewrite Hj.
Qed.
Lemma put_nat f recs j d : in_range f recs (f + Z.of_nat j) = true -> put f recs (f + Z.of_nat j) d = <[j := Some d]> recs.
Proof. intros H. unfold put. rewrite H. by replace (Z.to_nat (f + Z.of_nat j - f)) with j by lia. Qed.
Lemma put_out f recs nbr d : in_range f recs nbr = false -> put f recs nbr d = recs.
Proof. intros H. unfold put. by rewrite H. Qed.
Lemma length_recs_put f recs nbr d : length (put f recs nbr d) = length recs.
Proof. unfold put. destruct (in_range _ _ _); [by rewrite length_insert|done]. Qed.

Lemma wp_nv_setover f recs over n (Q : unit -> NVNewsgroup -> Prop) g :
  ngroup f recs g -> ready (S (S (S n))) (len over + 2) g ->
  (forall s', ngroup f (over_added f recs over) (with_arr s' g) ->
     same_locks (core (nv_arr g)) (core s') ->
     mem_sz (core s') <= mem_sz (core (nv_arr g)) + (len over + 2) + 2 ^ 18 -> Q tt (with_arr s' g)) ->
  wp (nv_setover over) Q g.
Proof.
  intros (bl & t & es & Hn & Hh) Hr HQ. unfold nv_setover, over_added in *. set (nbr := w64 (atoi (cstr over))) in *.
  mstep. eapply wp_alock; [done|exact Hn|exact Hr|]. intros s1 Hn1 Hr1 E1. mstep.
  assert (forall bl' es' recs' s2, nvarr_in bl' t f es' s2 -> Forall2 holds es' recs' ->
    recs' = match at_index f recs nbr with Some _ => recs | None => put f recs nbr (elem_of t_overview over) end ->
    same_locks (core s1) (core s2) -> mem_sz (core s2) <= mem_sz (core s1) + (len over + 2) + 2 ^ 18 ->
    wp (alock UnLock) Q (with_arr s2 g)) as Hend.
  { intros bl' es' recs' s2 Hn2 Hh2 -> Hl2 Hm2. rewrite E1 in Hl2, Hm2.
    eapply (wp_aunlock _ _ _ _ _ _ _ _ g); [exact Hn2|exact Hr|exact Hl2|]. intros s3 Hn3 Hl3 Hm3.
    apply HQ; [by exists bl', t, es'|done|]. rewrite Hm3. exact Hm2. }
  apply wp_on_arr. eapply wp_find_record; [exact Hn1|exact Hh| |].
  - intros Hout. mstep. apply wp_ret. eapply Hend; [exact Hn1|exact Hh| |apply same_locks_refl|cbn; lia].
    rewrite put_out by done. by destruct (at_index f recs nbr).
  - intros j -> Hin. pose proof Hin as Hj. unfold in_range in Hj. rewrite <- (Forall2_length _ _ _ Hh) in Hj.
    apply andb_true_iff in Hj as [_ Hj]. apply Z.ltb_lt in Hj. split.
    + intros He Hrj. mstep. mstep. unfold with_arr. cbn [nv_arr nv_name nv_dir].
      assert (wp (on_arr (e <- gete id ;; new_record (f + Z.of_nat j - arrfst e) (elem_of t_overview over)))
        (fun _ g2 => wp (alock UnLock) Q g2) (with_arr s1 g)) as H.
      { eapply wp_store_new; [exact Hn1|exact Hh|lia| |exact Hr1| |].
        - intros o d. congruence.
        - unfold elem_of. cbn [length]. rewrite length_app. cbn. lia.
        - intros bl' es' s2 Hn2 Hh2 _ Hl2 Hm2. change (with_arr s2 (with_arr s1 g)) with (with_arr s2 g).
          eapply Hend; [exact Hn2|exact Hh2| |exact Hl2|].
          + rewrite (at_index_nat _ _ _ _ Hrj). by rewrite put_nat.
          + cbn [with_arr nv_arr] in Hm2. unfold elem_of in Hm2. cbn [length] in Hm2. rewrite length_app in Hm2. cbn [length] in Hm2. lia. }
      exact H.
    + intros o d He Hrj. mstep. apply wp_ret. eapply Hend; [exact Hn1|exact Hh| |apply same_locks_refl|cbn; lia].
      by rewrite (at_index_nat _ _ _ _ Hrj).
Qed.

(** The text of a record ends at its first NUL. *)
Lemma cstr_split text : exists r, text ++ [NUL] = cstr text ++ NUL :: r /\ NUL ∉ cstr text.
Proof.
  unfold cstr. induction text as [|c text (r & E & Hn)]; [exists []; split; [done|apply not_elem_of_nil]|].
  cbn [app take_while]. destruct (Z.eqb_spec (zc c) 0) as [Ez|Ez]; cbn [negb].
  - assert (c = NUL) as -> by (by rewrite <- (cz_zc c), Ez). exists (text ++ [NUL]). split; [done|apply not_elem_of_nil].
  - exists r. split; [by rewrite E|]. apply not_elem_of_cons. split; [|done]. by intros <-.
Qed.

Definition record_type (d : bytes) : Z := zc (at_ d 0).
Definition over_type (t : Z) : Prop := t = t_overview \/ t = t_bigarticle.

Lemma wp_nv_getover fmt f recs nbr n room (Q : bytes -> NVNewsgroup -> Prop) g :
  ngroup f recs g -> ready (S n) room g ->
  (forall d, at_index f recs nbr = Some d -> exists t x, d = elem_of t x /\ over_type t) ->
  (forall s', ngroup f recs (with_arr s' g) -> same_locks (core (nv_arr g)) (core s') ->
     mem_sz (core s') = mem_sz (core (nv_arr g)) ->
     Q (match at_index f recs nbr with Some d => cstr (drop 1 d) | None => [] end) (with_arr s' g)) ->
  wp (nv_getover fmt nbr) Q g.
Proof.
  intros (bl & t & es & Hn & Hh) Hr Hty HQ. unfold nv_getover. mstep.
  eapply wp_alock; [done|exact Hn|exact Hr|]. intros s1 Hn1 Hr1 E1. mstep.
  assert (forall o, cstr o = match at_index f recs nbr with Some d => cstr (drop 1 d) | None => [] end ->
    wp (alock UnLock ;;; ret (cstr o)) Q (with_arr s1 g)) as Hend.
  { intros o Ho. mstep. eapply (wp_aunlock _ _ _ _ _ _ _ _ g);
      [exact Hn1|exact Hr|cbn [with_arr nv_arr]; rewrite E1; apply same_locks_refl|].
    intros s3 Hn3 Hl3 Hm3. mstep. rewrite Ho. apply HQ; [by exists bl, t, es|done|]. rewrite Hm3. cbn. by rewrite E1. }
  apply wp_on_arr. eapply wp_find_record; [exact Hn1|exact Hh| |].
  - intros Hout. mstep. apply wp_ret. apply Hend. destruct (at_index f recs nbr) as [d|] eqn:E; [|done].
    destruct (at_index_cases f es recs nbr Hh) as [(j & e & r & -> & He & Hr2 & _)|[_ ?]]; [|congruence].
    unfold in_range in Hout. pose proof (lookup_lt_Some _ _ _ Hr2).
    destruct (Z.leb_spec f (f + Z.of_nat j)); [|lia]. destruct (Z.ltb_spec (f + Z.of_nat j) (f + len recs)); [done|lia].
  - intros j -> Hin. split.
    + intros He Hrj. mstep. apply wp_ret. apply Hend. by rewrite (at_index_nat _ _ _ _ Hrj).
    + intros o d He Hrj. pose proof (at_index_nat f _ _ _ Hrj) as Hd. destruct (Hty d Hd) as (ty & x & -> & Htyp).
      destruct (cstr_split x) as (r & Ex & Hx). unfold elem_of in *. do 2 mstep. apply wp_on_arr. unfold over_at. mstep.
      eapply wp_type_at; [exact Hn1|exact He|].
      assert (zc (cz ty) = ty) as -> by (by destruct Htyp as [->| ->]).
      assert ((ty =? t_article) = false /\ ((ty =? t_bigarticle) || (ty =? t_overview)) = true) as [-> ->]
        by (by destruct Htyp as [->| ->]).
      mstep. rewrite Ex in He. eapply wp_text_at; [exact Hn1|exact He|done|]. mstep. mstep. apply Hend.
      rewrite Hd. change (drop 1 (cz ty :: x ++ [NUL])) with (x ++ [NUL]). rewrite Ex, cstr_app by done.
      by apply cstr_all.
Qed.

(** The record a number has after setover. *)
Lemma over_added_at f recs over : let nbr := w64 (atoi (cstr over)) in in_range f recs nbr = true ->
  at_index f (over_added f recs over) nbr =
    Some (match at_index f recs nbr with Some d => d | None => elem_of t_overview over end).
Proof.
  intros nbr Hin. unfold over_added. fold nbr. destruct (at_index f recs nbr) as [d|] eqn:E; [done|].
  unfold put. rewrite Hin. unfold in_range in Hin. apply andb_true_iff in Hin as [H1 H2].
  unfold at_index. rewrite H1. apply Z.leb_le in H1. apply Z.ltb_lt in H2. by rewrite list_lookup_insert_eq by lia.
Qed.

(** C27: what setover stores under the number in front of an overview line getover
    returns for this number; a record that is there already, be it the overview of an
    article that was stored, is not replaced. *)
Theorem overview_roundtrip fmt f recs over g : let nbr := w64 (atoi (cstr over)) in
  ngroup f recs g -> ready 4 (len over + 2 ^ 19) g -> in_range f recs nbr = true ->
  (forall d, at_index f recs nbr = Some d -> exists t x, d = elem_of t x /\ over_type t) ->
  wp (nv_setover over ;;; nv_getover fmt nbr)
    (fun o g' => o = match at_index f recs nbr with Some d => cstr (drop 1 d) | None => cstr over end /\
       ngroup f (over_added f recs over) g' /\ nv_dir g' = nv_dir g /\
       same_locks (core (nv_arr g)) (core (nv_arr g'))) g.
Proof.
  intros nbr Hg Hr Hin Hty. mstep. eapply (wp_nv_setover _ _ _ 1); [exact Hg|eapply ready_after; [exact Hr|apply same_locks_refl|lia]|].
  intros s1 Hg1 Hl1 Hm1.
  assert (at_index f (over_added f recs over) nbr =
    Some (match at_index f recs nbr with Some d => d | None => elem_of t_overview over end)) as Hat
    by (by apply over_added_at).
  eapply (wp_nv_getover _ _ _ _ 3 0); [exact Hg1|eapply ready_after; [exact Hr|exact Hl1|cbn [with_arr nv_arr]; lia]| |].
  - intros d. rewrite Hat. intros [= <-]. destruct (at_index f recs nbr) as [d|] eqn:E; [by apply Hty|].
    exists t_overview, over. split; [done|by left].
  - intros s2 Hg2 Hl2 _. rewrite Hat. split_and!; [|exact Hg2|done|by eapply same_locks_trans].
    destruct (at_index f recs nbr); [done|]. unfold elem_of. change (drop 1 (cz t_overview :: ?x)) with x.
    apply cstr_app_nul.
Qed.
End over.

(** ** Articles in the database *)
Section article.
Context {os : Os} {Hos : OsOk os}.
Implicit Types g : NVNewsgroup.

(** Replacing a record. *)
Lemma wp_replace bl t f es recs j d n room (Q : unit -> NVNewsgroup -> Prop) g :
  nvarr_in bl t f es (nv_arr g) -> Forall2 holds es recs -> (j < length es)%nat ->
  ready (S (S n)) room g -> len d <= room ->
  (forall bl' es' s', nvarr_in bl' t f es' s' -> Forall2 holds es' (<[j := Some d]> recs) ->
     same_locks (core (nv_arr g)) (core s') ->
     mem_sz (core s') <= mem_sz (core (nv_arr g)) + len d + 2 ^ 18 -> Q tt (with_arr s' g)) ->
  wp (on_arr (arr_sset (Z.of_nat j) d)) Q g.
Proof.
  intros Hn Hh Hj [Hlk Hp Hr] Hd HQ.
  destruct (lookup_lt_is_Some_2 recs j) as [r Hrj]; [by rewrite <- (Forall2_length _ _ _ Hh)|].
  destruct (holds_lookup _ _ _ _ Hh Hrj) as (e & He & _ & Hs).
  apply wp_on_arr. eapply wp_arr_sset; [exact Hn|exact He|done|done|lia|layout; lia|]. intros bl' o s' Hn' Hl' Hm'.
  eapply HQ; [exact Hn'|by apply holds_insert|done|done].
Qed.

(** setarticle of an article that goes into the database is sset. *)
Lemma free_then_new (i : Z) (r : bool) d (Q : unit -> NVNewsgroup -> Prop) g :
  wp (on_arr (elem i)) (fun v g' => (v =? 0) = negb r /\ g' = g) g ->
  wp (on_arr (arr_sset i d)) Q g ->
  wp ((if r then on_arr (v <- elem i ;; arr_nvfree v) else ret tt) ;;; on_arr (new_record i d)) Q g.
Proof.
  destruct g as [s nm dir], r; unfold wp, on_arr, arr_sset, bind, ret; cbn [nv_arr nv_name nv_dir];
    destruct (elem i s) as [v s1| | |]; try done; intros [Hv [= ->]]; rewrite Hv; cbn [negb nv_arr nv_name nv_dir]; [|done].
  by destruct (arr_nvfree v s) as [[] s2| | |].
Qed.

Lemma wp_elem_zero bl t f es recs j g : nvarr_in bl t f es (nv_arr g) -> Forall2 holds es recs -> (j < length es)%nat ->
  wp (on_arr (elem (Z.of_nat j))) (fun v g' => (v =? 0) = negb (is_some (at_index f recs (f + Z.of_nat j))) /\ g' = g) g.
Proof.
  intros Hn Hh Hj. destruct (lookup_lt_is_Some_2 recs j) as [r Hrj]; [by rewrite <- (Forall2_length _ _ _ Hh)|].
  destruct (holds_lookup _ _ _ _ Hh Hrj) as (e & He & Hhr & Hs). rewrite (at_index_nat _ _ _ _ Hrj).
  apply wp_on_arr. eapply wp_elem; [exact Hn|exact He|]. intros Hw. split; [|by destruct g].
  destruct e as [|o d|]; [| |done].
  - change (word t j (nv_arr g) = 0) in Hw. rewrite Hw. by destruct r.
  - destruct (entry_block _ _ _ _ _ _ _ _ Hn He) as (b & _ & _ & _ & ? & _ & _ & -> & _). destruct r; [|done].
    cbn [is_some negb]. apply Z.eqb_neq. lia.
Qed.

Lemma wp_nv_setarticle_small fmt f recs art n (Q : unit -> NVNewsgroup -> Prop) g :
  ngroup f recs g -> ready (S (S (S n))) (a_length art + 2) g -> a_length art <= big_size ->
  (forall s', ngroup f (put f recs (w32 (a_nbr art)) (elem_of t_article (a_text art))) (with_arr s' g) ->
     same_locks (core (nv_arr g)) (core s') ->
     mem_sz (core s') <= mem_sz (core (nv_arr g)) + (a_length art + 2) + 2 ^ 18 -> Q tt (with_arr s' g)) ->
  wp (nv_setarticle fmt art) Q g.
Proof.
  intros (bl & t & es & Hn & Hh) Hr Hsmall HQ. unfold nv_setarticle. set (nbr := w32 (a_nbr art)) in *.
  mstep. eapply wp_alock; [done|exact Hn|exact Hr|]. intros s1 Hn1 Hr1 E1. mstep.
  assert (len (elem_of t_article (a_text art)) = a_length art + 2) as Hlen.
  { unfold elem_of, a_length. cbn [length]. rewrite length_app. cbn [length]. lia. }
  assert (forall bl' es' recs' s2, nvarr_in bl' t f es' s2 -> Forall2 holds es' recs' ->
    recs' = put f recs nbr (elem_of t_article (a_text art)) ->
    same_locks (core s1) (core s2) -> mem_sz (core s2) <= mem_sz (core s1) + (a_length art + 2) + 2 ^ 18 ->
    wp (alock UnLock) Q (with_arr s2 g)) as Hend.
  { intros bl' es' recs' s2 Hn2 Hh2 -> Hl2 Hm2. rewrite E1 in Hl2, Hm2.
    eapply (wp_aunlock _ _ _ _ _ _ _ _ g); [exact Hn2|exact Hr|exact Hl2|]. intros s3 Hn3 Hl3 Hm3.
    apply HQ; [by exists bl', t, es'|done|]. rewrite Hm3. exact Hm2. }
  apply wp_on_arr. eapply wp_find_record; [exact Hn1|exact Hh| |].
  { intros Hout. mstep. apply wp_ret. eapply Hend; [exact Hn1|exact Hh| |apply same_locks_refl|unfold a_length; cbn [with_arr nv_arr]; lia].
    by rewrite put_out. }
  intros j -> Hin. pose proof Hin as Hj. unfold in_range in Hj. rewrite <- (Forall2_length _ _ _ Hh) in Hj.
  apply andb_true_iff in Hj as [_ Hj]. apply Z.ltb_lt in Hj.
  assert (wp (on_arr (arr_sset (Z.of_nat j) (elem_of t_article (a_text art)))) (fun _ g2 => wp (alock UnLock) Q g2)
    (with_arr s1 g)) as Hset.
  { eapply wp_replace; [exact Hn1|exact Hh|lia|exact Hr1|lia|]. intros bl' es' s2 Hn2 Hh2 Hl2 Hm2.
    change (with_arr s2 (with_arr s1 g)) with (with_arr s2 g).
    eapply Hend; [exact Hn2|exact Hh2|by rewrite put_nat|exact Hl2|]. cbn [with_arr nv_arr] in Hm2. lia. }
  pose proof (wp_elem_zero _ _ _ _ _ j (with_arr s1 g) Hn1 Hh ltac:(lia)) as Hz.
  assert (forall A : Z -> M NVNewsgroup unit, wp (A (Z.of_nat j)) (fun _ g2 => wp (alock UnLock) Q g2) (with_arr s1 g) ->
    forall B : array_ext -> M NVNewsgroup unit, wp (e <- on_arr (gete id) ;; if a_length art <=? big_size then A (f + Z.of_nat j - arrfst e) else B e)
      (fun _ g2 => wp (alock UnLock) Q g2) (with_arr s1 g)) as Hsmall'.
  { intros A HA B. mstep. apply wp_on_arr, wp_gets. unfold id. cbn [with_arr nv_arr].
    rewrite (na_ext _ _ _ _ _ Hn1). cbn [arrfst members]. destruct (Z.leb_spec (a_length art) big_size); [|lia].
    by replace (f + Z.of_nat j - f) with (Z.of_nat j) by lia. }
  split.
  - intros He Hrj. rewrite (at_index_nat _ _ _ _ Hrj) in Hz. mstep.
    eapply (Hsmall' (fun i => ret tt ;;; on_arr (new_record i (elem_of t_article (a_text art))))). by apply (free_then_new _ false).
  - intros o d He Hrj. rewrite (at_index_nat _ _ _ _ Hrj) in Hz. mstep.
    eapply (Hsmall' (fun i => on_arr (v <- elem i ;; arr_nvfree v) ;;; on_arr (new_record i (elem_of t_article (a_text art))))). by apply (free_then_new _ true).
Qed.

Lemma put_at f recs nbr d : in_range f recs nbr = true -> at_index f (put f recs nbr d) nbr = Some d.
Proof.
  intros Hin. unfold put. rewrite Hin. unfold in_range in Hin. apply andb_true_iff in Hin as [H1 H2].
  unfold at_index. rewrite H1. apply Z.leb_le in H1. apply Z.ltb_lt in H2. by rewrite list_lookup_insert_eq by lia.
Qed.
Lemma put_other f recs nbr d k : k <> nbr -> f <= nbr -> at_index f (put f recs nbr d) k = at_index f recs k.
Proof.
  intros Hk Hn. unfold put. destruct (in_range _ _ _); [|done]. unfold at_index.
  destruct (Z.leb_spec f k); [|done]. by rewrite list_lookup_insert_ne by lia.
Qed.
Lemma in_range_put f recs nbr d k : in_range f (put f recs nbr d) k = in_range f recs k.
Proof. unfold in_range. by rewrite length_recs_put. Qed.
Lemma in_range_true f recs nbr : in_range f recs nbr = true <-> f <= nbr < f + len recs.
Proof. unfold in_range. rewrite andb_true_iff, Z.leb_le, Z.ltb_lt. tauto. Qed.
End article.

Section world.
Context {os : Os} {Hos : OsOk os} {S : Type}.
Variable fmt_of : S -> OverviewFmt.
Variable retrievearticle : Z -> M (ngw S) (option Article).

Lemma wp_on_ng {A} (c : M NVNewsgroup A) (Q : A -> ngw S -> Prop) w :
  wp c (fun a g => Q a (NgW (w_srv w) g)) (w_ng w) -> wp (on_ng c) Q w.
Proof. unfold wp, on_ng. by destruct (c (w_ng w)). Qed.

(** An article that is in the database is not retrieved again. *)
Lemma wp_nv_getarticle_stored f recs nbr text n room (Q : option Article -> ngw S -> Prop) w :
  ngroup f recs (w_ng w) -> ready (Datatypes.S n) room (w_ng w) -> len text + 2 < 2 ^ 64 ->
  at_index f recs nbr = Some (elem_of t_article text) ->
  (forall s', ngroup f recs (with_arr s' (w_ng w)) -> same_locks (core (nv_arr (w_ng w))) (core s') ->
     mem_sz (core s') = mem_sz (core (nv_arr (w_ng w))) ->
     Q (Some (MkArticle (s32 nbr) text)) (NgW (w_srv w) (with_arr s' (w_ng w)))) ->
  wp (nv_getarticle fmt_of retrievearticle nbr) Q w.
Proof.
  intros (bl & t & es & Hn & Hh) Hr Hsz Hat HQ. unfold nv_getarticle. mstep. apply wp_on_ng.
  eapply wp_alock; [done|exact Hn|exact Hr|]. intros s1 Hn1 Hr1 E1. mstep. apply wp_on_ng, wp_on_arr.
  destruct (at_index_cases f es recs nbr Hh) as [(j & e & r & -> & He & Hrj & Hhr & Hs & E)|[_ ?]]; [|congruence].
  rewrite Hat in E. subst r. destruct e as [|o d|]; [done| |done]. cbn in Hhr. subst d.
  pose proof (lookup_lt_Some _ _ _ Hrj).
  eapply wp_find_record; [exact Hn1|exact Hh| |].
  { intros Hout. assert (in_range f recs (f + Z.of_nat j) = true) by (apply in_range_true; lia). congruence. }
  intros j' Ej _. assert (j' = j) as -> by lia. split; [congruence|]. intros o' d' He' _.
  rewrite He in He'. injection He' as <- <-. do 2 mstep. apply wp_on_ng, wp_on_arr.
  eapply wp_type_at; [exact Hn1|exact He|]. change (zc (cz t_article) =? t_article) with true. cbn match. mstep.
  apply wp_on_ng, wp_on_arr. replace (w64 (len (elem_of t_article text) - 2)) with (len text).
  2: { unfold elem_of. cbn [length]. rewrite length_app. cbn [length]. rewrite w64_small by lia. lia. }
  eapply wp_article_at; [exact Hn1|exact He|]. mstep. mstep. apply wp_on_ng.
  eapply (wp_aunlock _ _ _ _ _ _ _ _ (w_ng w)); [exact Hn1|exact Hr|cbn [w_ng with_arr nv_arr]; rewrite E1; apply same_locks_refl|].
  intros s3 Hn3 Hl3 Hm3. mstep. apply HQ; [by exists bl, t, es|done|].
  rewrite Hm3. cbn [w_ng with_arr nv_arr]. by rewrite E1.
Qed.

(** C8: an article of at most 15360 bytes that was stored is what getarticle returns
    for its number, from the database and without a word to the news server; the
    records of the other numbers are those from before. *)
Theorem article_roundtrip fmt f recs art (w : ngw S) : let nbr := w32 (a_nbr art) in
  ngroup f recs (w_ng w) -> ready 4 (a_length art + 2 ^ 19) (w_ng w) ->
  a_length art <= big_size -> s32 nbr = a_nbr art -> in_range f recs nbr = true ->
  wp (on_ng (nv_setarticle fmt art) ;;; nv_getarticle fmt_of retrievearticle nbr)
    (fun a w' => a = Some art /\ w_srv w' = w_srv w /\ nv_dir (w_ng w') = nv_dir (w_ng w) /\
       exists recs', ngroup f recs' (w_ng w') /\ length recs' = length recs /\
         forall k, k <> nbr -> at_index f recs' k = at_index f recs k) w.
Proof.
  intros nbr Hg Hr Hsmall Hnbr Hin. unfold big_size in *. mstep. apply wp_on_ng.
  eapply (wp_nv_setarticle_small _ _ _ _ 1); [exact Hg|eapply ready_after; [exact Hr|apply same_locks_refl|lia]|exact Hsmall|].
  intros s1 Hg1 Hl1 Hm1.
  eapply (wp_nv_getarticle_stored _ _ _ (a_text art) 3 0); [exact Hg1|eapply ready_after; [exact Hr|exact Hl1|cbn [w_ng with_arr nv_arr]; lia]
    |unfold a_length in *; lia|by apply put_at|].
  intros s2 Hg2 Hl2 _. split_and!; [|done|done|].
  - fold nbr. rewrite Hnbr. by destruct art.
  - eexists. split_and!; [exact Hg2|apply length_recs_put|]. intros k Hk. apply put_other; [done|]. by apply in_range_true in Hin as [? _].
Qed.
End world.
