(* ===== verification/NgSize.v ===== *)
(** * NgSize.v: the range of a cached newsgroup

    setsize of NVNewsgroup.v: what it keeps, and the files it removes; and
    testdb of records that have their types. *)
From S2P Require Import Prelude Memory Text Container Heap Alloc ContainerSpec Article OverviewFmt.
From S2P Require Import NVlist Records.
From S2P Require Import NVHash.
From S2P Require Import NVArray.
From S2P Require Import ArrayLaws.
From S2P Require Import ArrayMap.
From S2P Require Import NVNewsgroup.
From S2P Require Import NgLaws.

(** Whether the record at a place is that of a big article. *)
Definition big_record (r : option bytes) : bool :=
  match r with Some d => record_type d =? t_bigarticle | None => false end.
Definition bigs (recs : list (option bytes)) (i : nat) : bool :=
  match recs !! i with Some r => big_record r | None => false end.
(** The files after the [n] elements from [i] on are dropped. *)
Fixpoint unlinked (f : Z) (big : nat -> bool) (n i : nat) (dir : list (bytes * bytes)) : list (bytes * bytes) :=
  match n with
  | O => dir
  | S n => unlinked f big n (S i) (if big i then dir_unlink (art_file (f + Z.of_nat i)) dir else dir)
  end.

Section drop.
Context {os : Os} {Hos : OsOk os}.
Implicit Types g : NVNewsgroup.

(** An entry whose record, if it has one, can be looked at. *)
Definition droppable (e : option entry) : Prop :=
  match e with Some Free => True | Some (Rec _ d) => d <> [] | _ => False end.
Definition big_entry (es : list entry) (i : nat) : bool :=
  match es !! i with Some (Rec _ d) => record_type d =? t_bigarticle | _ => false end.
Definition with_dir (s : obj array_ext) (dir : list (bytes * bytes)) (g : NVNewsgroup) : NVNewsgroup := NVNg s (nv_name g) dir.

Lemma wp_drop_elem bl t f es i n room (Q : unit -> NVNewsgroup -> Prop) g :
  nvarr_in bl t f es (nv_arr g) -> droppable (es !! i) -> ready (S n) room g ->
  (forall bl' es' s', nvarr_in bl' t f es' s' -> length es' = length es ->
     (forall k, k <> i -> es' !! k = es !! k) -> same_locks (core (nv_arr g)) (core s') ->
     mem_sz (core s') = mem_sz (core (nv_arr g)) ->
     Q tt (with_dir s' (if big_entry es i then dir_unlink (art_file (f + Z.of_nat i)) (nv_dir g) else nv_dir g) g)) ->
  wp (drop_elem (Z.of_nat i)) Q g.
Proof.
  intros Hn Hd [Hlk Hp Hr] HQ. unfold droppable, big_entry in *. unfold drop_elem. mstep. apply wp_on_arr.
  destruct (es !! i) as [[|o d|]|] eqn:Hi; [| |done|done].
  - eapply wp_elem; [exact Hn|exact Hi|]. intros Hw. change (word t i (nv_arr g) = 0) in Hw. rewrite Hw.
    cbn [Z.eqb]. apply wp_ret. by eapply HQ; [exact Hn|..].
  - destruct d as [|c d]; [done|]. eapply wp_elem; [exact Hn|exact Hi|]. intros _.
    destruct (entry_block _ _ _ _ _ _ _ _ Hn Hi) as (b & _ & _ & _ & ? & _ & _ & -> & _).
    destruct (Z.eqb_spec o 0); [lia|]. mstep. apply wp_on_arr. unfold sizeof_ulong.
    eapply wp_type_at; [exact Hn|exact Hi|]. mstep. apply wp_on_arr, wp_gets. unfold id. cbn [with_arr nv_arr].
    rewrite (na_ext _ _ _ _ _ Hn). cbn [arrfst members]. unfold record_type in HQ. cbn [at_ nth] in HQ.
    pose proof (lookup_lt_Some _ _ _ Hi) as Hlt. pose proof (entry_table _ _ _ _ _ _ Hn Hlt) as Ht.
    destruct (nvarr_table _ _ _ _ _ Hn Ht) as (_ & _ & _ & _ & _ & _ & _ & ?). pose proof (nvarr_first _ _ _ _ _ Hn).
    rewrite w64_small by lia.
    assert (forall dir,
      (forall bl' es' s', nvarr_in bl' t f es' s' -> length es' = length es ->
         (forall k, k <> i -> es' !! k = es !! k) -> same_locks (core (nv_arr g)) (core s') ->
         mem_sz (core s') = mem_sz (core (nv_arr g)) -> Q tt (with_dir s' dir g)) ->
      wp (on_arr (arr_nvfree o)) Q (with_dir (nv_arr g) dir g)) as Hfree.
    { intros dir HQ'. apply wp_on_arr. eapply wp_free_rec; [exact Hn|exact Hi|done|cbn [with_dir nv_arr]; lia|].
      intros bl' s' Hn' Hl' Hm'. eapply HQ'; [exact Hn'|by rewrite length_insert| |done|done].
      intros k Hk. by apply list_lookup_insert_ne. }
    mstep. destruct (zc c =? t_bigarticle).
    + apply wp_modify. apply Hfree, HQ.
    + apply wp_ret. apply Hfree, HQ.
Qed.

Lemma wp_drop_elems t f n room : forall k bl es i (Q : unit -> NVNewsgroup -> Prop) g,
  nvarr_in bl t f es (nv_arr g) -> (forall j, (i <= j < i + k)%nat -> droppable (es !! j)) -> ready (S n) room g ->
  (forall bl' es' s', nvarr_in bl' t f es' s' -> length es' = length es ->
     (forall j, (j < i \/ i + k <= j)%nat -> es' !! j = es !! j) -> same_locks (core (nv_arr g)) (core s') ->
     mem_sz (core s') = mem_sz (core (nv_arr g)) -> Q tt (with_dir s' (unlinked f (big_entry es) k i (nv_dir g)) g)) ->
  wp (drop_elems k (Z.of_nat i)) Q g.
Proof.
  induction k as [|k IH]; intros bl es i Q g Hn Hd Hr HQ; cbn [drop_elems unlinked].
  - apply wp_ret. replace g with (with_dir (nv_arr g) (nv_dir g) g) by (by destruct g).
    by eapply HQ; [exact Hn|..].
  - mstep. eapply wp_drop_elem; [exact Hn|apply Hd; lia|exact Hr|]. intros bl1 es1 s1 Hn1 Hlen1 Hsame1 Hl1 Hm1.
    replace (Z.of_nat i + 1) with (Z.of_nat (S i)) by lia. eapply IH; [exact Hn1| | |].
    + intros j Hj. rewrite Hsame1 by lia. apply Hd. lia.
    + eapply ready_after; [exact Hr|exact Hl1|cbn [with_dir nv_arr]; rewrite Hm1; lia].
    + intros bl2 es2 s2 Hn2 Hlen2 Hsame2 Hl2 Hm2. cbn [with_dir nv_arr nv_name nv_dir] in *.
      assert (forall m j dir, (i < j)%nat -> unlinked f (big_entry es1) m j dir = unlinked f (big_entry es) m j dir) as Hbig.
      { induction m as [|m IHm]; intros j dir Hj; cbn [unlinked]; [done|]. rewrite IHm by lia.
        unfold big_entry. by rewrite Hsame1 by lia. }
      rewrite Hbig by lia. eapply HQ; [exact Hn2|congruence| |by eapply same_locks_trans|congruence].
      intros j Hj. rewrite Hsame2 by lia. apply Hsame1. lia.
Qed.
End drop.

(** ** setsize *)

(** The types a record can have. *)
Definition record_types : list Z := [t_overview; t_article; t_bigarticle].
Definition typed (recs : list (option bytes)) : Prop :=
  forall i d, recs !! i = Some (Some d) -> exists t x, d = elem_of t x /\ t ∈ record_types.

(** The files that are left when the range is [n] numbers from [f'] on. *)
Definition files_left (f : Z) (recs : list (option bytes)) (f' : Z) (n : nat) (dir : list (bytes * bytes)) :=
  let n2 := length recs in
  let i := Z.to_nat (f' + Z.of_nat n - f) in
  unlinked f (bigs recs) (n2 - i) i (unlinked f (bigs recs) (Z.to_nat (Z.min (f' - f) (Z.of_nat n2))) 0 dir).

Section setsize.
Context {os : Os} {Hos : OsOk os}.
Implicit Types g : NVNewsgroup.

Lemma s64_small z : - 2 ^ 63 <= z < 2 ^ 63 -> s64 z = z.
Proof. intros H. unfold s64. rewrite Z.mod_small by lia. lia. Qed.

Lemma unlinked_ext f b1 b2 dir : forall n i, (forall j, (i <= j < i + n)%nat -> b1 j = b2 j) ->
  unlinked f b1 n i dir = unlinked f b2 n i dir.
Proof.
  intros n. revert dir. induction n as [|n IH]; intros dir i H; cbn [unlinked]; [done|].
  rewrite (H i) by lia. apply IH. intros j Hj. apply H. lia.
Qed.

Lemma bigs_holds es recs i : Forall2 holds es recs -> big_entry es i = bigs recs i.
Proof.
  intros H. unfold big_entry, bigs. destruct (recs !! i) as [r|] eqn:Er.
  - destruct (holds_lookup _ _ _ _ H Er) as (e & -> & Hh & _). by destruct e, r; cbn in Hh |- *; subst.
  - apply lookup_ge_None in Er. rewrite <- (Forall2_length _ _ _ H) in Er. by rewrite lookup_ge_None_2.
Qed.

Lemma droppable_typed es recs i : Forall2 holds es recs -> typed recs -> (i < length es)%nat -> droppable (es !! i).
Proof.
  intros H Ht Hi. destruct (lookup_lt_is_Some_2 es i Hi) as [e He]. rewrite He.
  destruct (Forall2_lookup_l _ _ _ _ _ H He) as (r & Hr & Hh). destruct e as [|o d|]; [done| |done].
  destruct r as [d'|]; [|done]. cbn in Hh. subst d'. destruct (Ht _ _ Hr) as (t & x & -> & _). done.
Qed.

Lemma window_self {A} (z : A) f l : window z f l f (length l) = l.
Proof.
  apply list_eq. intros i. destruct (decide (i < length l)%nat) as [Hi|Hi].
  - rewrite window_lookup by done. cbv zeta. destruct (Z.leb_spec f (f + Z.of_nat i)); [|lia].
    replace (Z.to_nat (f + Z.of_nat i - f)) with i by lia. destruct (lookup_lt_is_Some_2 l i Hi) as [x ->]. done.
  - rewrite !lookup_ge_None_2; rewrite ?length_window; try lia. done.
Qed.

(** Entries out of the new range do not matter. *)
Lemma window_same es es' f f' n : length es' = length es ->
  (forall j : nat, f' <= f + Z.of_nat j < f' + Z.of_nat n -> es' !! j = es !! j) ->
  window Free f es' f' n = window Free f es f' n.
Proof.
  intros Hlen H. apply list_eq. intros i. destruct (decide (i < n)%nat) as [Hi|Hi].
  - rewrite !window_lookup by done. cbv zeta. destruct (Z.leb_spec f (f' + Z.of_nat i)); [|done].
    by rewrite H by lia.
  - by rewrite !lookup_ge_None_2 by (rewrite ?length_window; lia).
Qed.

(** The elements out of the new range are dropped. *)
Lemma wp_drop_outside bl t f es recs f' n k room (Q : unit -> NVNewsgroup -> Prop) g :
  nvarr_in bl t f es (nv_arr g) -> Forall2 holds es recs -> typed recs -> ready (S k) room g ->
  0 <= f' -> f' + Z.of_nat n <= 2 ^ 62 -> f + len es <= 2 ^ 63 -> len es < 2 ^ 32 ->
  (forall bl' es' s', nvarr_in bl' t f es' s' -> length es' = length es ->
     (forall j : nat, f' <= f + Z.of_nat j < f' + Z.of_nat n -> es' !! j = es !! j) ->
     same_locks (core (nv_arr g)) (core s') -> mem_sz (core s') = mem_sz (core (nv_arr g)) ->
     Q tt (with_dir s' (files_left f recs f' n (nv_dir g)) g)) ->
  wp (let n1 := s64 (f' - f) in
      let n2 := s64 (f + len es - 1 - f + 1) in
      drop_elems (Z.to_nat (if n2 <? n1 then n2 else n1)) 0 ;;;
      let i := Z.max 0 (s64 (f' + Z.of_nat n - 1 - f + 1)) in
      drop_elems (Z.to_nat (n2 - i)) i) Q g.
Proof.
  intros Hn Hh Ht Hr H1 H2 H3 H4 HQ. pose proof (nvarr_first _ _ _ _ _ Hn). cbv zeta.
  replace (f + len es - 1 - f + 1) with (len es) by lia.
  replace (f' + Z.of_nat n - 1 - f + 1) with (f' + Z.of_nat n - f) by lia.
  rewrite !s64_small by lia. set (n1 := Z.to_nat (if len es <? f' - f then len es else f' - f)).
  set (i := Z.to_nat (f' + Z.of_nat n - f)).
  assert (n1 = Z.to_nat (Z.min (f' - f) (len es))) as En1 by (unfold n1; destruct (Z.ltb_spec (len es) (f' - f)); lia).
  assert (n1 <= length es /\ n1 <= i)%nat as [Hn1 Hi1] by (unfold i; lia).
  replace (Z.max 0 (f' + Z.of_nat n - f)) with (Z.of_nat i) by (unfold i; lia).
  replace (Z.to_nat (len es - Z.of_nat i)) with (length es - i)%nat by lia.
  mstep. eapply (wp_drop_elems _ _ _ _ n1 _ es 0); [exact Hn| |exact Hr|].
  { intros j Hj. eapply droppable_typed; [exact Hh|exact Ht|lia]. }
  intros bl1 es1 s1 Hn1' Hlen1 Hsame1 Hl1 Hm1. eapply wp_drop_elems; [exact Hn1'| | |].
  { intros j Hj. rewrite Hsame1 by lia. eapply droppable_typed; [exact Hh|exact Ht|lia]. }
  { eapply ready_after; [exact Hr|exact Hl1|cbn [with_dir nv_arr]; rewrite Hm1; apply Z.le_refl]. }
  intros bl2 es2 s2 Hn2 Hlen2 Hsame2 Hl2 Hm2. cbn [with_dir nv_arr nv_name nv_dir] in *.
  assert (files_left f recs f' n (nv_dir g) =
    unlinked f (big_entry es1) (length es - i) i (unlinked f (big_entry es) n1 0 (nv_dir g))) as Ef.
  { unfold files_left. rewrite <- (Forall2_length _ _ _ Hh), <- En1. fold i.
    rewrite (unlinked_ext f (big_entry es) (bigs recs)) by (intros j _; by apply bigs_holds).
    apply unlinked_ext. intros j Hj. symmetry. unfold big_entry. rewrite Hsame1 by lia. fold (big_entry es j).
    by apply bigs_holds. }
  rewrite <- Ef. eapply (HQ bl2 es2 s2); [exact Hn2|congruence| |by eapply same_locks_trans|congruence].
  intros j Hj. rewrite Hsame2 by (unfold i; lia). apply Hsame1. lia.
Qed.

Lemma wp_nv_setsize f recs f' n k (Q : unit -> NVNewsgroup -> Prop) g :
  ngroup f recs g -> typed recs -> ready (S (S (S (S k)))) (8 * Z.of_nat n) g ->
  0 <= f' -> 1 <= f' + Z.of_nat n <= 2 ^ 62 -> f + len recs <= 2 ^ 63 ->
  (forall s', ngroup f' (window None f recs f' n) (with_dir s' (files_left f recs f' n (nv_dir g)) g) ->
     same_locks (core (nv_arr g)) (core s') ->
     mem_sz (core s') <= mem_sz (core (nv_arr g)) + 8 * Z.of_nat n + 2 ^ 18 ->
     Q tt (with_dir s' (files_left f recs f' n (nv_dir g)) g)) ->
  wp (nv_setsize f' (f' + Z.of_nat n - 1)) Q g.
Proof.
  intros (bl & t & es & Hn & Hh) Ht Hr H1 H2 H3 HQ. rewrite <- (Forall2_length _ _ _ Hh) in H3.
  assert (len es < 2 ^ 32) as H4.
  { destruct (decide (t = 0)) as [E|Ht0]; [destruct (nvarr_zero _ _ _ _ _ Hn E) as [_ ->]; done|].
    destruct (nvarr_table _ _ _ _ _ Hn Ht0) as (b & _ & _ & _ & ? & ? & ? & _).
    destruct (nvarr_tiles _ _ _ _ _ Hn) as (_ & ? & _). layout. lia. }
  unfold nv_setsize. mstep. eapply wp_alock; [done|exact Hn|exact Hr|]. intros s1 Hn1 Hr1 E1.
  mstep. apply wp_on_arr, wp_gets. unfold id. cbn [with_arr nv_arr]. rewrite (na_ext _ _ _ _ _ Hn1).
  cbn [arrfst arrlst members]. mstep.
  destruct (negb (f' =? f) || negb (f' + Z.of_nat n - 1 =? f + len es - 1)) eqn:Ech.
  - mstep. eapply wp_alock; [done|exact Hn1|exact Hr1|]. intros s2 Hn2 Hr2 E2.
    mstep. apply wp_on_arr, wp_gets. unfold id. cbn [with_arr nv_arr nv_name nv_dir] in *.
    rewrite (na_ext _ _ _ _ _ Hn2). cbn [arrfst arrlst members]. mstep.
    assert (forall bl' es' s', nvarr_in bl' t f es' s' -> length es' = length es ->
      (forall j : nat, f' <= f + Z.of_nat j < f' + Z.of_nat n -> es' !! j = es !! j) ->
      same_locks (core s2) (core s') -> mem_sz (core s') = mem_sz (core s2) ->
      wp (on_arr (ssetsize f' (f' + Z.of_nat n - 1)) ;;; alock UnLock)
        (fun _ g' => wp (alock UnLock) Q g') (with_dir s' (files_left f recs f' n (nv_dir g)) g)) as Hend.
    { intros bl' es' s' Hn' Hlen' Hsame' Hl' Hm'. mstep. apply wp_on_arr. cbn [with_dir nv_arr].
      eapply wp_ssetsize; [exact Hn'| | |done|lia| |].
      - eapply lock_ok_same; [|exact Hl']. apply Hr2.
      - rewrite (sl_sp _ _ Hl'). destruct Hr2 as [_ Hp _]. cbn [with_arr nv_arr] in Hp. lia.
      - rewrite Hm'. destruct Hr2 as [_ _ Hroom]. cbn [with_arr nv_arr] in Hroom. lia.
      - intros bl3 t3 s3 Hn3 Hl3 Hm3. rewrite (window_same es es') in Hn3 by done.
        eapply (wp_aunlock ExclLock _ _ _ _ _ _ _ (with_arr s1 g)); [exact Hn3|exact Hr1| |].
        { cbn [with_arr with_dir nv_arr]. eapply same_locks_trans; [|exact Hl3]. eapply same_locks_trans; [|exact Hl'].
          rewrite E2. unfold effective. destruct (decide _); apply same_locks_refl. }
        intros s4 Hn4 Hl4 Hm4. cbn [with_arr with_dir nv_arr] in *.
        eapply (wp_aunlock _ _ _ _ _ _ _ _ g); [exact Hn4|exact Hr|cbn [with_arr nv_arr]; rewrite <- E1; exact Hl4|].
        intros s5 Hn5 Hl5 Hm5. cbn [with_arr with_dir nv_arr nv_name nv_dir] in *.
        apply (HQ s5); [exists bl3, t3, (window Free f es f' n); split; [exact Hn5|by apply holds_window]|done|].
        rewrite Hm5, Hm4. rewrite E1, E2 in *. cbn in Hm', Hm3 |- *. lia. }
    destruct (Z.leb_spec f (f + len es - 1)).
    + eapply wp_drop_outside; [exact Hn2|exact Hh|exact Ht|exact Hr2|done|lia|done|done|].
      intros bl' es' s' Hn' Hlen' Hsame' Hl' Hm'. by eapply Hend.
    + apply wp_ret. assert (es = []) as -> by (destruct es; [done|cbn in *; lia]).
      inversion Hh; subst. assert (files_left f [] f' n (nv_dir g) = nv_dir g) as Efl.
      { unfold files_left. cbn [length Nat.sub unlinked].
        by replace (Z.to_nat (Z.min (f' - f) (Z.of_nat 0))) with O by lia. }
      rewrite Efl in Hend. exact (Hend bl [] s2 Hn2 eq_refl (fun _ _ => eq_refl) (same_locks_refl _) eq_refl).
  - apply orb_false_iff in Ech as [Ef El]. apply negb_false_iff, Z.eqb_eq in Ef, El. subst f'.
    assert (n = length recs) as -> by (rewrite <- (Forall2_length _ _ _ Hh); lia).
    apply wp_ret. eapply (wp_aunlock _ _ _ _ _ _ _ _ g); [exact Hn1|exact Hr|cbn [with_arr nv_arr]; rewrite E1; apply same_locks_refl|].
    intros s4 Hn4 Hl4 Hm4. change (with_arr s4 (with_arr s1 g)) with (with_dir s4 (nv_dir g) g).
    assert (files_left f recs f (length recs) (nv_dir g) = nv_dir g) as Efl.
    { unfold files_left. replace (Z.to_nat (Z.min (f - f) (len recs))) with O by lia.
      replace (length recs - Z.to_nat (f + len recs - f))%nat with O by lia. done. }
    rewrite Efl, window_self in HQ. apply HQ; [by exists bl, t, es|done|].
    rewrite Hm4. cbn [with_arr nv_arr]. rewrite E1. cbn. lia.
Qed.
End setsize.

(** ** Every record has a type *)
Lemma typed_put f recs nbr t x : typed recs -> t ∈ record_types -> typed (put f recs nbr (elem_of t x)).
Proof.
  intros Ht Hty. unfold put. destruct (in_range _ _ _); [|done]. intros i d Hi.
  apply list_lookup_insert_Some in Hi as [(_ & E & _)|[_ Hi]]; [|by eapply Ht].
  injection E as <-. by exists t, x.
Qed.
Lemma typed_over f recs over : typed recs -> typed (over_added f recs over).
Proof.
  intros Ht. unfold over_added. destruct (at_index _ _ _); [done|]. apply typed_put; [done|by left].
Qed.
Lemma typed_window f recs f' n : typed recs -> typed (window None f recs f' n).
Proof. intros Ht i d Hi. apply window_inv in Hi as (_ & [?|[_ Hi]]); [done|]. by eapply Ht. Qed.

Lemma elem_type t x : t ∈ record_types -> exists c d, elem_of t x = c :: d /\ zc c = t.
Proof.
  intros Ht. exists (cz t), (x ++ [NUL]). split; [done|].
  rewrite zc_cz. repeat (apply elem_of_cons in Ht as [->|Ht]; [done|]). by apply not_elem_of_nil in Ht.
Qed.
Lemma known_type t : t ∈ record_types -> ((t =? t_overview) || (t =? t_article) || (t =? t_bigarticle)) = true.
Proof.
  intros Ht. repeat (apply elem_of_cons in Ht as [->|Ht]; [done|]). by apply not_elem_of_nil in Ht.
Qed.

Section types.
Context {os : Os} {Hos : OsOk os}.
Implicit Types g : NVNewsgroup.

Lemma wp_testdb_loop bl t f es recs (Q : Z -> obj array_ext -> Prop) s :
  nvarr_in bl t f es s -> Forall2 holds es recs -> typed recs -> Q 0 s ->
  forall n i, (i + n = length es)%nat -> wp (testdb_loop n (f + Z.of_nat i)) (fun r s' => r = 0 /\ s' = s) s.
Proof.
  intros Hn Hh Ht HQ. induction n as [|n IH]; intros i Hi; cbn [testdb_loop]; [by apply wp_ret|].
  destruct (lookup_lt_is_Some_2 recs i) as [r Hr]; [rewrite <- (Forall2_length _ _ _ Hh); lia|].
  destruct (holds_lookup _ _ _ _ Hh Hr) as (e & He & Hhr & Hs). mstep.
  eapply wp_sget_in; [exact Hn|exact He|done|].
  assert (wp (rest <- testdb_loop n (f + Z.of_nat i + 1) ;; ret (0 + rest)) (fun r s' => r = 0 /\ s' = s) s) as Hrest.
  { mstep. replace (f + Z.of_nat i + 1) with (f + Z.of_nat (S i)) by lia. eapply wp_mono; [apply IH; lia|].
    intros r' s' [-> ->]. by apply wp_ret. }
  destruct e as [|o d|]; [| |done].
  - mstep. apply wp_ret. exact Hrest.
  - destruct r as [d'|]; [|done]. cbn in Hhr. subst d'. destruct (Ht _ _ Hr) as (ty & x & -> & Hty).
    destruct (elem_type ty x Hty) as (c & d & E & Hc). rewrite E in He. do 2 mstep.
    eapply wp_type_at; [exact Hn|exact He|]. rewrite Hc, known_type by done. apply wp_ret. exact Hrest.
Qed.

Lemma wp_testdb f recs n room (Q : Z -> NVNewsgroup -> Prop) g :
  ngroup f recs g -> typed recs -> ready (S n) room g -> (forall g', Q 0 g') -> wp testdb Q g.
Proof.
  intros (bl & t & es & Hn & Hh) Ht Hr HQ. unfold testdb. mstep. eapply wp_alock; [done|exact Hn|exact Hr|].
  intros s1 Hn1 Hr1 E1. mstep. apply wp_on_arr, wp_gets. unfold id. cbn [with_arr nv_arr].
  rewrite (na_ext _ _ _ _ _ Hn1). cbn [arrfst arrlst members]. mstep. apply wp_on_arr. cbn [with_arr nv_arr].
  replace (Z.to_nat (f + len es - 1 + 1 - f)) with (length es) by lia. eapply wp_mono.
  { pose proof (wp_testdb_loop bl t f es recs (fun _ _ => True) s1 Hn1 Hh Ht I (length es) 0 eq_refl) as H.
    rewrite Z.add_0_r in H. exact H. }
  intros r s' [-> ->]. mstep. eapply (wp_aunlock _ _ _ _ _ _ _ _ g);
    [exact Hn1|exact Hr|cbn [with_arr nv_arr]; rewrite E1; apply same_locks_refl|]. intros s2 _ _ _. mstep. apply HQ.
Qed.

End types.

(** ** Expiry *)
Lemma dec_inj a b : 0 <= a -> 0 <= b -> dec a = dec b -> a = b.
Proof.
  intros Ha Hb E. destruct (dec_spec a Ha) as (_ & _ & <-). destruct (dec_spec b Hb) as (_ & _ & <-). by rewrite E.
Qed.
Lemma art_file_inj a b : 0 <= a -> 0 <= b -> art_file a = art_file b -> a = b.
Proof. intros Ha Hb E. apply dec_inj; [done..|]. by apply app_inv_head in E. Qed.

Lemma dir_find_unlink fn fn' dir :
  dir_find fn (dir_unlink fn' dir) = if decide (fn = fn') then None else dir_find fn dir.
Proof.
  unfold dir_find, dir_unlink. induction dir as [|[k x] dir IH]; cbn [List.filter List.find]; [by destruct (decide _)|].
  cbn [fst]. destruct (decide (k = fn')) as [->|Hk].
  - rewrite bool_decide_eq_true_2 by done. cbn [negb]. rewrite IH. destruct (decide (fn = fn')) as [->|Hne]; [done|].
    by rewrite bool_decide_eq_false_2 by done.
  - rewrite bool_decide_eq_false_2 by done. cbn [negb List.find fst]. destruct (decide (k = fn)) as [->|Hf].
    + rewrite bool_decide_eq_true_2 by done. by rewrite decide_False by done.
    + rewrite bool_decide_eq_false_2 by done. exact IH.
Qed.

Lemma unlinked_find f big fn : forall n i dir,
  (forall j, (i <= j < i + n)%nat -> big j = true -> fn <> art_file (f + Z.of_nat j)) ->
  dir_find fn (unlinked f big n i dir) = dir_find fn dir.
Proof.
  induction n as [|n IH]; intros i dir H; cbn [unlinked]; [done|]. rewrite IH by (intros j Hj; apply H; lia).
  destruct (big i) eqn:E; [|done]. rewrite dir_find_unlink, decide_False; [done|]. apply H; [lia|done].
Qed.
Lemma unlinked_gone f big fn : forall n i dir, dir_find fn dir = None -> dir_find fn (unlinked f big n i dir) = None.
Proof.
  induction n as [|n IH]; intros i dir H; cbn [unlinked]; [done|]. apply IH. destruct (big i); [|done].
  rewrite dir_find_unlink. by destruct (decide _).
Qed.
Lemma unlinked_big f big j : forall n i dir, (i <= j < i + n)%nat -> big j = true ->
  dir_find (art_file (f + Z.of_nat j)) (unlinked f big n i dir) = None.
Proof.
  induction n as [|n IH]; intros i dir Hj Hb; cbn [unlinked]; [lia|]. destruct (decide (i = j)) as [->|Hne].
  - rewrite Hb. apply unlinked_gone. by rewrite dir_find_unlink, decide_True.
  - apply IH; [lia|done].
Qed.

Section expiry.
Context {os : Os} {Hos : OsOk os}.
Implicit Types g : NVNewsgroup.

Lemma bigs_at f recs j : bigs recs j = big_record (at_index f recs (f + Z.of_nat j)).
Proof.
  unfold bigs, at_index. destruct (Z.leb_spec f (f + Z.of_nat j)); [|lia].
  replace (Z.to_nat (f + Z.of_nat j - f)) with j by lia. by destruct (recs !! j) as [r|].
Qed.

(** The files of the numbers of the new range stay, those of dropped big articles go. *)
Lemma files_left_in f recs f' n dir k : 0 <= f -> f' <= k < f' + Z.of_nat n -> 0 <= k ->
  dir_find (art_file k) (files_left f recs f' n dir) = dir_find (art_file k) dir.
Proof.
  intros Hf Hk H0. unfold files_left. rewrite !unlinked_find; [done|..]; intros j Hj _ E; apply art_file_inj in E; lia.
Qed.
Lemma files_left_out f recs f' n dir k : 0 <= f -> f <= k < f + len recs -> ~ (f' <= k < f' + Z.of_nat n) ->
  big_record (at_index f recs k) = true -> dir_find (art_file k) (files_left f recs f' n dir) = None.
Proof.
  intros Hf Hk Hout Hb. assert (exists j : nat, k = f + Z.of_nat j) as [j ->] by (exists (Z.to_nat (k - f)); lia). rewrite <- bigs_at in Hb.
  unfold files_left. destruct (decide (f + Z.of_nat j < f')) as [H|H].
  - apply unlinked_gone, unlinked_big; [lia|done].
  - apply unlinked_big; [lia|done].
Qed.

(** C7: setsize of a cached group is the expiry the server's range asks for: every
    number in the new range has the record and the file from before, a number that
    was not in the old range has none, and of the big articles that fell out of the
    range no file is left. *)
Theorem setsize_expires f recs f' n g :
  ngroup f recs g -> typed recs -> ready 4 (8 * Z.of_nat n) g -> 0 <= f' -> 1 <= f' + Z.of_nat n <= 2 ^ 32 ->
  f + len recs <= 2 ^ 32 ->
  wp (nv_setsize f' (f' + Z.of_nat n - 1))
    (fun _ g' => (exists recs', ngroup f' recs' g' /\ length recs' = n /\ typed recs' /\
       forall k, f' <= k < f' + Z.of_nat n -> at_index f' recs' k = at_index f recs k /\
         dir_find (art_file k) (nv_dir g') = dir_find (art_file k) (nv_dir g)) /\
       (forall k, f <= k < f + len recs -> ~ (f' <= k < f' + Z.of_nat n) ->
         big_record (at_index f recs k) = true -> dir_find (art_file k) (nv_dir g') = None) /\
       same_locks (core (nv_arr g)) (core (nv_arr g'))) g.
Proof.
  intros Hg Ht Hr H1 [H2 H3] H4. assert (0 <= f) as Hf.
  { destruct Hg as (bl & t & es & Hn & _). by eapply nvarr_first. }
  eapply (wp_nv_setsize _ _ _ _ 0); [exact Hg|exact Ht|exact Hr|done|lia|lia|].
  intros s' Hg' Hl' _. cbn [with_dir nv_dir]. split_and!; [|intros k Hk Ho Hb; by apply files_left_out|done].
  eexists. split_and!; [exact Hg'|apply length_window|by apply typed_window|].
  intros k Hk. split; [|apply files_left_in; lia].
  unfold at_index at 1. destruct (Z.leb_spec f' k); [|lia].
  rewrite window_lookup by lia. cbv zeta. replace (f' + Z.of_nat (Z.to_nat (k - f'))) with k by lia. done.
Qed.
End expiry.

(** ** A group *)
#[local] Existing Instance good_os.
Definition ex_ng : NVNewsgroup := NVNg ex_array (bs "comp.x") [(bs ".art5", bs "big"); (bs ".art9", bs "other")].
Lemma ex_ng_ok room : room <= 2 ^ 20 -> ngroup 5 [None; None; None] ex_ng /\ ready 4 room ex_ng.
Proof.
  destruct ex_array_ok as (Hn & Hlk & Hsp & Hm). intros Hroom. split; [exact Hn|].
  split; [exact Hlk|cbn [ex_ng nv_arr]; rewrite Hsp; unfold LOCKSTACKSIZE; lia|cbn [ex_ng nv_arr]; layout; lia].
Qed.
#[local] Opaque ex_array.
Lemma ex_untyped : typed [None; None; None].
Proof. intros i d Hi. by do 3 (destruct i as [|i]; [done|]). Qed.

Definition ex_fmt : OverviewFmt := new_fmt [].
Definition ex_over : bytes := bs "6" ++ [TAB] ++ bs "a subject" ++ [TAB] ++ bs "me".
Lemma ex_over_nbr : w64 (atoi (cstr ex_over)) = 6.
Proof. vm_compute. reflexivity. Qed.

Lemma overview_roundtrip_witness : wp (nv_setover ex_over ;;; nv_getover ex_fmt 6) (fun o _ => o = ex_over) ex_ng.
Proof.
  rewrite <- ex_over_nbr. destruct (ex_ng_ok (len ex_over + 2 ^ 19)) as [Hg Hr]; [vm_compute; discriminate|].
  eapply wp_mono; [apply (overview_roundtrip ex_fmt 5 [None; None; None] ex_over ex_ng Hg Hr)|].
  - rewrite ex_over_nbr. reflexivity.
  - intros d. rewrite ex_over_nbr. discriminate.
  - intros o g' (-> & _). rewrite ex_over_nbr. reflexivity.
Defined.

Definition ex_art : Article := MkArticle 7 (bs "Subject: x" ++ [CR; LF; CR; LF] ++ bs "text").
Lemma article_roundtrip_witness :
  wp (on_ng (nv_setarticle ex_fmt ex_art) ;;; nv_getarticle (fun _ : unit => ex_fmt) (fun _ => spin) 7)
    (fun a _ => a = Some ex_art) (NgW tt ex_ng).
Proof.
  destruct (ex_ng_ok (a_length ex_art + 2 ^ 19)) as [Hg Hr]; [vm_compute; discriminate|].
  eapply wp_mono; [apply (article_roundtrip (fun _ : unit => ex_fmt) (fun _ => spin) ex_fmt 5 [None; None; None] ex_art
    (NgW tt ex_ng) Hg Hr); [vm_compute; discriminate|reflexivity|reflexivity]|].
  intros a w' (-> & _). reflexivity.
Defined.

Lemma setsize_expires_witness :
  wp (nv_setsize 6 7) (fun _ g' => exists recs', ngroup 6 recs' g' /\ length recs' = 2%nat) ex_ng.
Proof.
  destruct (ex_ng_ok (8 * Z.of_nat 2)) as [Hg Hr]; [vm_compute; discriminate|].
  eapply wp_mono; [apply (setsize_expires 5 [None; None; None] 6 2 ex_ng Hg ex_untyped Hr);
    [discriminate|split; discriminate|discriminate]|].
  intros _ g' ((recs' & H1 & H2 & _) & _). exists recs'. exact (conj H1 H2).
Defined.
