(* ===== verification/CNewsgroup.v ===== *)
(** * CNewsgroup.v: a newsgroup of the cache

    NServer-0.9.1/CNewsgroup.{h,cc}: a newsgroup in a database file that is filled
    from the news server, and the newsgroups CServer::getgroup makes. *)
From S2P Require Import Prelude Memory Text Matching ServerList Container GroupInfo Article OverviewFmt RServer.
From S2P Require Import RNews RNewsgroup.
From S2P Require Import NVlist.
From S2P Require Import NVHash.
From S2P Require Import ActiveDB DbLaws.
From S2P Require Import CServer.
From S2P Require Import NVArray.
From S2P Require Import NVNewsgroup.

(** overviewdb reads into the group; the exception that ends readoverdb leaves it
    as it is. *)
#[export] Instance CNewsgroup_ops {os : Os} : Newsgroup (NVNewsgroup * option exn) := {|
  ng_name g := nv_name (fst g);
  ng_readoverdb f ist g :=
    match nv_readoverdb f ist (fst g) with
    | Ret (e, ist) g => Ret ist (g, e)
    | Throw e g => Ret ist (g, Some e)
    | Abort w => Abort w
    | Spin => Spin
    end
|}.

Section cnewsgroup.
Context {os : Os} {env : Env}.

(** [ttl] is _TTLGroup. *)
Variable ttl : Z.
(** The static object of groupinfo. *)
Variable agroup : GroupInfo.
Abbreviation SRV := (rserver (obj hash_ext)).
Abbreviation MW := (M (ngw SRV)).

Definition the_group : MW NVNewsgroup := gets w_ng.
Definition arr {A} (c : M (obj array_ext) A) : MW A := on_ng (on_arr c).
Definition lock_group (l : lockcmd) : MW unit := on_ng (alock l).

(** What every exception of the server is turned into. *)
Definition attempt {A} (c : MW A) (k : MW A) : MW A := catch c (fun _ => k).

(** setsize, which is virtual. *)
Definition cn_setsize (f l : Z) : MW unit :=
  lock_group ShrdLock ;;;
  e <- arr (gete id) ;;
  (if negb (f =? arrfst e) || negb (l =? arrlst e) then
     on_ng (nv_setsize f l) ;;; arr (setmtime 0 true)
   else ret tt) ;;;
  lock_group UnLock.

(** listgroup: a mark for each of the numbers [f] to [l]. *)
Definition cn_listgroup (f l : Z) : MW (list bool) :=
  g <- the_group ;;
  let n := Z.to_nat (w32 (l - f + 1)) in
  attempt (on_server (c_listgroup (nv_name g) f l (replicate n false))) (ret (replicate n true)).

Definition sUpdateGroupInfo : MW (Z * Z) :=
  attempt
    (g <- the_group ;;
     info <- on_server (c_groupinfo (nv_name g) agroup) ;;
     fl <- on_ng nv_getsize ;;
     let infof := gi_first info in let infol := gi_last info in
     (if negb (infof =? fst fl) || negb (infol =? snd fl) then
        (if infof <? fst fl then arr arr_clear else ret tt) ;;;
        cn_setsize infof infol
      else ret tt) ;;;
     ret (infof, infol))
    (on_ng nv_getsize).

(** [_RServer->overviewdb(this, f, l)] *)
Definition fetch_over (f l : Z) : MW unit := fun w =>
  match c_overviewdb (w_ng w, @None exn) f l (w_srv w) with
  | Ret (g, None) s => Ret tt (NgW s g)
  | Ret (g, Some e) s => Throw e (NgW s g)
  | Throw e s => Throw e (NgW s (w_ng w))
  | Abort x => Abort x
  | Spin => Spin
  end.

Definition marked (lstgrp : list bool) (i : Z) : MW bool :=
  match lstgrp !! Z.to_nat i with Some b => ret b | None => abort "read outside the marks" end.

(** The end of the records to fetch: at most seven behind the first. *)
Fixpoint over_end (n : nat) (lstgrp : list bool) (infof infol i l : Z) : MW (Z * Z) :=
  match n with
  | O => ret (i, l)
  | S n =>
      if (i <? w32 (l + 8)) && (i <=? infol) then
        h <- arr (shas_element i) ;;
        m <- (if (h : bool) then ret false else marked lstgrp (i - infof)) ;;
        over_end n lstgrp infof infol (w32 (i + 1)) (if (m : bool) then i else l)
      else ret (i, l)
  end.

(** An article that was deleted on the server; [i] is its index. *)
Definition drop_article (i : Z) : MW unit :=
  v <- arr (elem i) ;;
  t <- arr (type_at (v + sizeof_ulong)) ;;
  (if t =? t_bigarticle then on_ng (unlink (art_file i ++ bs "d")) else ret tt) ;;;
  v <- arr (elem i) ;;
  arr (arr_nvfree v) ;;;
  arr (set_elem i 0).

(** The loop of sUpdateOverview; [f] wraps around. *)
Fixpoint update_loop (n : nat) (lstgrp : list bool) (infof infol f : Z) : MW unit :=
  match n with
  | O => spin
  | S n =>
      if infol <? f then ret tt else
      h <- arr (shas_element f) ;;
      m <- marked lstgrp (f - infof) ;;
      if Bool.eqb h m then update_loop n lstgrp infof infol (w32 (f + 1))
      else if (m : bool) then
        il <- over_end (Z.to_nat (infol - f + 1)) lstgrp infof infol (w32 (f + 1)) f ;;
        fetch_over f (snd il) ;;;
        update_loop n lstgrp infof infol (fst il)
      else
        drop_article (f - infof) ;;;
        update_loop n lstgrp infof infol (w32 (f + 1))
  end.
Definition update_fuel (f l : Z) : nat := Z.to_nat (Z.max 0 (l + 2 - f)).

Definition sUpdateOverview : MW unit :=
  fl <- sUpdateGroupInfo ;;
  let infof := fst fl in let infol := snd fl in
  attempt
    (lstgrp <- cn_listgroup infof infol ;;
     update_loop (update_fuel infof infol) lstgrp infof infol infof ;;;
     arr (setmtime os_time false))
    (ret tt).

Definition updateOverview : MW unit :=
  mt <- arr getmtime ;;
  if os_time <=? w64 (mt + ttl) then ret tt else
  lock_group ExclLock ;;; sUpdateOverview ;;; lock_group UnLock.

(** retrievearticle, which is virtual. *)
Definition retrievearticle (nbr : Z) : MW (option Article) :=
  g <- the_group ;;
  attempt (a <- on_server (c_article (nv_name g) nbr (MkArticle 0 [])) ;; ret (Some a)) (ret None).

(** *** prefetchGroup and prefetchOverview *)
Definition prefetchOverview : MW unit := lock_group ExclLock ;;; sUpdateOverview ;;; lock_group UnLock.

(** The data of a number, and whether they are those of an article. *)
Definition data_of (f : Z) : MW (option Z) := r <- arr (sget f) ;; ret (fst <$> r).
Definition data_type (d : option Z) : MW Z := match d with Some a => arr (type_at a) | None => ret 0 end.
Definition has_article (t : Z) : bool := (t =? t_article) || (t =? t_bigarticle).

(** A round of prefetchGroup. *)
Definition prefetch_one (lockgrp : bool) (lstgrp : list bool) (infof f : Z) : MW unit :=
  d <- data_of f ;;
  t <- data_type d ;;
  m <- marked lstgrp (f - infof) ;;
  if (match d with None => negb m | Some _ => has_article t && m end) then ret tt else
  d <- (if lockgrp then ret d else lock_group ExclLock ;;; data_of f) ;;
  t <- data_type d ;;
  (if m && (bool_decide (d = None) || (t =? t_overview)) then
     a <- retrievearticle f ;;
     match a with Some a => fm <- fmt rs_fmt ;; on_ng (nv_setarticle fm a) | None => ret tt end
   else if negb m && bool_decide (is_Some d) then drop_article (f - infof)
   else ret tt) ;;;
  (if lockgrp then ret tt else lock_group UnLock).

Fixpoint prefetch_loop (n : nat) (lockgrp : bool) (lstgrp : list bool) (infof infol f : Z) : MW unit :=
  match n with
  | O => spin
  | S n =>
      if infol <? f then ret tt else
      prefetch_one lockgrp lstgrp infof f ;;;
      prefetch_loop n lockgrp lstgrp infof infol (w32 (f + 1))
  end.
Definition prefetchGroup (lockgrp : bool) : MW unit :=
  lock_group ExclLock ;;;
  fl <- sUpdateGroupInfo ;;
  let infof := fst fl in let infol := snd fl in
  (if lockgrp then ret tt else lock_group UnLock ;;; lock_group ShrdLock) ;;;
  attempt
    (lstgrp <- cn_listgroup infof infol ;;
     prefetch_loop (update_fuel infof infol) lockgrp lstgrp infof infol infof ;;;
     arr (setmtime os_time false))
    (ret tt) ;;;
  lock_group UnLock.

(** *** The rest of the interface: the records are brought up to date first *)
Definition cn_getarticle (nbr : Z) : MW (option Article) := nv_getarticle rs_fmt retrievearticle nbr.
Definition cn_printarticle (nbr : Z) : MW bytes := nv_printarticle rs_fmt retrievearticle nbr.
Definition cn_getover (nbr : Z) : MW bytes := updateOverview ;;; f <- fmt rs_fmt ;; on_ng (nv_getover f nbr).
Definition cn_printover (nbr : Z) : MW bytes := updateOverview ;;; f <- fmt rs_fmt ;; on_ng (nv_printover f nbr).
Definition cn_printoverdb (f l : Z) : MW bytes := updateOverview ;;; fm <- fmt rs_fmt ;; on_ng (nv_printoverdb fm f l).
Definition cn_printheaderdb (header : bytes) (f l : Z) : MW bytes :=
  updateOverview ;;; fm <- fmt rs_fmt ;; on_ng (nv_printheaderdb fm header f l).
Definition cn_printlistgroup : MW bytes := updateOverview ;;; on_ng nv_printlistgroup.
End cnewsgroup.
