(* ===== verification/CSafe.v ===== *)
(** * CSafe.v: what the caching server promises

    When groupinfo uses the cache, and that servers marked offline are left alone. *)
From S2P Require Import Prelude Memory Text Matching ServerList Container GroupInfo Article OverviewFmt RServer.
From S2P Require Import DbLaws RSafe RNews RActive RPost RNewsgroup CServer.
From S2P Require Import NVHash ActiveDB RTalk.

Section groupinfo.
Context {os : Os} {env : Env} {Hos : OsOk os}.
Implicit Types s : rserver adb.

(** Nothing but the locks of the database file has been used. *)
Definition kept (n : nat) (v : bytes -> option bytes) s s' : Prop :=
  s' = set_db (rs_db s') s /\ db_rep n v (rs_db s').

Lemma on_db_get n v name g s : db_rep n v (rs_db s) -> length g = sizeof_GroupInfo ->
  exists s', on_db (adb_get name g) s = Ret (put g 0 <$> v name) s' /\ kept n v s s'.
Proof.
  intros Hd Hg. pose proof (db_get_law n v _ name g Hd Hg) as H. cbn [db_get NVActiveDB_ops] in H.
  unfold on_db, wp in *. destruct (adb_get name g (rs_db s)) as [r d| | |]; try done.
  destruct H as [-> Hd']. by eexists.
Qed.

Lemma on_mpe name s i e : server (rs_entries s) name = Some i -> rs_entries s !! i = Some e ->
  find_mpe name s = Ret (Some e) s.
Proof. intros Hi He. unfold find_mpe, bind, gets. by rewrite Hi, He. Qed.

(** C19: groupinfo of a group with a server.  While the server is offline, and while
    the record of the group is younger than its GroupTimeout, the answer is the
    record in the active database and nothing is sent; an offline group without a
    record does not exist.  Otherwise the server is asked; when it cannot answer,
    the old record serves, and a group without one does not exist. *)
Theorem c_groupinfo_spec n v name agroup s i e :
  db_rep n v (rs_db s) -> server (rs_entries s) name = Some i -> rs_entries s !! i = Some e ->
  (length name <= 512)%nat -> length agroup = sizeof_GroupInfo ->
  exists s1, kept n v s s1 /\
  let cached := put agroup 0 <$> v name in
  c_groupinfo name agroup s =
    if offline e then match cached with Some g => Ret g s1 | None => Throw NoSuchGroupError s1 end
    else
      match cached with
      | Some g =>
          if os_time <=? w64 (gi_mtime g + groupTimeout e) then Ret g s1
          else match selectgroup name true s1 with
               | Ret _ s2 => Ret (rs_group s2) s2
               | Throw (ResponseError _ _ _) s2 | Throw (SystemError _ _) s2 | Throw (IOError _) s2 => Ret g s2
               | Throw x s2 => Throw x s2
               | Abort w => Abort w
               | Spin => Spin
               end
      | None =>
          match selectgroup name true s1 with
          | Ret _ s2 => Ret (rs_group s2) s2
          | Throw (ResponseError _ _ _) s2 | Throw (SystemError _ _) s2 | Throw (IOError _) s2 =>
              Throw NoSuchGroupError s2
          | Throw x s2 => Throw x s2
          | Abort w => Abort w
          | Spin => Spin
          end
      end.
Proof.
  intros Hd Hi He Hn Hg. destruct (on_db_get n v name agroup s Hd Hg) as (s1 & Eget & Hk).
  exists s1. split; [done|]. cbv zeta. unfold c_groupinfo, l_groupinfo.
  destruct (Nat.ltb_spec 512 (length name)); [lia|]. unfold bind at 1. rewrite (on_mpe _ _ _ _ Hi He).
  destruct (offline e).
  - unfold bind. rewrite Eget. by destruct (v name).
  - unfold bind at 1. rewrite Eget. destruct (v name) as [r|]; cbn [fmap option_fmap option_map from_option id].
    + rewrite bool_decide_eq_false_2 by done. cbn [orb].
      set (w := w64 _). destruct (Z.leb_spec os_time w), (Z.ltb_spec w os_time); try lia; [done|].
      unfold catch, bind, gets. destruct (selectgroup name true s1) as [? ?|[] ?| |]; reflexivity.
    + rewrite bool_decide_eq_true_2 by done. cbn [orb].
      unfold catch, bind, gets. destruct (selectgroup name true s1) as [? ?|[] ?| |]; reflexivity.
Qed.
End groupinfo.

(** ** Servers marked offline *)
Section offline.
Context {os : Os} {env : Env} {Hos : OsOk os}.
Implicit Types s : rserver adb.

Definition online s (i : nat) : Prop := forall e, rs_entries s !! i = Some e -> offline e = false.
Definition ev_online s (ev : event) : Prop :=
  match ev with EConnect i | ESend i _ => online s i | EReply _ => True end.

(** The dialogue from [s] to [s'] was with servers that are not offline; a server
    that is connected is one. *)
Record quiet s s' : Prop := {
  q_cfg : cfg <$> rs_entries s' = cfg <$> rs_entries s;
  q_sent : exists new, rs_sent s' = new ++ rs_sent s /\ Forall (ev_online s) new
}.
Definition at_rest s : Prop := rs_conn s = None \/ exists i, rs_cur s = Some i /\ online s i.
Definition quietly {A} (c : M (rserver adb) A) s : Prop :=
  may c (fun _ s' => quiet s s' /\ at_rest s') (fun _ s' => quiet s s' /\ at_rest s') s.

Lemma online_cfg s s' i : cfg <$> rs_entries s' = cfg <$> rs_entries s -> online s i -> online s' i.
Proof.
  intros E Ho e' He'. apply (f_equal (fun l => l !! i)) in E. rewrite !list_lookup_fmap, He' in E.
  destruct (rs_entries s !! i) as [e|] eqn:He; [|done]. apply (inj Some) in E.
  specialize (Ho e He). unfold offline in *. apply (f_equal flags) in E. cbn in E. by rewrite E.
Qed.

Lemma quiet_refl s : quiet s s.
Proof. split; [done|]. by exists []. Qed.
Lemma quiet_trans s1 s2 s3 : quiet s1 s2 -> quiet s2 s3 -> quiet s1 s3.
Proof.
  intros [E1 (n1 & F1 & H1)] [E2 (n2 & F2 & H2)]. split; [congruence|]. exists (n2 ++ n1).
  rewrite F2, F1, app_assoc. split; [done|]. apply Forall_app. split; [|done].
  eapply Forall_impl; [exact H2|]. intros [i|i ?|?]; cbn; try done; by apply online_cfg.
Qed.

(** Talking to a server that is not offline. *)
Lemma link_quiet s s' i : link s s' -> rs_cur s = Some i -> online s i -> quiet s s' /\ at_rest s'.
Proof.
  intros [_ Ec Ee (new & En & Hn)] Hi Ho. split.
  - split; [done|]. exists new. split; [done|]. eapply Forall_impl; [exact Hn|].
    intros [j|j ?|?]; cbn; try done; intros ?; by simplify_eq.
  - right. exists i. split; [by rewrite Ec|by eapply online_cfg].
Qed.

Lemma moved_quiet s s' i : moved i s s' -> at_rest s -> quiet s s' /\ at_rest s'.
Proof.
  intros Hm Hr. destruct (mv_sent _ _ _ Hm) as (new & En & Hn & Hnil). split.
  - split; [apply (mv_link _ _ _ Hm)|]. exists new. split; [done|].
    destruct Hr as [Hr|(j & Hj & Ho)]; [by rewrite Hnil|]. eapply Forall_impl; [exact Hn|].
    intros [k|k ?|?]; cbn; try done; intros ?; by simplify_eq.
  - destruct (decide (rs_cur s = Some i)) as [Ei|Ei]; [by rewrite (mv_same _ _ _ Hm Ei)|].
    left. apply (mv_conn _ _ _ Hm Ei). destruct Hr as [?|(j & Hj & _)]; [done|]. by rewrite Hj.
Qed.

(** With the server [i] made current and talked to. *)
Lemma reached_quiet s s1 s' i : moved i s s1 -> link s1 s' -> at_rest s -> online s i -> quiet s s' /\ at_rest s'.
Proof.
  intros Hm Hk Hr Ho. destruct (moved_quiet _ _ _ Hm Hr) as [Hq1 _].
  destruct (link_quiet s1 s' i Hk) as [? ?]; [apply Hm|eapply online_cfg; [apply (mv_link _ _ _ Hm)|done]|].
  split; [by eapply quiet_trans|done].
Qed.

(** *** The operations *)
Section ops.
Context (m i : nat).

(** [c] runs from a state with the server [i], which is not offline, as the current
    one, and goes on talking to it. *)
Definition stays {A} (c : M (rserver adb) A) s : Prop :=
  rs_ok m s -> rs_cur s = Some i ->
  may c (fun _ s' => rs_ok m s' /\ link s s') (fun _ s' => link s s') s.

(** The last step need not leave a well-formed state. *)
Definition stays_last {A} (c : M (rserver adb) A) s : Prop :=
  rs_ok m s -> rs_cur s = Some i -> may c (fun _ s' => link s s') (fun _ s' => link s s') s.

Lemma stays_bind {A B} (c : M (rserver adb) A) (k : A -> M (rserver adb) B) s :
  stays c s -> (forall a s', stays_last (k a) s') -> stays_last (bind c k) s.
Proof.
  intros Hc Hk Hs Hi. pstep. eapply may_mono; [by apply Hc| |done]. intros a s1 [Hs1 Hk1].
  eapply may_mono; [apply Hk; [done|by rewrite (lk_cur _ _ Hk1)]|..]; intros ? ? ?; by eapply link_trans.
Qed.

Lemma stays_issue cmd ex s : stays (issue cmd ex) s.
Proof.
  intros Hs Hi. eapply may_mono; [apply runs_may, (issue_ends m); [done|by eapply cur_of_ok]|..].
  - by intros ? ? [[? ?] _].
  - by intros ? ? [[? ?] _].
Qed.

Lemma last_raise {A} e s : stays_last (A := A) (raise e) s.
Proof. intros _ _. pstep. apply link_refl. Qed.
Lemma last_ret {A} (a : A) s : stays_last (ret a) s.
Proof. intros _ _. pstep. apply link_refl. Qed.

Lemma last_read_article nbr art s : stays_last (read_article nbr art) s.
Proof.
  intros _ _. unfold read_article, the_stream. do 2 pstep. pstep. destruct (rs_conn s) as [ist|]; [|by pstep].
  pstep. destruct (a_read ist art) as [[a ist']|]; [|by pstep]. repeat pstep. by apply link_same.
Qed.

Lemma stays_readline strg keepnl s : stays (readline strg keepnl) s.
Proof.
  intros Hs Hi. unfold may. destruct (rs_conn s) as [ist|] eqn:Ec.
  - pose proof (runs_readline (fun _ _ => False) m s strg keepnl Hs ltac:(by eexists)) as H. unfold runs in H.
    destruct (readline strg keepnl s); try done. by destruct H as [[? ?] _].
  - unfold readline, the_stream, bind, gets. by rewrite Ec.
Qed.

Lemma stays_good s : stays conn_good s.
Proof.
  intros Hs Hi. unfold conn_good, the_stream, may, bind, gets. destruct (rs_conn s); cbn; [|done].
  split; [done|apply link_refl].
Qed.

Lemma stays_clear fl s : stays (clear_nntpflag fl) s.
Proof.
  intros Hs Hi. apply runs_may. eapply runs_mono;
    [apply (runs_clear (fun _ _ => False) m); [done|by eapply cur_of_ok]|by intros ? ? [[? ?] _]|done].
Qed.

Lemma stays_cur s : stays cur_server s.
Proof.
  intros Hs Hi. apply runs_may. eapply runs_mono;
    [apply (runs_cur_server (fun _ _ => False) m); [done|by eapply cur_of_ok]| |done].
  intros e s' [-> _]. split; [done|apply link_refl].
Qed.

Lemma stays_stream s : stays the_stream s.
Proof.
  intros Hs Hi. unfold the_stream. do 2 pstep. destruct (rs_conn s); pstep. split; [done|apply link_refl].
Qed.

Lemma last_listgroup : forall n line f l lst s, stays_last (listgroup_loop n line f l lst) s.
Proof.
  induction n as [|n IH]; intros line f l lst s; cbn [listgroup_loop]; [by intros _ _|].
  apply stays_bind; [apply stays_readline|]. intros ln s1. case_bool_decide; [apply last_ret|].
  apply stays_bind; [apply stays_good|]. intros g s2. destruct (negb g); [apply last_raise|]. cbv zeta.
  destruct (_ && _); [|apply IH]. destruct (_ <? _)%nat; [apply IH|by intros _ _].
Qed.

Lemma last_on_group {G} {ng : Newsgroup G} (g : G) s : stays_last (on_group g) s.
Proof.
  apply stays_bind; [apply stays_stream|]. intros ist s1 _ _. pstep. pstep.
  destruct (ng_readoverdb _ _ _) as [ist' g'|e g'| |]; [|pstep; apply link_refl|by pstep..].
  repeat pstep. by apply link_same.
Qed.

Lemma last_overviewdb {G} {ng : Newsgroup G} : forall n (g : G) x fst lst s,
  stays_last (overviewdb_loop n g x fst lst) s.
Proof.
  induction n as [|n IH]; intros g x fst lst s; cbn [overviewdb_loop]; [by intros _ _|].
  apply stays_bind; [apply stays_cur|]. intros e s1. cbv zeta. destruct (negb _); [apply last_raise|].
  apply stays_bind; [apply stays_issue|]. intros resp s2.
  destruct (nntp_iscode _ _); [apply last_on_group|].
  do 3 (destruct (nntp_iscode _ _); [apply last_raise|]).
  apply stays_bind; [apply stays_clear|]. intros _ s3. apply IH.
Qed.
End ops.

(** After selectgroup. *)
Lemma after_select {A} m name i force (k : M (rserver adb) A) s : (NUL ∉ name) -> name <> [] ->
  rs_ok (S m) s -> at_rest s -> server (rs_entries s) name = Some i -> online s i ->
  (forall s', stays_last m i k s') -> quietly (selectgroup name force ;;; k) s.
Proof.
  intros Hnul Hne Hs Hr Hsrv Ho Hk. unfold quietly. pstep.
  eapply may_mono; [by apply runs_may, (select_ends m)|..]; cbv beta.
  - intros _ s1 [[Hs1 Hch] _].
    assert (rs_cur s1 = Some i /\ forall s2, link s1 s2 -> quiet s s2 /\ at_rest s2) as [Hc Hq].
    { destruct Hch as [[-> Hn]|(j & s0 & Hj & Hm & Hk1)].
      - destruct (ro_name _ _ Hs) as [H|[_ H]]; [congruence|]. rewrite Hn, Hsrv in H.
        split; [done|]. intros s2 Hl. by eapply link_quiet.
      - simplify_eq. split; [rewrite (lk_cur _ _ Hk1); apply Hm|]. intros s2 Hl.
        eapply reached_quiet; [done| |done..]. by eapply link_trans. }
    eapply may_mono; [by apply Hk|..]; intros ? ? ?; by apply Hq.
  - intros e s1 [[_ [->|(j & s0 & Hj & Hm & Hk1)]] _]; [by split; [apply quiet_refl|]|].
    simplify_eq. by eapply reached_quiet.
Qed.

Lemma with_mpe {A} name (k : MPListEntry -> M (rserver adb) A) s :
  (forall i e, server (rs_entries s) name = Some i -> rs_entries s !! i = Some e -> quietly (k e) s) ->
  quietly (bind (deref_mpe name) k) s.
Proof.
  intros H. unfold quietly, deref_mpe, find_mpe. repeat pstep.
  destruct (server (rs_entries s) name) as [i|] eqn:Ei; [|by repeat pstep].
  destruct (rs_entries s !! i) as [e|] eqn:Ee; [|by repeat pstep]. repeat pstep. by eapply H.
Qed.

Lemma quietly_raise {A} e s : at_rest s -> quietly (A := A) (raise e) s.
Proof. intros. unfold quietly. pstep. split; [apply quiet_refl|done]. Qed.
Lemma quietly_ret {A} (a : A) s : at_rest s -> quietly (ret a) s.
Proof. intros. unfold quietly. pstep. split; [apply quiet_refl|done]. Qed.

Lemma online_entry s i e : rs_entries s !! i = Some e -> offline e = false -> online s i.
Proof. intros He Ho e' He'. by simplify_eq. Qed.

Lemma quiet_listgroup m gname f l lst s : (NUL ∉ gname) -> gname <> [] -> rs_ok (S m) s -> at_rest s ->
  quietly (c_listgroup gname f l lst) s.
Proof.
  intros ????. apply with_mpe. intros i e Hi He. destruct (offline e) eqn:Eo; [by apply quietly_raise|].
  eapply (after_select m); try done; [by eapply online_entry|]. intros s'.
  apply stays_bind; [apply stays_issue|]. intros resp s1. destruct (negb _); [apply last_raise|].
  apply stays_bind; [apply stays_stream|]. intros ist s2. apply last_listgroup.
Qed.

Lemma quiet_overviewdb {G} {ng : Newsgroup G} m (g : G) f l s : (NUL ∉ ng_name g) -> ng_name g <> [] ->
  rs_ok (S m) s -> at_rest s -> quietly (c_overviewdb g f l) s.
Proof.
  intros ????. apply with_mpe. intros i e Hi He. destruct (offline e) eqn:Eo; [by apply quietly_ret|].
  eapply (after_select m); try done; [by eapply online_entry|]. intros s'. apply last_overviewdb.
Qed.

Lemma quiet_article m gname nbr art s : (NUL ∉ gname) -> gname <> [] -> rs_ok (S m) s -> at_rest s ->
  quietly (c_article gname nbr art) s.
Proof.
  intros ????. apply with_mpe. intros i e Hi He. destruct (offline e) eqn:Eo; [by apply quietly_raise|].
  eapply (after_select m); try done; [by eapply online_entry|]. intros s'.
  apply stays_bind; [apply stays_issue|]. intros resp s1.
  destruct (negb _); [destruct (bool_decide _); apply last_raise|apply last_read_article].
Qed.

(** From a state that was reached quietly. *)
Lemma quietly_from {A} (c : M (rserver adb) A) s s1 : quiet s s1 -> quietly c s1 ->
  may c (fun _ s' => quiet s s' /\ at_rest s') (fun _ s' => quiet s s' /\ at_rest s') s1.
Proof. intros Hq H. eapply may_mono; [exact H|..]; intros ? ? [? ?]; split; try done; by eapply quiet_trans. Qed.

Lemma last_quietly {A} m i (c : M (rserver adb) A) s : stays_last m i c s -> rs_ok m s -> rs_cur s = Some i ->
  online s i -> quietly c s.
Proof. intros H Hs Hi Ho. eapply may_mono; [by apply H|..]; intros ? ? ?; by eapply link_quiet. Qed.

Lemma quiet_servers m cmd art cs : forall n i s, rs_ok m s -> at_rest s ->
  quietly (article_servers n i (fun i e => bool_decide (cs = Some i) || offline e) cmd art) s.
Proof.
  induction n as [|n IH]; intros i s Hs Hr; cbn [article_servers]; [by apply quietly_raise|].
  unfold quietly. pstep. pstep. destruct (rs_entries s !! i) as [e|] eqn:He; [|by apply quietly_raise].
  destruct (offline e) eqn:Eo; [rewrite orb_true_r; by apply IH|].
  destruct (bool_decide (cs = Some i)) eqn:E1; [by apply IH|]. cbn [orb].
  destruct (bool_decide (hostname e = [])) eqn:E2; [by apply IH|].
  pstep. eapply may_mono; [apply runs_may, (runs_setserver (fun _ _ => False) m); [done|by eexists]| |done].
  intros _ s1 [Hs1 Hm]. pose proof (mv_cur _ _ _ Hm) as Hi1. destruct (moved_quiet _ _ _ Hm Hr) as [Hq1 Hr1].
  assert (online s1 i) as Ho by (eapply online_cfg; [apply Hq1|by eapply online_entry]).
  apply quietly_from; [done|]. unfold quietly. pstep.
  eapply may_mono; [apply runs_may, (connect_ends m); [done|by eapply cur_of_ok]|..]; cbv beta.
  2: { intros ? ? [[_ ?] _]. by eapply link_quiet. }
  intros _ s2 [[Hs2 Hk2] _]. assert (rs_cur s2 = Some i) as Hi2 by by rewrite (lk_cur _ _ Hk2).
  destruct (link_quiet _ _ _ Hk2 Hi1 Ho) as [Hq2 Hr2]. apply quietly_from; [done|].
  assert (online s2 i) as Ho2 by (eapply online_cfg; [apply Hq2|done]).
  unfold quietly. pstep. eapply may_mono; [by apply (stays_issue m i)|..]; cbv beta.
  2: { intros ? ? ?. by eapply link_quiet. }
  intros resp s3 [Hs3 Hk3]. assert (rs_cur s3 = Some i) as Hi3 by by rewrite (lk_cur _ _ Hk3).
  destruct (link_quiet _ _ _ Hk3 Hi2 Ho2) as [Hq3 Hr3]. apply quietly_from; [done|].
  destruct (bool_decide (take 3 resp = _)); [|by apply IH].
  eapply (last_quietly m i); [apply last_read_article|done..|]. eapply online_cfg; [apply Hq3|done].
Qed.

Lemma quiet_article_id m id art s : rs_ok m s -> at_rest s -> quietly (c_article_id id art) s.
Proof.
  intros Hs Hr. unfold c_article_id, article_by_id. destruct (_ <? _)%nat; [done|]. cbv zeta.
  assert (forall s1, rs_ok m s1 -> at_rest s1 -> quietly (cs <- gets rs_cur ;; es <- gets rs_entries ;;
    article_servers (length es) 0 (fun i e => bool_decide (cs = Some i) || offline e)
      (crlf (bs "article " ++ id)) art) s1) as Hrest.
  { intros s1 ??. unfold quietly. repeat pstep. by apply (quiet_servers m). }
  unfold quietly. pstep. pstep. destruct (rs_cur s) as [i|] eqn:Ei; [|by do 5 pstep; apply Hrest].
  pstep. pstep. unfold cur_server, cur_index. repeat pstep. rewrite Ei. repeat pstep.
  destruct (rs_entries s !! i) as [e|] eqn:He; [|by pstep]. pstep. pstep.
  destruct (offline e) eqn:Eo; cbn [negb]; [by do 2 pstep; apply Hrest|].
  assert (online s i) as Ho by by eapply online_entry.
  pstep. pstep. eapply may_mono; [by apply (stays_issue m i)|..]; cbv beta.
  2: { intros ? ? ?. by eapply link_quiet. }
  intros resp s1 [Hs1 Hk1]. assert (rs_cur s1 = Some i) as Hi1 by by rewrite (lk_cur _ _ Hk1).
  destruct (link_quiet _ _ _ Hk1 Ei Ho) as [Hq1 Hr1].
  assert (online s1 i) as Ho1 by (eapply online_cfg; [apply Hq1|done]).
  destruct (bool_decide (take 3 resp = _)).
  - pstep. eapply may_mono; [by apply (last_read_article m i)|..]; cbv beta.
    + intros a s2 Hk2. repeat pstep. eapply link_quiet; [by eapply link_trans|done..].
    + intros e' s2 Hk2. eapply link_quiet; [by eapply link_trans|done..].
  - pstep. apply quietly_from; [done|]. by apply Hrest.
Qed.

Lemma quiet_groupinfo m name g s : (NUL ∉ name) -> name <> [] -> length g = sizeof_GroupInfo ->
  rs_ok (S m) s -> at_rest s -> quietly (c_groupinfo name g) s.
Proof.
  intros Hnul Hne Hg Hs Hr. unfold c_groupinfo. destruct (_ <? _)%nat; [by apply quietly_raise|].
  unfold quietly, find_mpe. repeat pstep.
  destruct (server (rs_entries s) name) as [i|] eqn:Ei; [|repeat pstep; split; [apply quiet_refl|done]].
  destruct (rs_entries s !! i) as [e|] eqn:He; [|by repeat pstep]. repeat pstep.
  destruct (ro_db _ _ Hs) as [v Hv].
  destruct (on_db_get _ v name g s Hv Hg) as (s1 & Eget & Es1 & Hd1).
  assert (rs_ok (S m) s1 /\ at_rest s1 /\ quiet s s1) as (Hs1 & Hr1 & Hq1).
  { destruct Hs. rewrite Es1. split_and!; [split; try done; by exists v|done|split; [done|by exists []]]. }
  assert (server (rs_entries s1) name = Some i /\ rs_entries s1 !! i = Some e) as [Ei1 He1] by by rewrite Es1.
  clear Es1. destruct (offline e) eqn:Eo.
  - unfold l_groupinfo. destruct (_ <? _)%nat; [by apply quietly_raise|].
    pstep. unfold may at 1. rewrite Eget. destruct (v name); cbn [fmap option_fmap option_map]; by pstep.
  - pstep. unfold may at 1. rewrite Eget. cbv zeta. destruct (_ || _); [|by pstep].
    pstep. eapply may_mono.
    + apply (quietly_from _ s s1 Hq1). eapply (after_select m); try done; [by eapply online_entry|].
      intros s' _ _. pstep. apply link_refl.
    + done.
    + intros x s2 H. destruct x; try (by pstep); destruct (bool_decide _); by pstep.
Qed.

Lemma quietly_pure {A B} (c : M (rserver adb) A) (k : A -> M (rserver adb) B) s : pure c -> at_rest s ->
  (forall a, quietly (k a) s) -> quietly (bind c k) s.
Proof.
  intros Hc Hr Hk. unfold quietly. pstep. eapply may_mono; [apply Hc|..]; cbv beta.
  - intros a s1 ->. apply Hk.
  - intros e s1 [-> _]. by split; [apply quiet_refl|].
Qed.

Lemma quiet_post_loop m a : forall mpe p s, rs_ok m s -> at_rest s -> quietly (post_loop mpe a p) s.
Proof.
  induction mpe as [|i mpe IH]; intros p s Hs Hr; cbn [post_loop]; [by apply quietly_ret|].
  unfold quietly. pstep. pstep. destruct (rs_entries s !! i) as [e|] eqn:He; [|by pstep]. pstep.
  destruct (has_flag (flags e) F_OFFLINE) eqn:Eo; [by pstep; apply IH|].
  assert (online s i) as Ho by by eapply online_entry.
  assert (forall s1, went m i s s1 -> forall p, quiet s s1 /\ at_rest s1 /\
    may (post_loop mpe a p) (fun _ s' => quiet s s' /\ at_rest s') (fun _ s' => quiet s s' /\ at_rest s') s1) as Hw.
  { intros s1 [Hs1 (s0 & Hm & Hk)] p1. destruct (reached_quiet _ _ _ _ Hm Hk Hr Ho) as [Hq1 Hr1].
    split_and!; [done|done|]. apply quietly_from; [done|by apply IH]. }
  pstep. pstep. eapply may_mono; [apply (post_server_spec m); [done|by eexists]|..]; cbv beta.
  - intros _ s1 [H _]. pstep. by apply Hw.
  - intros x s1 [H _]. destruct (classify x p); pstep; [by apply Hw|]. by split; apply (Hw _ H p).
Qed.

Lemma pure_catch {A S} (c : M S A) h : pure c -> (forall e, e <> DuplicateArticleError -> pure (h e)) -> pure (catch c h).
Proof.
  intros Hc Hh s. pstep. eapply may_mono; [apply Hc|done|]. intros e s' [-> He]. by apply Hh.
Qed.

Lemma quiet_post m a s : rs_ok m s -> at_rest s -> quietly (r_post a) s.
Proof.
  intros Hs Hr. unfold r_post. apply quietly_pure; [|done|].
  { apply pure_catch; [|by intros [] ?; apply pure_throw].
    apply pure_bind; [apply pure_has_field|]. intros f. destruct (negb f); [by apply pure_throw|].
    apply pure_bind; [apply pure_has_field|]. intros f2. destruct (negb f2); [by apply pure_throw|].
    apply pure_getfield. }
  intros v. apply quietly_pure; [destruct (bool_decide _); [apply pure_ret|apply pure_setfield]|done|].
  intros a1. unfold quietly. pstep.
  apply (may_mono _ (fun _ s1 => s1 = s \/ exists n, s1 = set_pc n s) _ (fun _ _ => False)); [| |done].
  { pstep. pstep. unfold add_message_id. pstep.
    eapply may_mono; [apply pure_has_field|..]; cbv beta; [|by intros e s1 [-> _]; pstep; left].
    intros h s1 ->. destruct h; [by repeat pstep; left|]. do 4 pstep.
    eapply may_mono; [apply pure_setfield|..]; cbv beta.
    - intros a2 s2 ->. pstep. right. by eexists.
    - intros e s2 [-> _]. pstep. right. by eexists. }
  intros r s1 Hs1. assert (rs_ok m s1 /\ at_rest s1 /\ quiet s s1) as (Hok & Hr1 & Hq).
  { destruct Hs1 as [->|[n ->]]; [by split_and!; [..|apply quiet_refl]|].
    split_and!; [by apply rs_ok_pc|done|]. split; [done|by exists []]. }
  apply quietly_from; [done|]. destruct r as [e|a2]; [by apply quietly_ret|].
  unfold quietly. pstep. pstep. destruct (post_servers _ _ _ _); [by apply quietly_ret|].
  pstep. eapply may_mono; [by apply (quiet_post_loop m)|..]; cbv beta; [|done].
  intros p s2 ?. by pstep.
Qed.

(** *** active *)
Lemma tied_of_ok m s : rs_ok m s -> tied s.
Proof. intros []. by split. Qed.

Definition rests s : Prop := at_rest s /\ tied s.
Definition calm s s' : Prop := quiet s s' /\ rests s'.

Lemma calm_refl s : rests s -> calm s s.
Proof. intros. split; [apply quiet_refl|done]. Qed.
Lemma calm_trans s1 s2 s3 : calm s1 s2 -> calm s2 s3 -> calm s1 s3.
Proof. intros [? _] [? ?]. split; [by eapply quiet_trans|done]. Qed.

Lemma visited_calm i s s' : visited i s s' -> at_rest s -> calm s s'.
Proof.
  intros (Ht & s1 & Hm & Hk & Hon) Hr. unfold calm, rests. destruct Hon as [->|(e & He & Hf)].
  { by destruct (moved_quiet _ _ _ Hm Hr). }
  assert (online s i) as Ho.
  { eapply (online_cfg s1); [symmetry; apply (mv_link _ _ _ Hm)|]. eapply online_entry; [exact He|].
    unfold offline, has_flag in *. apply negb_false_iff, Z.eqb_eq in Hf. apply negb_false_iff, Z.eqb_eq.
    rewrite Z.land_lor_distr_r in Hf. by apply Z.lor_eq_0_iff in Hf as [? _]. }
  by destruct (reached_quiet _ _ _ _ Hm Hk Hr Ho).
Qed.

Lemma calm_active_loop : forall n i s, rests s -> may (active_loop n i) (fun _ => calm s) (fun _ => calm s) s.
Proof.
  induction n as [|n IH]; intros i s Hr; cbn [active_loop]; [pstep; by apply calm_refl|].
  do 2 pstep. destruct (rs_entries s !! i) as [e|] eqn:He; [|pstep; by apply calm_refl]. pstep.
  assert (forall s1, calm s s1 -> may (active_loop n (i + 1)) (fun _ => calm s) (fun _ => calm s) s1) as Hn.
  { intros s1 Hc. eapply may_mono; [apply IH, Hc|..]; cbv beta; intros ? ? ?; by apply (calm_trans s s1). }
  case_bool_decide; [pstep; apply Hn; by apply calm_refl|]. pstep.
  eapply may_mono; [apply active_server_visits; [apply Hr|by eexists]|..]; cbv beta.
  - intros _ s1 Hv. apply Hn. by eapply visited_calm, Hr.
  - intros x s1 Hv. destruct (is_error x); pstep; [apply Hn|]; by eapply visited_calm, Hr.
Qed.

Lemma calm_active s : rests s -> may r_active (fun _ => calm s) (fun _ => calm s) s.
Proof. intros. unfold r_active. do 2 pstep. by apply calm_active_loop. Qed.

(** The same of the caching server, which looks at the age of the database first. *)
Definition calmly {A} (c : M cserver A) cs : Prop := rests (cs_rs cs) ->
  may c (fun _ cs' => calm (cs_rs cs) (cs_rs cs')) (fun _ cs' => calm (cs_rs cs) (cs_rs cs')) cs.

Lemma calmly_bind {A B} (c : M cserver A) (k : A -> M cserver B) cs :
  calmly c cs -> (forall a cs', calmly (k a) cs') -> calmly (bind c k) cs.
Proof.
  intros Hc Hk Hr. pstep. eapply may_mono; [by apply Hc| |done]. cbv beta. intros a c1 H1.
  eapply may_mono; [apply Hk, H1|..]; cbv beta; intros ? c2 ?; by apply (calm_trans _ (cs_rs c1)).
Qed.

Lemma calmly_catch {A} (c : M cserver A) h cs : calmly c cs -> (forall e cs', calmly (h e) cs') -> calmly (catch c h) cs.
Proof.
  intros Hc Hh Hr. pstep. eapply may_mono; [by apply Hc|done|]. cbv beta. intros e c1 H1.
  eapply may_mono; [apply Hh, H1|..]; cbv beta; intros ? c2 ?; by apply (calm_trans _ (cs_rs c1)).
Qed.

Lemma calmly_ret {A} (a : A) cs : calmly (ret a) cs.
Proof. intros Hr. pstep. by apply calm_refl. Qed.

Lemma calmly_adb {A} (c : M adb A) cs : calmly (on_adb c) cs.
Proof.
  intros [Hr Ht]. unfold may, on_adb, on_rs, on_db.
  assert (forall d, calm (cs_rs cs) (set_db d (cs_rs cs))) by (intros; split; [split; [done|by exists []]|split; [exact Hr|by destruct Ht]]).
  destruct (c (rs_db (cs_rs cs))); cbn; auto.
Qed.

Lemma calmly_valid cs : calmly active_valid cs.
Proof.
  unfold active_valid. apply calmly_bind; [apply calmly_adb|]. intros tm c1 Hr. do 2 pstep. pstep. by apply calm_refl.
Qed.

Lemma calmly_active cs : calmly c_active cs.
Proof.
  unfold c_active. apply calmly_bind; [apply calmly_valid|]. intros [] c1; [apply calmly_ret|].
  apply calmly_bind; [apply calmly_adb|]. intros _ c2. apply calmly_bind; [|intros _ c3; apply calmly_adb].
  apply calmly_catch; [|intros; apply calmly_ret]. apply calmly_bind; [apply calmly_valid|].
  intros [] c3; [apply calmly_ret|]. intros Hr. unfold may, on_rs.
  pose proof (calm_active _ Hr) as H. unfold may in H. by destruct (r_active (cs_rs c3)).
Qed.

(** C23: a server that is marked offline is left alone: groupinfo, listgroup,
    overviewdb, article (by number and by identifier), post and the retrieval of the
    list of groups in active neither connect to it nor send it anything, whatever the
    connections deliver and however they end.  The connection that is open before and
    after is one to a server that is not offline. *)
Theorem offline_silent {G} {ng : Newsgroup G} m s : rs_ok (S m) s -> at_rest s ->
  (forall name g, (NUL ∉ name) -> name <> [] -> length g = sizeof_GroupInfo -> quietly (c_groupinfo name g) s) /\
  (forall name f l lst, (NUL ∉ name) -> name <> [] -> quietly (c_listgroup name f l lst) s) /\
  (forall (g : G) f l, (NUL ∉ ng_name g) -> ng_name g <> [] -> quietly (c_overviewdb g f l) s) /\
  (forall name nbr art, (NUL ∉ name) -> name <> [] -> quietly (c_article name nbr art) s) /\
  (forall id art, quietly (c_article_id id art) s) /\
  (forall art, quietly (r_post art) s) /\
  quietly r_active s /\
  (forall cs, cs_rs cs = s -> may c_active (fun _ cs' => quiet s (cs_rs cs') /\ at_rest (cs_rs cs'))
                                (fun _ cs' => quiet s (cs_rs cs') /\ at_rest (cs_rs cs')) cs).
Proof.
  intros Hs Hr. pose proof (rs_ok_less m (S m) s ltac:(lia) Hs) as Hs'.
  assert (rests s) as Ht by (split; [done|by eapply tied_of_ok]).
  split_and!; intros.
  - by apply (quiet_groupinfo m).
  - by apply (quiet_listgroup m).
  - by apply (quiet_overviewdb m).
  - by apply (quiet_article m).
  - by apply (quiet_article_id m).
  - by apply (quiet_post m).
  - eapply may_mono; [by apply calm_active|..]; by intros ? ? [? []].
  - subst s. eapply may_mono; [by apply calmly_active|..]; by intros ? ? [? []].
Qed.
End offline.

(** ** A server that is offline, and one that is not *)
Section example.
#[local] Existing Instance good_os.
#[local] Instance c_env : Env := {|
  nntp_hostname := bs "cache"; nntp_posting_host := []; env_pid := 77; env_tv_sec := 1000
|}.

Definition ex_offline : MPListEntry := set_nums 600 (Z.lor F_OFFLINE F_CACHED) (nntpflags ex_server) 3 ex_server.
Definition ex_two : rserver adb := set_entries [ex_offline; ex_server] (ex_state ex_replies).
#[local] Opaque ex_adb no_buckets.

Lemma ex_two_ok : rs_ok 5 ex_two /\ at_rest ex_two.
Proof.
  destruct (ex_talk_ok ex_replies ltac:(cbn; lia)) as [[H1 H2 H3 H4 H5 H6] _].
  split; [|left; reflexivity]. split; [| |exact H3| |intros ist; exact (H5 ist)|exact H6].
  - apply Forall_cons_2; [split; vm_compute; [discriminate|reflexivity]|exact H1].
  - intros i [= <-]. by eexists.
  - left. vm_compute. reflexivity.
Qed.

Lemma offline_silent_witness :
  quietly (c_article_id (bs "<1@x>") (MkArticle 0 [])) ex_two /\ quietly (r_post ex_article) ex_two /\
  quietly (c_listgroup (bs "comp.x") 1 9 (replicate 9 false)) ex_two /\ quietly r_active ex_two.
Proof.
  destruct ex_two_ok as [Hok Hr].
  destruct (offline_silent (G := RNewsgroup) 4 ex_two Hok Hr) as (_ & Hl & _ & _ & Ha & Hp & Hact & _).
  split; [apply Ha|split; [apply Hp|split; [|apply Hact]]]. apply Hl; [notin|discriminate].
Defined.

Lemma c_groupinfo_spec_witness : exists s1,
  c_groupinfo (bs "comp.x") ex_group ex_two = Throw NoSuchGroupError s1 /\
  kept 20 (adb_lookup no_buckets) ex_two s1.
Proof.
  destruct (c_groupinfo_spec 20 (adb_lookup no_buckets) (bs "comp.x") ex_group ex_two 0 ex_offline)
    as (s1 & Hk & E).
  - exact ex_db_rep.
  - vm_compute. reflexivity.
  - reflexivity.
  - cbn. lia.
  - vm_compute. reflexivity.
  - exists s1. split; [|exact Hk].
    assert (adb_lookup no_buckets (bs "comp.x") = None) as En by (vm_compute; reflexivity).
    cbv zeta in E. rewrite En in E. exact E.
Defined.
End example.
