(* ===== verification/CSpool.v ===== *)
(** * CSpool.v: the spool of articles

    The directory of spooled articles is a bag, from which the order of readdir
    picks; and an article the spool loses. *)
From S2P Require Import Prelude Memory Text Matching ServerList Container GroupInfo Article OverviewFmt RServer.
From S2P Require Import DbLaws RSafe RNews RTalk RPost CServer.

(** ** Reading a file back *)
Lemma readtext_file_loop : forall ls line strg n fuel, Forall plain_line ls -> (length ls < fuel)%nat ->
  exists k ist, readtext_loop fuel (IStream (sent_text ls) false false) line strg true (bs "." ++ [CR; LF]) n =
    Some (strg ++ sent_text ls, k, ist).
Proof.
  induction ls as [|l ls IH]; intros line strg n [|fuel] Hls Hf; cbn [length] in Hf; try lia; cbn [readtext_loop].
  - cbn. eexists _, _. by rewrite app_nil_r.
  - apply Forall_cons in Hls as [(Hlf & Hcr & Hdot) Hls].
    assert (sent_text (l :: ls) = (l ++ [CR]) ++ LF :: sent_text ls) as E.
    { unfold sent_text. cbn [fmap list_fmap concat]. by rewrite <- !app_assoc. }
    assert (LF ∉ l ++ [CR]) as Hlf'.
    { intros [?|H]%elem_of_app; [done|]. revert H. notin. }
    rewrite E, (nlreadline_line _ _ _ _ _ Hlf' (stripped_crlf l Hlf Hcr)).
    rewrite bool_decide_eq_false_2 by (intros H; by apply app_inv_tail in H). cbn [good s_eof s_fail negb andb].
    destruct (IH (l ++ [CR; LF]) (strg ++ l ++ [CR; LF]) (n + 1) fuel Hls ltac:(lia)) as (k & ist & ->).
    exists k, ist. do 3 f_equal. by rewrite <- !app_assoc.
Qed.

Lemma length_sent ls : (length ls <= length (sent_text ls))%nat.
Proof.
  induction ls as [|l ls IH]; [done|]. unfold sent_text in *. cbn [fmap list_fmap concat length].
  rewrite !length_app. cbn [length]. lia.
Qed.

Lemma a_read_file ls a : Forall plain_line ls ->
  exists ist, a_read (IStream (sent_text ls) false false) a = Some (a_settext (sent_text ls) a, ist).
Proof.
  intros H. unfold a_read, readtext. cbn [s_rest]. pose proof (length_sent ls).
  destruct (readtext_file_loop ls [] [] 0 (S (length (sent_text ls))) H ltac:(lia)) as (k & ist & ->).
  by exists ist.
Qed.

(** ** The bag of articles *)
Definition is_art (f : bytes * bytes) : bool := bool_decide (take 4 (fst f) = art_prefix).
Definition spooled (sp : spooler) : list bytes := snd <$> List.filter is_art (sp_art sp).

(** The names of the files are different, readdir gives each file once, and every
    article consists of lines that end with CR LF, none of them a single period. *)
Definition plain_text (t : bytes) : Prop := exists ls, t = sent_text ls /\ Forall plain_line ls.
Record spool_ok (sp : spooler) : Prop := {
  so_names : NoDup (sp_art sp).*1;
  so_orders : Forall (fun o => forall dir, o dir ≡ₚ dir) (sp_orders sp);
  so_plain : Forall plain_text (spooled sp)
}.

Lemma unlink_absent fn dir : fn ∉ dir.*1 -> unlink_file fn dir = dir.
Proof.
  induction dir as [|[n x] dir IH]; [done|]. cbn [fmap list_fmap fst unlink_file List.filter]. intros [Hne H]%not_elem_of_cons.
  rewrite bool_decide_eq_false_2 by congruence. cbn [negb]. f_equal. by apply IH.
Qed.

Lemma unlink_sub fn dir x : x ∈ (unlink_file fn dir).*1 -> x ∈ dir.*1.
Proof.
  rewrite !list_elem_of_fmap. intros (f & -> & H). exists f. split; [done|].
  apply list_elem_of_In in H. apply list_elem_of_In. unfold unlink_file in H. by apply filter_In in H as [H _].
Qed.

Lemma unlink_names fn dir : NoDup dir.*1 -> NoDup (unlink_file fn dir).*1.
Proof.
  induction dir as [|[n x] dir IH]; [done|]. cbn [fmap list_fmap fst unlink_file List.filter]. intros [Hn Hd]%NoDup_cons.
  destruct (bool_decide _); cbn [negb]; [by apply IH|]. cbn [fmap list_fmap fst]. apply NoDup_cons. split; [|by apply IH].
  intros H. by eapply Hn, unlink_sub.
Qed.

(** A file and the others. *)
Lemma unlink_perm fn t dir : NoDup dir.*1 -> (fn, t) ∈ dir -> dir ≡ₚ (fn, t) :: unlink_file fn dir.
Proof.
  induction dir as [|[n x] dir IH]; [by intros _ ?%elem_of_nil|]. cbn [fmap list_fmap fst]. intros [Hn Hd]%NoDup_cons.
  cbn [unlink_file List.filter fst]. intros [[= -> ->]|H]%elem_of_cons.
  - rewrite bool_decide_eq_true_2 by done. cbn [negb]. by fold (unlink_file n dir); rewrite unlink_absent.
  - rewrite bool_decide_eq_false_2; cbn [negb].
    + rewrite (IH Hd H) at 1. apply perm_swap.
    + intros ->. apply Hn, list_elem_of_fmap. by exists (fn, t).
Qed.

Lemma snoc_names (fn text : bytes) (dir : directory) : NoDup dir.*1 -> fn ∉ dir.*1 -> NoDup (dir ++ [(fn, text)]).*1.
Proof.
  intros H Hn. rewrite fmap_app. apply NoDup_app. split_and!; [done| |by apply NoDup_singleton].
  intros x Hx ->%list_elem_of_singleton. by apply Hn.
Qed.

Lemma first_file_in dir f : first_file dir = Some f -> f ∈ dir /\ is_art f = true.
Proof. intros [H ?]%find_some. split; [by apply list_elem_of_In|done]. Qed.

Lemma spooled_perm (dir dir' : directory) : dir ≡ₚ dir' -> snd <$> List.filter is_art dir ≡ₚ snd <$> List.filter is_art dir'.
Proof.
  intros H. apply fmap_Permutation. induction H as [|f ? ? _ IH|f g ?|? ? ? _ IH1 _ IH2]; cbn [List.filter].
  - done.
  - destruct (is_art f); by rewrite ?IH.
  - destruct (is_art f), (is_art g); try done. apply perm_swap.
  - by rewrite IH1.
Qed.

(** The file a scan finds is one of the spool; when it finds none, there is none. *)
Lemma first_file_perm dir l : l ≡ₚ dir -> NoDup dir.*1 ->
  match first_file l with
  | Some (fn, t) => snd <$> List.filter is_art dir ≡ₚ t :: (snd <$> List.filter is_art (unlink_file fn dir))
  | None => List.filter is_art dir = []
  end.
Proof.
  intros Hp Hn. destruct (first_file l) as [[fn t]|] eqn:E.
  - apply first_file_in in E as [Hin Ha]. rewrite Hp in Hin.
    rewrite (spooled_perm _ _ (unlink_perm fn t dir Hn Hin)). cbn [List.filter]. by rewrite Ha.
  - destruct (List.filter is_art dir) as [|f r] eqn:Ef; [done|].
    assert (f ∈ l) as Hf.
    { rewrite Hp. apply list_elem_of_In. apply (filter_In is_art f dir). rewrite Ef. by left. }
    assert (is_art f = true) as Ha by (apply (filter_In is_art f dir); rewrite Ef; by left).
    pose proof (find_none _ _ E f) as H. rewrite <- list_elem_of_In in H. specialize (H Hf). unfold is_art in Ha. congruence.
Qed.

Section bag.
Context {env : Env}.

Lemma runs_next_id E sp :
  runs next_id (fun _ sp' => sp_art sp' = sp_art sp /\ sp_bad sp' = sp_bad sp /\ sp_orders sp' = sp_orders sp) E sp.
Proof. unfold next_id. repeat rstep. by destruct (sp_times sp); repeat rstep. Qed.

Lemma wp_next_order sp : spool_ok sp ->
  wp next_order (fun o sp' => (forall dir, o dir ≡ₚ dir) /\ spool_ok sp' /\ sp_art sp' = sp_art sp /\ sp_bad sp' = sp_bad sp) sp.
Proof.
  intros [Hn Ho Hp]. unfold next_order, wp, bind, gets. destruct (sp_orders sp) as [|o os] eqn:E; cbn.
  - split_and!; [done| |done..]. split; [done|by rewrite E|done].
  - apply Forall_cons in Ho as [? ?]. by split_and!.
Qed.

(** A scan: nothing for an empty spool, else one of the articles, which is gone then. *)
Lemma get_one sp : spool_ok sp ->
  wp getSpooledArt (fun r sp' => spool_ok sp' /\ sp_bad sp' = sp_bad sp /\
    match r with
    | Some a => exists t, a = MkArticle 0 t /\ spooled sp ≡ₚ t :: spooled sp'
    | None => spooled sp = [] /\ sp_art sp' = sp_art sp
    end) sp.
Proof.
  intros Hok. unfold getSpooledArt. wstep. eapply wp_mono; [by apply wp_next_order|].
  intros o sp1 (Ho & Hok1 & Ea & Eb). wstep. unfold spooled. rewrite <- Ea, <- Eb. destruct Hok1 as [Hn1 Ho1 Hp1].
  pose proof (first_file_perm _ _ (Ho (sp_art sp1)) Hn1) as H. unfold wp, bind, gets.
  destruct (first_file (o (sp_art sp1))) as [[fn t]|]; [|by rewrite H].
  unfold spooled in Hp1. rewrite H in Hp1. apply Forall_cons in Hp1 as [(ls & -> & Hls) Hp].
  destruct (a_read_file ls (MkArticle 0 []) Hls) as (ist & ->). cbn.
  split_and!; [split; [by apply unlink_names|done|done]|done|]. by eexists.
Qed.
End bag.

(** As many scans as the list of articles they give. *)
Fixpoint get_articles (n : nat) : M spooler (list bytes) :=
  match n with
  | O => ret []
  | S n => r <- getSpooledArt ;; ts <- get_articles n ;; ret (match r with Some a => a_text a :: ts | None => ts end)
  end.

Lemma get_all sp : spool_ok sp -> forall n, (length (spooled sp) <= n)%nat ->
  wp (get_articles n) (fun ts sp' => ts ≡ₚ spooled sp /\ spooled sp' = [] /\ sp_bad sp' = sp_bad sp) sp.
Proof.
  intros Hok n. revert sp Hok. induction n as [|n IH]; intros sp Hok Hn; cbn [get_articles].
  { destruct (spooled sp) eqn:E; [|cbn in Hn; lia]. unfold wp, ret. by rewrite E. }
  wstep. eapply wp_mono; [by apply get_one|]. intros r sp1 (Hok1 & Eb & Hr).
  assert (length (spooled sp1) <= n)%nat as Hn1.
  { destruct r as [a|].
    - destruct Hr as (t & _ & H). apply Permutation_length in H. cbn in H. lia.
    - destruct Hr as [E1 E2]. unfold spooled in *. rewrite E2, E1. cbn. lia. }
  wstep. eapply wp_mono; [by apply IH|]. intros ts sp2 (Hts & E2 & Eb2). wstep. split_and!; [|done|congruence].
  destruct r as [a|].
  - destruct Hr as (t & -> & H). cbn [a_text]. by rewrite Hts, H.
  - destruct Hr as [E1 E3]. rewrite E1. unfold spooled in *. by rewrite E3, E1 in Hts.
Qed.

(** C24: the spool is a bag of articles, from which readdir picks.  Spooling an
    article adds its text to it (or raises an exception and leaves the files alone when
    the file of its name exists already).  Getting an article takes one of the bag, in
    whatever order readdir gives the files, and gives its text back unchanged, when the
    articles consist of lines that end with CR LF and none is a single period; nothing
    is got only when the bag is empty.  As many calls as there are articles give each
    of them once, and leave the spool empty.  The bad articles are left alone. *)
Theorem spool_bag {env : Env} a sp :
  runs (spoolArt a) (fun _ sp' => spooled sp' ≡ₚ a_text a :: spooled sp /\ sp_bad sp' = sp_bad sp /\
      (spool_ok sp -> plain_text (a_text a) -> spool_ok sp'))
    (fun _ sp' => sp_art sp' = sp_art sp /\ sp_bad sp' = sp_bad sp) sp /\
  (spool_ok sp ->
   wp getSpooledArt (fun r sp' => spool_ok sp' /\ sp_bad sp' = sp_bad sp /\
     match r with
     | Some a => exists t, a = MkArticle 0 t /\ spooled sp ≡ₚ t :: spooled sp'
     | None => spooled sp = [] /\ sp_art sp' = sp_art sp
     end) sp /\
   wp (get_articles (length (spooled sp)))
     (fun ts sp' => ts ≡ₚ spooled sp /\ spooled sp' = [] /\ sp_bad sp' = sp_bad sp) sp).
Proof.
  split; [|intros Hok; split; [by apply get_one|by apply get_all]].
  unfold spoolArt. rstep. eapply runs_mono; [apply (runs_next_id (fun _ _ => False))| |done].
  intros id sp1 (E1 & E2 & E3). repeat rstep. unfold storeArticle. rewrite E1. case_bool_decide as Hn; rstep; [done|].
  set (sp' := Spooler _ _ _ _). assert (spooled sp' ≡ₚ a_text a :: spooled sp) as H.
  { unfold spooled, sp'. cbn [sp_art]. rewrite List.filter_app, fmap_app. cbn [List.filter].
    unfold is_art at 2. rewrite bool_decide_eq_true_2 by done. by rewrite Permutation_app_comm. }
  split_and!; [done|done|]. intros [Hd Ho Hp] Ha. split; [|by cbn; rewrite E3|by rewrite H; apply Forall_cons].
  by apply snoc_names.
Qed.

(** ** Articles that go through the spool, and one that is lost *)
Section example.
#[local] Existing Instance good_os.
#[local] Instance spool_env : Env := {|
  nntp_hostname := bs "cache"; nntp_posting_host := []; env_pid := 77; env_tv_sec := 1000
|}.

(** The second scan gives the files the other way round. *)
Definition ex_lines : list bytes := [bs "From: me"; []; bs "Hello"].
Definition ex_spooler (ls : list bytes) : spooler :=
  Spooler [(bs "core", bs "dump"); (bs "art_7710001", sent_text ls); (bs "art_7710002", sent_text [bs "Second"])]
    [] [(1000, 2)] [@rev _; fun dir => dir].

Lemma ex_lines_plain : Forall plain_line ex_lines /\ Forall plain_line [bs "Second"].
Proof.
  unfold ex_lines, plain_line. rewrite !Forall_cons, Forall_nil.
  split_and!; solve [done|notin|by intros c [= <-]|discriminate].
Qed.

Lemma ex_spooler_ok : spool_ok (ex_spooler ex_lines).
Proof.
  destruct ex_lines_plain. split.
  - apply (bool_decide_eq_true_1 _). vm_compute. reflexivity.
  - cbn [ex_spooler sp_orders]. rewrite !Forall_cons, Forall_nil. split_and!; [|done..]. intros dir. symmetry. apply Permutation_rev.
  - assert (spooled (ex_spooler ex_lines) = [sent_text ex_lines; sent_text [bs "Second"]]) as -> by (vm_compute; reflexivity).
    rewrite !Forall_cons, Forall_nil. split_and!; [by eexists..|done].
Qed.

Lemma spool_bag_witness : wp (get_articles 2)
  (fun ts sp' => ts ≡ₚ [sent_text ex_lines; sent_text [bs "Second"]] /\ spooled sp' = [] /\ sp_bad sp' = [])
  (ex_spooler ex_lines).
Proof. exact (proj2 (proj2 (spool_bag (MkArticle 0 []) (ex_spooler ex_lines)) ex_spooler_ok)). Defined.

(** An article without From: and Message-ID: lines leaves the spool, is not posted,
    and is not kept among the bad ones: the log wants its identifier. *)
Example ex_lost d : exists s', postspooled (CSrv (ex_talk d [])
    (Spooler [(bs "art_7710001", sent_text [bs "Newsgroups: comp.x"; []; bs "Hello"])] [] [(1000, 2)] []) 600) =
  Throw (NoSuchFieldError (bs "message-id")) s' /\ spooled (cs_spool s') = [] /\ sp_bad (cs_spool s') = [].
Proof. eexists. vm_compute. split_and!; reflexivity. Qed.
End example.
