(* ===== verification/SpoolLock.v ===== *)
(** * SpoolLock.v: the spool shared by the processes of the cache

    NServer-0.9.1/ObjLock.{h,cc}, and the functions of NServer-0.9.1/ArtSpooler.cc as
    the steps processes take on the directories they share: what CServer.v takes for
    one step is a critical section here, and every schedule of the processes is one
    of its operations after the other. *)
From S2P Require Import Prelude Text Article.
From S2P Require Import RServer.
From S2P Require Import CServer CSpool.

(** ** ObjLock

    The locks of a file are those of the kernel: [grant] is fcntl with F_SETLK, which
    refuses a lock that conflicts with one of another process; F_SETLKW waits until
    it is granted.  Calls that fail otherwise are left out. *)
Inductive lock_type := F_RDLCK | F_WRLCK.
#[export] Instance lock_type_eq_dec : EqDecision lock_type.
Proof. solve_decision. Defined.
Class FileLocks := {
  locks : Type;
  holder : locks -> Z -> option lock_type;
  grant : Z -> lock_type -> locks -> option locks;
  release : Z -> locks -> locks
}.
Class FileLocksOk (fl : FileLocks) := {
  grant_holder p k t t' : grant p k t = Some t' -> holder t' p = Some k;
  grant_others p k t t' q : grant p k t = Some t' -> q <> p -> holder t' q = holder t q;
  grant_free p k t t' q : grant p k t = Some t' -> q <> p -> holder t q <> Some F_WRLCK;
  grant_excl p t t' q : grant p F_WRLCK t = Some t' -> q <> p -> holder t q = None;
  release_holder p t : holder (release p t) p = None;
  release_others p t q : q <> p -> holder (release p t) q = holder t q
}.

Inductive lock_result := locked | not_locked.
Section objlock.
Context {fl : FileLocks}.
(** The calling process; [None] means that it waits. *)
Variable pid : Z.
Definition lockShBlk (t : locks) : option locks := grant pid F_RDLCK t.
Definition lockShNoBlk (t : locks) : lock_result * locks :=
  match grant pid F_RDLCK t with Some t' => (locked, t') | None => (not_locked, t) end.
Definition lockExBlk (t : locks) : option locks := grant pid F_WRLCK t.
Definition lockExNoBlk (t : locks) : lock_result * locks :=
  match grant pid F_WRLCK t with Some t' => (locked, t') | None => (not_locked, t) end.
Definition unlock (t : locks) : locks := release pid t.
End objlock.

(** ** The steps *)
Inductive spool_op := op_store (bad : bool) (a : Article) | op_get.
Inductive spool_result := r_stored | r_duplicate | r_got (a : option Article).

(** Where a process is: before the lock, behind it, behind the creation of the file,
    behind the reading of the article, before the end of the lock, behind it. *)
Inductive spool_pc :=
| Want (o : spool_op)
| Entered (o : spool_op)
| Created (bad : bool) (a : Article) (id : bytes) (t : Z * Z)
| Taken (fn : bytes) (a : Article)
| Leaving (r : spool_result)
| Done (r : spool_result).

Record dirs := Dirs { d_art : directory; d_bad : directory }.
Definition the_dir (bad : bool) (d : dirs) : directory := if bad then d_bad d else d_art d.
Definition set_dir (bad : bool) (x : directory) (d : dirs) : dirs :=
  if bad then Dirs (d_art d) x else Dirs x (d_bad d).
(** The text of an open file. *)
Definition fill (fn text : bytes) (dir : directory) : directory :=
  (fun f => if bool_decide (fst f = fn) then (fn, text) else f) <$> dir.

(** An operation that has been done: by whom, which, at which time, with which result. *)
Record entry := Entry { en_pid : Z; en_op : spool_op; en_time : Z * Z; en_result : spool_result }.

Section steps.
Context {fl : FileLocks}.

(** [sy_done] is what has been done so far, a record the program does not keep. *)
Record system := Sys { sy_locks : locks; sy_dirs : dirs; sy_procs : gmap Z spool_pc; sy_done : list entry }.

Inductive spool_step (p : Z) : system -> system -> Prop :=
| st_call o t d ps h : ps !! p = None \/ (exists r, ps !! p = Some (Done r)) ->
    spool_step p (Sys t d ps h) (Sys t d (<[p := Want o]> ps) h)
| st_lock o t t' d ps h : ps !! p = Some (Want o) -> lockExBlk p t = Some t' ->
    spool_step p (Sys t d ps h) (Sys t' d (<[p := Entered o]> ps) h)
| st_exists bad a tm t d ps h : ps !! p = Some (Entered (op_store bad a)) ->
    art_prefix ++ createID p tm ∈ (the_dir bad d).*1 ->
    spool_step p (Sys t d ps h)
      (Sys t d (<[p := Leaving r_duplicate]> ps) (h ++ [Entry p (op_store bad a) tm r_duplicate]))
| st_create bad a tm t d ps h : ps !! p = Some (Entered (op_store bad a)) ->
    art_prefix ++ createID p tm ∉ (the_dir bad d).*1 ->
    spool_step p (Sys t d ps h)
      (Sys t (set_dir bad (the_dir bad d ++ [(art_prefix ++ createID p tm, [])]) d)
         (<[p := Created bad a (createID p tm) tm]> ps) h)
| st_write bad a id tm t d ps h : ps !! p = Some (Created bad a id tm) ->
    spool_step p (Sys t d ps h)
      (Sys t (set_dir bad (fill (art_prefix ++ id) (a_text a) (the_dir bad d)) d)
         (<[p := Leaving r_stored]> ps) (h ++ [Entry p (op_store bad a) tm r_stored]))
| st_empty l t d ps h : ps !! p = Some (Entered op_get) -> l ≡ₚ d_art d -> first_file l = None ->
    spool_step p (Sys t d ps h)
      (Sys t d (<[p := Leaving (r_got None)]> ps) (h ++ [Entry p op_get (0, 0) (r_got None)]))
| st_read l fn text a ist t d ps h : ps !! p = Some (Entered op_get) -> l ≡ₚ d_art d -> first_file l = Some (fn, text) ->
    a_read (IStream text false false) (MkArticle 0 []) = Some (a, ist) ->
    spool_step p (Sys t d ps h) (Sys t d (<[p := Taken fn a]> ps) h)
| st_unlink fn a t d ps h : ps !! p = Some (Taken fn a) ->
    spool_step p (Sys t d ps h)
      (Sys t (set_dir false (unlink_file fn (d_art d)) d) (<[p := Leaving (r_got (Some a))]> ps)
         (h ++ [Entry p op_get (0, 0) (r_got (Some a))]))
| st_unlock r t d ps h : ps !! p = Some (Leaving r) ->
    spool_step p (Sys t d ps h) (Sys (unlock p t) d (<[p := Done r]> ps) h).

(** What the processes can do from a state on, in any order. *)
Inductive schedule (s0 : system) : system -> Prop :=
| sched_start : schedule s0 s0
| sched_step p s s' : schedule s0 s -> spool_step p s s' -> schedule s0 s'.
End steps.

(** ** One operation after the other *)
Definition env_of (p : Z) : Env :=
  {| nntp_hostname := []; nntp_posting_host := []; env_pid := p; env_tv_sec := 0 |}.
(** The operation of CServer.v, from [d] to [d'], with this result, for some order in
    which readdir gives the files. *)
Definition atomically (e : entry) (d d' : dirs) : Prop :=
  exists order, (forall dir, order dir ≡ₚ dir) /\
  let sp := Spooler (d_art d) (d_bad d) [en_time e] [order] in
  let back sp' := d' = Dirs (sp_art sp') (sp_bad sp') in
  match en_op e with
  | op_store bad a =>
      match (if bad then storeBadArt (env := env_of (en_pid e)) a else spoolArt (env := env_of (en_pid e)) a) sp with
      | Ret _ sp' => en_result e = r_stored /\ back sp'
      | Throw _ sp' => en_result e = r_duplicate /\ back sp'
      | _ => False
      end
  | op_get =>
      match getSpooledArt sp with Ret r sp' => en_result e = r_got r /\ back sp' | _ => False end
  end.
Inductive one_by_one (d0 : dirs) : list entry -> dirs -> Prop :=
| obo_nil : one_by_one d0 [] d0
| obo_snoc es e d d' : one_by_one d0 es d -> atomically e d d' -> one_by_one d0 (es ++ [e]) d'.

(** ** Directories *)
Definition names_ok (d : dirs) : Prop := NoDup (d_art d).*1 /\ NoDup (d_bad d).*1.

Lemma fill_last fn text dir : fn ∉ dir.*1 -> fill fn text (dir ++ [(fn, [])]) = dir ++ [(fn, text)].
Proof.
  intros H. unfold fill. rewrite fmap_app. cbn [fmap list_fmap fst]. rewrite bool_decide_eq_true_2 by done. f_equal.
  induction dir as [|[n x] dir IH]; [done|]. cbn [fmap list_fmap fst] in *. apply not_elem_of_cons in H as [Hne H].
  rewrite bool_decide_eq_false_2 by congruence. by rewrite IH.
Qed.

(** ** What the operations of CServer.v do *)
Lemma atomic_duplicate p bad a tm d : art_prefix ++ createID p tm ∈ (the_dir bad d).*1 ->
  atomically (Entry p (op_store bad a) tm r_duplicate) d d.
Proof.
  intros H. exists (fun dir => dir). split; [done|]. cbn [en_op en_pid en_time en_result].
  destruct bad; cbn; unfold storeArticle; rewrite bool_decide_eq_true_2 by exact H; cbn; by destruct d.
Qed.
Lemma atomic_stored p bad a tm d : art_prefix ++ createID p tm ∉ (the_dir bad d).*1 ->
  atomically (Entry p (op_store bad a) tm r_stored) d
    (set_dir bad (the_dir bad d ++ [(art_prefix ++ createID p tm, a_text a)]) d).
Proof.
  intros H. exists (fun dir => dir). split; [done|]. cbn [en_op en_pid en_time en_result].
  destruct bad; cbn; unfold storeArticle; rewrite bool_decide_eq_false_2 by exact H; by cbn.
Qed.

(** An order in which the files of [dir] come as in [l]. *)
Definition order_to (l dir : directory) (x : directory) : directory := if decide (x = dir) then l else x.
Lemma order_to_perm l dir : l ≡ₚ dir -> forall x, order_to l dir x ≡ₚ x.
Proof. intros H x. unfold order_to. by case_decide; subst. Qed.
Lemma order_to_dir l dir : order_to l dir dir = l.
Proof. unfold order_to. by rewrite decide_True. Qed.

Lemma atomic_empty p d l : l ≡ₚ d_art d -> first_file l = None -> atomically (Entry p op_get (0, 0) (r_got None)) d d.
Proof.
  intros Hl H. exists (order_to l (d_art d)). split; [by apply order_to_perm|].
  unfold getSpooledArt, next_order, bind, gets, modify, ret. cbn [en_op en_time en_result sp_art sp_orders].
  rewrite order_to_dir, H. cbn. by destruct d.
Qed.
Lemma atomic_got p d l fn text a ist : l ≡ₚ d_art d -> first_file l = Some (fn, text) ->
  a_read (IStream text false false) (MkArticle 0 []) = Some (a, ist) ->
  atomically (Entry p op_get (0, 0) (r_got (Some a))) d (set_dir false (unlink_file fn (d_art d)) d).
Proof.
  intros Hl H Hr. exists (order_to l (d_art d)). split; [by apply order_to_perm|].
  unfold getSpooledArt, next_order, bind, gets, modify, ret. cbn [en_op en_time en_result sp_art sp_orders].
  rewrite order_to_dir, H. rewrite Hr. by cbn.
Qed.

Lemma set_names bad x d : names_ok d -> NoDup x.*1 -> names_ok (set_dir bad x d).
Proof. intros [H1 H2] H. by destruct bad. Qed.
Lemma set_set_dir bad x y d : set_dir bad x (set_dir bad y d) = set_dir bad x d.
Proof. by destruct bad. Qed.
Lemma the_set_dir bad x d : the_dir bad (set_dir bad x d) = x.
Proof. by destruct bad. Qed.
Lemma the_dir_names bad d : names_ok d -> NoDup (the_dir bad d).*1.
Proof. intros [H1 H2]. by destruct bad. Qed.

(** ** The critical section *)
Section proof.
Context {fl : FileLocks} {Hfl : FileLocksOk fl}.

Definition inside (pc : spool_pc) : Prop :=
  match pc with Entered _ | Created _ _ _ _ | Taken _ _ | Leaving _ => True | Want _ | Done _ => False end.
(** How far the process inside is: [d] is where the operations done so far lead. *)
Definition progress (p : Z) (d : dirs) (pc : spool_pc) (d' : dirs) : Prop :=
  match pc with
  | Created bad a id tm => id = createID p tm /\ ((art_prefix ++ id) ∉ (the_dir bad d).*1) /\
      d' = set_dir bad (the_dir bad d ++ [(art_prefix ++ id, [])]) d
  | Taken fn a => d' = d /\ exists l text ist, l ≡ₚ d_art d /\ first_file l = Some (fn, text) /\
      a_read (IStream text false false) (MkArticle 0 []) = Some (a, ist)
  | _ => d' = d
  end.
(** What the last operation of a process gave. *)
Definition last_result (p : Z) (h : list entry) : option spool_result :=
  en_result <$> last (List.filter (fun e => Z.eqb (en_pid e) p) h).

Record consistent (d0 : dirs) (s : system) : Prop := {
  co_lock p pc : sy_procs s !! p = Some pc -> inside pc -> holder (sy_locks s) p = Some F_WRLCK;
  co_excl p q : holder (sy_locks s) p = Some F_WRLCK -> q <> p -> holder (sy_locks s) q = None;
  co_dirs : exists d, one_by_one d0 (sy_done s) d /\ names_ok d /\
    ((forall p pc, sy_procs s !! p = Some pc -> ~ inside pc) /\ sy_dirs s = d \/
     exists p pc, sy_procs s !! p = Some pc /\ inside pc /\ progress p d pc (sy_dirs s));
  co_results p r : sy_procs s !! p = Some (Leaving r) \/ sy_procs s !! p = Some (Done r) ->
    last_result p (sy_done s) = Some r
}.

Lemma last_result_snoc p h e : last_result p (h ++ [e]) = if Z.eqb (en_pid e) p then Some (en_result e) else last_result p h.
Proof.
  unfold last_result. rewrite List.filter_app. cbn [List.filter]. destruct (Z.eqb _ _); [by rewrite last_snoc|by rewrite app_nil_r].
Qed.

(** Only one process is inside. *)
Lemma consistent_alone d0 s p pc q pc' : consistent d0 s -> sy_procs s !! p = Some pc -> inside pc ->
  sy_procs s !! q = Some pc' -> inside pc' -> q = p.
Proof.
  intros Hc Hp Hi Hq Hi'. destruct (decide (q = p)) as [->|Hne]; [done|].
  pose proof (co_lock _ _ Hc _ _ Hp Hi) as H1. pose proof (co_lock _ _ Hc _ _ Hq Hi') as H2.
  rewrite (co_excl _ _ Hc p q H1 Hne) in H2. done.
Qed.

Lemma consistent_inside d0 s p pc : consistent d0 s -> sy_procs s !! p = Some pc -> inside pc ->
  exists d, one_by_one d0 (sy_done s) d /\ names_ok d /\ progress p d pc (sy_dirs s).
Proof.
  intros Hc Hp Hi. destruct (co_dirs _ _ Hc) as (d & Hd & Hn & [[Hno _]|(q & pc' & Hq & Hi' & Hpr)]).
  - by apply Hno in Hp.
  - assert (q = p) as -> by (by eapply (consistent_alone d0 s p pc)). exists d. split_and!; [done..|]. congruence.
Qed.

(** A step in the critical section. *)
Lemma inside_step d0 t d ps h p pc pc2 d2 h2 x : consistent d0 (Sys t d ps h) -> ps !! p = Some pc -> inside pc ->
  inside pc2 -> one_by_one d0 h2 x -> names_ok x -> progress p x pc2 d2 ->
  (forall r, pc2 = Leaving r -> last_result p h2 = Some r) -> (forall q, q <> p -> last_result q h2 = last_result q h) ->
  consistent d0 (Sys t d2 (<[p := pc2]> ps) h2).
Proof.
  intros Hc Hp Hi Hi2 Hx Hn Hpr Hr Ho. split; cbn [sy_locks sy_procs sy_dirs sy_done].
  - intros q pcq [[-> <-]|[Hne Hq]]%lookup_insert_Some Hiq; [exact (co_lock _ _ Hc _ _ Hp Hi)|exact (co_lock _ _ Hc _ _ Hq Hiq)].
  - exact (co_excl _ _ Hc).
  - exists x. split_and!; [done..|]. right. exists p, pc2. by rewrite lookup_insert_eq.
  - intros q r [[[-> ->]|[Hne Hq]]%lookup_insert_Some|[[-> ->]|[Hne Hq]]%lookup_insert_Some]; [by apply Hr| |done|].
    + rewrite Ho by done. apply (co_results _ _ Hc). by left.
    + rewrite Ho by done. apply (co_results _ _ Hc). by right.
Qed.

(** A call: the process waits for the lock. *)
Lemma call_step d0 t d ps h p o : consistent d0 (Sys t d ps h) -> ps !! p = None \/ (exists r, ps !! p = Some (Done r)) ->
  consistent d0 (Sys t d (<[p := Want o]> ps) h).
Proof.
  intros Hc Hp. destruct (co_dirs _ _ Hc) as (x & Hx & Hn & Hs). cbn [sy_locks sy_procs sy_dirs sy_done] in *.
  split; cbn [sy_locks sy_procs sy_dirs sy_done].
  - intros q pcq [[-> <-]|[Hne Hq]]%lookup_insert_Some Hiq; [done|exact (co_lock _ _ Hc _ _ Hq Hiq)].
  - exact (co_excl _ _ Hc).
  - exists x. split_and!; [done..|]. destruct Hs as [[Hno E]|(q & pc & Hq & Hi & Hpr)].
    + left. split; [|done]. by intros q pcq [[-> <-]|[Hne Hq]]%lookup_insert_Some; [intros []|eapply Hno].
    + right. exists q, pc. rewrite lookup_insert_ne; [done|]. intros ->. destruct Hp as [Hp|[r Hp]]; rewrite Hq in Hp; by simplify_eq.
  - intros q r [[[-> ?]|[Hne Hq]]%lookup_insert_Some|[[-> ?]|[Hne Hq]]%lookup_insert_Some]; [done| |done|];
      apply (co_results _ _ Hc); first [by left | by right].
Qed.

(** The lock is granted: nobody is inside. *)
Lemma lock_step d0 t t' d ps h p o : consistent d0 (Sys t d ps h) -> ps !! p = Some (Want o) -> lockExBlk p t = Some t' ->
  consistent d0 (Sys t' d (<[p := Entered o]> ps) h).
Proof.
  intros Hc Hp Hg. unfold lockExBlk in Hg.
  assert (forall q pc, ps !! q = Some pc -> ~ inside pc) as Hno.
  { intros q pc Hq Hi. pose proof (co_lock _ _ Hc _ _ Hq Hi) as H. cbn [sy_locks] in H.
    destruct (decide (q = p)) as [->|Hne]; [rewrite Hp in Hq; by injection Hq as <-|].
    rewrite (grant_excl _ _ _ _ Hg Hne) in H. done. }
  destruct (co_dirs _ _ Hc) as (x & Hx & Hn & [[_ E]|(q & pc & Hq & Hi & _)]); [|by apply Hno in Hq].
  cbn [sy_locks sy_procs sy_dirs sy_done] in *. split; cbn [sy_locks sy_procs sy_dirs sy_done].
  - intros q pcq [[-> <-]|[Hne Hq]]%lookup_insert_Some Hiq; [by eapply grant_holder|]. by apply Hno in Hq.
  - intros q1 q2 H1 Hne. assert (forall q, q <> p -> holder t' q = None) as Hfree.
    { intros q Hq. rewrite (grant_others _ _ _ _ _ Hg Hq). by eapply grant_excl. }
    destruct (decide (q1 = p)) as [->|H]; [by apply Hfree|]. by rewrite Hfree in H1.
  - exists x. split_and!; [done..|]. right. exists p, (Entered o). by rewrite lookup_insert_eq.
  - intros q r [[[-> ?]|[Hne Hq]]%lookup_insert_Some|[[-> ?]|[Hne Hq]]%lookup_insert_Some]; [done| |done|];
      apply (co_results _ _ Hc); first [by left | by right].
Qed.

(** The lock is given back. *)
Lemma unlock_step d0 t d ps h p r : consistent d0 (Sys t d ps h) -> ps !! p = Some (Leaving r) ->
  consistent d0 (Sys (unlock p t) d (<[p := Done r]> ps) h).
Proof.
  intros Hc Hp. destruct (consistent_inside _ _ _ _ Hc Hp I) as (x & Hx & Hn & Hpr).
  assert (forall q pc, q <> p -> ps !! q = Some pc -> ~ inside pc) as Hno.
  { intros q pc Hne Hq Hi. apply Hne. by apply (consistent_alone d0 _ p (Leaving r) q pc Hc Hp I Hq). }
  cbn [sy_locks sy_procs sy_dirs sy_done] in *. split; cbn [sy_locks sy_procs sy_dirs sy_done].
  - intros q pcq [[-> <-]|[Hne Hq]]%lookup_insert_Some Hiq; [done|]. by eapply Hno in Hq.
  - intros q1 q2 H1 Hne. unfold unlock in *. destruct (decide (q1 = p)) as [->|H]; [by rewrite release_holder in H1|].
    rewrite release_others in H1 by done. pose proof (co_excl _ _ Hc q1 q2 H1 Hne) as H2. cbn [sy_locks] in H2.
    destruct (decide (q2 = p)) as [->|]; [apply release_holder|by rewrite release_others].
  - exists x. split_and!; [done..|]. left. split; [|done].
    by intros q pcq [[-> <-]|[Hne Hq]]%lookup_insert_Some; [intros []|eapply Hno].
  - intros q r' [[[-> ?]|[Hne Hq]]%lookup_insert_Some|[[-> E]|[Hne Hq]]%lookup_insert_Some]; [done| | |].
    + apply (co_results _ _ Hc). by left.
    + injection E as <-. apply (co_results _ _ Hc). by left.
    + apply (co_results _ _ Hc). by right.
Qed.

Lemma consistent_step d0 p s s' : consistent d0 s -> spool_step p s s' -> consistent d0 s'.
Proof.
  intros Hc Hs. destruct Hs.
  - by apply call_step.
  - by eapply lock_step.
  - destruct (consistent_inside _ _ _ _ Hc H I) as (x & Hx & Hn & Hpr). cbn [progress sy_dirs sy_done] in *. subst d.
    eapply inside_step; [exact Hc|exact H|done|done|eapply obo_snoc; [exact Hx|by apply atomic_duplicate]|done|done| |].
    + intros r [= <-]. rewrite last_result_snoc. cbn [en_pid]. by rewrite Z.eqb_refl.
    + intros q Hq. rewrite last_result_snoc. cbn [en_pid]. by destruct (Z.eqb_spec p q).
  - destruct (consistent_inside _ _ _ _ Hc H I) as (x & Hx & Hn & Hpr). cbn [progress sy_dirs sy_done] in *. subst d.
    by eapply inside_step; [exact Hc|exact H|done|done|exact Hx|..].
  - destruct (consistent_inside _ _ _ _ Hc H I) as (x & Hx & Hn & Hpr). cbn [progress sy_dirs sy_done] in *.
    destruct Hpr as (-> & Ha & ->).
    rewrite the_set_dir, set_set_dir, fill_last by done.
    eapply inside_step; [exact Hc|exact H|done|done|eapply obo_snoc; [exact Hx|by apply atomic_stored]| |done| |].
    + apply set_names; [done|]. apply snoc_names; [by apply the_dir_names|done].
    + intros r [= <-]. rewrite last_result_snoc. cbn [en_pid]. by rewrite Z.eqb_refl.
    + intros q Hq. rewrite last_result_snoc. cbn [en_pid]. by destruct (Z.eqb_spec p q).
  - destruct (consistent_inside _ _ _ _ Hc H I) as (x & Hx & Hn & Hpr). cbn [progress sy_dirs sy_done] in *. subst d.
    eapply inside_step; [exact Hc|exact H|done|done|eapply obo_snoc; [exact Hx|by eapply atomic_empty]|done|done| |].
    + intros r [= <-]. rewrite last_result_snoc. cbn [en_pid]. by rewrite Z.eqb_refl.
    + intros q Hq. rewrite last_result_snoc. cbn [en_pid]. by destruct (Z.eqb_spec p q).
  - destruct (consistent_inside _ _ _ _ Hc H I) as (x & Hx & Hn & Hpr). cbn [progress sy_dirs sy_done] in *. subst d.
    eapply inside_step; [exact Hc|exact H|done|done|exact Hx|done| |done|done]. split; [done|]. by exists l, text, ist.
  - destruct (consistent_inside _ _ _ _ Hc H I) as (x & Hx & Hn & Hpr). cbn [progress sy_dirs sy_done] in *.
    destruct Hpr as (-> & l & text & ist & Hl & Hf & Hr).
    eapply inside_step; [exact Hc|exact H|done|done|eapply obo_snoc; [exact Hx|by eapply atomic_got]| |done| |].
    + apply set_names; [done|]. apply unlink_names. apply Hn.
    + intros r [= <-]. rewrite last_result_snoc. cbn [en_pid]. by rewrite Z.eqb_refl.
    + intros q Hq. rewrite last_result_snoc. cbn [en_pid]. by destruct (Z.eqb_spec p q).
  - by apply unlock_step.
Qed.

(** C15: however the processes that share a spool are scheduled, step by step, at most
    one of them works on its directories at a time, and what they do together is one
    operation of CServer.v after the other: the articles they store and get, the
    duplicates they are refused and the files that are left are those of the operations
    done whole, in the order in which they got the lock. *)
Theorem spool_serializable d0 t0 s : names_ok d0 -> (forall p, holder t0 p = None) -> schedule (Sys t0 d0 ∅ []) s ->
  (forall p q pc pc', sy_procs s !! p = Some pc -> inside pc -> sy_procs s !! q = Some pc' -> inside pc' -> q = p) /\
  (forall p r, sy_procs s !! p = Some (Done r) -> last_result p (sy_done s) = Some r) /\
  ((forall p pc, sy_procs s !! p = Some pc -> ~ inside pc) -> one_by_one d0 (sy_done s) (sy_dirs s)).
Proof.
  intros Hn Ht Hs. assert (consistent d0 s) as Hc.
  { induction Hs as [|p s s' _ IH Hst]; [|by eapply consistent_step].
    split; cbn [sy_locks sy_procs sy_dirs sy_done]; [done|intros p q Hp; by rewrite Ht in Hp| |by intros p r [?|?]].
    exists d0. split_and!; [apply obo_nil|done|]. left. by split. }
  split_and!.
  - intros p q pc pc' Hp Hi Hq Hi'. by eapply (consistent_alone d0).
  - intros p r Hp. apply (co_results _ _ Hc). by right.
  - intros Hno. destruct (co_dirs _ _ Hc) as (d & Hd & _ & [[_ ->]|(p & pc & Hp & Hi & _)]); [done|]. by apply Hno in Hp.
Qed.
End proof.

(** ** Locks that obey the laws, and two processes *)
#[local] Instance table_locks : FileLocks := {|
  locks := gmap Z lock_type;
  holder t p := t !! p;
  grant p k t := if decide (map_Forall (fun q k' => q = p \/ (k = F_RDLCK /\ k' = F_RDLCK)) t) then Some (<[p := k]> t) else None;
  release p t := delete p t
|}.
#[local] Instance table_locks_ok : FileLocksOk table_locks.
Proof.
  split; cbn [grant holder release table_locks locks].
  - intros p k t t'. case_decide; [|done]. intros [= <-]. by apply lookup_insert_eq.
  - intros p k t t' q. case_decide; [|done]. intros [= <-] Hq. by apply lookup_insert_ne.
  - intros p k t t' q. case_decide as Hc; [|done]. intros _ Hq E. by destruct (Hc q _ E) as [?|[_ ?]].
  - intros p t t' q. case_decide as Hc; [|done]. intros _ Hq. destruct (t !! q) as [k|] eqn:E; [|done].
    by destruct (Hc q _ E) as [?|[? _]].
  - intros p t. by apply lookup_delete_eq.
  - intros p t q Hq. by apply lookup_delete_ne.
Qed.

Definition ex_note : Article := MkArticle 0 (bs "Subject: note" ++ [CR; LF]).
Definition ex_idle : system := Sys ∅ (Dirs [(bs "other", [])] []) ∅ [].

(** Two articles and the processes that store and get them; the second one calls while
    the first is inside, and the third finds nothing. *)
Lemma ex_schedule : exists s, schedule ex_idle s /\ sy_dirs s = Dirs [(bs "other", [])] [] /\
  en_result <$> sy_done s = [r_stored; r_got (Some ex_note); r_got None] /\
  (forall p pc, sy_procs s !! p = Some pc -> ~ inside pc).
Proof.
  pose proof (sched_start ex_idle) as H. unfold ex_idle at 2 in H.
  eapply sched_step in H; [|apply (st_call 1 (op_store false ex_note)); by left].
  eapply sched_step in H; [|apply (st_call 2 op_get); by left].
  eapply sched_step in H; [|by eapply (st_lock 1)].
  eapply sched_step in H; [|eapply (st_create 1 false ex_note (50, 7)); [done|cbn; rewrite list_elem_of_singleton; discriminate]].
  eapply sched_step in H; [|apply (st_call 3 op_get); by left].
  eapply sched_step in H; [|by eapply (st_write 1)].
  eapply sched_step in H; [|by eapply (st_unlock 1)].
  eapply sched_step in H; [|by eapply (st_lock 2)].
  eapply sched_step in H; [|by eapply (st_read 2)].
  eapply sched_step in H; [|by eapply (st_unlink 2)].
  eapply sched_step in H; [|by eapply (st_unlock 2)].
  eapply sched_step in H; [|by eapply (st_lock 3)].
  eapply sched_step in H; [|by eapply (st_empty 3)].
  eapply sched_step in H; [|by eapply (st_unlock 3)].
  eexists. split; [exact H|]. cbn [sy_dirs sy_done sy_procs]. split_and!; [reflexivity|reflexivity|].
  intros p pc Hp Hi.
  repeat (apply lookup_insert_Some in Hp as [[Hk Epc]|[? Hp]]; [first [by subst pc | congruence]|]).
  by rewrite lookup_empty in Hp.
Qed.

Lemma spool_serializable_witness : exists es, one_by_one (Dirs [(bs "other", [])] []) es (Dirs [(bs "other", [])] []) /\
  en_result <$> es = [r_stored; r_got (Some ex_note); r_got None].
Proof.
  destruct ex_schedule as (s & Hs & Hd & Hr & Hno). exists (sy_done s). split; [|exact Hr]. rewrite <- Hd at 2.
  refine (proj2 (proj2 (spool_serializable _ ∅ s _ _ Hs)) Hno).
  - split; cbn; [apply NoDup_singleton|apply NoDup_nil_2].
  - intros p. reflexivity.
Defined.
