(* ===== verification/NgBig.v ===== *)
(** * NgBig.v: articles that are files of their own

    setarticle and getarticle of an article that is too big for the database: its
    overview record is the element of the database, its text a file; and that every
    record of a group has one of the three types, whatever was stored. *)
From S2P Require Import Prelude Memory Text Container Heap Alloc ContainerSpec Article OverviewFmt.
From S2P Require Import NVlist Records.
From S2P Require Import RTalk.
From S2P Require Import NVHash.
From S2P Require Import NVArray.
From S2P Require Import ArrayLaws.
From S2P Require Import ArrayMap.
From S2P Require Import NVNewsgroup.
From S2P Require Import NgLaws.
From S2P Require Import NgSize.
From S2P Require Import CSpool.

Section big.
Context {os : Os} {Hos : OsOk os}.
Implicit Types g : NVNewsgroup.

(** Changing the type of a record in place. *)
Lemma wp_retype bl t f es i o c d c' (Q : unit -> obj array_ext -> Prop) s :
  nvarr_in bl t f es s -> es !! i = Some (Rec o (c :: d)) ->
  (forall s', nvarr_in bl t f (<[i := Rec o (c' :: d)]> es) s' -> same_locks (core s) (core s') ->
     mem_sz (core s') = mem_sz (core s) -> Q tt s') ->
  wp (stmem (o + 8) [c']) Q s.
Proof.
  intros Hn Hi HQ. pose proof (lookup_lt_Some _ _ _ Hi) as Hlt.
  destruct (entry_block _ _ _ _ _ _ _ _ Hn Hi) as (b & Hb & Hbl & Ho & Ho56 & He & Hbe & Hw & Hs & Hd).
  destruct (nvarr_tiles _ _ _ _ _ Hn) as (Htl & Hlim & Hc). pose proof (cu_map _ Hc) as Hm. cbn [length] in *.
  pose proof (not_owned_stale _ _ _ _ _ _ _ _ Hn Hi) as Hown. rewrite <- Ho in Hown.
  rewrite <- (upd_self s). apply wp_stmem; [cbn [length]; split_and!; [done|lia|lia]|].
  assert (nvarr_in bl t f (<[i := Stale]> es) (upd (stn (data (core s)) (o + 8) [c']) s)) as Hn'.
  { eapply (nvarr_write _ _ _ _ b); [by apply nvarr_stale|done|done|done|lia|cbn [length]; lia]. }
  apply HQ; [|by split|done].
  rewrite <- (list_insert_insert_eq es i _ Stale). apply nvarr_learn; [exact Hn'|by rewrite length_insert| |].
  - pose proof (entry_table _ _ _ _ _ _ Hn Hlt) as Ht.
    destruct (nvarr_table _ _ _ _ _ Hn Ht) as (b0 & Hb0 & Hbl0 & Ho0 & ? & Hb0e & ? & _).
    unfold word in *. change (data (core (upd ?m s))) with m. split.
    + rewrite ld64_stn_ne; [exact Hw|]. cbn [length].
      destruct (tiles_disjoint _ _ _ _ _ Htl Hb0 Hb) as [->|Hdj]; [|unfold b_end in *; lia].
      destruct Hown. split; [done|]. left. lia.
    + split.
      * exists b. cbn [length]. split_and!; [done|done|lia|lia].
      * rewrite ld64_stn_ne by (cbn [length]; lia). exact Hs.
      * cbn [length ldn] in Hd |- *. injection Hd as _ Hd. f_equal.
        -- pose proof (ldn_stn_same (data (core s)) (o + 8) [c']) as E. cbn [length ldn] in E. by injection E.
        -- rewrite <- Hd at 2. apply ldn_same, same_on_stn. cbn [length]. lia.
  - intros o' d' [= <- <-]. split; [exact (nvarr_off _ _ _ _ _ _ _ _ Hn Hi)|].
    intros j d'' Hj Hjj. rewrite list_lookup_insert_ne in Hjj by done. apply Hj. exact (nvarr_inj _ _ _ _ _ _ _ _ _ _ Hn Hjj Hi).
Qed.

Lemma holds_retype es recs j o c x c' : Forall2 holds es (<[j := Some (c :: x)]> recs) -> (j < length recs)%nat ->
  Forall2 holds (<[j := Rec o (c' :: x)]> es) (<[j := Some (c' :: x)]> recs).
Proof.
  intros Hh Hj. rewrite <- (list_insert_insert_eq recs j (Some (c' :: x)) (Some (c :: x))). by apply holds_insert.
Qed.

(** The end of setarticle: the type is set, and the file is written. *)
Lemma wp_write_big bl t f es recs j o c x nbr text (Q : unit -> NVNewsgroup -> Prop) g :
  nvarr_in bl t f es (nv_arr g) -> es !! j = Some (Rec o (c :: x)) -> Forall2 holds es (<[j := Some (c :: x)]> recs) ->
  (j < length recs)%nat ->
  (forall es' s', nvarr_in bl t f es' s' -> Forall2 holds es' (<[j := Some (cz t_bigarticle :: x)]> recs) ->
     same_locks (core (nv_arr g)) (core s') -> mem_sz (core s') = mem_sz (core (nv_arr g)) ->
     Q tt (with_dir s' (dir_write (art_file nbr) text (nv_dir g)) g)) ->
  wp (on_arr (stmem (o + 8) [cz t_bigarticle]) ;;; write_file (art_file nbr) text ;;;
      on_arr (stmem (o + 8) [cz t_bigarticle])) Q g.
Proof.
  intros Hn Hj Hh Hlt HQ. pose proof (lookup_lt_Some _ _ _ Hj) as Hlt'. mstep. apply wp_on_arr.
  eapply wp_retype; [exact Hn|exact Hj|]. intros s1 Hn1 Hl1 Hm1. mstep. apply wp_modify, wp_on_arr. cbn [with_arr nv_arr nv_name nv_dir].
  eapply wp_retype; [exact Hn1|by apply list_lookup_insert_eq|]. intros s2 Hn2 Hl2 Hm2.
  eapply HQ; [exact Hn2| |by eapply same_locks_trans|congruence].
  rewrite list_insert_insert_eq. by eapply holds_retype.
Qed.

Definition converts (fmt : OverviewFmt) (art : Article) (over : bytes) : Prop :=
  forall s : obj array_ext, convert_article fmt art s = Ret over s.

(** The new record of a big article. *)
Lemma wp_new_big fmt bl t f es recs j art over nbr n (Q : unit -> NVNewsgroup -> Prop) g :
  nvarr_in bl t f es (nv_arr g) -> (forall e, es !! j = Some e -> e = Free \/ e = Stale) -> (j < length es)%nat ->
  (forall e', holds e' (Some (elem_of 0 over)) -> Forall2 holds (<[j := e']> es) (<[j := Some (elem_of 0 over)]> recs)) ->
  converts fmt art over -> length es = length recs -> ready (S (S n)) (len over + 2) g ->
  (forall bl' es' s', nvarr_in bl' t f es' s' ->
     Forall2 holds es' (<[j := Some (elem_of t_bigarticle over)]> recs) ->
     same_locks (core (nv_arr g)) (core s') -> mem_sz (core s') <= mem_sz (core (nv_arr g)) + (len over + 2) + 2 ^ 18 ->
     Q tt (with_dir s' (dir_write (art_file nbr) (a_text art) (nv_dir g)) g)) ->
  wp (data <- (over <- on_arr (convert_article fmt art) ;; on_arr (new_record (Z.of_nat j) (elem_of 0 over)) ;;;
               v <- on_arr (elem (Z.of_nat j)) ;; ret (v + sizeof_ulong)) ;;
      on_arr (stmem data [cz t_bigarticle]) ;;; write_file (art_file nbr) (a_text art) ;;;
      on_arr (stmem data [cz t_bigarticle])) Q g.
Proof.
  intros Hn He Hj Hh Hc Hlen Hr HQ. pose proof Hr as [Hlk Hp Hroom].
  assert (len (elem_of 0 over) = len over + 2) as Hlo.
  { unfold elem_of. cbn [length]. rewrite length_app. cbn [length]. lia. }
  do 2 mstep. apply wp_on_arr. eapply wp_of_eq; [apply Hc|]. mstep. apply wp_on_arr. cbn [with_arr nv_arr].
  eapply wp_new_record; [exact Hn|done| |done|lia|rewrite Hlo; layout; lia|].
  { intros o d E. destruct (He _ E); done. }
  intros bl' o s1 Hn1 Hl1 Hm1. rewrite Hlo in Hm1. mstep. apply wp_on_arr. cbn [with_arr nv_arr nv_name nv_dir].
  assert (<[j := Rec o (elem_of 0 over)]> es !! j = Some (Rec o (elem_of 0 over))) as Hj1 by (by apply list_lookup_insert_eq).
  eapply wp_elem; [exact Hn1|exact Hj1|]. intros [-> _]. mstep. unfold sizeof_ulong.
  eapply wp_write_big; [exact Hn1|exact Hj1|by apply Hh|lia|].
  intros es' s' Hn' Hh' Hl' Hm'. eapply HQ; [exact Hn'|exact Hh'|by eapply same_locks_trans|].
  cbn [with_arr nv_arr] in Hm'. lia.
Qed.

(** What setarticle does when it has looked at the old record: [d] is where its overview
    record is, if it is one that stays. *)
Definition store_big (fmt : OverviewFmt) (art : Article) (i : Z) (d : option Z) : M NVNewsgroup unit :=
  data <- (match d with Some data => ret data | None =>
             over <- on_arr (convert_article fmt art) ;; on_arr (new_record i (elem_of 0 over)) ;;;
             v <- on_arr (elem i) ;; ret (v + sizeof_ulong) end) ;;
  on_arr (stmem data [cz t_bigarticle]) ;;; write_file (art_file (w32 (a_nbr art))) (a_text art) ;;;
  on_arr (stmem data [cz t_bigarticle]).
Definition look_big (fmt : OverviewFmt) (art : Article) (data i : Z) : M NVNewsgroup unit :=
  d <- (t <- on_arr (type_at data) ;;
        if negb (t =? t_overview) && negb (t =? t_bigarticle)
        then on_arr (v <- elem i ;; arr_nvfree v) ;;; ret None else ret (Some data)) ;;
  store_big fmt art i d.

(** A record that is there: an overview record or a big article keeps its record, a
    small article is freed. *)
Lemma wp_look_big fmt bl t f es recs j o ty x art over n (Q : unit -> NVNewsgroup -> Prop) g :
  nvarr_in bl t f es (nv_arr g) -> Forall2 holds es recs -> es !! j = Some (Rec o (elem_of ty x)) ->
  recs !! j = Some (Some (elem_of ty x)) -> ty ∈ record_types -> converts fmt art over -> ready (S (S n)) (len over + 2) g ->
  (forall bl' es' x' s', nvarr_in bl' t f es' s' -> Forall2 holds es' (<[j := Some (elem_of t_bigarticle x')]> recs) ->
     same_locks (core (nv_arr g)) (core s') -> mem_sz (core s') <= mem_sz (core (nv_arr g)) + (len over + 2) + 2 ^ 18 ->
     Q tt (with_dir s' (dir_write (art_file (w32 (a_nbr art))) (a_text art) (nv_dir g)) g)) ->
  wp (look_big fmt art (o + 8) (Z.of_nat j)) Q g.
Proof.
  intros Hn Hh He Hrj Hty Hc Hr HQ. pose proof (Forall2_length _ _ _ Hh) as Hlen. pose proof (lookup_lt_Some _ _ _ He) as Hj.
  destruct (elem_type ty x Hty) as (c & r & Ec & Hcty). assert (c :: r = cz ty :: x ++ [NUL]) as Er by (symmetry; exact Ec).
  injection Er as -> ->. change (elem_of ty x) with (cz ty :: x ++ [NUL]) in He, Hrj. unfold look_big. do 2 mstep. apply wp_on_arr.
  eapply wp_type_at; [exact Hn|exact He|]. rewrite Hcty.
  destruct (negb (ty =? t_overview) && negb (ty =? t_bigarticle)).
  - mstep. apply wp_on_arr. mstep. cbn [with_arr nv_arr nv_name nv_dir]. eapply wp_elem; [exact Hn|exact He|].
    intros [-> _]. pose proof Hr as [Hlk Hp Hroom].
    eapply wp_free_rec; [exact Hn|exact He|done|lia|]. intros bl2 s2 Hn2 Hl2 Hm2. mstep.
    eapply (wp_new_big fmt bl2 t f (<[j:=Stale]> es) recs j art over _ n).
    + exact Hn2.
    + intros e E. rewrite list_lookup_insert_eq in E by done. injection E as <-. by right.
    + by rewrite length_insert.
    + intros e' He'. rewrite list_insert_insert_eq. by apply holds_insert.
    + done.
    + by rewrite length_insert.
    + split; cbn [with_arr nv_arr]; [by eapply lock_ok_same|rewrite (sl_sp _ _ Hl2); lia|lia].
    + cbn [with_arr nv_arr]. intros bl' es' s' Hn' Hh' Hl' Hm'.
      eapply HQ; [exact Hn'|exact Hh'|by eapply same_locks_trans|lia].
  - mstep. unfold store_big. mstep. mstep.
    eapply (wp_write_big bl t f es recs j o (cz ty) (x ++ [NUL])); [exact Hn|exact He| |lia|].
    + rewrite list_insert_id by exact Hrj. exact Hh.
    + intros es' s' Hn' Hh' Hl' Hm'. eapply (HQ bl es' x); [exact Hn'|exact Hh'|exact Hl'|]. cbn [with_arr nv_arr] in Hm'. lia.
Qed.

Lemma wp_nv_setarticle_big fmt f recs art over n (Q : unit -> NVNewsgroup -> Prop) g : let nbr := w32 (a_nbr art) in
  ngroup f recs g -> typed recs -> in_range f recs nbr = true -> big_size < a_length art -> converts fmt art over ->
  ready (S (S (S n))) (len over + 2) g ->
  (forall s' x, ngroup f (put f recs nbr (elem_of t_bigarticle x))
       (with_dir s' (dir_write (art_file nbr) (a_text art) (nv_dir g)) g) ->
     same_locks (core (nv_arr g)) (core s') ->
     mem_sz (core s') <= mem_sz (core (nv_arr g)) + (len over + 2) + 2 ^ 18 ->
     Q tt (with_dir s' (dir_write (art_file nbr) (a_text art) (nv_dir g)) g)) ->
  wp (nv_setarticle fmt art) Q g.
Proof.
  intros nbr (bl & t & es & Hn & Hh) Ht Hin Hbig Hc Hr HQ. unfold nv_setarticle. fold nbr. cbv zeta.
  mstep. eapply wp_alock; [done|exact Hn|exact Hr|]. intros s1 Hn1 Hr1 E1. mstep. apply wp_on_arr.
  pose proof (Forall2_length _ _ _ Hh) as Hlen.
  eapply wp_find_record; [exact Hn1|exact Hh|by rewrite Hin|]. intros j Ej _.
  assert (j < length recs)%nat as Hj by (apply in_range_true in Hin; lia).
  assert (forall x, put f recs nbr (elem_of t_bigarticle x) = <[j := Some (elem_of t_bigarticle x)]> recs) as Hput.
  { intros x. rewrite Ej in Hin |- *. by apply put_nat. }
  assert (forall bl' es' x s', nvarr_in bl' t f es' s' -> Forall2 holds es' (<[j := Some (elem_of t_bigarticle x)]> recs) ->
    same_locks (core s1) (core s') -> mem_sz (core s') <= mem_sz (core s1) + (len over + 2) + 2 ^ 18 ->
    wp (alock UnLock) Q (with_dir s' (dir_write (art_file nbr) (a_text art) (nv_dir g)) g)) as Hend.
  { intros bl' es' x s' Hn' Hh' Hl' Hm'. rewrite E1 in Hl', Hm'.
    eapply (wp_aunlock _ _ _ _ _ _ _ _ g); [exact Hn'|exact Hr|exact Hl'|]. intros s3 Hn3 Hl3 Hm3.
    cbn [with_arr with_dir nv_arr nv_name nv_dir] in *.
    apply (HQ s3 x); [exists bl', t, es'; by rewrite Hput|done|]. rewrite Hm3. exact Hm'. }
  assert (forall d (k : Z -> M NVNewsgroup unit), wp (k (Z.of_nat j)) (fun _ g2 => wp (alock UnLock) Q g2) (with_arr s1 g) ->
    wp (e <- on_arr (gete id) ;; if a_length art <=? big_size then d e else k (nbr - arrfst e))
      (fun _ g2 => wp (alock UnLock) Q g2) (with_arr s1 g)) as Hk.
  { intros d k H. mstep. apply wp_on_arr, wp_gets. unfold id. cbn [with_arr nv_arr].
    rewrite (na_ext _ _ _ _ _ Hn1). cbn [arrfst members]. destruct (Z.leb_spec (a_length art) big_size); [lia|].
    rewrite Ej. by replace (f + Z.of_nat j - f) with (Z.of_nat j) by lia. }
  split.
  - intros He Hrj. mstep. apply (Hk _ (fun i => d <- ret None ;; store_big fmt art i d)).
    mstep. mstep. eapply (wp_new_big fmt bl t f es recs j art over nbr n); [exact Hn1| |lia| |done|done|exact Hr1|].
    + intros e E. rewrite He in E. injection E as <-. by left.
    + intros e' He'. by apply holds_insert.
    + intros bl' es' s' Hn' Hh' Hl' Hm'. by eapply Hend.
  - intros o d He Hrj. destruct (Ht _ _ Hrj) as (ty & x & -> & Hty). mstep.
    apply (Hk _ (look_big fmt art (o + 8))). eapply (wp_look_big fmt bl t f es recs j o ty x art over n); try done.
Qed.
(** A big article whose number is out of the range is not stored. *)
Lemma wp_nv_setarticle_out fmt f recs art n room (Q : unit -> NVNewsgroup -> Prop) g :
  ngroup f recs g -> in_range f recs (w32 (a_nbr art)) = false -> ready (S n) room g ->
  (forall s', ngroup f recs (with_arr s' g) -> same_locks (core (nv_arr g)) (core s') ->
     mem_sz (core s') = mem_sz (core (nv_arr g)) -> Q tt (with_arr s' g)) ->
  wp (nv_setarticle fmt art) Q g.
Proof.
  intros (bl & t & es & Hn & Hh) Hout Hr HQ. unfold nv_setarticle. mstep.
  eapply wp_alock; [done|exact Hn|exact Hr|]. intros s1 Hn1 Hr1 E1. mstep. apply wp_on_arr.
  eapply wp_find_record; [exact Hn1|exact Hh| |].
  - intros _. mstep. apply wp_ret.
    eapply (wp_aunlock _ _ _ _ _ _ _ _ g); [exact Hn1|exact Hr|cbn [with_arr nv_arr]; rewrite E1; apply same_locks_refl|].
    intros s3 Hn3 Hl3 Hm3. apply HQ; [by exists bl, t, es|done|]. rewrite Hm3. cbn [with_arr nv_arr]. by rewrite E1.
  - intros j _ Hin. congruence.
Qed.

(** *** The operations that change a group *)
Inductive ng_op := NgOver (over : bytes) | NgArticle (art : Article) | NgSize (f : Z) (n : nat).
Definition run_ng (fmt : OverviewFmt) (o : ng_op) : M NVNewsgroup unit :=
  match o with
  | NgOver over => nv_setover over
  | NgArticle art => nv_setarticle fmt art
  | NgSize f n => nv_setsize f (f + Z.of_nat n - 1)
  end.
Fixpoint run_ngs (fmt : OverviewFmt) (l : list ng_op) : M NVNewsgroup unit :=
  match l with [] => ret tt | o :: l => run_ng fmt o ;;; run_ngs fmt l end.

(** The overview line of an article. *)
Definition over_line (fmt : OverviewFmt) (art : Article) : bytes :=
  match convert_article fmt art tt with Ret over _ => over | _ => [] end.
Definition ng_ok (fmt : OverviewFmt) (o : ng_op) : Prop :=
  match o with
  | NgOver _ => True
  | NgArticle art => big_size < a_length art -> converts fmt art (over_line fmt art)
  | NgSize f n => 0 <= f /\ 1 <= f + Z.of_nat n <= 2 ^ 32
  end.
Definition ng_cost (fmt : OverviewFmt) (o : ng_op) : Z :=
  2 ^ 18 + match o with
           | NgOver over => len over + 2
           | NgArticle art => Z.max (a_length art) (len (over_line fmt art)) + 2
           | NgSize _ n => 8 * Z.of_nat n
           end.
Definition ngs_cost (fmt : OverviewFmt) (l : list ng_op) : Z := foldr (fun o n => ng_cost fmt o + n) 0 l.

Lemma ngs_cost_nonneg fmt l : 0 <= ngs_cost fmt l.
Proof.
  induction l as [|o l IH]; cbn; [done|]. fold (ngs_cost fmt l). unfold ng_cost, a_length. destruct o; lia.
Qed.

(** A group whose records have their types. *)
Definition sound_group n room g : Prop := exists f recs,
  ngroup f recs g /\ typed recs /\ f + len recs <= 2 ^ 32 /\ ready (S (S (S (S n)))) room g.

Lemma sound_after f recs n room cost g g' : ngroup f recs g' -> typed recs -> f + len recs <= 2 ^ 32 ->
  ready (S (S (S (S n)))) (cost + room) g -> same_locks (core (nv_arr g)) (core (nv_arr g')) ->
  mem_sz (core (nv_arr g')) <= mem_sz (core (nv_arr g)) + cost -> sound_group n room g'.
Proof.
  intros Hg' Ht Hl Hr Hs Hm. exists f, recs. split_and!; [done..|]. eapply ready_after; [exact Hr|done|lia].
Qed.

(** setarticle, whatever the size of the article. *)
Lemma sound_article fmt art n room g : sound_group n (ng_cost fmt (NgArticle art) + room) g ->
  ng_ok fmt (NgArticle art) -> 0 <= room -> wp (nv_setarticle fmt art) (fun _ g' => sound_group n room g') g.
Proof.
  intros (f & recs & Hg & Ht & Hlen & Hr) Hok Hroom. unfold ng_cost in Hr.
  destruct (Z.leb_spec (a_length art) big_size) as [Hs|Hb].
  - eapply wp_nv_setarticle_small; [exact Hg|eapply ready_after; [exact Hr|apply same_locks_refl|lia]|done|].
    intros s' Hg' Hl' Hm'. eapply sound_after; [exact Hg'|apply typed_put; [done|by right; left]|by rewrite length_recs_put
      |exact Hr|exact Hl'|cbn [with_arr with_dir nv_arr]; lia].
  - destruct (in_range f recs (w32 (a_nbr art))) eqn:Ein.
    + eapply wp_nv_setarticle_big; [exact Hg|exact Ht|exact Ein|exact Hb|by apply Hok
        |eapply ready_after; [exact Hr|apply same_locks_refl|lia]|].
      intros s' x Hg' Hl' Hm'. eapply sound_after; [exact Hg'|apply typed_put; [done|by right; right; left]
        |by rewrite length_recs_put|exact Hr|exact Hl'|cbn [with_arr with_dir nv_arr]; lia].
    + eapply wp_nv_setarticle_out; [exact Hg|exact Ein|exact Hr|].
      intros s' Hg' Hl' Hm'. eapply sound_after; [exact Hg'|done..|exact Hr|exact Hl'|cbn [with_arr nv_arr]; unfold a_length; lia].
Qed.

Lemma wp_run_ng fmt o n room g : sound_group n (ng_cost fmt o + room) g -> ng_ok fmt o -> 0 <= room ->
  wp (run_ng fmt o) (fun _ g' => sound_group n room g') g.
Proof.
  intros Hso Hok Hroom. destruct o as [over|art|f' m]; cbn [run_ng]; [|by apply sound_article|];
    destruct Hso as (f & recs & Hg & Ht & Hlen & Hr); unfold ng_cost in Hr.
  - eapply wp_nv_setover; [exact Hg|eapply ready_after; [exact Hr|apply same_locks_refl|lia]|].
    intros s' Hg' Hl' Hm'. eapply sound_after; [exact Hg'|by apply typed_over| |exact Hr|exact Hl'|cbn [with_arr with_dir nv_arr]; lia].
    unfold over_added. destruct (at_index _ _ _); by rewrite ?length_recs_put.
  - destruct Hok as (H1 & H2 & H3).
    eapply wp_nv_setsize; [exact Hg|exact Ht|eapply ready_after; [exact Hr|apply same_locks_refl|lia]|done|lia|lia|].
    intros s' Hg' Hl' Hm'. eapply sound_after; [exact Hg'|by apply typed_window|by rewrite length_window|exact Hr|exact Hl'|cbn [with_arr with_dir nv_arr]; lia].
Qed.

(** C10: in the database of a group every record has one of the three types that testdb
    knows, overview line, article and big article: whatever overview lines and articles
    of any size were stored and however the range was changed before, testdb finds no
    bad record.  (Of an article of more than 15360 bytes convert has to be able to make
    the overview line: its header has to end within its text.) *)
Theorem records_typed fmt l f recs g :
  ngroup f recs g -> typed recs -> Forall (ng_ok fmt) l -> f + len recs <= 2 ^ 32 -> ready 4 (ngs_cost fmt l) g ->
  wp (run_ngs fmt l ;;; testdb) (fun bad _ => bad = 0) g.
Proof.
  intros Hg Ht Hok Hlen Hr. assert (sound_group 0 (ngs_cost fmt l) g) as Hso by (by exists f, recs).
  clear Hg Ht Hlen Hr. revert g Hso. induction Hok as [|o l Ho Hok IH]; intros g Hso; cbn [run_ngs]; mstep.
  - apply wp_ret. destruct Hso as (f' & recs' & Hg & Ht & _ & Hr). by eapply (wp_testdb _ _ 3).
  - change (ngs_cost fmt (o :: l)) with (ng_cost fmt o + ngs_cost fmt l) in Hso. mstep.
    eapply wp_mono; [apply (wp_run_ng _ _ 0 _ _ Hso Ho), ngs_cost_nonneg|].
    intros ? g' Hso'. apply wp_unbind. by apply IH.
Qed.
End big.

Lemma dir_find_write fn text d : dir_find fn (dir_write fn text d) = Some text.
Proof.
  unfold dir_find, dir_write, dir_unlink. induction d as [|[n' t'] d IH]; cbn [List.filter app List.find fst].
  - by rewrite bool_decide_eq_true_2.
  - case_bool_decide as E; cbn [negb]; [exact IH|]. cbn [app List.find fst]. by rewrite bool_decide_eq_false_2.
Qed.

Section world.
Context {os : Os} {Hos : OsOk os} {S : Type}.
Variable fmt_of : S -> OverviewFmt.
Variable retrievearticle : Z -> M (ngw S) (option Article).

(** A big article whose file exists is read from it. *)
Lemma wp_nv_getarticle_big f recs nbr x ls n room (Q : option Article -> ngw S -> Prop) w :
  ngroup f recs (w_ng w) -> ready (Datatypes.S n) room (w_ng w) ->
  at_index f recs nbr = Some (elem_of t_bigarticle x) ->
  dir_find (art_file nbr) (nv_dir (w_ng w)) = Some (sent_text ls) -> Forall plain_line ls ->
  (forall s', ngroup f recs (with_arr s' (w_ng w)) -> same_locks (core (nv_arr (w_ng w))) (core s') ->
     mem_sz (core s') = mem_sz (core (nv_arr (w_ng w))) ->
     Q (Some (MkArticle (s32 nbr) (sent_text ls))) (NgW (w_srv w) (with_arr s' (w_ng w)))) ->
  wp (nv_getarticle fmt_of retrievearticle nbr) Q w.
Proof.
  intros (bl & t & es & Hn & Hh) Hr Hat Hdir Hls HQ. unfold nv_getarticle. mstep. apply wp_on_ng.
  eapply wp_alock; [done|exact Hn|exact Hr|]. intros s1 Hn1 Hr1 E1. mstep. apply wp_on_ng, wp_on_arr.
  destruct (at_index_cases f es recs nbr Hh) as [(j & e & r & -> & He & Hrj & Hhr & Hs & E)|[_ ?]]; [|congruence].
  rewrite Hat in E. subst r. destruct e as [|o d|]; [done| |done]. cbn in Hhr. subst d.
  pose proof (lookup_lt_Some _ _ _ Hrj).
  eapply wp_find_record; [exact Hn1|exact Hh| |].
  { intros Hout. assert (in_range f recs (f + Z.of_nat j) = true) by (apply in_range_true; lia). congruence. }
  intros j' Ej _. assert (j' = j) as -> by lia. split; [congruence|]. intros o' d' He' _.
  rewrite He in He'. injection He' as <- <-. do 2 mstep. apply wp_on_ng, wp_on_arr.
  eapply wp_type_at; [exact Hn1|exact He|]. change (zc (cz t_bigarticle)) with t_bigarticle.
  change (t_bigarticle =? t_article) with false. change (t_bigarticle =? t_bigarticle) with true. cbn match.
  mstep. unfold read_big. mstep. apply wp_gets. cbn [w_ng nv_dir with_arr]. rewrite Hdir.
  destruct (a_read_file ls (MkArticle (s32 (f + Z.of_nat j)) []) Hls) as (ist & ->).
  do 3 mstep. apply wp_on_ng.
  eapply (wp_aunlock _ _ _ _ _ _ _ _ (w_ng w)); [exact Hn1|exact Hr|cbn [w_ng with_arr nv_arr]; rewrite E1; apply same_locks_refl|].
  intros s3 Hn3 Hl3 Hm3. mstep. apply HQ; [by exists bl, t, es|done|].
  rewrite Hm3. cbn [w_ng with_arr nv_arr]. by rewrite E1.
Qed.

(** C9: an article of more than 15360 bytes that was stored is what getarticle
    returns for its number: setarticle keeps its overview record in the database
    and its text in a file of its own, and getarticle reads the file without a word
    to the news server. The records of the other numbers are those from before. *)
Theorem big_article_roundtrip fmt f recs ls over art (w : ngw S) : let nbr := w32 (a_nbr art) in
  ngroup f recs (w_ng w) -> typed recs -> ready 4 (len over + 2 ^ 19) (w_ng w) ->
  big_size < a_length art -> a_text art = sent_text ls -> Forall plain_line ls -> converts fmt art over ->
  s32 nbr = a_nbr art -> in_range f recs nbr = true ->
  wp (on_ng (nv_setarticle fmt art) ;;; nv_getarticle fmt_of retrievearticle nbr)
    (fun a w' => a = Some art /\ w_srv w' = w_srv w /\
       nv_dir (w_ng w') = dir_write (art_file nbr) (a_text art) (nv_dir (w_ng w)) /\
       exists recs', ngroup f recs' (w_ng w') /\ length recs' = length recs /\
         forall k, k <> nbr -> at_index f recs' k = at_index f recs k) w.
Proof.
  intros nbr Hg Ht Hr Hbig Et Hls Hc Hnbr Hin. mstep. apply wp_on_ng.
  eapply (wp_nv_setarticle_big _ _ _ _ _ 1); [exact Hg|exact Ht|exact Hin|exact Hbig|exact Hc| |].
  { eapply ready_after; [exact Hr|apply same_locks_refl|lia]. }
  intros s1 x Hg1 Hl1 Hm1.
  eapply (wp_nv_getarticle_big _ _ _ x ls 3 0); [exact Hg1| |by apply put_at| |exact Hls|].
  - eapply ready_after; [exact Hr|exact Hl1|cbn [w_ng with_dir nv_arr]; lia].
  - cbn [w_ng with_dir nv_dir]. by rewrite dir_find_write, Et.
  - intros s2 Hg2 Hl2 _. split_and!; [|done|done|].
    + fold nbr. rewrite Hnbr, <- Et. by destruct art.
    + eexists. split_and!; [exact Hg2|apply length_recs_put|]. intros k Hk. apply put_other; [done|]. by apply in_range_true in Hin as [? _].
Qed.
End world.

(** ** An article of seventeen thousand bytes *)
#[local] Existing Instance good_os.
Definition ex_big_lines : list bytes :=
  [bs "Subject: big"; bs "From: me"; bs ""] ++ replicate 17 (replicate 1000 "x"%char).
Definition ex_big : Article := MkArticle 7 (sent_text ex_big_lines).
Definition ex_big_over : bytes :=
  match convert_article (new_fmt []) ex_big tt with Ret o _ => o | _ => [] end.
Lemma ex_big_converts : converts (new_fmt []) ex_big ex_big_over.
Proof. intros s. vm_compute. reflexivity. Qed.

Lemma ex_big_plain : Forall plain_line ex_big_lines.
Proof.
  unfold ex_big_lines. apply Forall_app. split.
  - repeat (apply Forall_cons_2; [split_and!; [by apply (bool_decide_unpack _); vm_compute|intros c; vm_compute; intros [= <-]; discriminate|discriminate]|]).
    apply Forall_nil_2.
  - apply Forall_replicate. split_and!; [|intros c|discriminate].
    + intros H. apply elem_of_replicate in H as [H _]. discriminate.
    + replace (last _) with (Some "x"%char) by (vm_compute; reflexivity). intros [= <-]. discriminate.
Qed.

Lemma big_article_roundtrip_witness :
  wp (on_ng (nv_setarticle (new_fmt []) ex_big) ;;; nv_getarticle (fun _ : unit => new_fmt []) (fun _ => spin) 7)
    (fun a w' => a = Some ex_big /\ dir_find (bs ".art7") (nv_dir (w_ng w')) = Some (a_text ex_big)) (NgW tt ex_ng).
Proof.
  destruct (ex_ng_ok (len ex_big_over + 2 ^ 19)) as [Hg Hr]; [vm_compute; discriminate|].
  eapply wp_mono; [apply (big_article_roundtrip (fun _ : unit => new_fmt []) (fun _ => spin) (new_fmt []) 5
    [None; None; None] ex_big_lines ex_big_over ex_big (NgW tt ex_ng) Hg ex_untyped Hr);
    [vm_compute; reflexivity|reflexivity|exact ex_big_plain|exact ex_big_converts|reflexivity|reflexivity]|].
  intros a w' (Ha & _ & Hd & _). refine (conj Ha _). rewrite Hd. vm_compute. reflexivity.
Defined.

Lemma records_typed_witness :
  wp (run_ngs (new_fmt []) [NgArticle ex_art; NgArticle ex_big; NgSize 6 2] ;;; testdb) (fun bad _ => bad = 0) ex_ng.
Proof.
  destruct (ex_ng_ok (ngs_cost (new_fmt []) [NgArticle ex_art; NgArticle ex_big; NgSize 6 2])) as [Hg Hr];
    [vm_compute; discriminate|].
  apply (records_typed (new_fmt []) _ 5 [None; None; None] ex_ng Hg ex_untyped); [|vm_compute; discriminate|exact Hr].
  repeat apply List.Forall_cons; [|intros _; exact ex_big_converts|vm_compute; repeat split; discriminate|apply List.Forall_nil].
  intros H. destruct (Z.lt_irrefl 15360). eapply Z.lt_trans; [exact H|vm_compute; reflexivity].
Defined.
