(* ===== verification/CacheHit.v ===== *)
(** * CacheHit.v: the cache

    An article the news server delivered once is in the database: it is served from
    there from then on, without a word to the news server. *)
From S2P Require Import Prelude Memory Text Matching ServerList Container GroupInfo Article OverviewFmt RServer.
From S2P Require Import Heap Alloc ContainerSpec.
From S2P Require Import RNews RNewsgroup.
From S2P Require Import NVlist.
From S2P Require Import NVHash.
From S2P Require Import ActiveDB DbLaws.
From S2P Require Import CServer.
From S2P Require Import NVArray.
From S2P Require Import ArrayLaws.
From S2P Require Import ArrayMap.
From S2P Require Import NVNewsgroup.
From S2P Require Import NgLaws.
From S2P Require Import NgSize.
From S2P Require Import CNewsgroup.
From S2P Require Import RTalk.
From S2P Require Import NgBig.

(** The record of a number that has no article yet. *)
Definition lacks_article (r : option bytes) : Prop := r = None \/ exists x, r = Some (elem_of t_overview x).

(** The database and the directory [dir] hold the text of the article [nbr]. *)
Definition serves (f : Z) (recs : list (option bytes)) (nbr : Z) (text : bytes) (dir : list (bytes * bytes)) : Prop :=
  at_index f recs nbr = Some (elem_of t_article text) /\ len text + 2 < 2 ^ 64 \/
  exists x ls, at_index f recs nbr = Some (elem_of t_bigarticle x) /\ text = sent_text ls /\ Forall plain_line ls /\
    dir_find (art_file nbr) dir = Some text.

(** A small article, or a big one of lines, with its overview record. *)
Definition storable (fm : OverviewFmt) (art : Article) (over : bytes) : Prop :=
  a_length art <= big_size /\ over = a_text art \/
  big_size < a_length art /\ converts fm art over /\ exists ls, a_text art = sent_text ls /\ Forall plain_line ls.

Section store.
Context {os : Os} {Hos : OsOk os} {S : Type}.
Variable fmt_of : S -> OverviewFmt.
Variable retrievearticle : Z -> M (ngw S) (option Article).

Lemma wp_nv_setarticle_any fm f recs art over n (Q : unit -> NVNewsgroup -> Prop) g : let nbr := w32 (a_nbr art) in
  ngroup f recs g -> typed recs -> in_range f recs nbr = true -> storable fm art over ->
  ready (3 + n) (len over + 2) g ->
  (forall s' dir recs', ngroup f recs' (with_dir s' dir g) -> length recs' = length recs ->
     serves f recs' nbr (a_text art) dir -> (forall k, k <> nbr -> at_index f recs' k = at_index f recs k) ->
     same_locks (core (nv_arr g)) (core s') ->
     mem_sz (core s') <= mem_sz (core (nv_arr g)) + (len over + 2) + 2 ^ 18 -> Q tt (with_dir s' dir g)) ->
  wp (nv_setarticle fm art) Q g.
Proof.
  intros nbr Hg Ht Hin Hst Hr HQ. assert (f <= nbr) as Hf by (by apply in_range_true in Hin as [? _]).
  destruct Hst as [[Hs ->]|(Hb & Hc & ls & Et & Hls)].
  - eapply (wp_nv_setarticle_small _ _ _ _ n); [exact Hg|exact Hr|exact Hs|]. fold nbr. intros s' Hg' Hl' Hm'.
    change (with_arr s' g) with (with_dir s' (nv_dir g) g). eapply HQ; [exact Hg'|apply length_recs_put| | |exact Hl'|exact Hm'].
    + left. split; [by apply put_at|]. unfold big_size, a_length in Hs. lia.
    + intros k Hk. by apply put_other.
  - eapply (wp_nv_setarticle_big _ _ _ _ _ n); [exact Hg|exact Ht|exact Hin|exact Hb|exact Hc|exact Hr|]. fold nbr.
    intros s' x Hg' Hl' Hm'. eapply HQ; [exact Hg'|apply length_recs_put| | |exact Hl'|exact Hm'].
    + right. exists x, ls. split_and!; [by apply put_at|done|done|]. by rewrite dir_find_write.
    + intros k Hk. by apply put_other.
Qed.

Lemma wp_nv_getarticle_served f recs nbr text n room (Q : option Article -> ngw S -> Prop) w :
  ngroup f recs (w_ng w) -> ready (Datatypes.S n) room (w_ng w) -> serves f recs nbr text (nv_dir (w_ng w)) ->
  (forall s', ngroup f recs (with_arr s' (w_ng w)) -> same_locks (core (nv_arr (w_ng w))) (core s') ->
     mem_sz (core s') = mem_sz (core (nv_arr (w_ng w))) ->
     Q (Some (MkArticle (s32 nbr) text)) (NgW (w_srv w) (with_arr s' (w_ng w)))) ->
  wp (nv_getarticle fmt_of retrievearticle nbr) Q w.
Proof.
  intros Hg Hr [[Hat Hsz]|(x & ls & Hat & -> & Hls & Hdir)] HQ.
  - by eapply wp_nv_getarticle_stored.
  - by eapply wp_nv_getarticle_big.
Qed.

(** What is not there is retrieved, stored, and given to the caller. *)
Lemma wp_nv_getarticle_missing f recs nbr art over srv' n (Q : option Article -> ngw S -> Prop) w :
  ngroup f recs (w_ng w) -> typed recs -> ready (4 + n) (len over + 2) (w_ng w) -> in_range f recs nbr = true ->
  lacks_article (at_index f recs nbr) ->
  (forall s, retrievearticle nbr (NgW (w_srv w) (with_arr s (w_ng w))) = Ret (Some art) (NgW srv' (with_arr s (w_ng w)))) ->
  w32 (a_nbr art) = nbr -> storable (fmt_of srv') art over ->
  (forall s' dir recs', ngroup f recs' (with_dir s' dir (w_ng w)) -> length recs' = length recs ->
     serves f recs' nbr (a_text art) dir -> (forall k, k <> nbr -> at_index f recs' k = at_index f recs k) ->
     same_locks (core (nv_arr (w_ng w))) (core s') ->
     mem_sz (core s') <= mem_sz (core (nv_arr (w_ng w))) + (len over + 2) + 2 ^ 18 ->
     Q (Some art) (NgW srv' (with_dir s' dir (w_ng w)))) ->
  wp (nv_getarticle fmt_of retrievearticle nbr) Q w.
Proof.
  intros (bl & t & es & Hn & Hh) Ht Hr Hin Hlack Hret Hnbr Hst HQ. unfold nv_getarticle. mstep. apply wp_on_ng.
  eapply wp_alock; [done|exact Hn|exact Hr|]. intros s1 Hn1 Hr1 E1. mstep. apply wp_on_ng, wp_on_arr.
  assert (wp (retrieve_and_set fmt_of retrievearticle nbr)
    (fun a w' => wp (on_ng (alock UnLock) ;;; ret a) Q w') (NgW (w_srv w) (with_arr s1 (w_ng w)))) as Hset.
  { unfold retrieve_and_set. mstep. eapply wp_of_eq; [apply Hret|]. do 2 mstep. unfold fmt. apply wp_gets. apply wp_on_ng. cbn [w_ng w_srv].
    eapply (wp_nv_setarticle_any _ _ _ _ over n); [by exists bl, t, es|exact Ht|by rewrite Hnbr|exact Hst|exact Hr1|].
    rewrite Hnbr. intros s2 dir recs2 (bl2 & t2 & es2 & Hn2 & Hh2) Hlen Hsv Ho Hl2 Hm2.
    cbn [with_arr nv_arr] in Hl2, Hm2. rewrite E1 in Hl2, Hm2. do 2 mstep. apply wp_on_ng. cbn [w_ng w_srv].
    eapply (wp_aunlock _ _ _ _ _ _ _ _ (w_ng w)); [exact Hn2|exact Hr|exact Hl2|]. intros s3 Hn3 Hl3 Hm3. mstep.
    apply (HQ s3 dir recs2); [by exists bl2, t2, es2|done..|]. rewrite Hm3. exact Hm2. }
  eapply wp_find_record; [exact Hn1|exact Hh|intros Hout; congruence|].
  intros j Ej _. split.
  - intros He Hrj. mstep. exact Hset.
  - intros o d He Hrj. rewrite Ej, (at_index_nat _ _ _ _ Hrj) in Hlack. destruct Hlack as [?|[x [= ->]]]; [done|].
    do 2 mstep. apply wp_on_ng, wp_on_arr. eapply wp_type_at; [exact Hn1|exact He|].
    change (zc (cz t_overview) =? t_article) with false. change (zc (cz t_overview) =? t_bigarticle) with false.
    cbn match. exact Hset.
Qed.
End store.

Section hit.
Context {os : Os} {Hos : OsOk os} {env : Env}.
Abbreviation SRV := (rserver (obj hash_ext)).

(** The news server delivers the article to the retrieval from the group. *)
Definition delivers (w : ngw SRV) (nbr : Z) (art : Article) (srv' : SRV) : Prop :=
  c_article (nv_name (w_ng w)) nbr (MkArticle 0 []) (w_srv w) = Ret art srv'.

Lemma retrieve_delivers w nbr art srv' s : delivers w nbr art srv' ->
  retrievearticle nbr (NgW (w_srv w) (with_arr s (w_ng w))) = Ret (Some art) (NgW srv' (with_arr s (w_ng w))).
Proof.
  intros H. unfold retrievearticle, attempt, the_group, bind, catch, gets, on_server. cbn [w_ng w_srv nv_name with_arr].
  unfold delivers in H. by rewrite H.
Qed.

(** The same request, over and over. *)
Fixpoint again (k : nat) (nbr : Z) : M (ngw SRV) (list (option Article)) :=
  match k with O => ret [] | S k => a <- cn_getarticle nbr ;; l <- again k nbr ;; ret (a :: l) end.

Lemma wp_again_served f recs nbr text k : forall w, ngroup f recs (w_ng w) -> ready 4 0 (w_ng w) ->
  serves f recs nbr text (nv_dir (w_ng w)) ->
  wp (again k nbr) (fun l w' => l = replicate k (Some (MkArticle (s32 nbr) text)) /\ w_srv w' = w_srv w /\
    ngroup f recs (w_ng w')) w.
Proof.
  induction k as [|k IH]; intros w Hg Hr Hsv; cbn [again replicate]; [by apply wp_ret|]. mstep.
  unfold cn_getarticle at 1. eapply (wp_nv_getarticle_served _ _ _ _ _ text 3 0); [exact Hg|exact Hr|exact Hsv|].
  intros s' Hg' Hl' Hm'. mstep. eapply wp_mono; [apply IH; [exact Hg'| |exact Hsv]|].
  - eapply ready_after; [exact Hr|exact Hl'|cbn [w_ng with_arr nv_arr]; lia].
  - intros l w' (-> & Hs & Hg2). mstep. by split_and!.
Qed.

(** C1: an article goes over the network once, whether it is kept in the database or in
    a file of its own: the first request for its number brings it from the news server,
    and however often it is asked for again, it is the same article, and the news
    server is in the state the first request left it in.  The records of the other
    numbers stay as they are. *)
Theorem fetched_once f recs nbr art over srv' k w :
  ngroup f recs (w_ng w) -> typed recs -> ready 4 (len over + 2 ^ 19) (w_ng w) -> in_range f recs nbr = true ->
  lacks_article (at_index f recs nbr) -> delivers w nbr art srv' ->
  a_nbr art = s32 nbr -> w32 (s32 nbr) = nbr -> storable (rs_fmt srv') art over ->
  wp (again (S k) nbr) (fun l w' => l = replicate (S k) (Some art) /\ w_srv w' = srv' /\
    exists recs', ngroup f recs' (w_ng w') /\ length recs' = length recs /\
      forall j, j <> nbr -> at_index f recs' j = at_index f recs j) w.
Proof.
  intros Hg Ht Hr Hin Hlack Hdel Hart Hnbr Hst. cbn [again]. mstep. unfold cn_getarticle at 1.
  eapply (wp_nv_getarticle_missing _ _ _ _ _ art over srv' 0); [exact Hg|exact Ht| |exact Hin|exact Hlack|..].
  - eapply ready_after; [exact Hr|apply same_locks_refl|lia].
  - intros s. by apply retrieve_delivers.
  - by rewrite Hart.
  - exact Hst.
  - intros s' dir recs' Hg' Hlen Hsv Ho Hl' Hm'. mstep.
    eapply wp_mono; [apply (wp_again_served f recs' nbr (a_text art)); [exact Hg'| |exact Hsv]|].
    + eapply ready_after; [exact Hr|exact Hl'|cbn [w_ng with_dir nv_arr]; lia].
    + intros l w' (-> & Hs & Hg2). mstep. cbn [replicate w_srv] in *. split_and!; [|exact Hs|by exists recs'].
      rewrite <- Hart. by destruct art.
Qed.
End hit.
