(* ===== verification/Md5.v ===== *)
(** * Md5.v: hashed passwords

    md5lib/md5.cc and md5lib/md5crypt.cc, for a [uint32] of [k] bytes: [k] is 4
    where [unsigned long] has 32 bits, and 8 on LP64 platforms.  The context ends
    with its input buffer; [None] is an access behind it. *)
From S2P Require Import Prelude Memory Text.

Definition word : Type := Z.
Record MD5_CTX := Ctx { md_buf : word * word * word * word; md_bits : word * word; md_in : bytes }.

Section md5.
Variable k : nat.
Definition wmod (z : Z) : word := z mod 256 ^ Z.of_nat k.

(** The four core functions. *)
Definition F1 (x y z : word) : word := Z.lxor z (Z.land x (Z.lxor y z)).
Definition F2 (x y z : word) : word := F1 z x y.
Definition F3 (x y z : word) : word := Z.lxor (Z.lxor x y) z.
Definition F4 (x y z : word) : word := Z.lxor y (Z.lor x (wmod (Z.lnot z))).

(** MD5STEP: [w += f(x, y, z) + data, w = w<<s | w>>(32-s), w += x] *)
Definition MD5STEP (f : word -> word -> word -> word) (w x y z data : word) (s : Z) : word :=
  let w := wmod (w + f x y z + data) in
  let w := Z.lor (wmod (Z.shiftl w s)) (Z.shiftr w (32 - s)) in
  wmod (w + x).

(** A line of the four rounds: the word of the block, the constant and the shift. *)
Definition md5_line : Type := nat * word * Z.
Definition round1 : list md5_line :=
  [(0%nat, 0xd76aa478, 7); (1%nat, 0xe8c7b756, 12); (2%nat, 0x242070db, 17); (3%nat, 0xc1bdceee, 22);
   (4%nat, 0xf57c0faf, 7); (5%nat, 0x4787c62a, 12); (6%nat, 0xa8304613, 17); (7%nat, 0xfd469501, 22);
   (8%nat, 0x698098d8, 7); (9%nat, 0x8b44f7af, 12); (10%nat, 0xffff5bb1, 17); (11%nat, 0x895cd7be, 22);
   (12%nat, 0x6b901122, 7); (13%nat, 0xfd987193, 12); (14%nat, 0xa679438e, 17); (15%nat, 0x49b40821, 22)].
Definition round2 : list md5_line :=
  [(1%nat, 0xf61e2562, 5); (6%nat, 0xc040b340, 9); (11%nat, 0x265e5a51, 14); (0%nat, 0xe9b6c7aa, 20);
   (5%nat, 0xd62f105d, 5); (10%nat, 0x02441453, 9); (15%nat, 0xd8a1e681, 14); (4%nat, 0xe7d3fbc8, 20);
   (9%nat, 0x21e1cde6, 5); (14%nat, 0xc33707d6, 9); (3%nat, 0xf4d50d87, 14); (8%nat, 0x455a14ed, 20);
   (13%nat, 0xa9e3e905, 5); (2%nat, 0xfcefa3f8, 9); (7%nat, 0x676f02d9, 14); (12%nat, 0x8d2a4c8a, 20)].
Definition round3 : list md5_line :=
  [(5%nat, 0xfffa3942, 4); (8%nat, 0x8771f681, 11); (11%nat, 0x6d9d6122, 16); (14%nat, 0xfde5380c, 23);
   (1%nat, 0xa4beea44, 4); (4%nat, 0x4bdecfa9, 11); (7%nat, 0xf6bb4b60, 16); (10%nat, 0xbebfbc70, 23);
   (13%nat, 0x289b7ec6, 4); (0%nat, 0xeaa127fa, 11); (3%nat, 0xd4ef3085, 16); (6%nat, 0x04881d05, 23);
   (9%nat, 0xd9d4d039, 4); (12%nat, 0xe6db99e5, 11); (15%nat, 0x1fa27cf8, 16); (2%nat, 0xc4ac5665, 23)].
Definition round4 : list md5_line :=
  [(0%nat, 0xf4292244, 6); (7%nat, 0x432aff97, 10); (14%nat, 0xab9423a7, 15); (5%nat, 0xfc93a039, 21);
   (12%nat, 0x655b59c3, 6); (3%nat, 0x8f0ccc92, 10); (10%nat, 0xffeff47d, 15); (1%nat, 0x85845dd1, 21);
   (8%nat, 0x6fa87e4f, 6); (15%nat, 0xfe2ce6e0, 10); (6%nat, 0xa3014314, 15); (13%nat, 0x4e0811a1, 21);
   (4%nat, 0xf7537e82, 6); (11%nat, 0xbd3af235, 10); (2%nat, 0x2ad7d2bb, 15); (9%nat, 0xeb86d391, 21)].

(** The lines of a round name their variables in turn: after a line, d, a, b, c
    play the parts of a, b, c, d. *)
Definition md5_round (f : word -> word -> word -> word) (block : list word) (lines : list md5_line)
    (abcd : word * word * word * word) : word * word * word * word :=
  fold_left (fun '(a, b, c, d) '(i, con, s) =>
    (d, MD5STEP f a b c d (wmod (nth i block 0 + con)) s, b, c)) lines abcd.

Definition MD5Transform (buf : word * word * word * word) (block : list word) : word * word * word * word :=
  let r := md5_round F4 block round4 (md5_round F3 block round3 (md5_round F2 block round2
             (md5_round F1 block round1 buf))) in
  let '(a0, b0, c0, d0) := buf in let '(a, b, c, d) := r in
  (wmod (a0 + a), wmod (b0 + b), wmod (c0 + c), wmod (d0 + d)).

(** [MD5Transform(ctx->buf, (uint32 * ) ctx->in)] reads sixteen words. *)
Fixpoint words_at (n : nat) (l : bytes) : list word :=
  match n with O => [] | S n => le_val (take k l) :: words_at n (drop k l) end.
Definition transform (ctx : MD5_CTX) : option MD5_CTX :=
  if (length (md_in ctx) <? 16 * k)%nat then None
  else Some (Ctx (MD5Transform (md_buf ctx) (words_at 16 (md_in ctx))) (md_bits ctx) (md_in ctx)).

(** [memcpy(ctx->in + off, l, length l)] *)
Definition fill (off : nat) (l : bytes) (ctx : MD5_CTX) : MD5_CTX :=
  Ctx (md_buf ctx) (md_bits ctx) (take off (md_in ctx) ++ l ++ drop (off + length l) (md_in ctx)).

(** MD5Init; the input buffer keeps what it held. *)
Definition MD5Init (junk : bytes) : MD5_CTX :=
  Ctx (0x67452301, 0xefcdab89, 0x98badcfe, 0x10325476) (0, 0) junk.

Definition count (ctx : MD5_CTX) : nat := Z.to_nat (Z.land (Z.shiftr (fst (md_bits ctx)) 3) 0x3f).

(** The bit count; [len] is an unsigned int. *)
Definition add_bits (len : Z) (bits : word * word) : word * word :=
  let t := fst bits in
  let b0 := wmod (t + wmod (Z.shiftl (wmod len) 3)) in
  let b1 := if b0 <? t then wmod (snd bits + 1) else snd bits in
  (b0, wmod (b1 + Z.shiftr len 29)).

Fixpoint update_chunks (n : nat) (ctx : MD5_CTX) (buf : bytes) : option MD5_CTX :=
  match n with
  | O => None
  | S n =>
      if (64 <=? length buf)%nat then
        transform (fill 0 (take 64 buf) ctx) ≫= fun ctx => update_chunks n ctx (drop 64 buf)
      else Some (fill 0 buf ctx)
  end.

Definition MD5Update (ctx : MD5_CTX) (buf : bytes) : option MD5_CTX :=
  let t := count ctx in
  let ctx := Ctx (md_buf ctx) (add_bits (w32 (Z.of_nat (length buf))) (md_bits ctx)) (md_in ctx) in
  if (t =? 0)%nat then update_chunks (S (length buf)) ctx buf
  else if (length buf <? 64 - t)%nat then Some (fill t buf ctx)
  else transform (fill t (take (64 - t) buf) ctx) ≫= fun ctx =>
       update_chunks (S (length buf)) ctx (drop (64 - t) buf).

(** [((uint32 * ) ctx->in)[i] = v] *)
Definition store_word (i : nat) (v : word) (ctx : MD5_CTX) : option MD5_CTX :=
  if (length (md_in ctx) <? (i + 1) * k)%nat then None else Some (fill (i * k) (le_bytes k v) ctx).

(** MD5Final: the first sixteen bytes of the four words. *)
Definition MD5Final (ctx : MD5_CTX) : option bytes :=
  let n := count ctx in
  let ctx := fill n [cz 0x80] ctx in
  let left := (63 - n)%nat in
  (if (left <? 8)%nat
   then transform (fill (n + 1) (replicate left NUL) ctx) ≫= fun ctx => Some (fill 0 (replicate 56 NUL) ctx)
   else Some (fill (n + 1) (replicate (left - 8) NUL) ctx)) ≫= fun ctx =>
  store_word 14 (fst (md_bits ctx)) ctx ≫= fun ctx =>
  store_word 15 (snd (md_bits ctx)) ctx ≫= fun ctx =>
  transform ctx ≫= fun ctx =>
  let '(a, b, c, d) := md_buf ctx in
  Some (take 16 (le_bytes k a ++ le_bytes k b ++ le_bytes k c ++ le_bytes k d)).
End md5.

(** ** md5crypt *)
Definition Base64 : bytes := bs "ABCDEFGHIJKLMNOPQRSTUVWXYZabcdefghijklmnopqrstuvwxyz0123456789+/".
Definition Pad64 : ascii := "="%char.
Definition b64 (z : Z) : ascii := nth (Z.to_nat z) Base64 NUL.

Definition b64_output (a b c : ascii) : Z * Z * Z * Z :=
  let '(a, b, c) := (zc a, zc b, zc c) in
  (Z.shiftr a 2, Z.shiftl (Z.land a 0x03) 4 + Z.shiftr b 4, Z.shiftl (Z.land b 0x0f) 2 + Z.shiftr c 6,
   Z.land c 0x3f).

(** b64_ntop: the characters before the terminator; [None] when there is no room
    for them and the terminator. *)
Fixpoint b64_ntop (src : bytes) (target : bytes) (targsize : nat) : option bytes :=
  match src with
  | a :: b :: c :: src =>
      let '(w, x, y, z) := b64_output a b c in
      if (targsize <? length target + 4)%nat then None
      else b64_ntop src (target ++ [b64 w; b64 x; b64 y; b64 z]) targsize
  | [] => if (targsize <=? length target)%nat then None else Some target
  | a :: rest =>
      let '(w, x, y, _) := b64_output a (at_ rest 0) NUL in
      if (targsize <? length target + 4)%nat then None else
      let target := target ++ [b64 w; b64 x; (if bool_decide (rest = []) then Pad64 else b64 y); Pad64] in
      if (targsize <=? length target)%nat then None else Some target
  end.

(** md5crypt: [None] for an access behind the context; the null pointer cannot be. *)
Definition md5crypt (k : nat) (password : bytes) : option bytes :=
  MD5Update k (MD5Init (replicate 64 NUL)) password ≫= fun ctx =>
  MD5Final k ctx ≫= fun digest => b64_ntop digest [] 25.

(** The test suite of RFC 1321, in base 64. *)
Example md5_empty : md5crypt 4 [] = Some (bs "1B2M2Y8AsgTpgAmY7PhCfg==").
Proof. vm_compute. reflexivity. Qed.
Example md5_abc : md5crypt 4 (bs "abc") = Some (bs "kAFQmDzST7DWlj99KOF/cg==").
Proof. vm_compute. reflexivity. Qed.

(** ** Updating byte by byte

    The meaning of an update: every byte goes to its place in the input buffer, and
    a full buffer is digested. *)
Section update.
Variable k : nat.

Fixpoint absorb (p : nat) (ctx : MD5_CTX) (l : bytes) : option MD5_CTX :=
  match l with
  | [] => Some ctx
  | c :: l =>
      let ctx := fill p [c] ctx in
      if (p =? 63)%nat then transform k ctx ≫= fun ctx => absorb 0 ctx l else absorb (S p) ctx l
  end.

Definition with_bits (bits : word * word) (ctx : MD5_CTX) : MD5_CTX := Ctx (md_buf ctx) bits (md_in ctx).

Lemma length_fill off l ctx : (off + length l <= length (md_in ctx))%nat ->
  length (md_in (fill off l ctx)) = length (md_in ctx).
Proof. intros. unfold fill. cbn [md_in]. rewrite !length_app, length_take, length_drop. lia. Qed.

Lemma fill_nil off ctx : (off <= length (md_in ctx))%nat -> fill off [] ctx = ctx.
Proof. intros. destruct ctx as [b n i]. unfold fill. cbn. by rewrite Nat.add_0_r, take_drop. Qed.

Lemma fill_fill off l l' ctx : (off + length l + length l' <= length (md_in ctx))%nat ->
  fill (off + length l) l' (fill off l ctx) = fill off (l ++ l') ctx.
Proof.
  intros H. destruct ctx as [b n i]. unfold fill. cbn [md_buf md_bits md_in] in *. f_equal.
  assert (length (take off i ++ l) = (off + length l)%nat) as E by (rewrite length_app, length_take; lia).
  rewrite (app_assoc (take off i) l (drop (off + length l) i)).
  rewrite (take_app_length' (take off i ++ l)) by done.
  rewrite (drop_app_ge (take off i ++ l)), E, drop_drop by (rewrite E; lia).
  rewrite length_app, <- !app_assoc. do 4 f_equal. lia.
Qed.

Lemma transform_length ctx ctx' : transform k ctx = Some ctx' -> length (md_in ctx') = length (md_in ctx).
Proof. unfold transform. case_match; [done|]. by intros [= <-]. Qed.

(** What does not fill the buffer is copied, what fills it is digested. *)
Lemma absorb_fill : forall l p ctx, length (md_in ctx) = 64%nat -> (p + length l < 64)%nat ->
  absorb p ctx l = Some (fill p l ctx).
Proof.
  induction l as [|c l IH]; intros p ctx Hin Hl; cbn [absorb length] in *.
  - by rewrite fill_nil by lia.
  - assert ((p =? 63)%nat = false) as -> by (apply Nat.eqb_neq; lia).
    pose proof (length_fill p [c] ctx ltac:(cbn [length]; lia)).
    rewrite IH by lia. f_equal.
    pose proof (fill_fill p [c] l ctx ltac:(cbn [length]; lia)) as E. cbn [length app] in E.
    by rewrite Nat.add_1_r in E.
Qed.

Lemma absorb_full : forall l r p ctx, length (md_in ctx) = 64%nat -> (p + length l = 64)%nat -> l <> [] ->
  absorb p ctx (l ++ r) = transform k (fill p l ctx) ≫= fun ctx => absorb 0 ctx r.
Proof.
  induction l as [|c l IH]; intros r p ctx Hin Hl Hne; [done|]. cbn [absorb length app] in *.
  pose proof (length_fill p [c] ctx ltac:(cbn [length]; lia)) as Hf.
  destruct (Nat.eqb_spec p 63) as [->|Hp].
  - by destruct l; [|cbn [length] in Hl; lia].
  - rewrite IH; [|lia|lia|by intros ->; cbn [length] in Hl; lia].
    pose proof (fill_fill p [c] l ctx ltac:(cbn [length]; lia)) as E. cbn [length app] in E.
    by rewrite <- E, Nat.add_1_r.
Qed.

Lemma update_absorb : forall n ctx l, length (md_in ctx) = 64%nat -> (length l < n)%nat ->
  update_chunks k n ctx l = absorb 0 ctx l.
Proof.
  induction n as [|n IH]; intros ctx l Hin Hn; [lia|]. cbn [update_chunks].
  destruct (Nat.leb_spec 64 (length l)) as [Hl|Hl].
  - assert (length (take 64 l) = 64%nat) as Ht by (rewrite length_take; lia).
    transitivity (absorb 0 ctx (take 64 l ++ drop 64 l)); [|by rewrite take_drop].
    rewrite absorb_full by (done || by intros E; rewrite E in Ht).
    destruct (transform k (fill 0 (take 64 l) ctx)) as [ctx'|] eqn:E; [|done]. cbn.
    apply transform_length in E. rewrite length_fill in E by (rewrite Ht, Hin; lia).
    apply IH; [lia|]. rewrite length_drop. lia.
  - by rewrite absorb_fill by lia.
Qed.

Lemma MD5Update_absorb ctx l : length (md_in ctx) = 64%nat ->
  MD5Update k ctx l =
    absorb (count ctx) (with_bits (add_bits k (w32 (Z.of_nat (length l))) (md_bits ctx)) ctx) l.
Proof.
  intros Hin. assert (count ctx < 64)%nat as Hc.
  { unfold count. change 0x3f with (Z.ones 6). rewrite Z.land_ones by lia.
    pose proof (Z.mod_pos_bound (Z.shiftr (fst (md_bits ctx)) 3) (2 ^ 6) ltac:(lia)). lia. }
  unfold MD5Update. fold (with_bits (add_bits k (w32 (Z.of_nat (length l))) (md_bits ctx)) ctx).
  set (bits := add_bits k _ _). set (t := count ctx) in *.
  assert (length (md_in (with_bits bits ctx)) = 64%nat) as Hin' by done.
  destruct (Nat.eqb_spec t 0) as [->|Ht]; [apply update_absorb; [done|lia]|].
  destruct (Nat.ltb_spec (length l) (64 - t)) as [Hl|Hl]; [by rewrite absorb_fill by lia|].
  assert (length (take (64 - t) l) = (64 - t)%nat) as Htk by (rewrite length_take; lia).
  transitivity (absorb t (with_bits bits ctx) (take (64 - t) l ++ drop (64 - t) l)); [|by rewrite take_drop].
  rewrite absorb_full; [|done|lia|by intros E; rewrite E in Htk; cbn [length] in Htk; lia].
  destruct (transform k (fill t (take (64 - t) l) (with_bits bits ctx))) as [ctx'|] eqn:E; [|done].
  apply transform_length in E. rewrite length_fill in E by (rewrite Htk, Hin'; lia).
  change (update_chunks k (S (length l)) ctx' (drop (64 - t) l) = absorb 0 ctx' (drop (64 - t) l)).
  apply update_absorb; [lia|]. rewrite length_drop. lia.
Qed.
End update.

(** ** Updating in pieces

    The words have 32 or 64 bits; with 64, the lengths that matter are short. *)
Section bits.
Variable k : nat.
Let W : Z := 256 ^ Z.of_nat k.
Definition bits_ok (b : word * word) : Prop := 0 <= fst b < W /\ 0 <= snd b < W.
Definition bits_val (b : word * word) : Z := fst b + W * snd b.
Definition counts (n : Z) : Prop := 0 <= n /\ (k = 4%nat /\ n < 2 ^ 32 \/ k = 8%nat /\ n < 2 ^ 29).

Lemma words_wide n : counts n -> 2 ^ 32 <= W /\ n < W /\ (8 * n) mod W + W * (n / 2 ^ 29) = 8 * n.
Proof.
  unfold W. intros [H0 [[-> H]|[-> H]]].
  - change (256 ^ Z.of_nat 4) with (2 ^ 32). split_and!; [lia|lia|]. rewrite (Z.mul_comm 8).
    change (2 ^ 32) with (2 ^ 29 * 8). rewrite Z.mul_mod_distr_r by lia.
    pose proof (Z.div_mod n (2 ^ 29) ltac:(lia)). lia.
  - change (256 ^ Z.of_nat 8) with (2 ^ 64). split_and!; [done|lia|]. rewrite (Z.mod_small (8 * n)), (Z.div_small n) by lia. lia.
Qed.

Lemma mod_words b z : 0 < W -> 0 <= b < W -> (b + W * z) mod (W * W) = b + W * (z mod W).
Proof.
  intros HW Hb. pose proof (Z.div_mod z W ltac:(lia)). pose proof (Z.mod_pos_bound z W ltac:(lia)).
  symmetry. apply (Z.mod_unique_pos _ _ (z / W)); nia.
Qed.

Lemma add_bits_ok n b : 2 ^ 32 <= W -> bits_ok (add_bits k n b).
Proof. intros HW. unfold bits_ok, add_bits, wmod. fold W. cbn [fst snd]. split; apply Z.mod_pos_bound; lia. Qed.

(** The two words hold the number of bits modulo the square of their range. *)
Lemma add_bits_val n b : bits_ok b -> counts n ->
  bits_val (add_bits k n b) = (bits_val b + 8 * n) mod (W * W).
Proof.
  intros [H0 H1] Hn. destruct (words_wide n Hn) as (HW & Hnw & E). destruct Hn as [Hn _]. destruct b as [t u].
  unfold bits_val, add_bits, wmod. fold W. cbn [fst snd] in *. clearbody W.
  rewrite Z.shiftl_mul_pow2, Z.shiftr_div_pow2, (Z.mod_small n) by lia. replace (n * 2 ^ 3) with (8 * n) by lia.
  pose proof (Z.mod_pos_bound (8 * n) W ltac:(lia)) as Hx.
  set (x := (8 * n) mod W) in *. set (y := n / 2 ^ 29) in *. clearbody x y. rewrite <- E.
  replace (t + W * u + (x + W * y)) with (t + x + W * (u + y)) by lia.
  pose proof (Z.mod_pos_bound (t + x) W ltac:(lia)) as Hr.
  destruct (Z.ltb_spec ((t + x) mod W) t) as [Hlt|Hlt].
  - assert (t + x = (t + x) mod W + W) as Ec.
    { destruct (Z.lt_ge_cases (t + x) W) as [Hs|Hs]; [rewrite Z.mod_small in Hlt by lia; lia|].
      rewrite <- (Z.mod_unique_pos (t + x) W 1 (t + x - W)) by lia. lia. }
    rewrite Z.add_mod_idemp_l by lia. set (r := (t + x) mod W) in *.
    replace (t + x + W * (u + y)) with (r + W * (u + 1 + y)) by lia. by rewrite mod_words by lia.
  - assert ((t + x) mod W = t + x) as Ec.
    { destruct (Z.lt_ge_cases (t + x) W) as [Hs|Hs]; [by rewrite Z.mod_small by lia|].
      rewrite <- (Z.mod_unique_pos (t + x) W 1 (t + x - W)) in Hlt by lia. lia. }
    rewrite Ec in Hr |- *. by rewrite mod_words by lia.
Qed.

Lemma bits_inj b c : bits_ok b -> bits_ok c -> bits_val b = bits_val c -> b = c.
Proof.
  destruct b as [t u], c as [t' u']. unfold bits_ok, bits_val. cbn [fst snd]. intros [? ?] [? ?] E.
  by destruct (Z.div_mod_unique W u u' t t' ltac:(by left) ltac:(by left) ltac:(lia)) as [-> ->].
Qed.

Lemma add_bits_add n m b : bits_ok b -> 0 <= n -> 0 <= m -> counts (n + m) ->
  add_bits k m (add_bits k n b) = add_bits k (n + m) b.
Proof.
  intros Hb Hn Hm H. destruct (words_wide _ H) as (HW & _ & _).
  assert (counts n /\ counts m) as [Cn Cm] by (destruct H as [_ [[? ?]|[? ?]]]; (split; (split; [lia|])); first [left; lia | right; lia]).
  apply bits_inj; [by apply add_bits_ok..|]. rewrite !add_bits_val by (by apply add_bits_ok || done).
  rewrite Z.add_mod_idemp_l by nia. f_equal. lia.
Qed.

Lemma count_val ctx : 2 ^ 32 <= W -> (exists q, W = 512 * q) -> bits_ok (md_bits ctx) ->
  Z.of_nat (count ctx) = (bits_val (md_bits ctx) / 8) mod 64.
Proof.
  intros HW [q Eq] [H0 H1]. unfold count, bits_val. change 0x3f with (Z.ones 6).
  rewrite Z.land_ones, Z.shiftr_div_pow2 by lia.
  destruct (md_bits ctx) as [t u]. cbn [fst snd] in *. clearbody W. subst W.
  rewrite Z2Nat.id by (apply Z.mod_pos_bound; lia).
  replace (t + 512 * q * u) with (t + (q * u * 64) * 8) by lia. rewrite Z.div_add by lia.
  rewrite Z.mod_add by lia. done.
Qed.

Lemma count_add n ctx : bits_ok (md_bits ctx) -> counts (Z.of_nat n) ->
  count (with_bits (add_bits k (Z.of_nat n) (md_bits ctx)) ctx) = ((count ctx + n) mod 64)%nat.
Proof.
  intros Hb Hn. destruct (words_wide _ Hn) as (HW & _ & _).
  assert (exists q, W = 512 * q) as [q Hq].
  { unfold W. destruct Hn as [_ [[E _]|[E _]]]; rewrite E; [by exists (2 ^ 23)|by exists (2 ^ 55)]. }
  apply Nat2Z.inj. rewrite Nat2Z.inj_mod, Nat2Z.inj_add, !count_val by (eauto || by apply add_bits_ok).
  cbn [md_bits with_bits]. rewrite add_bits_val by done.
  set (v := bits_val (md_bits ctx)). change (Z.of_nat 64) with 64. rewrite Z.add_mod_idemp_l by lia.
  assert (0 < q * W) as HqW by (apply Z.mul_pos_pos; lia).
  assert (W * W = 8 * (64 * (q * W))) as -> by (rewrite Hq at 1; ring).
  generalize dependent (q * W). intros qW HqW. rewrite Z.rem_mul_r by lia.
  rewrite (Z.add_comm (_ mod 8)), Z.mul_comm, Z.div_add_l by lia.
  rewrite (Z.div_small (_ mod 8)) by (apply Z.mod_pos_bound; lia). rewrite Z.add_0_r, Z.rem_mul_r by lia.
  rewrite (Z.mul_comm 64), Z.mod_add, Z.mod_mod, (Z.mul_comm 8), Z.div_add by lia. done.
Qed.
End bits.

Lemma absorb_bits k b : forall l p ctx, absorb k p (with_bits b ctx) l = with_bits b <$> absorb k p ctx l.
Proof.
  induction l as [|c l IH]; intros p ctx; cbn [absorb]; [done|].
  change (fill p [c] (with_bits b ctx)) with (with_bits b (fill p [c] ctx)).
  destruct (p =? 63)%nat; [|apply IH]. unfold transform. cbn [md_in with_bits].
  case_match; [done|]. cbn. apply (IH 0%nat (Ctx _ _ _)).
Qed.

Lemma absorb_length k : forall l p ctx ctx', length (md_in ctx) = 64%nat -> (p < 64)%nat ->
  absorb k p ctx l = Some ctx' -> length (md_in ctx') = 64%nat.
Proof.
  induction l as [|c l IH]; intros p ctx ctx' Hin Hp; cbn [absorb]; [by intros [= <-]|].
  pose proof (length_fill p [c] ctx ltac:(cbn [length]; lia)).
  destruct (Nat.eqb_spec p 63) as [->|Hne]; [|apply IH; lia].
  destruct (transform k (fill 63 [c] ctx)) as [ctx1|] eqn:E; [|done]. apply transform_length in E.
  apply IH; lia.
Qed.

Lemma absorb_app k : forall a b p ctx, (p < 64)%nat ->
  absorb k p ctx (a ++ b) = absorb k p ctx a ≫= fun ctx => absorb k ((p + length a) mod 64) ctx b.
Proof.
  induction a as [|c a IH]; intros b p ctx Hp; cbn [absorb app length].
  - rewrite Nat.add_0_r, Nat.mod_small by done. done.
  - destruct (Nat.eqb_spec p 63) as [->|Hne].
    + destruct (transform k (fill 63 [c] ctx)) as [ctx1|]; [|done]. cbn [mbind option_bind].
      rewrite IH by lia. replace ((63 + S (length a)) mod 64)%nat with ((0 + length a) mod 64)%nat; [done|].
      replace (63 + S (length a))%nat with (0 + length a + 1 * 64)%nat by lia. by rewrite Nat.Div0.mod_add.
    + rewrite IH by lia. by rewrite <- Nat.add_succ_comm.
Qed.

Lemma absorb_total : forall l p ctx, length (md_in ctx) = 64%nat -> (p < 64)%nat -> is_Some (absorb 4 p ctx l).
Proof.
  induction l as [|c l IH]; intros p ctx Hin Hp; cbn [absorb]; [done|].
  pose proof (length_fill p [c] ctx ltac:(cbn [length]; lia)) as Hf.
  destruct (Nat.eqb_spec p 63) as [->|Hne]; [|apply IH; lia].
  unfold transform. rewrite Hf, Hin. apply IH; [by cbn [md_in]; rewrite Hf|lia].
Qed.

(** With words of eight bytes a full buffer cannot be digested. *)
Lemma absorb_overrun : forall l p ctx, length (md_in ctx) = 64%nat -> (p < 64)%nat -> (64 <= p + length l)%nat ->
  absorb 8 p ctx l = None.
Proof.
  induction l as [|c l IH]; intros p ctx Hin Hp Hl; cbn [absorb length] in *; [lia|].
  pose proof (length_fill p [c] ctx ltac:(cbn [length]; lia)) as Hf.
  destruct (Nat.eqb_spec p 63) as [->|Hne]; [|apply IH; lia]. unfold transform. by rewrite Hf, Hin.
Qed.

Lemma count_lt ctx : (count ctx < 64)%nat.
Proof.
  unfold count. change 0x3f with (Z.ones 6). rewrite Z.land_ones by lia.
  pose proof (Z.mod_pos_bound (Z.shiftr (fst (md_bits ctx)) 3) (2 ^ 6) ltac:(lia)). lia.
Qed.

(** The pieces, where their bits are counted. *)
Lemma update_app k ctx a b : length (md_in ctx) = 64%nat -> bits_ok k (md_bits ctx) ->
  Z.of_nat (length a + length b) < 2 ^ 32 -> counts k (Z.of_nat (length a + length b)) ->
  MD5Update k ctx a ≫= (fun ctx => MD5Update k ctx b) = MD5Update k ctx (a ++ b).
Proof.
  intros Hin Hb Hl Hc. pose proof (count_lt ctx). rewrite !MD5Update_absorb by done. unfold w32.
  rewrite length_app, Nat2Z.inj_add in *. rewrite !Z.mod_small by lia.
  rewrite absorb_app by done. set (la := Z.of_nat (length a)). set (lb := Z.of_nat (length b)).
  assert (counts k la) as Ha by (destruct Hc as [_ [[? ?]|[? ?]]]; (split; [lia|]); first [left; lia | right; lia]).
  rewrite <- (add_bits_add k la lb) by (done || lia).
  rewrite (absorb_bits _ (add_bits k lb (add_bits k la (md_bits ctx)))).
  rewrite (absorb_bits _ (add_bits k la (md_bits ctx))).
  destruct (absorb k (count ctx) ctx a) as [c|] eqn:E; [|done]. cbn [fmap option_fmap option_map mbind option_bind].
  rewrite MD5Update_absorb by (by apply absorb_length in E). cbn [md_bits with_bits].
  rewrite w32_small by lia. fold lb.
  replace (count (with_bits (add_bits k la (md_bits ctx)) c))
    with (count (with_bits (add_bits k la (md_bits ctx)) ctx)) by done.
  unfold la. rewrite count_add by done. done.
Qed.

(** C30: what MD5Update does with a text does not depend on the pieces it is given:
    two updates are the update with both texts, with words of 32 and of 64 bits.
    With 32 bits it always succeeds.  With 64, where unsigned long is as large, it
    leaves the context exactly when a block of 64 bytes gets full, in pieces or not. *)
Theorem MD5Update_app k ctx a b : k = 4%nat \/ k = 8%nat -> length (md_in ctx) = 64%nat ->
  bits_ok k (md_bits ctx) -> Z.of_nat (length a + length b) < 2 ^ 32 ->
  MD5Update k ctx a ≫= (fun ctx => MD5Update k ctx b) = MD5Update k ctx (a ++ b) /\
  (is_Some (MD5Update k ctx (a ++ b)) <-> k = 4%nat \/ (count ctx + length a + length b < 64)%nat).
Proof.
  intros Hk Hin Hb Hl. pose proof (count_lt ctx). destruct Hk as [->| ->].
  { split; [apply update_app; try done; split; [lia|by left]|]. rewrite MD5Update_absorb by done.
    split; [by left|intros _; by apply absorb_total]. }
  assert (forall l, (64 <= count ctx + length l)%nat -> MD5Update 8 ctx l = None) as Hnone.
  { intros l ?. rewrite MD5Update_absorb by done. by apply absorb_overrun. }
  destruct (Nat.lt_ge_cases (count ctx + length a + length b) 64) as [Hs|Hs].
  - split; [apply update_app; try done; split; [lia|right; lia]|]. split; [by right|]. intros _.
    rewrite MD5Update_absorb by done. rewrite absorb_fill; [done|done|]. rewrite length_app. lia.
  - rewrite (Hnone (a ++ b)) by (rewrite length_app; lia). split; [|split; [by intros []|intros [?|?]; lia]].
    destruct (Nat.lt_ge_cases (count ctx + length a) 64) as [Ha|Ha]; [|by rewrite Hnone].
    rewrite MD5Update_absorb by done. rewrite absorb_fill by done. cbn [mbind option_bind].
    set (ctx1 := fill _ _ _). assert (length (md_in ctx1) = 64%nat) as Hin1 by (subst ctx1; rewrite length_fill; cbn [md_in with_bits]; lia).
    rewrite MD5Update_absorb by done. apply absorb_overrun; [done|apply count_lt|].
    assert (count ctx1 = count (with_bits (add_bits 8 (Z.of_nat (length a)) (md_bits ctx)) ctx)) as ->.
    { subst ctx1. rewrite w32_small by lia. done. }
    rewrite count_add; [|done|split; [lia|right; lia]]. rewrite Nat.mod_small by lia. lia.
Qed.

(** MD5Final writes its last words behind the context when they have eight bytes. *)
Theorem md5crypt_lp64 password : md5crypt 8 password = None.
Proof.
  unfold md5crypt. rewrite MD5Update_absorb by done.
  destruct (absorb _ _ _ _) as [c|] eqn:E; [|done]. apply absorb_length in E; [|done|apply count_lt].
  cbn [mbind option_bind]. unfold MD5Final. pose proof (count_lt c).
  pose proof (length_fill (count c) [cz 0x80] c ltac:(cbn [length]; lia)) as Hf.
  set (c1 := fill (count c) [cz 0x80] c) in *. case_match eqn:Hlt.
  - unfold transform. rewrite length_fill by (rewrite length_replicate; lia).
    by rewrite Hf, E.
  - cbn [mbind option_bind]. unfold store_word. apply Nat.ltb_ge in Hlt.
    rewrite length_fill by (rewrite length_replicate; lia). by rewrite Hf, E.
Qed.

Lemma MD5Update_app_witness : length (md_in (MD5Init (replicate 64 NUL))) = 64%nat /\
  MD5Update 4 (MD5Init (replicate 64 NUL)) (bs "message ") ≫= (fun ctx => MD5Update 4 ctx (bs "digest"))
    = MD5Update 4 (MD5Init (replicate 64 NUL)) (bs "message " ++ bs "digest") /\
  MD5Update 8 (MD5Init (replicate 64 NUL)) (bs "message ") ≫= (fun ctx => MD5Update 8 ctx (bs "digest"))
    = MD5Update 8 (MD5Init (replicate 64 NUL)) (bs "message " ++ bs "digest").
Proof.
  split; [reflexivity|]. split.
  - apply (MD5Update_app 4 (MD5Init (replicate 64 NUL))); [by left|reflexivity| |cbn; lia]. split; cbn; lia.
  - apply (MD5Update_app 8 (MD5Init (replicate 64 NUL))); [by right|reflexivity| |cbn; lia]. split; cbn; lia.
Defined.
