(* ===== verification/AccessList.v ===== *)
(** * AccessList.v: which client may do what

    src/AccessList.{h,cc}: the entries of the clients in the configuration file,
    which of them is that of a client, and the fields of the Authentication
    parameter.  The char array of an entry holds the bytes up to its terminator. *)
From S2P Require Import Prelude Text Article Matching.
From S2P Require Import ServerList.

(** ** Authentication *)
Definition colon : ascii := ":"%char.
Definition not_colon (c : ascii) : bool := negb (bool_decide (c = colon)).
Definition Authentication : Type := list bytes.

(** The loop of set over the rest of the string. *)
Fixpoint auth_loop (n : nat) (s : bytes) : list bytes :=
  match n with
  | O => []
  | S n =>
      let field := take_while not_colon s in
      field :: match drop (S (length field)) s with [] => [] | r => auth_loop n r end
  end.
Definition auth_set (AuthString : bytes) : Authentication :=
  match AuthString with
  | [] => []
  | _ => auth_loop (length AuthString) AuthString ++ (if bool_decide (last AuthString = Some colon) then [[]] else [])
  end.

Definition getType (a : Authentication) : bytes := match a with [] => bs "none" | f :: _ => f end.
(** [fields[nr]]: [None] outside the vector. *)
Definition getField (nr : nat) (a : Authentication) : option bytes := a !! nr.
Definition getNrOfFields (a : Authentication) : nat := length a.
Definition appendField (v : bytes) (a : Authentication) : Authentication := a ++ [v].

(** modifyField: [None] stands for the exception. *)
Definition modifyField (nr : nat) (v : bytes) (a : Authentication) : option Authentication :=
  if (length a <=? nr)%nat then None else Some (alter (fun f => f ++ v) nr a).

(** modify: the loop ends with the shorter vector. *)
Fixpoint auth_modify (i start : nat) (a source : Authentication) : Authentication :=
  match a, source with
  | d :: a', s :: source' => (if (start <=? i)%nat then d ++ s else d) :: auth_modify (S i) start a' source'
  | _, _ => a
  end.

(** typeEqual; true stands for 0.  [None] when there is no field. *)
Fixpoint type_equal (s p : bytes) : bool :=
  match s, p with
  | [], [] => true
  | [], c :: _ => bool_decide (c = colon)
  | _, [] => false
  | a :: s', b :: p' => if bool_decide (a = b) then type_equal s' p' else false
  end.
Definition typeEqual (v : bytes) (a : Authentication) : option bool :=
  match a with [] => None | f :: _ => Some (type_equal f v) end.

(** The fields, as printParameters writes them. *)
Fixpoint join_colon (l : list bytes) : bytes :=
  match l with [] => [] | [f] => f | f :: r => f ++ colon :: join_colon r end.
Definition print_authentication (a : Authentication) : bytes :=
  match a with [] => [] | _ => [TAB; TAB] ++ bs "Authentication " ++ join_colon a ++ [LF] end.

(** ** AccessEntry *)
Definition af_read : Z := 1.
Definition af_post : Z := 2.
Definition af_debug : Z := 4.
Definition af_authentication : Z := 8.
Definition PAM_DEFAULT_SERVICENAME : bytes := bs "newscache".

Record AccessEntry := AEntry {
  ae_hostname : bytes; access_flags : Z;
  ae_list : NewsgroupFilter; ae_read : NewsgroupFilter; ae_postTo : NewsgroupFilter;
  authentication : Authentication; PAMServicename : bytes
}.
Definition new_access (host : bytes) : AccessEntry :=
  AEntry host 0 (new_filter []) (new_filter []) (new_filter []) [] PAM_DEFAULT_SERVICENAME.

Definition set_access_flags (f : Z) (e : AccessEntry) : AccessEntry :=
  AEntry (ae_hostname e) f (ae_list e) (ae_read e) (ae_postTo e) (authentication e) (PAMServicename e).
Definition set_filters (l r p : NewsgroupFilter) (e : AccessEntry) : AccessEntry :=
  AEntry (ae_hostname e) (access_flags e) l r p (authentication e) (PAMServicename e).
Definition set_authentication (a : Authentication) (e : AccessEntry) : AccessEntry :=
  AEntry (ae_hostname e) (access_flags e) (ae_list e) (ae_read e) (ae_postTo e) a (PAMServicename e).
Definition set_pam (s : bytes) (e : AccessEntry) : AccessEntry :=
  AEntry (ae_hostname e) (access_flags e) (ae_list e) (ae_read e) (ae_postTo e) (authentication e) s.

(** One word of modifyAccessFlags, on unsigned int; [~af_read] has all the other bits. *)
Definition modify_flag (t : bytes) (f : Z) : Z :=
  if bool_decide (t = bs "read") then Z.lor f af_read
  else if bool_decide (t = bs "!read") then Z.lor f (w32 (Z.lnot af_read))
  else if bool_decide (t = bs "post") then Z.lor f af_post
  else if bool_decide (t = bs "!post") then Z.lor f (w32 (Z.lnot af_post))
  else if bool_decide (t = bs "debug") then Z.lor f af_debug
  else if bool_decide (t = bs "!debug") then Z.lor f (w32 (Z.lnot af_debug))
  else f.
Definition not_comma (c : ascii) : bool := negb (bool_decide (c = c_comma)).
Fixpoint modify_flags_loop (n : nat) (s : bytes) (f : Z) : Z :=
  match n with
  | O => f
  | S n =>
      let t := take_while not_comma s in
      let f := modify_flag t f in
      match drop (S (length t)) s with [] => f | r => modify_flags_loop n r f end
  end.
Definition modifyAccessFlags (fl : bytes) (e : AccessEntry) : AccessEntry :=
  match fl with
  | [] => e
  | _ => set_access_flags (modify_flags_loop (length fl) fl (access_flags e)) e
  end.

(** printAccessFlags and printParameters. *)
Definition print_flags (f : Z) : bytes :=
  (if f =? 0 then bs " none" else []) ++ flag_word f af_read (bs "read") ++ flag_word f af_post (bs "post") ++
  flag_word f af_debug (bs "debug").
Definition print_access (e : AccessEntry) : bytes :=
  (if bool_decide (ae_hostname e = []) then [TAB] ++ bs "Default {" ++ [LF]
   else [TAB] ++ bs "Client " ++ ae_hostname e ++ bs " {" ++ [LF]) ++
  [TAB; TAB] ++ bs "allow" ++ print_flags (access_flags e) ++ [LF] ++
  opt_line (bs "List") (rulelist (ae_list e)) ++
  opt_line (bs "Read") (rulelist (ae_read e)) ++
  opt_line (bs "PostTo") (rulelist (ae_postTo e)) ++
  print_authentication (authentication e) ++
  [TAB; TAB] ++ bs "PAMServicename " ++ PAMServicename e ++ [LF] ++
  [TAB] ++ bs "}" ++ [LF].
Definition print_access_list (v : list AccessEntry) : bytes :=
  bs "AccessList {" ++ [LF] ++ concat (map print_access v) ++ bs "}" ++ [LF].

(** ** The entry of a client *)

(** inet_aton of the C library: the address, in network byte order. *)
Class Inet := { inet_aton : bytes -> option Z }.

Definition in_addr_char (c : ascii) : bool := isdigit c || bool_decide (c = "."%char) || bool_decide (c = "/"%char).
(** NOT_INADDR *)
Definition not_inaddr (s : bytes) : bool := negb (forallb in_addr_char s).

(** in_domain reads the byte before the domain when the domain is empty. *)
Definition in_domain (before : ascii) (name domain : bytes) : bool :=
  if bool_decide (default before (last domain) = "."%char)
  then strncaseeq name domain (length domain)
  else if bool_decide (at_ domain 0 = "."%char) then
    (length domain <? length name)%nat && strcaseeq (drop (length name - length domain) name) domain
  else strcaseeq name domain.

Definition not_slash (c : ascii) : bool := negb (bool_decide (c = "/"%char)).
Definition matchaddress {inet : Inet} (before : ascii) (pattern name : bytes) (host_addr : Z) : bool :=
  match skip_while not_slash pattern with
  | _ :: mask =>
      match inet_aton (take_while not_slash pattern), inet_aton mask with
      | Some net, Some mask => Z.land host_addr mask =? net
      | _, _ => false
      end
  | [] => not_inaddr name && in_domain before name pattern
  end.

(** client: the index of the entry, [None] for the null pointer. *)
Fixpoint client_from {inet : Inet} (before : ascii) (i : nat) (v : list AccessEntry) (name : bytes) (addr : Z)
    : option nat :=
  match v with
  | [] => None
  | e :: rest =>
      if matchaddress before (ae_hostname e) name addr || bool_decide (ae_hostname e = []) then Some i
      else client_from before (S i) rest name addr
  end.
Definition client {inet : Inet} (before : ascii) (v : list AccessEntry) (name : bytes) (addr : Z) : option nat :=
  client_from before 0 v name addr.

(** ** Reading the list *)

(** The words behind allow. *)
Fixpoint read_allow (fuel : nat) (f : Z) : MLex Z :=
  match fuel with
  | O => spin
  | S fuel =>
      a1 <- getToken ;;
      if bool_decide (a1 = bs "read") then read_allow fuel (Z.lor f af_read)
      else if bool_decide (a1 = bs "post") then read_allow fuel (Z.lor f af_post)
      else if bool_decide (a1 = bs "debug") then read_allow fuel (Z.lor f af_debug)
      else if bool_decide (a1 = bs "authentication") then read_allow fuel (Z.lor f af_authentication)
      else if bool_decide (a1 = bs "none") then read_allow fuel 0
      else putbackToken a1 ;;; ret f
  end.

(** ACCESSLIST_SET_FILTERS: the filters that have not been set get the rules, too. *)
Definition set_rules (which : Z) (filter_set : Z) (a1 : bytes) (cur : AccessEntry) : AccessEntry :=
  let set bit f := if negb (Z.land filter_set bit =? 0) && negb (which =? bit) then f else assign_rules f a1 in
  set_filters (set 1 (ae_list cur)) (set 2 (ae_read cur)) (set 4 (ae_postTo cur)) cur.

Fixpoint readClient_loop (fuel : nat) (filter_set : Z) (cur : AccessEntry) : MLex AccessEntry :=
  match fuel with
  | O => spin
  | S n =>
      tok <- getToken ;;
      if bool_decide (tok = bs "allow") then
        f <- read_allow (S n) (access_flags cur) ;; readClient_loop n filter_set (set_access_flags f cur)
      else if bool_decide (tok = bs "List") then
        a1 <- getToken ;; readClient_loop n (Z.lor filter_set 1) (set_rules 1 filter_set a1 cur)
      else if bool_decide (tok = bs "Read") then
        a1 <- getToken ;; readClient_loop n (Z.lor filter_set 2) (set_rules 2 filter_set a1 cur)
      else if bool_decide (tok = bs "PostTo") then
        a1 <- getToken ;; readClient_loop n (Z.lor filter_set 4) (set_rules 4 filter_set a1 cur)
      else if bool_decide (tok = bs "Authentication") then
        t <- getToken ;; readClient_loop n filter_set (set_authentication (auth_set t) cur)
      else if bool_decide (tok = bs "PAMServicename") then
        t <- getToken ;; readClient_loop n filter_set (set_pam t cur)
      else if bool_decide (tok = bs "}") then ret cur
      else raise (SyntaxError "expected declaration or '}'")
  end.

Definition readClient (address : bytes) : MLex AccessEntry :=
  address <- strcpy MAXHOSTNAMELEN address ;;
  tok <- getToken ;;
  if bool_decide (tok <> bs "{") then raise (SyntaxError "expected '{'") else
  l <- get ;;
  readClient_loop (lex_left l) 0 (new_access address).

Fixpoint access_loop (fuel : nat) (default_found : bool) (v : list AccessEntry) : MLex (list AccessEntry) :=
  match fuel with
  | O => spin
  | S fuel =>
      tok <- getToken ;;
      if bool_decide (tok = bs "Client") then
        host <- getToken ;; e <- readClient host ;; access_loop fuel default_found (v ++ [e])
      else if bool_decide (tok = bs "Default") then
        e <- readClient [] ;; access_loop fuel true (v ++ [e])
      else if bool_decide (tok = bs "}") then
        if default_found then ret v else raise (SyntaxError "'Default' entry not found in NewsClientList")
      else raise (SyntaxError "expected declaration or '}'")
  end.
Definition access_read (v : list AccessEntry) : MLex (list AccessEntry) :=
  tok <- getToken ;;
  if bool_decide (tok <> bs "{") then raise (SyntaxError "expected '{'") else
  l <- get ;;
  access_loop (lex_left l) false v.
