(* ===== verification/Config.v ===== *)
(** * Config.v: the configuration file

    src/Config.{h,cc}.  The members that are char arrays and the int members that
    are read by HANDLESTRGARG and HANDLEINTARG are two families, indexed by the
    name of the member. *)
From S2P Require Import Prelude Text Article Matching.
From S2P Require Import ServerList.
From S2P Require Import AccessList.

Inductive strg_arg := SpoolDirectory | LogDirectory | PrefetchFile | Username | Groupname | CachePort
                    | ListenTo | Admin | PidFile | Hostname.
Inductive int_arg := SpoolSize | ClientTimeout | MaxConnections | NiceServer | NiceClient | NiceClean.
Inductive server_type := inetd | standalone.

#[export] Instance strg_arg_eq_dec : EqDecision strg_arg.
Proof. solve_decision. Defined.
#[export] Instance int_arg_eq_dec : EqDecision int_arg.
Proof. solve_decision. Defined.

Definition LogINN : Z := 1.
Definition LogName : Z := 2.
Definition LogAddr : Z := 4.
Definition MAXPATHLEN : nat := 4096.

Record Config := Conf {
  c_strg : strg_arg -> bytes;
  c_int : int_arg -> Z;
  ServerType : server_type;
  LogStyle : Z;
  ttl_list : Z; ttl_desc : Z;
  clnts : list AccessEntry;
  srvrs : list MPListEntry
}.

(** The keyword and the size of the array, in the order of the tests. *)
Definition strg_args : list (bytes * (strg_arg * nat)) :=
  [(bs "SpoolDirectory", (SpoolDirectory, MAXPATHLEN)); (bs "LogDirectory", (LogDirectory, MAXPATHLEN));
   (bs "PrefetchFile", (PrefetchFile, MAXPATHLEN)); (bs "Username", (Username, 256%nat));
   (bs "Groupname", (Groupname, 256%nat)); (bs "CachePort", (CachePort, 256%nat));
   (bs "ListenTo", (ListenTo, MAXHOSTNAMELEN)); (bs "Admin", (Admin, 512%nat));
   (bs "PidFile", (PidFile, MAXPATHLEN)); (bs "Hostname", (Hostname, MAXHOSTNAMELEN))].
Definition int_args : list (bytes * int_arg) :=
  [(bs "SpoolSize", SpoolSize); (bs "ClientTimeout", ClientTimeout); (bs "MaxConnections", MaxConnections);
   (bs "NiceServer", NiceServer); (bs "NiceClient", NiceClient); (bs "NiceClean", NiceClean)].
Definition find_key {A} (k : bytes) (l : list (bytes * A)) : option A :=
  snd <$> List.find (fun x => bool_decide (fst x = k)) l.

Definition set_strg (k : strg_arg) (v : bytes) (c : Config) : Config :=
  Conf (fun x => if decide (x = k) then v else c_strg c x) (c_int c) (ServerType c) (LogStyle c)
    (ttl_list c) (ttl_desc c) (clnts c) (srvrs c).
Definition set_int (k : int_arg) (v : Z) (c : Config) : Config :=
  Conf (c_strg c) (fun x => if decide (x = k) then v else c_int c x) (ServerType c) (LogStyle c)
    (ttl_list c) (ttl_desc c) (clnts c) (srvrs c).
Definition set_type (t : server_type) (c : Config) : Config :=
  Conf (c_strg c) (c_int c) t (LogStyle c) (ttl_list c) (ttl_desc c) (clnts c) (srvrs c).
Definition set_style (s : Z) (c : Config) : Config :=
  Conf (c_strg c) (c_int c) (ServerType c) s (ttl_list c) (ttl_desc c) (clnts c) (srvrs c).
Definition set_ttls (l d : Z) (c : Config) : Config :=
  Conf (c_strg c) (c_int c) (ServerType c) (LogStyle c) l d (clnts c) (srvrs c).
Definition set_lists (cl : list AccessEntry) (sl : list MPListEntry) (c : Config) : Config :=
  Conf (c_strg c) (c_int c) (ServerType c) (LogStyle c) (ttl_list c) (ttl_desc c) cl sl.

(** init; [fqdn] is what getfqdn finds. *)
Definition conf_init (fqdn : bytes) : Config :=
  Conf (fun k => match k with
                 | Admin => bs "notset" | Hostname => fqdn | ListenTo => bs "DEFAULT"
                 | SpoolDirectory => bs "/var/cache/newscache" | _ => [] end)
       (fun k => match k with
                 | SpoolSize => 1024 * 1024 | ClientTimeout => 1200 | MaxConnections => 32
                 | NiceServer => 0 | NiceClient => 10 | NiceClean => 3 end)
       standalone (LogName + LogAddr) 3600 3600 [] [].

(** The words behind LogStyle. *)
Fixpoint read_style (fuel : nat) (s : Z) : MLex Z :=
  match fuel with
  | O => spin
  | S fuel =>
      a1 <- getToken ;;
      if bool_decide (a1 = bs "strict-inn") then read_style fuel (Z.lor s LogINN)
      else if bool_decide (a1 = bs "hostname") then read_style fuel (Z.lor s LogName)
      else if bool_decide (a1 = bs "ip-address") then read_style fuel (Z.lor s LogAddr)
      else putbackToken a1 ;;; ret s
  end.

(** What one keyword does. *)
Definition read_keyword (tok : bytes) (c : Config) : MLex Config :=
  match find_key tok strg_args with
  | Some (k, size) =>
      a1 <- getToken ;;
      if (size <=? length a1)%nat then raise (SyntaxError "argument too long") else ret (set_strg k a1 c)
  | None =>
  match find_key tok int_args with
  | Some k => a1 <- getToken ;; ret (set_int k (atoi a1) c)
  | None =>
      if bool_decide (tok = bs "LogStyle") then
        l <- get ;; s <- read_style (lex_left l) 0 ;; ret (set_style s c)
      else if bool_decide (tok = bs "ServerType") then
        a1 <- getToken ;;
        if bool_decide (a1 = bs "inetd") then ret (set_type inetd c)
        else if bool_decide (a1 = bs "standalone") then ret (set_type standalone c)
        else raise (SyntaxError "illegal ServerType")
      else if bool_decide (tok = bs "ConfigVersion") then
        a1 <- getToken ;;
        if atoi a1 =? 5 then ret c else raise (SyntaxError "expecting ConfigVersion 5")
      else if bool_decide (tok = bs "NewsServerList") then
        s <- read_list (srvrs c) ;; ret (set_lists (clnts c) s c)
      else if bool_decide (tok = bs "AccessList") then
        a <- access_read (clnts c) ;; ret (set_lists a (srvrs c) c)
      else if bool_decide (tok = bs "Timeouts") then
        a1 <- getToken ;; a2 <- getToken ;; ret (set_ttls (atoi a1) (atoi a2) c)
      else raise (SyntaxError "unknown keyword")
  end end.

Fixpoint conf_loop (fuel : nat) (c : Config) : MLex Config :=
  match fuel with
  | O => spin
  | S fuel =>
      tok <- getToken ;;
      l <- get ;;
      if s_eof (l_is l) then ret c else
      c <- read_keyword tok c ;; conf_loop fuel c
  end.

(** read, on the opened file.  Nobody uses an object whose read was ended by an
    exception. *)
Definition conf_read (c : Config) : MLex Config := l <- get ;; conf_loop (lex_left l) c.

(** printParameters *)
Definition strg_line (k : bytes) (v : bytes) : bytes := k ++ bs " " ++ v ++ [LF].
Definition opt_strg_line (k : bytes) (v : bytes) : bytes := if bool_decide (v = []) then [] else strg_line k v.
Definition print_config (c : Config) : bytes :=
  opt_strg_line (bs "Username") (c_strg c Username) ++
  opt_strg_line (bs "Groupname") (c_strg c Groupname) ++
  strg_line (bs "Admin") (c_strg c Admin) ++
  strg_line (bs "ServerType") (match ServerType c with inetd => bs "inetd" | standalone => bs "standalone" end) ++
  opt_strg_line (bs "CachePort") (c_strg c CachePort) ++
  strg_line (bs "ListenTo") (c_strg c ListenTo) ++
  opt_strg_line (bs "LogDirectory") (c_strg c LogDirectory) ++
  strg_line (bs "SpoolDirectory") (c_strg c SpoolDirectory) ++
  bs "LogStyle" ++ flag_word (LogStyle c) LogINN (bs "strict-inn") ++
  flag_word (LogStyle c) LogName (bs "hostname") ++ flag_word (LogStyle c) LogAddr (bs "ip-address") ++ [LF] ++
  strg_line (bs "SpoolSize") (dec (c_int c SpoolSize)) ++
  opt_strg_line (bs "PrefetchFile") (c_strg c PrefetchFile) ++
  opt_strg_line (bs "PidFile") (c_strg c PidFile) ++
  strg_line (bs "ClientTimeout") (dec (c_int c ClientTimeout)) ++
  strg_line (bs "MaxConnections") (dec (c_int c MaxConnections)) ++
  strg_line (bs "Timeouts") (dec (ttl_list c) ++ bs " " ++ dec (ttl_desc c)) ++
  strg_line (bs "NiceServer") (dec (c_int c NiceServer)) ++
  strg_line (bs "NiceClient") (dec (c_int c NiceClient)) ++
  strg_line (bs "NiceClean") (dec (c_int c NiceClean)) ++
  print_access_list (clnts c) ++ print_list (srvrs c).
