(* ===== verification/Spooldir.v ===== *)
(** * Spooldir.v: the directories of the spool

    mkpdir of NServer-0.9.1/util.cc, the constructor of ArtSpooler
    (NServer-0.9.1/ArtSpooler.cc) and LServer::init (NServer-0.9.1/NServer.cc). *)
From S2P Require Import Prelude Text.
From S2P Require Import Config.

(** ** The file system: stat and mkdir *)
Inductive stat_result := S_DIR | S_OTHER | S_ENOENT | S_FAILED.
#[export] Instance stat_result_eq_dec : EqDecision stat_result.
Proof. solve_decision. Defined.
Class Fs := { fs : Type; stat : bytes -> fs -> stat_result; mkdir : bytes -> fs -> option fs }.
(** A directory that was made is there, and those that were there stay. *)
Class FsOk (f : Fs) := {
  mkdir_makes p s s' : mkdir p s = Some s' -> stat p s' = S_DIR;
  mkdir_keeps p s s' q : mkdir p s = Some s' -> stat q s = S_DIR -> stat q s' = S_DIR
}.

Definition slash (c : ascii) : bool := bool_decide (c = "/"%char).

Section mkpdir.
Context {f : Fs}.
Abbreviation MF := (M fs).

(** [buf] is the part of the name before [q]; [s] tells whether the result of the last
    stat that succeeded is a directory, [None] that there was none. *)
Definition check_dir (s : option bool) : MF Z :=
  match s with
  | None => abort "uninitialized variable"
  | Some d => ret (if d : bool then 0 else -1)
  end.
Fixpoint mkpdir_loop (n : nat) (buf q : bytes) (s : option bool) : MF Z :=
  match n with
  | O => spin
  | S n =>
      match q with
      | [] => check_dir s
      | _ =>
          let buf := buf ++ take_while (fun c => negb (slash c)) q in
          let q := skip_while (fun c => negb (slash c)) q in
          let next s := mkpdir_loop n (buf ++ take_while slash q) (skip_while slash q) s in
          st <- gets (stat buf) ;;
          match st with
          | S_DIR => next (Some true)
          | S_OTHER | S_FAILED => ret (-1)
          | S_ENOENT => fun fs0 => match mkdir buf fs0 with None => Ret (-1) fs0 | Some fs1 => next s fs1 end
          end
      end
  end.
Definition mkpdir (dirname : bytes) : MF Z :=
  st <- gets (stat dirname) ;;
  match st with
  | S_DIR => check_dir (Some true)
  | S_OTHER => check_dir (Some false)
  | S_FAILED => ret (-1)
  | S_ENOENT =>
      if (MAXPATHLEN <=? length dirname)%nat then abort "path longer than its buffer" else
      match dirname with
      | c :: q => if slash c then mkpdir_loop (S (length dirname)) [c] q None
                  else mkpdir_loop (S (length dirname)) [] dirname None
      | [] => check_dir None
      end
  end.

(** The constructor of ArtSpooler, up to the lock file. *)
Definition make_dir (d : bytes) (txt : string) : MF unit := r <- mkpdir d ;; if r =? -1 then raise (Error txt) else ret tt.
Definition new_ArtSpooler (spoolDir : bytes) : MF unit :=
  make_dir spoolDir "Error creating spoolDirectory" ;;;
  make_dir (spoolDir ++ bs "/.artSpool") "Error creating spoolDirectory" ;;;
  make_dir (spoolDir ++ bs "/.badArticles") "Error creating spoolDirectory".

(** LServer::init: the value of [_SpoolDirectory]. *)
Definition MAXGROUPNAMELEN : nat := 512.
Definition lserver_init (spooldir : bytes) : MF bytes :=
  if (MAXPATHLEN - MAXGROUPNAMELEN - 16 <? length spooldir)%nat
  then raise (AssertionError "name of spooldirectory too long. longest groupname+spooldirlength does not fit into maxpathlen")
  else new_ArtSpooler spooldir ;;; ret spooldir.
End mkpdir.

(** ** What mkpdir promises *)

(** The names of the directories on the way, without the slashes at their ends. *)
Fixpoint way (n : nat) (buf q : bytes) : list bytes :=
  match n with
  | O => []
  | S n =>
      match q with
      | [] => []
      | _ =>
          let buf := buf ++ take_while (fun c => negb (slash c)) q in
          let q := skip_while (fun c => negb (slash c)) q in
          buf :: way n (buf ++ take_while slash q) (skip_while slash q)
      end
  end.
Definition directories (dirname : bytes) : list bytes :=
  match dirname with
  | c :: q => if slash c then way (S (length dirname)) [c] q else way (S (length dirname)) [] dirname
  | [] => []
  end.

Lemma component_shorter c q :
  (length (skip_while slash (skip_while (fun c => negb (slash c)) (c :: q))) <= length q)%nat.
Proof.
  cbn [skip_while]. pose proof (skip_while_length slash (skip_while (fun c => negb (slash c)) q)).
  pose proof (skip_while_length (fun c => negb (slash c)) q). destruct (slash c) eqn:E; cbn [negb]; [|lia].
  cbn [skip_while]. rewrite E. apply skip_while_length.
Qed.

Section promise.
Context {f : Fs} {Hf : FsOk f}.

Definition keeps_dirs (s s' : fs) : Prop := forall q, stat q s = S_DIR -> stat q s' = S_DIR.

Lemma mkpdir_loop_spec : forall n buf q st s, (length q < n)%nat -> (st = Some true \/ exists d, head (way n buf q) = Some d /\ stat d s <> S_ENOENT) ->
  match mkpdir_loop n buf q st s with
  | Ret r s' => keeps_dirs s s' /\ (r = 0 /\ Forall (fun d => stat d s' = S_DIR) (way n buf q) \/ r = -1)
  | _ => False
  end.
Proof.
  induction n as [|n IH]; intros buf q st s Hn Hs; [lia|]. cbn [mkpdir_loop way]. destruct q as [|c q].
  { destruct Hs as [->|(d & Hd & _)]; [|done]. cbn. split; [by intros ?|]. by left. }
  cbv zeta. cbn [way] in Hs. set (buf1 := buf ++ take_while _ (c :: q)) in *. set (q1 := skip_while _ (c :: q)) in *.
  assert (length (skip_while slash q1) < n)%nat as Hn1 by (pose proof (component_shorter c q); cbn [length] in Hn; unfold q1; lia).
  unfold bind, gets. destruct (stat buf1 s) eqn:E.
  - specialize (IH (buf1 ++ take_while slash q1) (skip_while slash q1) (Some true) s Hn1 ltac:(by left)).
    destruct (mkpdir_loop _ _ _ _ _) as [r s'| | |]; [|done..]. destruct IH as [Hk [[-> Hw]| ->]]; split; [done| |done|by right].
    left. split; [done|]. apply Forall_cons. split; [by apply Hk|done].
  - cbn. split; [by intros ?|by right].
  - destruct Hs as [->|(d & Hd & Hne)]; [|by injection Hd as <-; rewrite E in Hne].
    destruct (mkdir buf1 s) as [s1|] eqn:Em; [|split; [by intros ?|by right]].
    specialize (IH (buf1 ++ take_while slash q1) (skip_while slash q1) (Some true) s1 Hn1 ltac:(by left)).
    destruct (mkpdir_loop _ _ _ _ _) as [r s'| | |]; [|done..]. destruct IH as [Hk [[-> Hw]| ->]]; split; [|left|..|by right].
    + intros p Hp. by apply Hk, (mkdir_keeps buf1 s).
    + split; [done|]. apply Forall_cons. split; [by apply Hk, (mkdir_makes buf1 s)|done].
    + intros p Hp. by apply Hk, (mkdir_keeps buf1 s).
  - cbn. split; [by intros ?|by right].
Qed.

(** mkpdir ends: it answers 0 when the directory and all those on the way to it are
    there, and -1 else; no directory is lost.  The first directory on the way has to
    exist: see [mkpdir_uninitialized]. *)
Theorem mkpdir_spec dirname s : (length dirname < MAXPATHLEN)%nat ->
  (exists d, head (directories dirname) = Some d /\ stat d s <> S_ENOENT) ->
  match mkpdir dirname s with
  | Ret r s' => keeps_dirs s s' /\
      (r = 0 /\ (stat dirname s' = S_DIR \/ Forall (fun d => stat d s' = S_DIR) (directories dirname)) \/ r = -1)
  | _ => False
  end.
Proof.
  intros Hlen Hd. unfold mkpdir, bind, gets. destruct (stat dirname s) eqn:E.
  - cbn. split; [by intros ?|]. left. split; [done|by left].
  - cbn. split; [by intros ?|by right].
  - destruct (Nat.leb_spec MAXPATHLEN (length dirname)); [lia|]. unfold directories in *.
    destruct dirname as [|c q]; [by destruct Hd as (? & ? & _)|]. destruct (slash c).
    + pose proof (mkpdir_loop_spec (S (length (c :: q))) [c] q None s ltac:(cbn; lia) ltac:(by right)) as Hl.
      destruct (mkpdir_loop _ _ _ _ _); [|done..]. destruct Hl as [Hk [[-> Hw]| ->]]; (split; [done|]); [left|by right].
      split; [done|by right].
    + pose proof (mkpdir_loop_spec (S (length (c :: q))) [] (c :: q) None s ltac:(cbn; lia) ltac:(by right)) as Hl.
      destruct (mkpdir_loop _ _ _ _ _); [|done..]. destruct Hl as [Hk [[-> Hw]| ->]]; (split; [done|]); [left|by right].
      split; [done|by right].
  - cbn. split; [by intros ?|by right].
Qed.
End promise.

(** ** A file system in which names are set once *)
#[local] Instance table_fs : Fs := {|
  fs := gmap (list ascii) bool;
  stat p s := match s !! p with Some true => S_DIR | Some false => S_OTHER | None => S_ENOENT end;
  mkdir p s := match s !! p with None => Some (<[p := true]> s) | Some _ => None end
|}.
#[local] Instance table_fs_ok : FsOk table_fs.
Proof.
  split; cbn [stat mkdir table_fs].
  - intros p s s'. case_match; [done|]. intros [= <-]. by rewrite lookup_insert_eq.
  - intros p s s' q. case_match eqn:E; [done|]. intros [= <-].
    destruct (decide (q = p)) as [->|]; [by rewrite E|by rewrite lookup_insert_ne].
Qed.

Definition ex_fs : fs := {[ bs "/var" := true ]}.
Lemma mkpdir_spec_witness : match mkpdir (bs "/var/cache/news") ex_fs with
  | Ret r s' => r = 0 /\ stat (bs "/var/cache/news") s' = S_DIR | _ => False end.
Proof.
  assert (length (bs "/var/cache/news") < MAXPATHLEN)%nat as Hl by (apply Nat.ltb_lt; reflexivity).
  assert (exists d, head (directories (bs "/var/cache/news")) = Some d /\ stat d ex_fs <> S_ENOENT) as Hd.
  { exists (bs "/var"). split; [reflexivity|]. vm_compute. discriminate. }
  pose proof (mkpdir_spec (bs "/var/cache/news") ex_fs Hl Hd) as H.
  vm_compute in H |- *. destruct H as [_ [[H _]|H]]; [split; [exact H|reflexivity]|discriminate].
Defined.

(** When the first directory on the way is missing, it is made, and the result is taken
    from a variable that has no value. *)
Lemma mkpdir_uninitialized : mkpdir (bs "/news") (∅ : gmap (list ascii) bool) = Abort "uninitialized variable".
Proof. reflexivity. Qed.
