(* ===== verification/Clean.v ===== *)
(** * Clean.v: NewsCacheClean

    src/NewsCacheClean.cc: the files of the spool directory that may be removed, and
    the removal of the least recently used ones.  The directory is a tree in the
    order readdir gives; a file has its times, its blocks and, when it is the
    database of a newsgroup, the first and last number in it. *)
From S2P Require Import Prelude Text.
From S2P Require Import Config.
From S2P Require Import NVNewsgroup.
From Stdlib Require Import Sorting.Sorted.

Record fstat := FStat { st_atime : Z; st_mtime : Z; st_blocks : Z }.
#[warnings="-register-all"]
Inductive node :=
| FileNode (s : fstat) (nums : Z * Z)
| DirNode (s : fstat) (entries : list (bytes * node)).
Definition node_stat (n : node) : fstat := match n with FileNode s _ | DirNode s _ => s end.

Record Entry := MkEntry { Path : bytes; atime : Z; blocks : Z }.

Definition max_time (s : fstat) : Z := if st_mtime s <? st_atime s then st_atime s else st_mtime s.
Definition find_node (fn : bytes) (es : list (bytes * node)) : option node :=
  snd <$> List.find (fun x => bool_decide (fst x = fn)) es.

(** [./be/comp/os/unix -> be.comp.os.unix] *)
Definition ngname_of (cpath : bytes) : bytes :=
  map (fun c => if bool_decide (c = "/"%char) then "."%char else c) (drop 2 cpath).

Definition not_slash_char (c : ascii) : bool := negb (bool_decide (c = "/"%char)).
(** The node at a path below a directory. *)
Fixpoint node_at (n : nat) (path : bytes) (d : node) : option node :=
  match path with
  | [] => Some d
  | _ =>
      match n, d with
      | S n, DirNode _ es =>
          find_node (take_while not_slash_char path) es ≫=
          node_at n (drop (S (length (take_while not_slash_char path))) path)
      | _, _ => None
      end
  end.
(** The numbers of a newsgroup; a database that does not exist is made empty. *)
Definition numbers_of (root : node) (ngname : bytes) : Z * Z :=
  match node_at (length ngname) (group2dir ngname) root ≫= (fun d =>
          match d with DirNode _ es => find_node (bs ".db") es | FileNode _ _ => None end) with
  | Some (FileNode _ nums) => (s32 (fst nums), s32 (snd nums))
  | _ => (1, 0)
  end.

(** [sscanf(art, "%d", &nr)] *)
Definition scan_int (s : bytes) : option Z :=
  let '(n, p) := strtol s in if bool_decide (p = s) then None else Some (s32 n).

(** The entry of a file of the second pass over a directory. *)
Definition art_entry (cpath : bytes) (dbatime : Z) (range : option (Z * Z)) (name : bytes) (s : fstat) : option Entry :=
  if negb (dbatime =? 0) && bool_decide (take 4 name = bs ".art") then
    let at_ := max_time s in
    let at_ := if dbatime <=? at_ then dbatime else at_ in
    let at_ := match scan_int (drop 4 name) with
               | None => at_
               | Some nr =>
                   match range with
                   | None => 0
                   | Some (firstnr, lastnr) => if (nr <? firstnr) || (lastnr <? nr) then 0 else at_
                   end
               end in
    Some (MkEntry (cpath ++ bs "/" ++ name) at_ (st_blocks s))
  else None.
Definition art_entries (cpath : bytes) (dbatime : Z) (range : option (Z * Z)) (es : list (bytes * node)) : list Entry :=
  omap (fun x => match snd x with FileNode s _ => art_entry cpath dbatime range (fst x) s | DirNode _ _ => None end) es.

(** The exception directories are compared with the path of their database. *)
Definition exception_dir (buf : bytes) : bool :=
  bool_decide (buf = bs "./.artSpool") || bool_decide (buf = bs "./.badArticles").

(** clean: what it pushes on pvector. *)
Fixpoint clean (root : node) (cpath : bytes) (d : node) : list Entry :=
  match d with
  | FileNode _ _ => []
  | DirNode _ es =>
      let buf := cpath ++ bs "/.db" in
      if exception_dir buf then [] else
      let db := find_node (bs ".db") es in
      let dbatime := match db with Some n => max_time (node_stat n) - 1 | None => 0 end in
      let range := match db with Some _ => Some (numbers_of root (ngname_of cpath)) | None => None end in
      match db with Some n => [MkEntry buf (max_time (node_stat n)) (st_blocks (node_stat n))] | None => [] end ++
      (fix subdirs l := match l with
                        | [] => []
                        | (name, n) :: r => clean root (cpath ++ bs "/" ++ name) n ++ subdirs r
                        end) es ++
      art_entries cpath dbatime range es
  end.

(** _blocks after clean. *)
Definition total (es : list Entry) : Z := foldr (fun e n => blocks e + n) 0 es.

(** std::sort with sort_entries gives a permutation in which no entry is before one
    with a smaller time. *)
Definition sort_entries (l r : Entry) : bool := atime l <? atime r.
Definition sorted_entries (es : list Entry) : Prop := StronglySorted (fun l r => sort_entries r l = false) es.

(** ** remove_elements *)
Inductive cache_statistic :=
| stPurgedDbCnt | stPurgedDirCnt | stPurgedArtCnt | stPurgedOutArtCnt | stDbCnt | stDirCnt | stArtCnt | stOutArtCnt
| stPurgedDbSize | stPurgedArtSize | stPurgedOutArtSize | stDbSize | stArtSize | stOutArtSize.
#[export] Instance cache_statistic_eq_dec : EqDecision cache_statistic.
Proof. solve_decision. Defined.
Definition statistic : Type := cache_statistic -> Z.
Definition bump (k : cache_statistic) (n : Z) (st : statistic) : statistic :=
  fun x => if decide (x = k) then w64 (st x + n) else st x.
Definition no_statistic : statistic := fun _ => 0.

Definition is_db (path : bytes) : bool := bool_decide (drop (length path - 3) path = bs ".db").

Section removal.
(** Whether unlink and rmdir succeed. *)
Variables (unlink_ok rmdir_ok : bytes -> bool).

(** The counters of the files that are there, and of those that were removed. *)
Definition count_entry (e : Entry) (st : statistic) : statistic :=
  if is_db (Path e) then bump stDbSize (blocks e) (bump stDbCnt 1 st)
  else if negb (atime e =? 0) then bump stArtSize (blocks e) (bump stArtCnt 1 st)
  else bump stOutArtSize (blocks e) (bump stOutArtCnt 1 st).
Definition count_purged (e : Entry) (st : statistic) : statistic :=
  if negb (is_db (Path e)) then
    if negb (atime e =? 0) then bump stPurgedArtSize (blocks e) (bump stPurgedArtCnt 1 st)
    else bump stPurgedOutArtSize (blocks e) (bump stPurgedOutArtCnt 1 st)
  else
    let st := bump stPurgedDbSize (blocks e) (bump stPurgedDbCnt 1 st) in
    if rmdir_ok (take (length (Path e) - 3) (Path e)) then bump stPurgedDirCnt 1 st else st.

(** The entries that were removed, _blocks and the counters. *)
Fixpoint remove_elements (max_blocks : Z) (es : list Entry) (n : Z) (st : statistic) : list Entry * Z * statistic :=
  match es with
  | [] => ([], n, st)
  | e :: es =>
      let st := count_entry e st in
      if negb (atime e =? 0) && (n <=? max_blocks) then remove_elements max_blocks es n st
      else if unlink_ok (Path e) then
        let '(gone, n, st) := remove_elements max_blocks es (n - blocks e) (count_purged e st) in (e :: gone, n, st)
      else remove_elements max_blocks es n st
  end.
End removal.

(** [SpoolSize * 2]; as an int it must not overflow. *)
Definition max_blocks (c : Config) : Z := c_int c SpoolSize * 2.

Definition mb (z : Z) : Z := z / 2 / 1024.
Definition print_statistic (st : statistic) : bytes :=
  let line name k unit := bs name ++ bs ": " ++ dec k ++ bs unit ++ [LF] in
  line "PurgedDbCnt"%string (st stPurgedDbCnt) ""%string ++ line "PurgedDirCnt"%string (st stPurgedDirCnt) ""%string ++
  line "PurgedArtCnt"%string (st stPurgedArtCnt) ""%string ++
  line "PurgedOutArtCnt"%string (st stPurgedOutArtCnt) ""%string ++
  line "DbCnt"%string (st stDbCnt) ""%string ++ line "DirCnt"%string (st stDirCnt) ""%string ++
  line "ArtCnt"%string (st stArtCnt) ""%string ++ line "OutArtCnt"%string (st stOutArtCnt) ""%string ++
  line "PurgedDbSize"%string (mb (st stPurgedDbSize)) "Mb"%string ++
  line "PurgedArtSize"%string (mb (st stPurgedArtSize)) "Mb"%string ++
  line "DbSize"%string (mb (st stDbSize)) "Mb"%string ++ line "ArtSize"%string (mb (st stArtSize)) "Mb"%string ++
  line "OutArtSize"%string (mb (st stOutArtSize)) "MB"%string.

(** ** What is removed *)
Lemma blocks_app a b : total (a ++ b) = total a + total b.
Proof. induction a as [|e a IH]; cbn [total foldr app]; [done|]. fold (total (a ++ b)) (total a). lia. Qed.
#[export] Instance total_proper : Proper ((≡ₚ) ==> eq) total.
Proof. unfold total. intros a b H. induction H; cbn [foldr]; lia. Qed.
Definition sizes_ok (es : list Entry) : Prop := Forall (fun e => 0 <= blocks e) es.
Lemma total_nonneg es : sizes_ok es -> 0 <= total es.
Proof. induction 1; cbn [total foldr]; [done|]. fold (total l). lia. Qed.

(** [gone] was removed, [kept] was not, when the files had [n] blocks at first. *)
Record purge (mx : Z) (es : list Entry) (n : Z) (gone kept : list Entry) : Prop := {
  pu_all : es ≡ₚ gone ++ kept;
  pu_outdated : Forall (fun e => atime e <> 0) kept;
  pu_enough : n - total gone <= mx \/ kept = [];
  pu_minimal : forall pre e suf, gone = pre ++ e :: suf -> atime e <> 0 -> mx < n - total pre;
  pu_oldest : forall e k, e ∈ gone -> atime e <> 0 -> k ∈ kept -> atime e <= atime k
}.

Lemma purge_sizes mx es n gone kept : purge mx es n gone kept -> sizes_ok es -> sizes_ok gone.
Proof. intros H Hs. unfold sizes_ok in *. rewrite (pu_all _ _ _ _ _ H) in Hs. by apply Forall_app in Hs as [? _]. Qed.

Lemma purge_nil mx n : purge mx [] n [] [].
Proof. split; [done|done|by right|by intros []|]. intros e k He. by apply not_elem_of_nil in He. Qed.

Lemma purge_keep mx e es n gone kept : n <= mx -> atime e <> 0 -> sizes_ok es ->
  purge mx es n gone kept -> purge mx (e :: es) n gone (e :: kept).
Proof.
  intros Hn He Hs H. pose proof (purge_sizes _ _ _ _ _ H Hs) as Hg. destruct H as [Ha Ho Hen Hm Hold].
  assert (forall pre x suf, gone = pre ++ x :: suf -> atime x <> 0 -> False) as Hnone.
  { intros pre x suf E Hx. pose proof (Hm pre x suf E Hx). rewrite E in Hg. apply Forall_app in Hg as [Hg _].
    pose proof (total_nonneg _ Hg). lia. }
  split.
  - rewrite Ha. apply Permutation_middle.
  - by apply Forall_cons.
  - left. pose proof (total_nonneg _ Hg). lia.
  - exact Hm.
  - intros x k Hx Hx0 _. apply list_elem_of_split in Hx as (pre & suf & E). by destruct (Hnone _ _ _ E Hx0).
Qed.

Lemma purge_remove mx e es n gone kept : (atime e = 0 \/ mx < n) -> Forall (fun r => sort_entries r e = false) es ->
  purge mx es (n - blocks e) gone kept -> purge mx (e :: es) n (e :: gone) kept.
Proof.
  intros He Hs [Ha Ho Hen Hm Hold]. split.
  - by rewrite Ha.
  - done.
  - change (total (e :: gone)) with (blocks e + total gone). destruct Hen; [left; lia|by right].
  - intros [|x pre] y suf E Hy; cbn [app] in E; injection E as -> E.
    + change (total []) with 0. destruct He as [He|He]; [congruence|lia].
    + pose proof (Hm pre y suf E Hy). change (total (x :: pre)) with (blocks x + total pre). lia.
  - intros x k Hx Hx0 Hk. apply elem_of_cons in Hx as [->|Hx]; [|by apply Hold].
    assert (k ∈ es) as Hin by (rewrite Ha; apply elem_of_app; by right).
    rewrite Forall_forall in Hs. specialize (Hs k Hin). unfold sort_entries in Hs. apply Z.ltb_ge in Hs. lia.
Qed.

Lemma remove_purges (unlink_ok rmdir_ok : bytes -> bool) mx : (forall p, unlink_ok p = true) ->
  forall es n st, sorted_entries es -> sizes_ok es ->
  exists gone kept st', remove_elements unlink_ok rmdir_ok mx es n st = (gone, n - total gone, st') /\
    purge mx es n gone kept.
Proof.
  intros Hu. induction es as [|e es IH]; intros n st Hso Hs; cbn [remove_elements].
  - exists [], [], st. split; [by rewrite Z.sub_0_r|apply purge_nil].
  - apply StronglySorted_inv in Hso as [Hso He]. apply Forall_cons in Hs as [_ Hs].
    destruct (negb (atime e =? 0) && (n <=? mx)) eqn:Ek.
    + apply andb_true_iff in Ek as [E1 E2]. apply negb_true_iff, Z.eqb_neq in E1. apply Z.leb_le in E2.
      destruct (IH n (count_entry e st) Hso Hs) as (gone & kept & st' & -> & Hp).
      exists gone, (e :: kept), st'. split; [done|]. by apply purge_keep.
    + rewrite Hu. destruct (IH (n - blocks e) (count_purged rmdir_ok e (count_entry e st)) Hso Hs)
        as (gone & kept & st' & -> & Hp).
      exists (e :: gone), kept, st'. split.
      { f_equal. f_equal. change (total (e :: gone)) with (blocks e + total gone). lia. }
      apply purge_remove; [|exact He|done].
      apply andb_false_iff in Ek as [E|E]; [left|right]; [apply negb_false_iff, Z.eqb_eq in E; done|].
      by apply Z.leb_gt in E.
Qed.

(** NewsCacheClean removes the least recently used files, and no more of them than
    it must: when every unlink succeeds, what remains has at most the wanted number of
    blocks or nothing remains; the outdated articles are gone; no other file was removed
    while the limit was kept, and none that is newer than one that remains. *)
Theorem clean_lru unlink_ok rmdir_ok root mx es st : let all := clean root (bs ".") root in
  (forall p, unlink_ok p = true) -> es ≡ₚ all -> sorted_entries es -> sizes_ok all ->
  exists gone kept st',
    remove_elements unlink_ok rmdir_ok mx es (total all) st = (gone, total kept, st') /\
    all ≡ₚ gone ++ kept /\
    (total kept <= mx \/ kept = []) /\
    Forall (fun e => atime e <> 0) kept /\
    (forall pre e suf, gone = pre ++ e :: suf -> atime e <> 0 -> mx < total all - total pre) /\
    (forall e k, e ∈ gone -> atime e <> 0 -> k ∈ kept -> atime e <= atime k).
Proof.
  intros all Hu Hp Hso Hs. unfold sizes_ok in Hs. rewrite <- Hp in Hs. setoid_rewrite <- Hp. clearbody all.
  destruct (remove_purges unlink_ok rmdir_ok mx Hu es (total es) st Hso Hs)
    as (gone & kept & st' & E & [Ha Ho Hen Hm Hold]).
  assert (total es = total gone + total kept) as Et by (rewrite <- blocks_app; by rewrite <- Ha).
  exists gone, kept, st'. rewrite E. split_and!; [do 2 f_equal; lia|done| |done|done|done].
  destruct Hen; [left; lia|by right].
Qed.

(** ** The articles of a newsgroup and its database *)

(** The directories clean works on, with their paths. *)
Inductive visited : bytes -> node -> bytes -> list (bytes * node) -> Prop :=
| visited_here cpath s es : exception_dir (cpath ++ bs "/.db") = false -> visited cpath (DirNode s es) cpath es
| visited_below cpath s es name n path l : exception_dir (cpath ++ bs "/.db") = false -> (name, n) ∈ es ->
    visited (cpath ++ bs "/" ++ name) n path l -> visited cpath (DirNode s es) path l.

Definition db_range (root : node) (path : bytes) : option (Z * Z) := Some (numbers_of root (ngname_of path)).

Lemma in_subdirs root cpath es name n e : (name, n) ∈ es -> e ∈ clean root (cpath ++ bs "/" ++ name) n ->
  e ∈ (fix subdirs l := match l with
                        | [] => []
                        | (name, n) :: r => clean root (cpath ++ bs "/" ++ name) n ++ subdirs r
                        end) es.
Proof.
  induction es as [|[m k] es IH]; intros Hin He; [by apply not_elem_of_nil in Hin|].
  apply elem_of_app. apply elem_of_cons in Hin as [[= <- <-]|Hin]; [by left|right; by apply IH].
Qed.

Lemma clean_entries root cpath d path l n : visited cpath d path l -> find_node (bs ".db") l = Some n ->
  forall a, a ∈ art_entries path (max_time (node_stat n) - 1) (db_range root path) l -> a ∈ clean root cpath d.
Proof.
  induction 1 as [cpath s es Hex|cpath s es name m path l Hex Hin Hv IH]; intros Hn a Ha; cbn [clean]; rewrite Hex.
  - rewrite Hn. do 2 (apply elem_of_app; right). exact Ha.
  - apply elem_of_app. right. apply elem_of_app. left. eapply in_subdirs; [exact Hin|]. by apply IH.
Qed.

Lemma art_entry_time cpath t range name s e : art_entry cpath t range name s = Some e -> 0 <= t -> atime e <= t.
Proof.
  unfold art_entry. intros E Ht. destruct (_ && _); [|done]. injection E as <-. cbn [atime].
  assert ((if t <=? max_time s then t else max_time s) <= t) as Hm.
  { destruct (Z.leb_spec t (max_time s)); lia. }
  destruct (scan_int _); [|done]. destruct range as [[f l]|]; [|done]. by destruct (_ || _).
Qed.

Lemma art_entries_time cpath t range es e : e ∈ art_entries cpath t range es -> 0 <= t -> atime e <= t.
Proof.
  intros H Ht. apply list_elem_of_omap in H as ([name []] & _ & E); [|done].
  exact (art_entry_time _ _ _ _ _ _ E Ht).
Qed.

(** C25: the database of a newsgroup is not removed before the articles that are files
    of their own: in whatever order sort leaves files of the same age, when the database
    is gone, all of them are (for a database that was used after 1970-01-01 00:00:01). *)
Theorem articles_before_database unlink_ok rmdir_ok root mx es st path l n :
  (forall p, unlink_ok p = true) -> es ≡ₚ clean root (bs ".") root -> sorted_entries es ->
  sizes_ok (clean root (bs ".") root) ->
  visited (bs ".") root path l -> find_node (bs ".db") l = Some n -> 1 < max_time (node_stat n) ->
  exists gone n' st',
    remove_elements unlink_ok rmdir_ok mx es (total (clean root (bs ".") root)) st = (gone, n', st') /\
    (MkEntry (path ++ bs "/.db") (max_time (node_stat n)) (st_blocks (node_stat n)) ∈ gone ->
     forall a, a ∈ art_entries path (max_time (node_stat n) - 1) (db_range root path) l -> a ∈ gone).
Proof.
  intros Hu Hes Hso Hs Hv Hn Ht. unfold sizes_ok in Hs. rewrite <- Hes in Hs.
  rewrite <- (total_proper _ _ Hes). destruct (remove_purges unlink_ok rmdir_ok mx Hu es (total es) st Hso Hs)
    as (gone & kept & st' & E & [Ha Ho _ _ Hold]).
  eexists gone, _, st'. split; [exact E|]. intros Hdb a Hin.
  assert (a ∈ gone ++ kept) as Hall by (rewrite <- Ha; rewrite Hes; by eapply clean_entries).
  apply elem_of_app in Hall as [?|Hk]; [done|].
  pose proof (Hold _ _ Hdb ltac:(cbn [atime]; lia) Hk) as Hle. cbn [atime] in Hle.
  apply art_entries_time in Hin; lia.
Qed.

(** ** A spool directory *)
Definition ex_group : list (bytes * node) :=
  [(bs ".art7", FileNode (FStat 50 40 100) (0, 0)); (bs ".db", FileNode (FStat 60 45 200) (5, 9));
   (bs ".art3", FileNode (FStat 70 70 30) (0, 0))].
Definition ex_spool : node :=
  DirNode (FStat 0 0 0) [(bs ".artSpool", DirNode (FStat 0 0 0) []); (bs "comp", DirNode (FStat 0 0 0)
    [(bs "x", DirNode (FStat 0 0 0) ex_group); (bs "y", DirNode (FStat 0 0 0) [(bs ".db", FileNode (FStat 9 99 40) (1, 0))])])].
Definition ex_sorted : list Entry :=
  [MkEntry (bs "./comp/x/.art3") 0 30; MkEntry (bs "./comp/x/.art7") 50 100; MkEntry (bs "./comp/x/.db") 60 200;
   MkEntry (bs "./comp/y/.db") 99 40].
Lemma ex_sorted_ok : ex_sorted ≡ₚ clean ex_spool (bs ".") ex_spool /\ sorted_entries ex_sorted /\
  sizes_ok (clean ex_spool (bs ".") ex_spool).
Proof.
  split_and!.
  - replace (clean ex_spool (bs ".") ex_spool) with
      [MkEntry (bs "./comp/x/.db") 60 200; MkEntry (bs "./comp/x/.art7") 50 100; MkEntry (bs "./comp/x/.art3") 0 30;
       MkEntry (bs "./comp/y/.db") 99 40] by (vm_compute; reflexivity).
    unfold ex_sorted. solve_Permutation.
  - unfold sorted_entries, ex_sorted. repeat (apply SSorted_cons; [|repeat (apply List.Forall_cons; [reflexivity|]);
      apply List.Forall_nil]). apply SSorted_nil.
  - vm_compute. repeat (apply Forall_cons_2; [discriminate|]). apply Forall_nil_2.
Qed.

Lemma clean_lru_witness : exists gone kept st',
  remove_elements (fun _ => true) (fun _ => true) 100 ex_sorted 370 no_statistic = (gone, total kept, st') /\
  total kept <= 100.
Proof.
  destruct ex_sorted_ok as (H1 & H2 & H3).
  destruct (clean_lru (fun _ => true) (fun _ => true) ex_spool 100 ex_sorted no_statistic ltac:(done) H1 H2 H3)
    as (gone & kept & st' & E & _ & H & _).
  exists gone, kept, st'. split; [exact E|]. destruct H as [H| ->]; [exact H|discriminate].
Defined.

Lemma articles_before_database_witness : exists gone n' st',
  remove_elements (fun _ => true) (fun _ => true) 100 ex_sorted 370 no_statistic = (gone, n', st') /\
  (MkEntry (bs "./comp/x/.db") 60 200 ∈ gone -> MkEntry (bs "./comp/x/.art7") 50 100 ∈ gone).
Proof.
  destruct ex_sorted_ok as (H1 & H2 & H3).
  destruct (articles_before_database (fun _ => true) (fun _ => true) ex_spool 100 ex_sorted no_statistic
    (bs "./comp/x") ex_group (FileNode (FStat 60 45 200) (5, 9)) ltac:(done) H1 H2 H3) as (gone & n' & st' & E & H).
  - eapply (visited_below _ _ _ (bs "comp")); [reflexivity|apply list_elem_of_In; right; left; reflexivity|].
    eapply (visited_below _ _ _ (bs "x")); [reflexivity|apply list_elem_of_In; left; reflexivity|].
    apply visited_here. reflexivity.
  - reflexivity.
  - reflexivity.
  - exists gone, n', st'. split; [exact E|]. intros Hdb. apply (H Hdb). vm_compute. apply list_elem_of_In. left. reflexivity.
Defined.
