(* ===== verification/NnrpAuth.v ===== *)
(** * NnrpAuth.v: authinfo

    The checks of a user and a password in src/NewsCache.cc, as configure builds
    them when nothing is asked for: with MD5_CRYPT, MD5_AUTO and SHADOW_PASSWORD,
    without PAM_AUTH and PLAIN_TEXT_PASSWORDS. *)
From S2P Require Import Prelude Text Article Matching.
From S2P Require Import ServerList.
From S2P Require Import AccessList.
From S2P Require Import Md5.

(** The C library: [pw_passwd] of getpwnam, [sp_pwdp] of getspnam, crypt, the
    content of a file; and [sizeof(unsigned long)]. *)
Class Users := {
  getpwnam : bytes -> option bytes;
  getspnam : bytes -> option bytes;
  crypt : bytes -> bytes -> bytes;
  file_content : bytes -> option bytes;
  ulong_bytes : nat
}.

(** ** The file of the users *)

(** The buffers fgets fills: at most [n] characters, up to a line feed. *)
Fixpoint fgets_from (n m : nat) (s : bytes) : list bytes :=
  match s with
  | [] => [[]]
  | c :: r =>
      if bool_decide (c = LF) then [c] :: fgets_from n n r
      else match m with
           | O | S O => [c] :: fgets_from n n r
           | S m => match fgets_from n m r with x :: l => (c :: x) :: l | [] => [[c]] end
           end
  end.
Definition fgets_all (size : nat) (s : bytes) : list bytes :=
  List.filter (fun b => negb (bool_decide (b = []))) (fgets_from (size - 1) (size - 1) s).

(** The white space at the end; the first character of the buffer stays. *)
Fixpoint strip_end (s : bytes) : bytes :=
  match s with
  | [] => []
  | c :: r => match strip_end r with [] => if isspace c then [] else [c] | r => c :: r end
  end.
Definition rtrim (buf : bytes) : bytes := match buf with [] => [] | c :: r => c :: strip_end r end.

(** At most [n] of the colons separate fields. *)
Fixpoint split_fields (n : nat) (s : bytes) : list bytes :=
  match n with
  | O => [s]
  | S n => match skip_while not_colon s with [] => [s] | _ :: r => take_while not_colon s :: split_fields n r end
  end.

Fixpoint seek_lines (ls : list bytes) (username : bytes) : option (list bytes) :=
  match ls with
  | [] => None
  | buf :: rest =>
      let p := skip_while isspace (rtrim (cstr buf)) in
      if bool_decide (at_ p 0 = "#"%char) || bool_decide (p = []) then seek_lines rest username else
      let fields := split_fields 6 p in
      if bool_decide (head fields = Some username) then Some fields else seek_lines rest username
  end.

Section auth.
Context {users : Users}.
Abbreviation MA := (M AccessEntry).

Definition seekfile (filename username : bytes) : option (list bytes) :=
  file_content filename ≫= fun content => seek_lines (fgets_all 1024 content) username.

(** auto_cryptcheck; true stands for 0.  [None] when md5crypt leaves its context. *)
Definition auto_cryptcheck (key pass : bytes) : option bool :=
  if (length pass =? 24)%nat && bool_decide (at_ pass 23 = "="%char) && bool_decide (at_ pass 22 = "="%char)
  then (fun h => bool_decide (pass = h)) <$> md5crypt ulong_bytes key
  else Some (bool_decide (pass = crypt key pass)).
Definition cryptcheck (key pass : bytes) : MA bool :=
  match auto_cryptcheck key pass with Some b => ret b | None => abort "md5: access behind the context" end.

(** [access_entry->authentication.getField(nr)] *)
Definition field (nr : nat) : MA bytes :=
  a <- gets authentication ;;
  match getField nr a with Some f => ret f | None => abort "no such field" end.
Definition type_is (v : bytes) : MA bool :=
  a <- gets authentication ;;
  match typeEqual v a with Some b => ret b | None => abort "no such field" end.

(** [filter |= NewsgroupFilter(rules)] *)
Definition or_rules (f : NewsgroupFilter) (rules : bytes) : MA NewsgroupFilter :=
  match filter_or f (new_filter rules) with Some f => ret f | None => abort "rule list read past its end" end.

(** The rights of the user: the fields from number [nr] on. *)
Definition grant (nr : nat) : MA unit :=
  e <- get ;; x <- field nr ;; l <- or_rules (ae_list e) x ;;
  modify (set_filters l (ae_read e) (ae_postTo e)) ;;;
  x <- field (nr + 1) ;; r <- or_rules (ae_read e) x ;;
  modify (set_filters l r (ae_postTo e)) ;;;
  x <- field (nr + 2) ;; p <- or_rules (ae_postTo e) x ;;
  modify (set_filters l r p) ;;;
  x <- field (nr + 3) ;; modify (modifyAccessFlags x).

(** true stands for 0, false for -1. *)
Definition check_auth_unix (auth_user auth_pass : bytes) : MA bool :=
  t <- type_is (bs "unix:") ;;
  if negb t then ret false else
  match getpwnam auth_user with
  | None | Some [] => ret false
  | Some pass =>
      match (if bool_decide (pass = bs "x") then getspnam auth_user else Some pass) with
      | None => ret false
      | Some pass =>
          ok <- cryptcheck auth_pass pass ;;
          if negb ok then ret false else grant 1 ;;; ret true
      end
  end.

Definition check_auth_file (auth_user auth_pass : bytes) : MA bool :=
  t <- type_is (bs "file:") ;;
  if negb t then ret false else
  authfile <- field 1 ;;
  match seekfile authfile auth_user with
  | None => ret false
  | Some authv =>
      if (length authv <? 3)%nat then ret false else
      ok <- cryptcheck auth_pass (nth 1 authv []) ;;
      if negb ok then ret false else
      modify (fun e => set_authentication (fold_left (fun a v => appendField v a) (drop 2 authv)
                         (auth_set (bs "file:" ++ authfile))) e) ;;;
      grant 2 ;;; ret true
  end.

Definition check_authentication (auth_user auth_pass : bytes) : MA bool :=
  t <- gets (fun e => getType (authentication e)) ;;
  if bool_decide (t = bs "none") then ret false
  else if bool_decide (take 4 t = bs "unix") then check_auth_unix auth_user auth_pass
  else if bool_decide (take 4 t = bs "file") then check_auth_file auth_user auth_pass
  else ret false.
End auth.
