(* ===== verification/AuthPam.v ===== *)
(** * AuthPam.v: authinfo in the other builds

    The functions of src/NewsCache.cc that PAM_AUTH and PLAIN_TEXT_PASSWORDS add to
    those of NnrpAuth.v: the conversation with PAM, the two checks that ask PAM, and
    the check of the file of users where passwords may be stored as they are. *)
From S2P Require Import Prelude Text Article Matching.
From S2P Require Import ServerList.
From S2P Require Import AccessList.
From S2P Require Import Md5.
From S2P Require Import NnrpAuth.

(** ** The conversation *)
Inductive msg_style := PAM_PROMPT_ECHO_OFF | PAM_PROMPT_ECHO_ON | PAM_ERROR_MSG | PAM_TEXT_INFO | pam_other_msg.

(** pam_conv_func: the responses; [None] is PAM_CONV_ERR. *)
Fixpoint pam_conv_func (auth_user auth_pass : bytes) (msgs : list msg_style) : option (list (option bytes)) :=
  match msgs with
  | [] => Some []
  | m :: msgs =>
      r ← match m with
          | PAM_PROMPT_ECHO_OFF => Some (Some auth_pass)
          | PAM_PROMPT_ECHO_ON => Some (Some auth_user)
          | PAM_ERROR_MSG | PAM_TEXT_INFO => Some None
          | pam_other_msg => None
          end;
      rs ← pam_conv_func auth_user auth_pass msgs; Some (r :: rs)
  end.

(** The PAM library, for a service and a user, with the conversation it was given; and
    the groups of the system with their members, in the order of getgrent. *)
Definition conversation : Type := list msg_style -> option (list (option bytes)).
Class Pam := {
  pam_start : bytes -> bytes -> bool;
  pam_authenticate : bytes -> bytes -> conversation -> bool;
  pam_acct_mgmt : bytes -> bytes -> conversation -> bool;
  groups : list (bytes * list bytes)
}.

Section pam.
Context {users : Users} {pam : Pam}.
Abbreviation MA := (M AccessEntry).

(** check_pam_user_pass; true stands for 0. *)
Definition check_pam_user_pass (auth_user auth_pass : bytes) : MA bool :=
  service <- gets PAMServicename ;;
  ret (pam_start service auth_user &&
       pam_authenticate service auth_user (pam_conv_func auth_user auth_pass) &&
       pam_acct_mgmt service auth_user (pam_conv_func auth_user auth_pass)).

Definition check_auth_pam (auth_user auth_pass : bytes) : MA bool :=
  t <- type_is (bs "pam:") ;;
  if negb t then ret false else
  ok <- check_pam_user_pass auth_user auth_pass ;;
  if negb ok then ret false else grant 1 ;;; ret true.

(** The rights of a line of the file. *)
Definition rights_of (authfile : bytes) (authv : list bytes) : Authentication :=
  fold_left (fun a v => appendField v a) (drop 1 authv) (auth_set (bs "pam+file:" ++ authfile)).

(** The groups of which the user is a member and that the file has. *)
Definition group_rights (authfile auth_user : bytes) : list Authentication :=
  omap (fun g =>
    if bool_decide (auth_user ∈ snd g)
    then rights_of authfile <$> seekfile authfile ("@"%char :: fst g) else None) groups.

(** The rights of the user, with those of everyone and of the groups added. *)
Definition assembled (authfile auth_user : bytes) (authv : list bytes) : Authentication :=
  fold_left (auth_modify 0 2) (group_rights authfile auth_user)
    (auth_modify 0 2 (rights_of authfile authv)
      (match seekfile authfile (bs "*") with Some v => rights_of authfile v | None => [] end)).

Definition check_auth_pam_file (auth_user auth_pass : bytes) : MA bool :=
  t <- type_is (bs "pam+file:") ;;
  if negb t then ret false else
  ok <- check_pam_user_pass auth_user auth_pass ;;
  if negb ok then ret false else
  authfile <- field 1 ;;
  match seekfile authfile auth_user with
  | None => ret false
  | Some authv =>
      modify (set_authentication (assembled authfile auth_user authv)) ;;;
      grant 2 ;;; ret true
  end.

(** check_auth_file with PLAIN_TEXT_PASSWORDS: the password may be the field itself. *)
Definition check_auth_file_plain (auth_user auth_pass : bytes) : MA bool :=
  t <- type_is (bs "file:") ;;
  if negb t then ret false else
  authfile <- field 1 ;;
  match seekfile authfile auth_user with
  | None => ret false
  | Some authv =>
      if (length authv <? 3)%nat then ret false else
      ok <- (if bool_decide (auth_pass = nth 1 authv []) then ret true else cryptcheck auth_pass (nth 1 authv [])) ;;
      if negb ok then ret false else
      modify (fun e => set_authentication (fold_left (fun a v => appendField v a) (drop 2 authv)
                         (auth_set (bs "file:" ++ authfile))) e) ;;;
      grant 2 ;;; ret true
  end.

(** check_authentication with both options. *)
Definition check_authentication_pam (auth_user auth_pass : bytes) : MA bool :=
  t <- gets (fun e => getType (authentication e)) ;;
  if bool_decide (t = bs "none") then ret false
  else if bool_decide (take 4 t = bs "unix") then check_auth_unix auth_user auth_pass
  else if bool_decide (take 4 t = bs "file") then check_auth_file_plain auth_user auth_pass
  else if bool_decide (take 8 t = bs "pam+file") then check_auth_pam_file auth_user auth_pass
  else if bool_decide (take 3 t = bs "pam") then check_auth_pam auth_user auth_pass
  else ret false.

(** What stands for a password that is right: the test of the type of the entry. *)
Definition proves (e : AccessEntry) (auth_user auth_pass : bytes) : Prop :=
  let pam_ok := pam_start (PAMServicename e) auth_user = true /\
    pam_authenticate (PAMServicename e) auth_user (pam_conv_func auth_user auth_pass) = true /\
    pam_acct_mgmt (PAMServicename e) auth_user (pam_conv_func auth_user auth_pass) = true in
  (exists hash, (getpwnam auth_user = Some hash \/ getpwnam auth_user = Some (bs "x") /\ getspnam auth_user = Some hash) /\
     auto_cryptcheck auth_pass hash = Some true /\ take 4 (getType (authentication e)) = bs "unix") \/
  (exists file authv, authentication e !! 1%nat = Some file /\ seekfile file auth_user = Some authv /\
     take 4 (getType (authentication e)) = bs "file" /\
     (auth_pass = nth 1 authv [] \/ auto_cryptcheck auth_pass (nth 1 authv []) = Some true)) \/
  (take 3 (getType (authentication e)) = bs "pam" /\ pam_ok).

(** ** Rights come from a proof *)
Definition judged (u p : bytes) (P : Prop) (e : AccessEntry) (ok : bool) (e' : AccessEntry) : Prop :=
  if ok then P else e' = e.
Definition no_exn (_ : exn) (_ : AccessEntry) : Prop := True.

Lemma may_pure {A} (c : MA A) Q e : (forall a s, c e = Ret a s -> s = e /\ Q a) -> may c (fun a s => s = e /\ Q a) no_exn e.
Proof. intros H. unfold may. destruct (c e) eqn:E; try done. by apply H. Qed.
Lemma may_seq {A B} (c : MA A) (k : A -> MA B) P Q e :
  may c P no_exn e -> (forall a s, P a s -> may (k a) Q no_exn s) -> may (bind c k) Q no_exn e.
Proof. intros Hc Hk. apply may_bind. eapply may_mono; [exact Hc|exact Hk|done]. Qed.
Lemma may_field n e : may (field n) (fun x s => s = e /\ authentication e !! n = Some x) no_exn e.
Proof.
  apply may_pure. unfold field, bind, gets. intros a s. destruct (getField n (authentication e)) eqn:E; [|done].
  by intros [= <- <-].
Qed.
Lemma may_type v e : may (type_is v) (fun _ s => s = e /\ True) no_exn e.
Proof. apply may_pure. unfold type_is, bind, gets. intros a s. destruct (typeEqual v _); [|done]. by intros [= <- <-]. Qed.
Lemma may_cryptcheck k h e : may (cryptcheck k h) (fun b s => s = e /\ auto_cryptcheck k h = Some b) no_exn e.
Proof. apply may_pure. unfold cryptcheck. intros a s. destruct (auto_cryptcheck k h); [|done]. by intros [= <- <-]. Qed.
Lemma may_granted (c : MA unit) (P : Prop) (u p : bytes) e0 e : P -> may (c ;;; ret true) (judged u p P e0) no_exn e.
Proof. intros HP. unfold may, bind. by destruct (c e). Qed.

(** Rules for the steps of the checks. *)
Ltac judge_step :=
  match goal with
  | |- may (if ?b then _ else _) _ _ _ => let E := fresh "E" in destruct b eqn:E
  | |- may (ret false) _ _ _ => reflexivity
  | |- may (bind (type_is ?v) _) _ _ ?e => eapply may_seq; [apply (may_type v e)|intros ? ? [-> _]]
  | |- may (bind (field ?n) _) _ _ ?e => eapply may_seq; [apply (may_field n e)|intros ? ? [-> ?]]
  | |- may (bind (cryptcheck ?k ?h) _) _ _ ?e => eapply may_seq; [apply (may_cryptcheck k h e)|intros ? ? [-> ?]]
  | |- may (match ?x with None => _ | Some _ => _ end) _ _ _ => let E := fresh "E" in destruct x eqn:E
  end.

Lemma may_unix u p e : take 4 (getType (authentication e)) = bs "unix" ->
  may (check_auth_unix u p) (judged u p (proves e u p) e) no_exn e.
Proof.
  intros Ht. unfold check_auth_unix. do 2 judge_step; [reflexivity|].
  destruct (getpwnam u) as [[|c h]|] eqn:Epw; [reflexivity| |reflexivity]. judge_step; [|reflexivity]. judge_step. judge_step; [reflexivity|].
  apply may_granted. left. apply negb_false_iff in E1. subst. exists l. split_and!; [|done|done].
  case_bool_decide as Hx; [right; rewrite Hx in Epw; by split|left]. by rewrite E0 in Epw.
Qed.
Lemma may_file u p e : take 4 (getType (authentication e)) = bs "file" ->
  may (check_auth_file_plain u p) (judged u p (proves e u p) e) no_exn e.
Proof.
  intros Ht. unfold check_auth_file_plain. do 2 judge_step; [reflexivity|]. judge_step. judge_step; [|reflexivity].
  judge_step; [reflexivity|]. eapply may_seq with (P := fun ok s => s = e /\ (ok = true ->
    p = nth 1 l [] \/ auto_cryptcheck p (nth 1 l []) = Some true)).
  { judge_step; [split; [done|]; left; by apply bool_decide_eq_true in E2|].
    eapply may_mono; [apply may_cryptcheck| |done]. intros b s [-> Hb]. split; [done|]. intros ->. by right. }
  intros ok s [-> Hok]. judge_step; [reflexivity|]. apply may_granted. apply negb_false_iff in E2. right. left.
  eexists _, l. by split_and!; [| | |apply Hok].
Qed.
Lemma may_pam u p e : take 3 (getType (authentication e)) = bs "pam" ->
  may (check_auth_pam u p) (judged u p (proves e u p) e) no_exn e /\
  may (check_auth_pam_file u p) (judged u p (proves e u p) e) no_exn e.
Proof.
  intros Ht. assert (forall k, (forall b, (b = true -> proves e u p) -> may (k b) (judged u p (proves e u p) e) no_exn e) ->
    may (bind (check_pam_user_pass u p) k) (judged u p (proves e u p) e) no_exn e) as Hpam.
  { intros k Hk. unfold check_pam_user_pass. unfold may, bind, gets, ret. apply Hk. intros Hb.
    apply andb_true_iff in Hb as [Hb H3]. apply andb_true_iff in Hb as [H1 H2]. right. right. by split_and!. }
  split; [unfold check_auth_pam|unfold check_auth_pam_file]; (do 2 judge_step; [reflexivity|]); apply Hpam; intros b Hb;
    (judge_step; [reflexivity|]); apply negb_false_iff in E0; specialize (Hb E0); [by apply may_granted|].
  judge_step. judge_step; [|reflexivity]. by apply may_granted.
Qed.

(** C6: whatever way of authentication an entry asks for, the rights of the client
    change only with a proof of the user: a password that fits the hash of the system
    or of the file of users, the stored password itself, or the consent of PAM to the
    start, the authentication and the account; a check that fails changes nothing. *)
Theorem rights_need_proof u p e ok e' : check_authentication_pam u p e = Ret ok e' ->
  if ok then proves e u p else e' = e.
Proof.
  intros E. assert (may (check_authentication_pam u p) (judged u p (proves e u p) e) no_exn e) as H; [|unfold may in H; by rewrite E in H].
  clear. unfold check_authentication_pam. apply may_bind, may_gets.
  destruct (bool_decide (_ = bs "none")); [reflexivity|].
  case_bool_decide; [by apply may_unix|]. case_bool_decide; [by apply may_file|].
  case_bool_decide as H8; [|case_bool_decide; [by apply may_pam|reflexivity]].
  apply may_pam. pose proof (take_take (getType (authentication e)) 3 8) as Ht. rewrite H8 in Ht. exact (eq_sym Ht).
Qed.
End pam.

(** ** Logins *)
Lemma ret_check {A} (o : outcome AccessEntry A) (P : A -> AccessEntry -> Prop) :
  match o with Ret a s => P a s | _ => False end -> exists a s, o = Ret a s /\ P a s.
Proof. destruct o as [a s| | |]; [|done..]. intros H. by exists a, s. Qed.

Definition ex_pam_users : Users := {|
  getpwnam _ := None; getspnam _ := None; crypt _ _ := []; ulong_bytes := 4;
  file_content f := if bool_decide (f = bs "/users") then
    Some (bs "hugo:at.test:at.test:at.test:post" ++ [LF] ++ bs "*:us.*:us.*::" ++ [LF]) else None
|}.
Definition ex_pam : Pam := {|
  pam_start _ _ := true;
  pam_authenticate _ u conv := bool_decide (u = bs "hugo") && bool_decide (conv [PAM_PROMPT_ECHO_OFF] = Some [Some (bs "secret")]);
  pam_acct_mgmt _ _ _ := true; groups := []
|}.
Definition ex_pam_entry (t : list bytes) : AccessEntry := 
  let f := new_filter (bs "local.*") in set_authentication t (set_filters f f f (new_access [])).

Lemma rights_need_proof_witness : exists e',
  check_authentication_pam (users := ex_pam_users) (pam := ex_pam) (bs "hugo") (bs "secret")
    (ex_pam_entry [bs "pam"; bs "*"; bs "*"; bs "*"; bs "read"]) = Ret true e' /\
  proves (users := ex_pam_users) (pam := ex_pam) (ex_pam_entry [bs "pam"; bs "*"; bs "*"; bs "*"; bs "read"]) (bs "hugo") (bs "secret").
Proof.
  destruct (ret_check (check_authentication_pam (users := ex_pam_users) (pam := ex_pam) (bs "hugo") (bs "secret")
    (ex_pam_entry [bs "pam"; bs "*"; bs "*"; bs "*"; bs "read"])) (fun ok _ => ok = true)) as (ok & e' & E & ->).
  { vm_compute. reflexivity. }
  exists e'. split; [exact E|].
  exact (rights_need_proof (users := ex_pam_users) (pam := ex_pam) (bs "hugo") (bs "secret") _ true e' E).
Defined.

(** The example of the manual page newscache.conf(5): hugo may use at.test, and the line
    of everyone adds us.*; the lists are joined without a comma, so that hugo may list
    neither of them. *)
Lemma pam_file_joins : exists e',
  check_authentication_pam (users := ex_pam_users) (pam := ex_pam) (bs "hugo") (bs "secret")
    (ex_pam_entry [bs "pam+file"; bs "/users"]) = Ret true e' /\
  rulelist (ae_list e') = bs "local.*,at.testus.*" /\
  matches (ae_list e') (bs "at.test") = Some 0 /\ matches (ae_list e') (bs "us.test") = Some 0.
Proof.
  destruct (ret_check (check_authentication_pam (users := ex_pam_users) (pam := ex_pam) (bs "hugo") (bs "secret")
    (ex_pam_entry [bs "pam+file"; bs "/users"])) (fun ok e' => ok = true /\ rulelist (ae_list e') = bs "local.*,at.testus.*" /\
  matches (ae_list e') (bs "at.test") = Some 0 /\ matches (ae_list e') (bs "us.test") = Some 0)) as (ok & e' & E & -> & H).
  { vm_compute. split_and!; reflexivity. }
  exists e'. split; [exact E|exact H].
Qed.
