(* ===== verification/Calendar.v ===== *)
(** * Calendar.v: broken-down time

    What src/NewsCache.cc uses of the C library's time: gmtime, localtime and mktime,
    in the Gregorian calendar, for a time zone without daylight saving time. *)
From S2P Require Import Prelude.

(** struct tm: the year from 1900 on, the month from 0 on. *)
Record tm := Tm { tm_year : Z; tm_mon : Z; tm_mday : Z; tm_hour : Z; tm_min : Z; tm_sec : Z }.

(** The days from 1970-01-01 to the given day; the month is counted from March, so
    that a leap day ends the year. *)
Definition days_from_civil (y m d : Z) : Z :=
  let y := y + (m - 1) / 12 in
  let m := (m - 1) mod 12 + 1 in
  let y := if m <=? 2 then y - 1 else y in
  let era := y / 400 in
  let yoe := y mod 400 in
  let mp := (m + 9) mod 12 in
  let doy := (153 * mp + 2) / 5 + d - 1 in
  era * 146097 + (yoe * 365 + yoe / 4 - yoe / 100 + doy) - 719468.

Definition civil_from_days (days : Z) : Z * Z * Z :=
  let z := days + 719468 in
  let era := z / 146097 in
  let doe := z mod 146097 in
  let yoe := (doe - doe / 1460 + doe / 36524 - doe / 146096) / 365 in
  let doy := doe - (365 * yoe + yoe / 4 - yoe / 100) in
  let mp := (5 * doy + 2) / 153 in
  let d := doy - (153 * mp + 2) / 5 + 1 in
  let m := if mp <? 10 then mp + 3 else mp - 9 in
  ((if m <=? 2 then 1 else 0) + yoe + era * 400, m, d).

Definition gmtime (t : Z) : tm :=
  let '(y, m, d) := civil_from_days (t / 86400) in
  let s := t mod 86400 in
  Tm (y - 1900) (m - 1) d (s / 3600) (s / 60 mod 60) (s mod 60).
Definition timegm (x : tm) : Z :=
  days_from_civil (tm_year x + 1900) (tm_mon x + 1) (tm_mday x) * 86400 +
  tm_hour x * 3600 + tm_min x * 60 + tm_sec x.

(** [timezone] is the number of seconds the zone is behind UTC. *)
Class Clock := { time_now : Z; timezone : Z }.
Definition localtime {clock : Clock} (t : Z) : tm := gmtime (t - timezone).
Definition mktime {clock : Clock} (x : tm) : Z := timegm x + timezone.

Example gmtime_ex : gmtime 1045926245 = Tm 103 1 22 15 4 5 /\ timegm (Tm 103 1 22 15 4 5) = 1045926245.
Proof. by vm_compute. Qed.

(** ** The days of the years 1970 to 2037, there and back *)
Definition month_days (leap : bool) (m : Z) : Z :=
  if m =? 2 then (if leap then 29 else 28)
  else if bool_decide (m ∈ [4; 6; 9; 11]) then 30 else 31.
Definition is_leap (y : Z) : bool := (y mod 4 =? 0) && negb (y mod 100 =? 0) || (y mod 400 =? 0).
Definition valid_day (y m d : Z) : bool :=
  (1 <=? m) && (m <=? 12) && (1 <=? d) && (d <=? month_days (is_leap y) m).

Definition year_round (y : Z) : bool :=
  forallb (fun m => forallb (fun d =>
      let d := Z.of_nat d in let m := Z.of_nat m in
      negb (valid_day y m d) || bool_decide (civil_from_days (days_from_civil y m d) = (y, m, d)))
    (seq 1 31)) (seq 1 12).
Example years_round : forallb (fun y => year_round (Z.of_nat y)) (seq 1970 68) = true.
Proof. vm_compute; reflexivity. Qed.
