(* ===== verification/ClientData.v ===== *)
(** * ClientData.v: a client of the cache

    The class ClientData and the commands' table of src/NewsCache.cc, and what its
    commands use of the caching server and its newsgroups. *)
From S2P Require Import Prelude Text Article Matching GroupInfo OverviewFmt.
From S2P Require Import ServerList.
From S2P Require Import AccessList.

(** ** The server

    [S] is the state of the server with its newsgroups, [G] the pointers to those.
    A null pointer is [None]; printing gives what is sent to the stream. *)
Class NewsServer (S G : Type) := {
  sv_groupinfo : bytes -> M S GroupInfo;
  sv_getgroup : bytes -> M S G;
  sv_freegroup : G -> M S unit;
  sv_article : bytes -> Article -> M S Article;
  sv_active : M S unit;
  sv_groups : M S (list GroupInfo);
  sv_post : Article -> M S Z;
  sv_overviewfmt : S -> OverviewFmt;
  gr_setsize : G -> Z -> Z -> M S unit;
  gr_getsize : G -> M S (Z * Z);
  gr_getarticle : G -> Z -> M S (option Article);
  gr_getover : G -> Z -> M S (option bytes);
  gr_printlistgroup : G -> M S bytes;
  gr_printoverdb : G -> Z -> Z -> M S bytes;
  gr_printheaderdb : G -> bytes -> Z -> Z -> M S bytes
}.

(** ** The commands *)
Inductive nnrp_func :=
| F_authinfo | F_article | F_stat | F_date | F_group | F_help | F_lastnext | F_list
| F_listgroup | F_mode | F_newgroups | F_post | F_xover | F_xdebug | F_quit.
#[export] Instance nnrp_func_eq_dec : EqDecision nnrp_func.
Proof. solve_decision. Defined.

(** all_nnrp_commands: name, description, function. *)
Definition nnrp_command_t : Type := bytes * (bytes * nnrp_func).
Definition all_nnrp_commands : list nnrp_command_t :=
  [(bs "authinfo", (bs "[user username|pass password]", F_authinfo));
   (bs "article", (bs "[number|<id>]", F_article));
   (bs "head", (bs "[number|<id>]", F_article));
   (bs "body", (bs "[number|<id>]", F_article));
   (bs "stat", (bs "[number|<id>]", F_stat));
   (bs "date", ([], F_date));
   (bs "group", (bs "newsgroup", F_group));
   (bs "help", ([], F_help));
   (bs "last", ([], F_lastnext));
   (bs "list", (bs "[active [wildmat]|active.times [time]|extensions|newsgroups|overview.fmt]", F_list));
   (bs "listgroup", (bs "[newsgroup]", F_listgroup));
   (bs "mode", (bs "reader", F_mode));
   (bs "newgroups", (bs "date time [GMT] [wildmat]", F_newgroups));
   (bs "next", ([], F_lastnext));
   (bs "over", (bs "[range]", F_xover));
   (bs "post", ([], F_post));
   (bs "quit", ([], F_quit));
   (bs "xdebug", (bs "xdebug help", F_xdebug));
   (bs "xhdr", (bs "header [range]", F_xover));
   (bs "xover", (bs "[range]", F_xover))].

(** NNRPCommandMap: a std::map, kept in the order of its keys. *)
Fixpoint bytes_ltb (a b : bytes) : bool :=
  match a, b with
  | _, [] => false
  | [], _ :: _ => true
  | x :: a', y :: b' => if zc x <? zc y then true else if zc y <? zc x then false else bytes_ltb a' b'
  end.
Definition command_map : Type := list nnrp_command_t.
Fixpoint cm_set (k : bytes) (v : bytes * nnrp_func) (m : command_map) : command_map :=
  match m with
  | [] => [(k, v)]
  | (j, w) :: r =>
      if bytes_ltb k j then (k, v) :: m else if bool_decide (k = j) then (k, v) :: r else (j, w) :: cm_set k v r
  end.
Definition cm_erase (ks : list bytes) (m : command_map) : command_map :=
  List.filter (fun e => negb (bool_decide (fst e ∈ ks))) m.
Definition cm_find (k : bytes) (m : command_map) : option nnrp_func :=
  (fun e => snd (snd e)) <$> List.find (fun e => bool_decide (fst e = k)) m.

Definition enableAll (m : command_map) : command_map :=
  fold_left (fun m e => cm_set (fst e) (snd e) m) all_nnrp_commands m.
Definition read_commands_names : list bytes :=
  [bs "article"; bs "head"; bs "body"; bs "stat"; bs "group"; bs "last"; bs "listgroup"; bs "next"; bs "over";
   bs "xhdr"; bs "xover"; bs "list"; bs "mode"; bs "newgroups"].
Definition disableRead : command_map -> command_map := cm_erase read_commands_names.
Definition disablePost : command_map -> command_map := cm_erase [bs "post"].
Definition disableDebug : command_map -> command_map := cm_erase [bs "xdebug"].

(** ** The client *)
Inductive auth_state_t := AUTH_REQUIRED | AUTH_OK | AUTH_FAILED | AUTH_NOT_REQUIRED.
#[export] Instance auth_state_eq_dec : EqDecision auth_state_t.
Proof. solve_decision. Defined.

(** What can happen while the server waits for a request. *)
Inductive interrupt := Alarm | Signal.

(** [cd_in] is what the client sends, [cd_out] what it was sent; [cd_intr] has an
    item for each request to come.  The position in the newsgroup and the data of
    authinfo are records of their own. *)
Record position (G : Type) := Pos { groupname : bytes; grp : option G; nbr : Z }.
Arguments Pos {G}. Arguments groupname {G} _. Arguments grp {G} _. Arguments nbr {G} _.
Record auth_data := Auth { auth_user : bytes; auth_pass : bytes; auth_state : auth_state_t; auth_failures : Z }.
Record stat_data := Stat { stat_groups : Z; stat_artingrp : Z; stat_articles : Z }.
Record ClientData (S G : Type) := Client {
  cd_in : istream; cd_out : bytes; cd_intr : list (option interrupt);
  srvr : S; cd_pos : position G; access_entry : AccessEntry; cd_auth : auth_data; cd_stat : stat_data;
  client_command_map : command_map
}.
Arguments Client {S G}. Arguments cd_in {S G} _. Arguments cd_out {S G} _. Arguments cd_intr {S G} _.
Arguments srvr {S G} _. Arguments cd_pos {S G} _. Arguments access_entry {S G} _. Arguments cd_auth {S G} _.
Arguments cd_stat {S G} _. Arguments client_command_map {S G} _.

Definition auth_max_failures : Z := 3.
Definition auth_failure_sleep_time : Z := 15.

Section setters.
Context {S G : Type}.
Implicit Types c : ClientData S G.
Definition put_in x c : ClientData S G :=
  Client x (cd_out c) (cd_intr c) (srvr c) (cd_pos c) (access_entry c) (cd_auth c) (cd_stat c) (client_command_map c).
Definition put_out x c : ClientData S G :=
  Client (cd_in c) x (cd_intr c) (srvr c) (cd_pos c) (access_entry c) (cd_auth c) (cd_stat c) (client_command_map c).
Definition put_intr x c : ClientData S G :=
  Client (cd_in c) (cd_out c) x (srvr c) (cd_pos c) (access_entry c) (cd_auth c) (cd_stat c) (client_command_map c).
Definition put_srvr x c : ClientData S G :=
  Client (cd_in c) (cd_out c) (cd_intr c) x (cd_pos c) (access_entry c) (cd_auth c) (cd_stat c) (client_command_map c).
Definition put_pos x c : ClientData S G :=
  Client (cd_in c) (cd_out c) (cd_intr c) (srvr c) x (access_entry c) (cd_auth c) (cd_stat c) (client_command_map c).
Definition put_name x c : ClientData S G := put_pos (Pos x (grp (cd_pos c)) (nbr (cd_pos c))) c.
Definition put_grp x c : ClientData S G := put_pos (Pos (groupname (cd_pos c)) x (nbr (cd_pos c))) c.
Definition put_nbr x c : ClientData S G := put_pos (Pos (groupname (cd_pos c)) (grp (cd_pos c)) x) c.
Definition put_access x c : ClientData S G :=
  Client (cd_in c) (cd_out c) (cd_intr c) (srvr c) (cd_pos c) x (cd_auth c) (cd_stat c) (client_command_map c).
Definition put_auth x c : ClientData S G :=
  Client (cd_in c) (cd_out c) (cd_intr c) (srvr c) (cd_pos c) (access_entry c) x (cd_stat c) (client_command_map c).
Definition put_stat x c : ClientData S G :=
  Client (cd_in c) (cd_out c) (cd_intr c) (srvr c) (cd_pos c) (access_entry c) (cd_auth c) x (client_command_map c).
Definition put_cmds x c : ClientData S G :=
  Client (cd_in c) (cd_out c) (cd_intr c) (srvr c) (cd_pos c) (access_entry c) (cd_auth c) (cd_stat c) x.

(** The constructor, for a stream and a server. *)
Definition new_client (i : istream) (intr : list (option interrupt)) (s : S) (e : AccessEntry) : ClientData S G :=
  Client i [] intr s (Pos [] None (-1)) e (Auth [] [] AUTH_OK 0) (Stat 0 0 0) (enableAll []).

(** set_client_command_table *)
Definition set_client_command_table c : ClientData S G :=
  let m := enableAll (client_command_map c) in
  let f := access_flags (access_entry c) in
  let m := if Z.land f af_read =? 0 then disableRead m else m in
  let m := if Z.land f af_post =? 0 then disablePost m else m in
  let m := if Z.land f af_debug =? 0 then disableDebug m else m in
  put_cmds m c.
End setters.
