(* ===== verification/CClient.v ===== *)
(** * CClient.v: the caching server as the commands see it

    CServer::getgroup with the three kinds of newsgroups it makes, and the instance
    of NewsServer that the server and the newsgroups it gave out are. *)
From S2P Require Import Prelude Memory Text Matching ServerList Container GroupInfo Article OverviewFmt RServer.
From S2P Require Import RNews RNewsgroup.
From S2P Require Import NVlist.
From S2P Require Import NVHash.
From S2P Require Import ActiveDB DbLaws.
From S2P Require Import CServer.
From S2P Require Import NVArray.
From S2P Require Import NVNewsgroup.
From S2P Require Import CNewsgroup.
From S2P Require Import AccessList.
From S2P Require Import ClientData.

(** A newsgroup getgroup made; a CNewsgroup with its _TTLGroup. *)
Inductive group_obj :=
| NGroup (g : NVNewsgroup)
| RGroup (g : RNewsgroup)
| CGroup (ttl : Z) (g : NVNewsgroup).

(** The directory of a newsgroup: its database and its other files. *)
Definition group_dir : Type := gmap string file * list (bytes * bytes).

(** The server, its newsgroups (a deleted one is [None]), and the directories of the
    newsgroups that are closed. *)
Record cclient := CClient {
  cl_server : cserver;
  cl_groups : list (option group_obj);
  cl_dirs : gmap (list ascii) group_dir
}.

Section cclient.
Context {os : Os} {env : Env}.
(** The spool directory, the static object of groupinfo, and what new objects hold. *)
Variables (spooldir : bytes) (agroup : GroupInfo) (junk : array_ext) (junk1 : Z).
Abbreviation MC := (M cclient).
Abbreviation SRV := (rserver adb).

Definition on_cs {A} (c : M cserver A) : MC A := fun s =>
  match c (cl_server s) with
  | Ret a r => Ret a (CClient r (cl_groups s) (cl_dirs s))
  | Throw e r => Throw e (CClient r (cl_groups s) (cl_dirs s))
  | Abort w => Abort w
  | Spin => Spin
  end.
Definition on_base {A} (c : M SRV A) : MC A := on_cs (on_rs c).

(** An operation of a newsgroup object with the server. *)
Definition with_srv {A} (c : M (ngw SRV) A) (g : NVNewsgroup) (back : NVNewsgroup -> MC unit) : MC A := fun s =>
  match c (NgW (cs_rs (cl_server s)) g) with
  | Ret a w => (back (w_ng w) ;;; ret a) (CClient (CSrv (w_srv w) (cs_spool (cl_server s)) (cs_ttl (cl_server s)))
                                            (cl_groups s) (cl_dirs s))
  | Throw e w => (back (w_ng w) ;;; raise e) (CClient (CSrv (w_srv w) (cs_spool (cl_server s)) (cs_ttl (cl_server s)))
                                                (cl_groups s) (cl_dirs s))
  | Abort x => Abort x
  | Spin => Spin
  end.

(** ** The directories

    One object at a time works on the directory of a group: a second one is outside
    of the model. *)
Definition take_dir (name : bytes) : MC group_dir :=
  s <- get ;;
  match cl_dirs s !! group2dir name with
  | Some d => modify (fun s => CClient (cl_server s) (cl_groups s) (delete (group2dir name) (cl_dirs s))) ;;; ret d
  | None =>
      if existsb (fun o => match o with
                           | Some (NGroup g) | Some (CGroup _ g) => bool_decide (group2dir (nv_name g) = group2dir name)
                           | _ => false
                           end) (cl_groups s)
      then abort "not modelled: two objects on one database" else ret (∅, [])
  end.
Definition put_dir (name : bytes) (d : group_dir) : MC unit :=
  modify (fun s => CClient (cl_server s) (cl_groups s) (<[group2dir name := d]> (cl_dirs s))).

(** The constructor of the class NVNewsgroup. *)
Definition open_group (name : bytes) : MC NVNewsgroup :=
  d <- take_dir name ;;
  match nv_new spooldir name (fst d) (snd d) junk with
  | Ret _ g => ret g
  | Throw e g => put_dir name (flush_cur (core (nv_arr g)), nv_dir g) ;;; raise e
  | Abort w => abort w
  | Spin => spin
  end.

(** ** The objects *)
Definition new_object (o : group_obj) : MC nat := fun s =>
  Ret (length (cl_groups s)) (CClient (cl_server s) (cl_groups s ++ [Some o]) (cl_dirs s)).
Definition put_object (i : nat) (o : option group_obj) : MC unit :=
  modify (fun s => CClient (cl_server s) (<[i := o]> (cl_groups s)) (cl_dirs s)).
Definition the_object (i : nat) : MC group_obj :=
  gs <- gets cl_groups ;;
  match gs !! i with Some (Some o) => ret o | _ => abort "dangling pointer" end.

(** The operation [n] of an NVNewsgroup, [c] of a CNewsgroup and [r] of a RNewsgroup. *)
Definition dispatch_group {A} (i : nat) (n : M (ngw SRV) A) (c : Z -> M (ngw SRV) A)
    (r : RNewsgroup -> M SRV (A * RNewsgroup)) : MC A :=
  o <- the_object i ;;
  match o with
  | NGroup g => with_srv n g (fun g => put_object i (Some (NGroup g)))
  | CGroup ttl g => with_srv (c ttl) g (fun g => put_object i (Some (CGroup ttl g)))
  | RGroup g => x <- on_base (r g) ;; put_object i (Some (RGroup (snd x))) ;;; ret (fst x)
  end.
Definition keep {A} (f : RNewsgroup -> M SRV A) (g : RNewsgroup) : M SRV (A * RNewsgroup) := x <- f g ;; ret (x, g).

(** A new object is not lost when an exception leaves its setsize: it keeps its file open. *)
Definition make_group (o : group_obj) (size : nat -> MC unit) : MC nat :=
  i <- new_object o ;; size i ;;; ret i.

(** ** getgroup, freegroup *)
Definition c_getgroup (name : bytes) : MC nat :=
  k <- on_base (c_group_kind name) ;;
  match k with
  | NVNewsgroup_kind =>
      r <- on_base (on_db (adb_get name (gi_init agroup))) ;;
      match r with
      | None => raise NoSuchGroupError
      | Some gi =>
          g <- open_group name ;;
          make_group (NGroup g) (fun i =>
            dispatch_group i (on_ng (nv_setsize (gi_first gi) (gi_last gi))) (fun _ => ret tt) (keep (fun _ => ret tt)))
      end
  | RNewsgroup_kind => g <- on_base (c_getgroup_remote name agroup) ;; new_object (RGroup g)
  | CNewsgroup_kind =>
      gi <- on_base (c_groupinfo name agroup) ;;
      mpe <- on_base (deref_mpe name) ;;
      g <- open_group name ;;
      make_group (CGroup (groupTimeout mpe) g) (fun i =>
        dispatch_group i (ret tt) (fun _ => cn_setsize (gi_first gi) (gi_last gi)) (keep (fun _ => ret tt)))
  end.

(** freegroup: the destructor closes the file. *)
Definition c_freegroup (i : nat) : MC unit :=
  o <- the_object i ;;
  put_object i None ;;;
  match o with
  | RGroup _ => ret tt
  | NGroup g | CGroup _ g =>
      match on_arr close g with
      | Ret _ g' => put_dir (nv_name g) (files (core (nv_arr g')), nv_dir g')
      | Throw e _ => raise e
      | Abort w => abort w
      | Spin => spin
      end
  end.

(** The groups between [active->begin()] and [active->end()]. *)
Definition c_groups : M adb (list GroupInfo) :=
  last <- ai_new false junk1 agroup ;;
  it <- ai_new true junk1 agroup ;;
  fuel <- fl_fuel ;;
  ai_collect fuel last it.

#[export] Instance cserver_news : NewsServer cclient nat := {|
  sv_groupinfo name := on_base (c_groupinfo name agroup);
  sv_getgroup := c_getgroup;
  sv_freegroup := c_freegroup;
  sv_article id a := on_base (c_article_id id a);
  sv_active := on_cs c_active;
  sv_groups := on_base (on_db c_groups);
  sv_post a := on_cs (c_post a);
  sv_overviewfmt s := rs_fmt (cs_rs (cl_server s));
  gr_setsize i f l := dispatch_group i (on_ng (nv_setsize f l)) (fun _ => cn_setsize f l)
                        (fun g => g <- rn_setsize c_overviewdb f l g ;; ret (tt, g));
  gr_getsize i := dispatch_group i (on_ng nv_getsize) (fun _ => on_ng nv_getsize)
                    (keep (fun g => ret (rn_first g, rn_last g)));
  gr_getarticle i n := dispatch_group i (nv_getarticle rs_fmt (fun _ => ret None) n) (fun _ => cn_getarticle n)
                         (keep (rn_getarticle c_article n));
  gr_getover i n := dispatch_group i (f <- fmt rs_fmt ;; o <- on_ng (nv_getover f n) ;; ret (Some o))
                      (fun ttl => o <- cn_getover ttl agroup n ;; ret (Some o))
                      (keep (fun g => ret (rn_getover n g)));
  gr_printlistgroup i := dispatch_group i (on_ng nv_printlistgroup) (fun ttl => cn_printlistgroup ttl agroup)
                           (keep (fun g => ret (rn_printlistgroup g)));
  gr_printoverdb i f l := dispatch_group i (fm <- fmt rs_fmt ;; on_ng (nv_printoverdb fm f l))
                            (fun ttl => cn_printoverdb ttl agroup f l)
                            (keep (fun g => match rn_printoverdb f l g with Some o => ret o | None => spin end));
  gr_printheaderdb i h f l := dispatch_group i (fm <- fmt rs_fmt ;; on_ng (nv_printheaderdb fm h f l))
                                (fun ttl => cn_printheaderdb ttl agroup h f l)
                                (keep (fun g => fm <- gets rs_fmt ;; rn_printheaderdb fm h f l g))
|}.
End cclient.
