(* ===== verification/Servers.v ===== *)
(** * Servers.v: how the servers are made and deleted

    The constructors and destructors of NServer, LServer, RServer and CServer in
    src/NServer-0.9.1/NServer.{h,cc}, setserverlist, and getgroup and post of a server
    without news servers (LServer). *)
From S2P Require Import Prelude Memory Text Matching ServerList Container GroupInfo Article OverviewFmt RServer.
From S2P Require Import RNews RNewsgroup.
From S2P Require Import NVlist.
From S2P Require Import Heap.
From S2P Require Import Alloc.
From S2P Require Import NVHash.
From S2P Require Import ActiveDB DbLaws.
From S2P Require Import RSafe.
From S2P Require Import CServer.
From S2P Require Import CSafe.
From S2P Require Import NVArray.
From S2P Require Import NVNewsgroup.
From S2P Require Import CNewsgroup.
From S2P Require Import Spooldir.
From S2P Require Import ClientData.
From S2P Require Import CClient.

Section servers.
Context {os : Os} {env : Env} {f : Fs}.
(** What the memory of new objects holds. *)
Variables (group_junk : GroupInfo) (fmt_junk : list (Z * bool)) (db_junk : hash_ext) (arr_junk : array_ext).
Variable spooldir : bytes.
Abbreviation MF := (M fs).
Abbreviation SRV := (rserver adb).

(** RServer::RServer(serverlist): init with the members NServer sets to NULL; [net] is
    what the connections to come will deliver. *)
Definition new_rserver (serverlist : list MPListEntry) (db : adb) (net : list (option bytes)) : SRV :=
  RServer serverlist None (gi_init group_junk) None (new_fmt fmt_junk) 1 db net [].

(** setserverlist; the database is deleted by the caller of the destructor. *)
Definition setserverlist (serverlist : list MPListEntry) : M SRV unit :=
  disconnect ;;;
  modify (fun s => set_entries serverlist (set_cur_server None (set_group (gi_init (rs_group s)) s))).

(** CServer::CServer: the database spooldir/.active is opened, then the directories of
    the spool are made; the times of the cache are 300 and 500 seconds. *)
Definition active_name : string := string_of_list_ascii (spooldir ++ bs "/.active").
Definition new_cserver (serverlist : list MPListEntry) (disk : gmap string file) (net : list (option bytes)) (sp : spooler)
    : MF cserver :=
  match adb_open active_name (Obj (new_container disk) db_junk) with
  | Ret _ db => lserver_init spooldir ;;; ret (CSrv (new_rserver serverlist db net) sp 300)
  | Throw e _ => raise e
  | Abort w => abort w
  | Spin => spin
  end.

(** setttl; the time of the descriptions is never used. *)
Definition setttl (ttl_list ttl_desc : Z) : M cserver unit := modify (fun s => CSrv (cs_rs s) (cs_spool s) ttl_list).

(** CServer::~CServer and ~RServer. *)
Definition delete_cserver : M cserver unit :=
  on_adb close ;;; on_rs (setserverlist []).

(** LServer::getgroup and LServer::post. *)
Definition l_getgroup (name : bytes) : M cclient nat :=
  h <- on_base (on_db (adb_hasgroup name)) ;;
  if negb h then raise NoSuchGroupError else
  g <- open_group spooldir arr_junk name ;; new_object (NGroup g).
Definition l_post (a : Article) : M cclient Z := ret (-1).
End servers.

(** ** A new server is well-formed *)
Section ready.
Context {os : Os} {Hos : OsOk os} {env : Env} {f : Fs}.
Variables (group_junk : GroupInfo) (fmt_junk : list (Z * bool)) (db_junk : hash_ext) (spooldir : bytes).

Lemma active_named : "" <> active_name spooldir.
Proof. unfold active_name. by destruct spooldir. Qed.
Lemma empty_lookup x : adb_lookup no_buckets x = None.
Proof.
  unfold adb_lookup, adb_bucket. destruct (no_buckets !! _) as [l|] eqn:E; [|done].
  apply lookup_replicate in E as [-> _]. done.
Qed.
(** What the file of the database says: without a file, or with an empty one, there
    is no group; otherwise it is the table of a database in which the groups have the
    records [D]. *)
Definition saved (D : bytes -> option bytes) (file : option file) : Prop :=
  match file with
  | Some fl => if f_size fl =? 0 then forall x, D x = None else
      exists t bk, hash_file t bk fl /\ Z.of_nat (length bk) = NVActiveDB_HASHSIZE /\
        (forall i xs x, bk !! i = Some xs -> x ∈ xs ->
           rec_ok (snd x) /\ adb_hash (gi_name (snd x)) = Z.of_nat i) /\
        forall x, adb_lookup bk x = D x
  | None => forall x, D x = None
  end.

(** open of the database. *)
Lemma open_active s dbname D : mem_fn (core s) <> dbname -> mem_fd (core s) = false -> mem_p (core s) = NullMap ->
  length (lck_stack (core s)) = LOCKSTACKSIZE -> lck_stackp (core s) = LOCKSTACKSIZE ->
  saved D (files (core s) !! dbname) -> os_open dbname = None -> (forall n, os_write n = None) ->
  wp (adb_open dbname) (fun _ db => exists t bk, nvadb t bk db /\ (forall x, adb_lookup bk x = D x) /\ lock_ok (core db) /\
    lck_stackp (core db) = LOCKSTACKSIZE) s.
Proof.
  intros H1 H2 H3 H4 H5 Hf Hopen Hwrite. unfold adb_open.
  assert (f_size (default (File ∅ 0) (files (core s) !! dbname)) = 0 -> (forall x, D x = None) ->
    wp (hash_open dbname NVActiveDB_HASHSIZE) (fun _ db => exists t bk, nvadb t bk db /\ (forall x, adb_lookup bk x = D x) /\
      lock_ok (core db) /\ lck_stackp (core db) = LOCKSTACKSIZE) s) as Hnew.
  { intros Hz HD. pose proof (wp_hash_open dbname (Z.to_nat NVActiveDB_HASHSIZE)) as Ho. rewrite Z2Nat.id in Ho by done.
    apply Ho; try done. intros t db Hn Hl Hsp. exists t, no_buckets. split_and!; [|intros x; by rewrite HD, empty_lookup|done|done].
    split; [exact Hn| |].
    - unfold no_buckets. rewrite length_replicate. by rewrite Z2Nat.id.
    - intros i xs x [-> _]%lookup_replicate Hx. by apply not_elem_of_nil in Hx. }
  destruct (files (core s) !! dbname) as [fl|] eqn:Ef; cbn [saved] in Hf; [|by apply Hnew].
  destruct (Z.eqb_spec (f_size fl) 0) as [Hz|Hz]; [by apply Hnew|].
  destruct Hf as (t & bk & Hf & Hb & Hrec & HD). eapply wp_hash_open_file; try done.
  intros db Hn Hl Hsp _. by exists t, bk.
Qed.

(** The file of a database. *)
Lemma saved_left k D db : db_rep k D db -> saved D (Some (cur (core db))).
Proof.
  intros (t & bk & [Hn Hb Hrec] & _ & _ & _ & HD). cbn [saved]. pose proof (hash_file_left _ _ _ Hn) as Hf.
  destruct (Z.eqb_spec (f_size (cur (core db))) 0); [destruct Hf as [? _]; lia|]. by exists t, bk.
Qed.

(** C20: a new caching server has what the theorems on its operations assume, and it
    knows the groups that the servers before it knew: when the directories of the spool
    can be made, the constructor returns; its database has the groups the file .active
    says (none, when there is no such file or an empty one), with room for as many
    updates as fit behind them; it is connected to nobody and has sent nothing.  What a
    server with such a database leaves as its file is such a file again. *)
Theorem new_cserver_ready serverlist disk net sp fs0 fs1 D m :
  saved D (disk !! active_name spooldir) -> os_open (active_name spooldir) = None -> (forall n, os_write n = None) ->
  length group_junk = sizeof_GroupInfo -> Forall entry_ok serverlist ->
  lserver_init spooldir fs0 = Ret spooldir fs1 ->
  (exists c, new_cserver group_junk fmt_junk db_junk spooldir serverlist disk net sp fs0 = Ret c fs1 /\
    cs_spool c = sp /\ rs_entries (cs_rs c) = serverlist /\ rs_sent (cs_rs c) = [] /\ at_rest (cs_rs c) /\
    (mem_sz (core (rs_db (cs_rs c))) + 2 ^ 19 * Z.of_nat (length net + m) + 2 ^ 19 <= limit ->
     db_rep (length net + m) D (rs_db (cs_rs c)) /\ rs_ok m (cs_rs c))) /\
  (forall k D' db, db_rep k D' db -> saved D' (Some (cur (core db)))).
Proof.
  intros Hdisk Hopen Hwrite Hg Hs Hinit. split.
  2: { apply saved_left. }
  destruct (wp_inv _ _ _ (open_active (Obj (new_container disk) db_junk) (active_name spooldir) D ltac:(apply active_named)
    eq_refl eq_refl eq_refl eq_refl Hdisk Hopen Hwrite)) as ([] & db & E & t & bk & Hn & HD & Hl & Hsp).
  exists (CSrv (new_rserver group_junk fmt_junk serverlist db net) sp 300).
  split; [unfold new_cserver; rewrite E; unfold bind; by rewrite Hinit|].
  cbn [cs_spool cs_rs new_rserver rs_entries rs_sent rs_db]. split_and!; [done|done|done|by left|].
  intros Hm. assert (db_rep (length net + m) D db) as Hd.
  { exists t, bk. split_and!; [exact Hn|exact Hl|rewrite Hsp; unfold LOCKSTACKSIZE; lia|lia|]. intros x. by rewrite HD. }
  split; [exact Hd|]. split; cbn [new_rserver rs_entries rs_cur rs_group rs_conn rs_net rs_db]; try done.
  - by apply length_init.
  - left. by apply name_init.
  - by exists D.
Qed.
End ready.

(** ** The end of a server *)
Section deleted.
Context {os : Os} {env : Env}.

(** A server that is connected says quit, and its database is closed. *)
Lemma delete_quits s i ist : rs_conn (cs_rs s) = Some ist -> good ist = true -> rs_cur (cs_rs s) = Some i ->
  exists s', delete_cserver s = Ret tt s' /\
    rs_sent (cs_rs s') = ESend i (bs "quit" ++ [CR; LF]) :: rs_sent (cs_rs s) /\
    rs_conn (cs_rs s') = None /\ rs_cur (cs_rs s') = None /\ mem_fd (core (rs_db (cs_rs s'))) = false.
Proof.
  intros Hc Hg Hi. destruct s as [[es cur g conn fm pc db net sent] sp ttl]. cbn [cs_rs rs_conn rs_cur] in *. subst conn cur.
  unfold delete_cserver, setserverlist, disconnect, send, close, on_adb, on_rs, on_db, the_stream, cur_index, getc, modc, when,
    bind, gets, modify, ret. cbn [cs_rs rs_db core].
  destruct (mem_fd (core db)) eqn:Ef; cbn [negb cs_rs rs_conn rs_cur set_db]; rewrite Hg; eexists; (split; [reflexivity|]);
    by split_and!.
Qed.
End deleted.

(** ** A server on an empty disk *)
#[local] Existing Instance good_os.
#[local] Existing Instance table_fs.
#[local] Instance ex_servers_env : Env := {| nntp_hostname := bs "cache"; nntp_posting_host := bs "reader"; env_pid := 1; env_tv_sec := 1 |}.

Lemma made_dirs (o : outcome fs bytes) d : match o with Ret x _ => x = d | _ => False end -> exists s, o = Ret d s.
Proof. destruct o as [x s| | |]; [|done..]. intros ->. by exists s. Qed.

(** A server that finds the database of an earlier one, to which comp.x was added. *)
Lemma ex_database : exists D (db : adb), db_rep (os := good_os) 19 D db /\ D (bs "comp.x") <> None.
Proof.
  destruct (wp_inv _ _ _ (db_set_law (os := good_os) 19 _ _ ex_gi ex_db_rep ex_gi_is_ok)) as (g & db & _ & _ & D & Hd & HD).
  exists D, db. split; [exact Hd|]. rewrite HD. by rewrite decide_True by (vm_compute; reflexivity).
Qed.

Lemma new_cserver_ready_witness : exists D (db : adb) c fs1, D (bs "comp.x") <> None /\
  new_cserver (os := good_os) (replicate sizeof_GroupInfo NUL) [] (HashExt 7 7) (bs "/var/cache/news") []
    {[ active_name (bs "/var/cache/news") := cur (core db) ]} [] (Spooler [] [] [] []) ex_fs = Ret c fs1 /\
  (mem_sz (core (rs_db (cs_rs c))) + 2 ^ 19 <= limit -> db_rep (os := good_os) 0 D (rs_db (cs_rs c))).
Proof.
  destruct (made_dirs (lserver_init (bs "/var/cache/news") ex_fs) (bs "/var/cache/news")) as [fs1 E]; [vm_compute; reflexivity|].
  destruct ex_database as (D & db & Hd & HD).
  destruct (new_cserver_ready (os := good_os) (replicate sizeof_GroupInfo NUL) [] (HashExt 7 7) (bs "/var/cache/news") []
    {[ active_name (bs "/var/cache/news") := cur (core db) ]} [] (Spooler [] [] [] []) ex_fs fs1 D 0) as [(c & Ec & _ & _ & _ & _ & Hr) _].
  - rewrite lookup_singleton_eq. exact (saved_left _ _ _ Hd).
  - reflexivity.
  - reflexivity.
  - reflexivity.
  - apply Forall_nil_2.
  - exact E.
  - exists D, db, c, fs1. split; [exact HD|]. split; [exact Ec|]. intros Hm. apply Hr. rewrite Z.mul_0_r, Z.add_0_r. exact Hm.
Defined.
