(* ===== verification/Updatenews.v ===== *)
(** * Updatenews.v: updatenews

    src/updatenews.cc: the command line, the list of the groups to prefetch, and a run
    with the caching server.  The option for workers is refused, so a run has none. *)
From S2P Require Import Prelude Memory Text Matching ServerList Container GroupInfo Article OverviewFmt RServer.
From S2P Require Import RNews RNewsgroup.
From S2P Require Import NVHash.
From S2P Require Import ActiveDB DbLaws.
From S2P Require Import CServer.
From S2P Require Import NVArray.
From S2P Require Import NVNewsgroup.
From S2P Require Import CNewsgroup.
From S2P Require Import AccessList.
From S2P Require Import Config.
From S2P Require Import NnrpAuth.
From S2P Require Import ClientData.
From S2P Require Import CClient.

Definition F_PREFETCH_ACTIVE : Z := 1.
Definition F_PREFETCH_GROUP : Z := 2.
Definition F_PREFETCH_OVER : Z := 4.
Definition F_PREFETCH_LOCKGROUP : Z := 8.

(** The options as getopt_long gives them; what they lead to. *)
Inductive command_line := run_with (flags : Z) (conffile : option bytes) | print_version | print_help | print_usage.
Fixpoint parse_options (opts : list (ascii * bytes)) (flags : Z) (set : bool) (conf : option bytes) (aerr : bool)
    : command_line :=
  match opts with
  | [] => if aerr then print_usage else run_with (if set then flags else F_PREFETCH_GROUP) conf
  | (c, optarg) :: opts =>
      if bool_decide (c = "v"%char) then print_version
      else if bool_decide (c = "h"%char) then print_help
      else if bool_decide (c = "a"%char) then parse_options opts (Z.lor flags F_PREFETCH_ACTIVE) true conf aerr
      else if bool_decide (c = "g"%char) then parse_options opts (Z.lor flags F_PREFETCH_GROUP) true conf aerr
      else if bool_decide (c = "o"%char) then parse_options opts (Z.lor flags F_PREFETCH_OVER) true conf aerr
      else if bool_decide (c = "l"%char) then parse_options opts (Z.lor flags F_PREFETCH_LOCKGROUP) true conf aerr
      else if bool_decide (c = "c"%char) then parse_options opts flags set (Some optarg) aerr
      else parse_options opts flags set conf true
  end.

(** The servers are used online, and their groups are old at once. *)
Definition update_entry (e : MPListEntry) : MPListEntry :=
  set_nums 0 (Z.land (flags e) (w32 (Z.lnot (Z.lor F_OFFLINE F_SEMIOFFLINE)))) (nntpflags e) (retries e) e.

(** readgroups; [lines] of them are read before a signal. *)
Fixpoint readgroups_loop (lines : nat) (ist : istream) (group : bytes) : list bytes :=
  match lines with
  | O => []
  | S lines =>
      let '(group, ist) := nlreadline ist group false in
      if s_eof ist then [] else
      if bool_decide (at_ group 0 = "!"%char) then readgroups_loop lines ist group
      else group :: readgroups_loop lines ist group
  end.
Definition readgroups (lines : nat) (file : option bytes) : list bytes :=
  match file with
  | None => []
  | Some text => readgroups_loop lines (IStream text false false) []
  end.

Section update.
Context {os : Os} {env : Env}.
Variables (spooldir : bytes) (agroup : GroupInfo) (junk : array_ext) (opt_flags : Z).
Abbreviation MC := (M cclient).

Definition has_opt (f : Z) : bool := negb (Z.land opt_flags f =? 0).

(** prefetchGroup and prefetchOverview of the three kinds of newsgroups. *)
Definition gr_prefetchGroup (i : nat) (lockgrp : bool) : MC unit :=
  dispatch_group i (ret tt) (fun _ => prefetchGroup agroup lockgrp) (keep (fun _ => ret tt)).
Definition gr_prefetchOverview (i : nat) : MC unit :=
  dispatch_group i (ret tt) (fun _ => prefetchOverview agroup) (keep (fun _ => ret tt)).

(** doprefetch: every exception is caught. *)
Definition doprefetch (group : bytes) : MC unit :=
  catch
    (grp <- c_getgroup spooldir agroup junk group ;;
     (if has_opt F_PREFETCH_GROUP then gr_prefetchGroup grp (has_opt F_PREFETCH_LOCKGROUP)
      else if has_opt F_PREFETCH_OVER then gr_prefetchOverview grp else ret tt) ;;;
     c_freegroup grp)
    (fun _ => ret tt).

Fixpoint prefetch_groups (groups : list bytes) : MC unit :=
  match groups with
  | [] => ret tt
  | g :: r => doprefetch g ;;; prefetch_groups r
  end.

(** update; [calm] groups are prefetched before a signal. *)
Definition update (lines calm : nat) (prefetch_file : option bytes) : MC unit :=
  on_cs postspooled ;;;
  (if has_opt F_PREFETCH_ACTIVE then on_cs invalidateActiveDB else ret tt) ;;;
  on_cs c_active ;;;
  if has_opt (Z.lor F_PREFETCH_GROUP F_PREFETCH_OVER)
  then prefetch_groups (take calm (readgroups lines prefetch_file)) else ret tt.
End update.
