(* ===== verification/Nnrp.v ===== *)
(** * Nnrp.v: the commands of the news readers

    The functions ns_* of src/NewsCache.cc.  Their result is the int they return. *)
From S2P Require Import Prelude Text Article Matching GroupInfo OverviewFmt.
From S2P Require Import ServerList.
From S2P Require Import RNews.
From S2P Require Import AccessList.
From S2P Require Import Config.
From S2P Require Import NnrpAuth.
From S2P Require Import Calendar.
From S2P Require Import ClientData.

(** The configuration, [PACKAGE " " VERSION], and whether the stream to the client
    is still good when it was given all that. *)
Class Site := { cfg : Config; package_version : bytes; co_good : bytes -> bool }.

Section nnrp.
Context {site : Site} {users : Users} {clock : Clock}.
Context {S G : Type} {sv : NewsServer S G}.
Abbreviation MC := (M (ClientData S G)).

Definition say (b : bytes) : MC unit := modify (fun c => put_out (cd_out c ++ b) c).
Definition reply (b : bytes) : MC unit := say (b ++ [CR; LF]).
(** [( *clt->co) << b << crlf; return r] *)
Definition answer (b : bytes) (r : Z) : MC Z := reply b ;;; ret r.

Definition on_srvr {A} (c : M S A) : MC A := fun s =>
  match c (srvr s) with
  | Ret a r => Ret a (put_srvr r s)
  | Throw e r => Throw e (put_srvr r s)
  | Abort w => Abort w
  | Spin => Spin
  end.
Definition on_access {A} (c : M AccessEntry A) : MC A := fun s =>
  match c (access_entry s) with
  | Ret a r => Ret a (put_access r s)
  | Throw e r => Throw e (put_access r s)
  | Abort w => Abort w
  | Spin => Spin
  end.
Definition pos_ : MC (position G) := gets cd_pos.
Definition set_nbr (n : Z) : MC unit := modify (put_nbr n).
Definition ofmt : MC OverviewFmt := gets (fun c => sv_overviewfmt (srvr c)).
Definition count_article : MC unit :=
  modify (fun c => put_stat (Stat (stat_groups (cd_stat c)) (stat_artingrp (cd_stat c) + 1)
                               (stat_articles (cd_stat c) + 1)) c).
Definition arg (i : nat) (argv : list bytes) : bytes := nth i argv [].
(** [filter.matches(group)] *)
Definition matches_ (f : NewsgroupFilter) (group : bytes) : MC Z :=
  match matches f group with Some n => ret n | None => abort "pattern read past its end" end.

(** selectgroup; [None] is the null pointer. *)
Definition selectgroup (group : bytes) : MC (option GroupInfo) :=
  gi <- catch (g <- on_srvr (sv_groupinfo group) ;; ret (Some g)) (fun _ => ret None) ;;
  match gi with
  | None => ret None
  | Some gi =>
      set_nbr (if gi_first gi <=? gi_last gi then s32 (gi_first gi) else -1) ;;;
      p <- pos_ ;;
      (if negb (bool_decide (groupname p = group)) then
         (match grp p with Some g => on_srvr (sv_freegroup g) | None => ret tt end) ;;;
         modify (put_grp None) ;;;
         modify (fun c => put_stat (Stat (stat_groups (cd_stat c) + 1) 0 (stat_articles (cd_stat c))) c) ;;;
         if (512 <=? length group)%nat then abort "group name longer than its array"
         else modify (put_name group)
       else match grp p with
            | Some g => on_srvr (gr_setsize g (gi_first gi) (gi_last gi))
            | None => ret tt
            end) ;;;
      ret (Some gi)
  end.

(** [if (!clt->grp) clt->grp = clt->srvr->getgroup(clt->groupname)], with the replies
    to its exceptions. *)
Definition with_group (no_group : bytes) (k : G -> MC Z) : MC Z :=
  p <- pos_ ;;
  g <- (match grp p with
        | Some g => ret (inr g)
        | None => catch (g <- on_srvr (sv_getgroup (groupname p)) ;;
                         modify (put_grp (Some g)) ;;; ret (inr g))
                    (fun e => if is_error e then ret (inl e) else raise e)
        end) ;;
  match g with
  | inr g => k g
  | inl NoSuchGroupError => answer (bs "411 " ++ no_group) (-1)
  | inl _ => answer (bs "412 operation failed") (-1)
  end.

(** ** article, head, body and stat *)
Definition nsh_particle (cmnd : bytes) (n : Z) (a : Article) : MC unit :=
  aid <- getfield (bs "Message-ID:") false a ;;
  let c := at_ cmnd 0 in
  if bool_decide (c = "a"%char) then
    reply (bs "220 " ++ dec n ++ bs " " ++ aid ++ bs " article retrieved - head and body follow") ;;;
    say (a_text a ++ bs "." ++ [CR; LF])
  else if bool_decide (c = "h"%char) then
    reply (bs "221 " ++ dec n ++ bs " " ++ aid ++ bs " article retrieved - head follows") ;;;
    say (a_write Head a ++ bs "." ++ [CR; LF])
  else if bool_decide (c = "b"%char) then
    reply (bs "222 " ++ dec n ++ bs " " ++ aid ++ bs " article retrieved - body follows") ;;;
    say (a_write Body a ++ bs "." ++ [CR; LF])
  else ret tt.

(** The number meant by the request, where there is one. *)
Definition with_number (argv : list bytes) (k : G -> Z -> MC Z) : MC Z :=
  p <- pos_ ;;
  if bool_decide (groupname p = []) then answer (bs "412 no newsgroup has been selected") (-1) else
  with_group (bs "no such newsgroup") (fun g =>
    p <- pos_ ;;
    if (length argv =? 1)%nat && (nbr p <? 0)
    then answer (bs "420 no current article has been selected") (-1)
    else k g (if (length argv =? 2)%nat then atoi (arg 1 argv) else nbr p)).

(** The replies to the exceptions of article by its identifier. *)
Definition article_failed (e : exn) : MC Z :=
  match e with
  | NoSuchArticleError => answer (bs "430 no such article id found") (-1)
  | ResponseError _ _ got => answer got (-1)
  | e => if is_error e then answer (bs "520 ???") (-1) else raise e
  end.

Definition ns_article (argv : list bytes) : MC Z :=
  if (2 <? length argv)%nat || negb ((length argv =? 1)%nat || isdigit (at_ (arg 1 argv) 0) ||
                                    bool_decide (at_ (arg 1 argv) 0 = "<"%char)) then
    let c := at_ (arg 0 argv) 0 in
    if bool_decide (c = "a"%char) then answer (bs "501 Syntax: article [nbr|<id>]") (-1)
    else if bool_decide (c = "h"%char) then answer (bs "501 Syntax: head [nbr|<id>]") (-1)
    else if bool_decide (c = "b"%char) then answer (bs "501 Syntax: body [nbr|<id>]") (-1)
    else ret (-1)
  else if (length argv =? 1)%nat || isdigit (at_ (arg 1 argv) 0) then
    with_number argv (fun g n =>
      a <- on_srvr (gr_getarticle g (w32 n)) ;;
      match a with
      | None => answer (bs "423 no such article number in this group") (-1)
      | Some a => nsh_particle (arg 0 argv) n a ;;; set_nbr n ;;; count_article ;;; ret 0
      end)
  else
    r <- catch (a <- on_srvr (sv_article (arg 1 argv) (MkArticle 0 [])) ;;
                nsh_particle (arg 0 argv) 0 a ;;; ret 0) article_failed ;;
    if r <? 0 then ret r else count_article ;;; ret 0.

Definition ns_stat (argv : list bytes) : MC Z :=
  if (2 <? length argv)%nat then answer (bs "501 Syntax: stat [nbr|<id>]") (-1)
  else if (length argv =? 1)%nat || isdigit (at_ (arg 1 argv) 0) then
    with_number argv (fun g n =>
      f <- ofmt ;;
      o <- on_srvr (gr_getover g (w32 n)) ;;
      match o with
      | None => abort "null pointer"
      | Some o =>
          aid <- over_getfield f o (bs "Message-ID:") 0 ;;
          answer (bs "223 " ++ dec n ++ bs " " ++ aid ++ bs " status ") 0
      end)
  else if bool_decide (at_ (arg 1 argv) 0 = "<"%char) then
    r <- catch (a <- on_srvr (sv_article (arg 1 argv) (MkArticle 0 [])) ;; ret (inl a))
           (fun e => r <- article_failed e ;; ret (inr r)) ;;
    match r with
    | inr r => ret r
    | inl a => mid <- getfield (bs "Message-ID:") false a ;; answer (bs "223 0 " ++ mid ++ bs " status") 0
    end
  else answer (bs "501 Syntax: stat [nbr|<id>]") (-1).

(** ** date, group, help *)
Definition pad (n : nat) (z : Z) : bytes := replicate (n - length (dec z)) "0"%char ++ dec z.
Definition ns_date (argv : list bytes) : MC Z :=
  if negb (length argv =? 1)%nat then answer (bs "501 Syntax: group Newsgroup") (-1) else
  let t := gmtime time_now in
  answer (bs "111 " ++ pad 4 (1900 + tm_year t) ++ pad 2 (tm_mon t + 1) ++ pad 2 (tm_mday t) ++
          pad 2 (tm_hour t) ++ pad 2 (tm_min t) ++ pad 2 (tm_sec t)) 0.

Definition group_line (gi : GroupInfo) : bytes :=
  bs "211 " ++ dec (gi_n gi) ++ bs " " ++ dec (gi_first gi) ++ bs " " ++ dec (gi_last gi) ++ bs " " ++
  gi_name gi ++ bs " group selected".
Definition ns_group (argv : list bytes) : MC Z :=
  if negb (length argv =? 2)%nat then answer (bs "501 Syntax: group Newsgroup") (-1) else
  e <- gets access_entry ;;
  m <- matches_ (ae_read e) (arg 1 argv) ;;
  if m <=? 0 then answer (bs "480 authentication required") 0 else
  gi <- selectgroup (arg 1 argv) ;;
  match gi with
  | None => answer (bs "411 no such news group") (-1)
  | Some gi => answer (group_line gi) 0
  end.

Definition ns_help (argv : list bytes) : MC Z :=
  m <- gets client_command_map ;;
  reply (bs "100 Legal commands") ;;;
  say (concat ((fun e => bs "  " ++ fst e ++ bs " " ++ fst (snd e) ++ [CR; LF]) <$> m)) ;;;
  say (bs "Report problems to " ++ c_strg cfg Admin ++ [CR; LF] ++ bs "." ++ [CR; LF]) ;;;
  ret 0.

(** ** last, next

    The rounds given to the loops are enough when the first number is not 0 and the
    last one is not the greatest unsigned int: from 0 on, last wraps around. *)
Definition last_fuel (i f : Z) : nat := Z.to_nat (Z.max 0 ((if i =? 0 then 2 ^ 32 else i) - f) + 2).
Definition next_fuel (i l : Z) : nat := Z.to_nat (Z.max 0 (l - i) + 2).
Fixpoint last_loop (n : nat) (g : G) (i f : Z) : MC (option (Z * bytes)) :=
  match n with
  | O => spin
  | Datatypes.S n =>
      let i := w32 (i - 1) in
      if i <? f then ret None else
      o <- on_srvr (gr_getover g i) ;;
      match o with
      | None => abort "null pointer"
      | Some [] => last_loop n g i f
      | Some o => fm <- ofmt ;; aid <- over_getfield fm o (bs "Message-ID:") 0 ;; ret (Some (i, aid))
      end
  end.
Fixpoint next_loop (n : nat) (g : G) (i l : Z) : MC (option (Z * bytes)) :=
  match n with
  | O => spin
  | Datatypes.S n =>
      let i := w32 (i + 1) in
      if l <? i then ret None else
      o <- on_srvr (gr_getover g i) ;;
      match o with
      | None => abort "null pointer"
      | Some [] => next_loop n g i l
      | Some o => fm <- ofmt ;; aid <- over_getfield fm o (bs "Message-ID:") 0 ;; ret (Some (i, aid))
      end
  end.

Definition seek_last (g : G) (n : Z) : MC (option (Z * bytes)) :=
  let i := w32 n in
  fl <- on_srvr (gr_getsize g) ;; last_loop (last_fuel i (fst fl)) g i (fst fl).
Definition seek_next (g : G) (n : Z) : MC (option (Z * bytes)) :=
  let i := w32 n in
  fl <- on_srvr (gr_getsize g) ;; next_loop (next_fuel i (snd fl)) g i (snd fl).

Definition ns_lastnext (argv : list bytes) : MC Z :=
  let c := at_ (arg 0 argv) 0 in
  if negb (length argv =? 1)%nat && bool_decide (c = "l"%char) then answer (bs "501 Syntax: last") (-1)
  else if negb (length argv =? 1)%nat && bool_decide (c = "n"%char) then answer (bs "501 Syntax: next") (-1)
  else
  p <- pos_ ;;
  if bool_decide (groupname p = []) then answer (bs "412 No newsgroup currently selected") (-1) else
  if nbr p <? 0 then answer (bs "420 no current article has been selected") (-1) else
  with_group (bs "no such news group") (fun g =>
    r <- (if bool_decide (c = "l"%char) then
            r <- seek_last g (nbr p) ;;
            ret (match r with Some r => inr r | None => inl (bs "422 No previous to retrieve") end)
          else if bool_decide (c = "n"%char) then
            r <- seek_next g (nbr p) ;;
            ret (match r with Some r => inr r | None => inl (bs "421 No next to retrieve") end)
          else on_srvr (gr_getsize g) ;;; ret (inr (w32 (nbr p), []))) ;;
    match r with
    | inl txt => answer txt (-1)
    | inr (i, aid) =>
        set_nbr (s32 i) ;;;
        answer (bs "223 " ++ dec (s32 i) ++ bs " " ++ aid ++ bs " article retrieved - request text separately") 0
    end).

(** ** list, listgroup, mode *)

(** print_list_active and print_list_active_times. *)
Definition active_line (gd : GroupInfo) : bytes := gi_print gd ++ [CR; LF].
Definition times_line (gd : GroupInfo) : bytes := gi_name gd ++ bs " " ++ dec (gi_ctime gd) ++ bs " news" ++ [CR; LF].

(** for_each over the groups that are wanted; false when the stream breaks. *)
Fixpoint print_groups (line : GroupInfo -> bytes) (wanted : GroupInfo -> MC bool) (gs : list GroupInfo) : MC bool :=
  match gs with
  | [] => ret true
  | gd :: rest =>
      w <- wanted gd ;;
      if negb w then print_groups line wanted rest else
      say (line gd) ;;;
      out <- gets cd_out ;;
      if co_good out then print_groups line wanted rest else ret false
  end.
Definition filter_group (f : NewsgroupFilter) (gd : GroupInfo) : MC bool :=
  m <- matches_ f (gi_name gd) ;; ret (0 <? m).
Definition filter_group_time (f : NewsgroupFilter) (ctime : Z) (gd : GroupInfo) : MC bool :=
  if ctime <? gi_ctime gd then filter_group f gd else ret false.
Definition list_groups (line : GroupInfo -> bytes) (wanted : GroupInfo -> MC bool) : MC Z :=
  gs <- on_srvr sv_groups ;;
  ok <- print_groups line wanted gs ;;
  if negb ok then ret (-2) else say (bs "." ++ [CR; LF]) ;;; ret 0.

(** The lines of the descriptions' file. *)
Fixpoint copy_lines (n : nat) (ist : istream) (strg : bytes) : MC unit :=
  match n with
  | O => spin
  | Datatypes.S n =>
      let '(strg, ist) := nlreadline ist strg true in
      if negb (good ist) then ret tt else say strg ;;; copy_lines n ist strg
  end.
Definition list_newsgroups : MC Z :=
  if (MAXPATHLEN <=? length (c_strg cfg SpoolDirectory) + 12)%nat then abort "path longer than its buffer" else
  let ist := match file_content (c_strg cfg SpoolDirectory ++ bs "/.newsgroups") with
             | Some t => IStream t false false | None => IStream [] false true end in
  reply (bs "215 Description follows") ;;;
  copy_lines (Datatypes.S (length (s_rest ist))) ist [] ;;;
  say (bs "." ++ [CR; LF]) ;;; ret 0.

Definition list_syntax : bytes :=
  bs "501 Syntax: list [active [wildmat]|active.times [time]|extensions|newsgroups|overview.fmt]".
Definition ns_list (argv : list bytes) : MC Z :=
  let argc := length argv in
  let what := arg 1 argv in
  e <- gets access_entry ;;
  if (3 <? argc)%nat then answer list_syntax (-1)
  else if (argc =? 1)%nat || strcaseeq what (bs "active") then
    on_srvr sv_active ;;;
    reply (bs "215 List of newsgroups (Group High Low Flags) follows") ;;;
    let f := copy_filter (ae_list e) in
    list_groups active_line (filter_group (if (argc =? 3)%nat then setWildmat f (arg 2 argv) else f))
  else if strcaseeq what (bs "active.times") then
    on_srvr sv_active ;;;
    reply (bs "215 information follows") ;;;
    let f := copy_filter (ae_list e) in
    f <- (if (argc =? 3)%nat then
            match filter_and f (new_filter (arg 2 argv)) with
            | Some f => ret f | None => abort "rule list read past its end" end
          else ret f) ;;
    list_groups times_line (filter_group f)
  else if negb (argc =? 2)%nat then answer list_syntax (-1)
  else if strcaseeq what (bs "extensions") then
    reply (bs "202 extensions supported") ;;; reply (bs " over") ;;; reply (bs " authinfo user") ;;;
    answer (bs ".") 0
  else if strcaseeq what (bs "newsgroups") then list_newsgroups
  else if strcaseeq what (bs "overview.fmt") then
    f <- ofmt ;;
    reply (bs "215 Order of fields in overview database") ;;; say (print_fmt f) ;;; answer (bs ".") 0
  else answer list_syntax (-1).

Definition ns_listgroup (argv : list bytes) : MC Z :=
  let argc := length argv in
  p <- pos_ ;;
  if (2 <? argc)%nat then answer (bs "501 Syntax: listgroup [Newsgroup]") (-1)
  else if (argc =? 1)%nat && bool_decide (groupname p = []) then answer (bs "412 Not currently in a newsgroup") (-1)
  else
  stop <- (if (argc =? 2)%nat then
             gi <- selectgroup (arg 1 argv) ;;
             match gi with
             | None => r <- answer (bs "411 no such news group") (-1) ;; ret (Some r)
             | Some _ =>
                 e <- gets access_entry ;;
                 m <- matches_ (ae_read e) (arg 1 argv) ;;
                 if m <=? 0 then r <- answer (bs "480 authentication required") 0 ;; ret (Some r) else ret None
             end
           else ret None) ;;
  match stop with
  | Some r => ret r
  | None =>
      with_group (bs "no such news group") (fun g =>
        reply (bs "211 list of article numbers follow") ;;;
        l <- on_srvr (gr_printlistgroup g) ;;
        say l ;;; say (bs "." ++ [CR; LF]) ;;; ret 0)
  end.

Definition ns_mode (argv : list bytes) : MC Z :=
  if negb (length argv =? 2)%nat || negb (strcaseeq (arg 1 argv) (bs "reader") || strcaseeq (arg 1 argv) (bs "query"))
  then answer (bs "501 Syntax: mode (reader|query)") (-1)
  else answer (bs "200 " ++ package_version ++ bs ", accepting NNRP commands") 0.

(** ** newgroups *)

(** [DD2INT(x)] *)
Definition dd (s : bytes) (i : nat) : Z := (zc (at_ s i) - 48) * 10 + (zc (at_ s (i + 1)) - 48).
Definition all_digits (s : bytes) (n : nat) : bool := (length s =? n)%nat && forallb isdigit s.

(** The time meant by the arguments. *)
Definition newgroups_tm (date time : bytes) (is_gmt : bool) : tm :=
  let y4 := (length date =? 8)%nat in
  let year :=
    if y4 then dd date 0 * 100 + dd date 2 - 1900 else
    let now := tm_year (if is_gmt then gmtime time_now else localtime time_now) in
    let yr := Z.rem now 100 in
    if yr <? dd date 0 then dd date 0 + (now - yr - 100) else dd date 0 + (now - yr) in
  let d := if y4 then 4%nat else 2%nat in
  Tm year (dd date d - 1) (dd date (d + 2)) (dd time 0) (dd time 2) (dd time 4).
Definition newgroups_time (date time : bytes) (is_gmt : bool) : option Z :=
  let lt := mktime (newgroups_tm date time is_gmt) in
  if lt =? -1 then None else Some (if is_gmt then lt - timezone else lt).

Definition ns_newgroups (argv : list bytes) : MC Z :=
  let argc := length argv in
  let syntax := answer (bs "501 Syntax:  NEWGROUPS date time [GMT] [<wildmat>]") (-1) in
  if (argc <? 3)%nat || (5 <? argc)%nat || negb (all_digits (arg 2 argv) 6) ||
     negb (all_digits (arg 1 argv) 8 || all_digits (arg 1 argv) 6) ||
     ((4 <=? argc)%nat && negb (strcaseeq (arg 3 argv) (bs "gmt") || strcaseeq (arg 3 argv) (bs "utc")))
  then syntax else
  match newgroups_time (arg 1 argv) (arg 2 argv) (4 <=? argc)%nat with
  | None => syntax
  | Some lt =>
      ok <- catch (on_srvr sv_active ;;; ret true) (fun e => if is_error e then ret false else raise e) ;;
      if negb ok then answer (bs "410 operation failed") (-1) else
      reply (bs "231 list of new groups follows " ++ dec lt) ;;;
      e <- gets access_entry ;;
      list_groups times_line (filter_group_time (ae_list e) (w64 lt))
  end.

(** ** post *)

(** [string::npos], and find of a comma from [i] on. *)
Definition npos : Z := 256 ^ Z.of_nat ulong_bytes - 1.
Definition find_comma (s : bytes) (i : Z) : Z :=
  let i := Z.to_nat i in
  let r := skip_while not_comma (drop i s) in
  match r with [] => npos | _ => Z.of_nat (length s - length r) end.

(** The loop over the groups; [i1] and [i2] are unsigned int.  true when all of the
    names that were looked at match. *)
Fixpoint post_groups (n : nat) (f : NewsgroupFilter) (ng : bytes) (i1 i2 : Z) : MC bool :=
  match n with
  | O => spin
  | Datatypes.S n =>
      if Z.of_nat (length ng) <? i1 then raise (StdException "basic_string::substr") else
      let group := take (Z.to_nat (Z.min i2 (Z.of_nat (length ng)))) (drop (Z.to_nat i1) ng) in
      m <- matches_ f (cstr group) ;;
      if m <=? 0 then ret false
      else if i2 =? npos then ret true
      else let i1 := w32 (i2 + 1) in post_groups n f ng i1 (w32 (find_comma ng i1))
  end.
Definition post_allowed (f : NewsgroupFilter) (ng : bytes) : MC bool :=
  post_groups (2 + length ng) f ng 0 (w32 (find_comma ng 0)).

Definition invalid_article (e : exn) : bool :=
  match e with InvalidArticleError _ | NoSuchFieldError _ => true | _ => false end.

Definition ns_post (argv : list bytes) : MC Z :=
  if negb (length argv =? 1)%nat then answer (bs "501 Syntax: post") (-1) else
  reply (bs "340 send article to be posted.") ;;;
  ist <- gets cd_in ;;
  match a_read ist (MkArticle 0 []) with
  | None => spin
  | Some (art, ist) =>
      modify (put_in ist) ;;;
      ok <- catch (ng <- getfield (bs "newsgroups:") false art ;;
                   e <- gets access_entry ;;
                   ok <- post_allowed (ae_postTo e) ng ;; ret (Some ok))
              (fun e => if invalid_article e then ret None else raise e) ;;
      match ok with
      | None => answer (bs "441 invalid article") (-1)
      | Some false => answer (bs "480 authentication required") 0
      | Some true =>
          catch (on_srvr (sv_post art) ;;; answer (bs "240 Article posted") 0)
            (fun e => match e with
                      | InvalidArticleError _ => answer (bs "441 invalid article") (-1)
                      | NotAllowedError => answer (bs "440 posting not allowed") (-1)
                      | e => if is_error e then answer (bs "449 operation failed") (-1) else raise e
                      end)
      end
  end.

(** ** over, xover, xhdr *)

(** The range: [p] behind it, and the numbers, where they were set. *)
Definition parse_range (s : bytes) : bytes * option Z * option Z :=
  let '(n, p) := if isdigit (at_ s 0) then let '(n, p) := strtol s in (Some (s32 n), p) else (None, s) in
  (p, n, n).
Definition xover_range (argv : list bytes) (i : nat) (n : Z) : option (option bytes * option Z * option Z) :=
  if (length argv =? i)%nat then Some (None, Some n, Some n)
  else if (length argv =? i + 1)%nat then
    let s := arg i argv in
    let '(p, fst, lst) := parse_range s in
    match p with
    | [] => Some (Some p, fst, lst)
    | c :: p =>
        if bool_decide (c = "-"%char) then
          let '(lst, p) := if isdigit (at_ p 0) then let '(l, p) := strtol p in (s32 l, p) else (-1, p) in
          match p with [] => Some (Some p, fst, Some lst) | _ => None end
        else None
    end
  else None.

Definition ns_xover (argv : list bytes) : MC Z :=
  p <- pos_ ;;
  if bool_decide (groupname p = []) then answer (bs "412 No newsgroup currently selected") (-1) else
  let xhdr := bool_decide (arg 0 argv = bs "xhdr") in
  match xover_range argv (if xhdr then 2 else 1)%nat (nbr p) with
  | None => answer (bs "501 Syntax: xover [range]") (-1)
  | Some (rest, fst, lst) =>
      with_group (bs "no such news group") (fun g =>
        match xhdr, rest, fst, lst with
        | false, _, Some f, Some l =>
            reply (bs "224 Overview information follows") ;;;
            o <- on_srvr (gr_printoverdb g (w32 f) (w32 l)) ;; say o ;;; say (bs "." ++ [CR; LF]) ;;; ret 0
        | true, Some p, Some f, Some l =>
            reply (bs "221 " ++ p ++ bs "[" ++ dec f ++ bs "-" ++ dec l ++ bs "]") ;;;
            o <- on_srvr (gr_printheaderdb g (arg 1 argv) (w32 f) (w32 l)) ;; say o ;;;
            say (bs "." ++ [CR; LF]) ;;; ret 0
        | _, _, _, _ => abort "uninitialized variable"
        end)
  end.

(** ** xdebug, quit *)

(** operator<< of an AccessEntry. *)
Definition print_entry_debug (e : AccessEntry) : bytes :=
  ae_hostname e ++ bs "{" ++ [LF] ++
  bs "  access_flags=" ++ dec (access_flags e) ++ bs " (" ++ print_flags (access_flags e) ++ bs ")" ++ [LF] ++
  bs "  list=" ++ rulelist (ae_list e) ++ [LF] ++
  bs "  read=" ++ rulelist (ae_read e) ++ [LF] ++
  bs "  postto=" ++ rulelist (ae_postTo e) ++ [LF] ++
  bs "  PAMServicename " ++ PAMServicename e ++ [LF] ++
  bs "  authentication=" ++ drop 17 (print_authentication (authentication e)) ++ [LF] ++
  bs "}".

Definition ns_xdebug (argv : list bytes) : MC Z :=
  let argc := length argv in
  let a1 := arg 1 argv in
  let a2 := arg 2 argv in
  if (argc =? 3)%nat then
    (if bool_decide (a1 = bs "dump") then
       (if bool_decide (a2 = bs "authorization") then
          e <- gets access_entry ;;
          reply (bs "xxx authorization data follows") ;;; reply (print_entry_debug e) ;;; reply (bs ".")
        else ret tt) ;;;
       if bool_decide (a2 = bs "configuration") then
         reply (bs "xxx configuration data follows") ;;; say (print_config cfg) ;;; reply (bs ".")
       else ret tt
     else ret tt) ;;;
    ret 0
  else if (argc =? 2)%nat && bool_decide (a1 = bs "help") then
    reply (bs "Valid commands:") ;;; reply (bs "xdebug dump authorization:") ;;;
    reply (bs "xdebug dump configuration:") ;;; answer (bs ".") 0
  else answer (bs "501 Syntax: xdebug help") (-1).

Definition ns_quit (argv : list bytes) : MC Z := answer (bs "205 Good bye") 1.

(** ** authinfo *)
Definition authinfo_error (argv : list bytes) : MC Z :=
  let c := tolower (at_ (arg 1 argv) 0) in
  if (1 <? length argv)%nat && bool_decide (c = "u"%char) then answer (bs "501 Syntax: authinfo user username") (-1)
  else if (1 <? length argv)%nat && bool_decide (c = "p"%char)
  then answer (bs "501 Syntax: authinfo pass password") (-1)
  else answer (bs "501 Syntax: authinfo [user username|pass password]") (-1).

Definition ns_authinfo (argv : list bytes) : MC Z :=
  let v := arg 2 argv in
  if negb (length argv =? 3)%nat then authinfo_error argv
  else if (511 <? length v)%nat then answer (bs "502 argument too long") (-1)
  else
  a <- gets cd_auth ;;
  if strcaseeq (arg 1 argv) (bs "user") then
    modify (put_auth (Auth v (auth_pass a) (auth_state a) (auth_failures a))) ;;;
    answer (bs "381 password please") 0
  else if strcaseeq (arg 1 argv) (bs "pass") then
    if bool_decide (auth_user a = []) then answer (bs "482 issue authinfo user first") (-1) else
    modify (put_auth (Auth (auth_user a) v (auth_state a) (auth_failures a))) ;;;
    ok <- on_access (check_authentication (auth_user a) v) ;;
    if negb ok then
      modify (put_auth (Auth (auth_user a) v (auth_state a) (auth_failures a + 1))) ;;;
      answer (bs "502 Bad authinfo.") (-1)
    else
      reply (bs "281 OK.") ;;;
      modify (put_auth (Auth (auth_user a) v AUTH_OK (auth_failures a))) ;;;
      modify set_client_command_table ;;;
      ret 0
  else authinfo_error argv.

(** The function of a command. *)
Definition run_func (f : nnrp_func) : list bytes -> MC Z :=
  match f with
  | F_authinfo => ns_authinfo | F_article => ns_article | F_stat => ns_stat | F_date => ns_date
  | F_group => ns_group | F_help => ns_help | F_lastnext => ns_lastnext | F_list => ns_list
  | F_listgroup => ns_listgroup | F_mode => ns_mode | F_newgroups => ns_newgroups | F_post => ns_post
  | F_xover => ns_xover | F_xdebug => ns_xdebug | F_quit => ns_quit
  end.
End nnrp.
