(* ===== verification/Nntpd.v ===== *)
(** * Nntpd.v: the server that waits for news readers

    fillHostStruct, nntpd and sigchld of src/NewsCache.cc: the address to listen to,
    and the processes of the clients as a transition system.  The start up to
    listen is in Process.v. *)
From S2P Require Import Prelude Text.
From S2P Require Import Config.

(** ** The address *)

(** The resolver: inet_addr ([None] for INADDR_NONE), the family and the first
    address of gethostbyname, and the port of getservbyname for tcp. *)
Class Resolver := {
  inet_addr : bytes -> option Z;
  gethostbyname : bytes -> option (bool * option Z);
  getservbyname : bytes -> option Z
}.

Inductive host_struct := Addr (s_addr port : Z) | HostError | NullPointer.

Section address.
Context {resolver : Resolver}.

Definition is_not_colon (c : ascii) : bool := negb (bool_decide (c = ":"%char)).
(** The host and what is behind the first colon, if there is one. *)
Definition split_host (s : bytes) : bytes * option bytes :=
  (take_while is_not_colon s, match skip_while is_not_colon s with [] => None | _ :: p => Some p end).

Definition host_port (p : option bytes) : option Z :=
  match p with
  | Some p => if isdigit (at_ p 0) then Some (atoi p mod 2 ^ 16) else getservbyname p
  | None => getservbyname (bs "nntp")
  end.
(** The operands of [==] and [|] are all evaluated: a host that is not found is a
    null pointer that is used. *)
Definition fillHostStruct (pHost : bytes) : host_struct :=
  let '(host, p) := split_host pHost in
  let finish a := match host_port p with Some port => Addr a port | None => HostError end in
  if bool_decide (host = bs "DEFAULT") then finish 0 else
  match inet_addr host with
  | Some a => finish a
  | None =>
      match gethostbyname host with
      | None => NullPointer
      | Some (false, _) | Some (true, None) => HostError
      | Some (true, Some a) => finish a
      end
  end.

(** The address nntpd binds its socket to. *)
Definition listen_address (c : Config) : host_struct :=
  match c_strg c CachePort with
  | [] => fillHostStruct (c_strg c ListenTo)
  | "#"%char :: cp => Addr 0 (atoi cp mod 2 ^ 16)
  | cp => match getservbyname cp with Some port => Addr 0 port | None => HostError end
  end.
End address.

(** ** The processes

    The parent waits in accept, has forked a child it has not counted yet, or is
    between the load and the store of [nntp_connections++]. *)
Inductive parent_pc := Accepting | Forked | Loaded (v : Z).
Record daemon := Daemon { pc : parent_pc; nntp_connections : Z; running : nat; zombies : nat }.

Inductive event :=
| ev_refuse | ev_fork_fails | ev_fork | ev_load | ev_store | ev_exit | ev_sigchld.

(** The handler of SIGCHLD collects all children that have exited. *)
Definition sigchld (d : daemon) : daemon :=
  Daemon (pc d) (nntp_connections d - Z.of_nat (zombies d)) (running d) 0.

Section daemon.
Variable MaxConnections : Z.

(** [step e d d']; the comparison with MaxConnections and fork are one step. *)
Inductive step : event -> daemon -> daemon -> Prop :=
| step_refuse n r z : MaxConnections <= n -> step ev_refuse (Daemon Accepting n r z) (Daemon Accepting n r z)
| step_fork_fails n r z : n < MaxConnections -> step ev_fork_fails (Daemon Accepting n r z) (Daemon Accepting n r z)
| step_fork n r z : n < MaxConnections -> step ev_fork (Daemon Accepting n r z) (Daemon Forked n (S r) z)
| step_load n r z : step ev_load (Daemon Forked n r z) (Daemon (Loaded n) n r z)
| step_store v n r z : step ev_store (Daemon (Loaded v) n r z) (Daemon Accepting (v + 1) r z)
| step_exit p n r z : step ev_exit (Daemon p n (S r) z) (Daemon p n r (S z))
| step_sigchld p n r z : step ev_sigchld (Daemon p n r z) (sigchld (Daemon p n r z)).

Definition start : daemon := Daemon Accepting 0 0 0.

(** The runs; [atomic] when no handler runs between a load and its store. *)
Definition interrupts (e : event) (d : daemon) : Prop := e = ev_sigchld /\ exists v, pc d = Loaded v.
Inductive run_of (atomic : bool) : list event -> daemon -> Prop :=
| run_start : run_of atomic [] start
| run_step es e d d' : run_of atomic es d -> step e d d' -> (atomic = true -> ~ interrupts e d) ->
    run_of atomic (es ++ [e]) d'.

Definition children (d : daemon) : Z := Z.of_nat (running d) + Z.of_nat (zombies d).

(** What the parent will have counted. *)
Definition counted (d : daemon) : Z :=
  match pc d with Accepting => nntp_connections d | Forked => nntp_connections d + 1 | Loaded v => v + 1 end.

Lemma run_counts atomic es d : run_of atomic es d -> children d <= counted d /\ children d <= Z.max 0 MaxConnections.
Proof.
  induction 1 as [|es e d d' _ [IH1 IH2] Hs _]; [split; [done|apply Z.le_max_l]|].
  unfold children, counted in *. destruct Hs; cbn [sigchld pc nntp_connections running zombies] in *; try lia;
    destruct p; cbn match in *; lia.
Qed.

Lemma run_exact es d : run_of true es d -> 
  match pc d with
  | Accepting => nntp_connections d = children d
  | Forked => nntp_connections d + 1 = children d
  | Loaded v => v = nntp_connections d /\ v + 1 = children d
  end.
Proof.
  induction 1 as [|es e d d' _ IH Hs Ha]; [done|]. specialize (Ha eq_refl). unfold interrupts, children in *.
  destruct Hs; cbn [sigchld pc nntp_connections running zombies] in *; try lia; destruct p; cbn match in *; try lia.
  exfalso. apply Ha. split; [done|]. by eexists.
Qed.

(** C26: however the processes of the clients are scheduled, also when the handler of
    SIGCHLD interrupts the parent while it counts a new one, no more than
    MaxConnections of them are alive at a time. *)
Theorem max_connections atomic es d : run_of atomic es d -> Z.of_nat (running d) <= Z.max 0 MaxConnections.
Proof. intros H. apply run_counts in H as [_ H]. unfold children in H. lia. Qed.

(** When the handler does not run in the middle of an increment, a client is refused
    only while MaxConnections children are alive or wait to be collected. *)
Theorem refused_when_full es d : run_of true es d -> forall d', step ev_refuse d d' ->
  MaxConnections <= Z.of_nat (running d) + Z.of_nat (zombies d).
Proof.
  intros H d' Hs. apply run_exact in H. inversion Hs; subst. unfold children in H. cbn [pc nntp_connections running zombies] in *. lia.
Qed.
End daemon.

Lemma max_connections_witness : run_of 1 false [ev_fork; ev_load; ev_exit; ev_sigchld; ev_store; ev_refuse] (Daemon Accepting 1 0 0) /\
  Z.of_nat (running (Daemon Accepting 1 0 0)) <= Z.max 0 1.
Proof.
  assert (run_of 1 false [ev_fork; ev_load; ev_exit; ev_sigchld; ev_store; ev_refuse] (Daemon Accepting 1 0 0)) as H.
  { change [ev_fork; ev_load; ev_exit; ev_sigchld; ev_store; ev_refuse]
      with ((((((([] ++ [ev_fork]) ++ [ev_load]) ++ [ev_exit]) ++ [ev_sigchld]) ++ [ev_store]) ++ [ev_refuse])).
    eapply run_step; [|by apply step_refuse|done]. eapply run_step; [|apply (step_store 1 0)|done].
    eapply run_step; [|apply (step_sigchld 1 _ 0 0 1)|done]. eapply run_step; [|apply step_exit|done].
    eapply run_step; [|apply step_load|done]. eapply run_step; [|by apply step_fork|done]. apply run_start. }
  split; [exact H|]. exact (max_connections 1 false _ _ H).
Defined.

Lemma refused_when_full_witness : run_of 1 true [ev_fork; ev_load; ev_store] (Daemon Accepting 1 1 0) /\
  1 <= Z.of_nat 1 + Z.of_nat 0.
Proof.
  assert (run_of 1 true [ev_fork; ev_load; ev_store] (Daemon Accepting 1 1 0)) as H.
  { change [ev_fork; ev_load; ev_store] with ((([] ++ [ev_fork]) ++ [ev_load]) ++ [ev_store]).
    eapply run_step; [|apply (step_store 1 0)|by intros _ [? _]]. eapply run_step; [|apply step_load|by intros _ [? _]].
    eapply run_step; [|by apply step_fork|by intros _ [? _]]. apply run_start. }
  split; [exact H|]. exact (refused_when_full 1 _ _ H _ (step_refuse 1 1 1 0 (Z.le_refl 1))).
Defined.

(** When the handler interrupts the increment, its decrement is lost: no child is
    left, and every client is refused from then on. *)
Lemma lost_decrement : exists es, run_of 1 false es (Daemon Accepting 1 0 0) /\
  forall e d, step 1 e (Daemon Accepting 1 0 0) d -> d = Daemon Accepting 1 0 0.
Proof.
  eexists. split; [apply max_connections_witness|]. intros e d H. by inversion H; subst; try lia.
Qed.
