(* ===== verification/Nnrpd.v ===== *)
(** * Nnrpd.v: a session with a client

    nnrpd of src/NewsCache.cc, from the choice of the client's entry to the end of
    the session.  What comes before is in Connect.v; the logs are left out. *)
From S2P Require Import Prelude Text Article Matching GroupInfo OverviewFmt.
From S2P Require Import ServerList.
From S2P Require Import AccessList.
From S2P Require Import Config.
From S2P Require Import NnrpAuth.
From S2P Require Import Calendar.
From S2P Require Import ClientData.
From S2P Require Import Nnrp.

(** ** A request *)

(** [getline(req, size, lf)]: the bytes stored, and the stream. *)
Definition getline_buf (size : nat) (ist : istream) : bytes * istream :=
  if negb (good ist) then ([], IStream (s_rest ist) (s_eof ist) true) else
  let l := take_while (fun c => negb (bool_decide (c = LF))) (s_rest ist) in
  if (size <=? length l)%nat then (take (size - 1) l, IStream (drop (size - 1) (s_rest ist)) false true)
  else match skip_while (fun c => negb (bool_decide (c = LF))) (s_rest ist) with
       | _ :: r => (l, IStream r false false)
       | [] => (l, IStream [] true (bool_decide (l = [])))
       end.

(** The loop that splits the request.  [start] tells whether the character before
    was overwritten (or there is none); the words of [argv] are kept the last one
    first, the first word in lower case. *)
Fixpoint split_loop (rp : bytes) (start : bool) (argv : list bytes) : list bytes :=
  match rp with
  | [] => argv
  | c :: rp =>
      if (256 <=? length argv)%nat then argv
      else if isspace c then split_loop rp true argv
      else
        let argv := if start then [] :: argv else argv in
        let c := if (length argv =? 1)%nat then tolower c else c in
        split_loop rp false (match argv with w :: r => (w ++ [c]) :: r | [] => [] end)
  end.
Definition split_request (req : bytes) : list bytes := rev (split_loop req true []).

Section nnrpd.
Context {site : Site} {users : Users} {clock : Clock}.
Context {S G : Type} {sv : NewsServer S G}.
Abbreviation MC := (M (ClientData S G)).

(** The commands that need no authentication. *)
Definition always_allowed (cmd : bytes) : bool :=
  strcaseeq cmd (bs "authinfo") || strcaseeq cmd (bs "quit") || strcaseeq cmd (bs "help").

(** What a request leads to. *)
Inductive dispatch := d_nothing | d_too_long | d_auth | d_unknown | d_run (f : nnrp_func).
Definition dispatch_of (argv : list bytes) (st : auth_state_t) (m : command_map) : dispatch :=
  match argv with
  | [] => d_nothing
  | cmd :: _ =>
      if (length argv =? 256)%nat then d_too_long
      else if bool_decide (st = AUTH_REQUIRED) && negb (always_allowed cmd) then d_auth
      else match cm_find cmd m with None => d_unknown | Some f => d_run f end
  end.

(** One request; the result is errc, the one before when no function was called.
    The second component tells that the client is thrown out. *)
Definition request (req : bytes) (errc : Z) : MC (Z * bool) :=
  let argv := split_request (strip_end (cstr req)) in
  a <- gets cd_auth ;; m <- gets client_command_map ;;
  match dispatch_of argv (auth_state a) m with
  | d_nothing => ret (errc, false)
  | d_too_long => reply (bs "500 Line too long") ;;; ret (errc, false)
  | d_auth => reply (bs "480 Authentication required (" ++ arg 0 argv ++ bs ")") ;;; ret (errc, false)
  | d_unknown => reply (bs "500 What?") ;;; ret (errc, false)
  | d_run f =>
      errc <- run_func f argv ;;
      a <- gets cd_auth ;;
      if (Z.land (LogStyle cfg) LogINN =? 0) && (auth_max_failures <=? auth_failures a) then
        reply (bs "400 " ++ package_version ++ bs ", service discontinued (max passwords retries)") ;;;
        ret (errc, true)
      else ret (errc, false)
  end.

Definition next_interrupt : MC (option interrupt) :=
  l <- gets cd_intr ;;
  match l with [] => ret None | i :: l => modify (put_intr l) ;;; ret i end.

(** The loop; every round takes a character off the stream or is the last one. *)
Fixpoint nnrpd_loop (n : nat) (errc : Z) : MC unit :=
  match n with
  | O => spin
  | Datatypes.S n =>
      ist <- gets cd_in ;;
      let '(req, ist) := getline_buf 1024 ist in
      modify (put_in ist) ;;;
      i <- next_interrupt ;;
      match i with
      | Some Alarm => reply (bs "400 " ++ package_version ++ bs ", service timed out!")
      | Some Signal => reply (bs "400 " ++ package_version ++ bs ", service discontinued")
      | None =>
          if negb (good ist) then ret tt else
          r <- request req errc ;;
          if snd r then ret tt
          else if (fst r =? 0) || (fst r =? -1) then nnrpd_loop n (fst r) else ret tt
      end
  end.

(** The state of the authentication at the beginning. *)
Definition initial_auth (a : Authentication) : auth_state_t :=
  let t := getType a in
  if bool_decide (t = bs "unix") && (1 <? getNrOfFields a)%nat then AUTH_NOT_REQUIRED
  else if bool_decide (t = bs "file") || bool_decide (t = bs "pam") || bool_decide (t = bs "pam+file")
  then AUTH_NOT_REQUIRED
  else if negb (bool_decide (t = bs "none")) then AUTH_REQUIRED
  else AUTH_OK.

(** nnrpd with the entry found for the client. *)
Definition nnrpd_session : MC unit :=
  e <- gets access_entry ;;
  if access_flags e =? 0 then say (bs "502 You have no permission to talk.  Goodbye." ++ [LF]) else
  modify (put_auth (Auth [] [] (initial_auth (authentication e)) 0)) ;;;
  modify set_client_command_table ;;;
  reply (bs "200 " ++ package_version ++ bs ", accepting NNRP commands") ;;;
  ist <- gets cd_in ;;
  nnrpd_loop (Datatypes.S (length (s_rest ist))) 0.

(** The client with the name and the address, on a fresh server. *)
Definition nnrpd {inet : Inet} (before : ascii) (client_name : bytes) (addr : Z) (ist : istream)
    (intr : list (option interrupt)) (s : S) : outcome (ClientData S G) unit :=
  match client before (clnts cfg) client_name addr with
  | None => say (bs "502 You have no permission to talk.  Goodbye." ++ [LF]) (new_client ist intr s (new_access []))
  | Some i =>
      match clnts cfg !! i with
      | Some e => nnrpd_session (new_client ist intr s e)
      | None => Abort "dangling pointer"
      end
  end.
End nnrpd.
