(* ===== verification/NnrpdKeeps.v ===== *)
(** * NnrpdKeeps.v: what the commands leave alone

    One walk through the code of the commands, for every relation between the states
    of a client that the small steps respect.  The theorems on sessions use it with
    relations of their own. *)
From S2P Require Import Prelude Text Article Matching GroupInfo OverviewFmt.
From S2P Require Import ServerList.
From S2P Require Import RNews.
From S2P Require Import RPost.
From S2P Require Import AccessList.
From S2P Require Import Config.
From S2P Require Import NnrpAuth.
From S2P Require Import Calendar.
From S2P Require Import ClientData.
From S2P Require Import Nnrp.

(** ** Computations that keep a relation

    [keeps R idle c]: wherever [c] starts, it ends in a related state, or it is
    undefined, or it runs out of fuel and [idle] allows for that. *)
Section keeps.
Context {S : Type} (R : S -> S -> Prop) (idle : S -> Prop).
Context `{!PreOrder R} (idle_back : forall s s', R s s' -> idle s' -> idle s).

Definition keeps {A} (c : M S A) : Prop := forall s,
  match c s with Ret _ s' | Throw _ s' => R s s' | Abort _ => True | Spin => idle s end.

Lemma keeps_bind {A B} (c : M S A) (k : A -> M S B) : keeps c -> (forall a, keeps (k a)) -> keeps (bind c k).
Proof.
  intros Hc Hk s. specialize (Hc s). unfold bind. destruct (c s) as [a s1|e s1| |]; [|done..].
  specialize (Hk a s1). destruct (k a s1) as [b s2|e s2| |]; [by transitivity s1..|done|by apply (idle_back s s1)].
Qed.
Lemma keeps_ret {A} (a : A) : keeps (ret a).
Proof. intros s. cbn. reflexivity. Qed.
Lemma keeps_throw {A} e : keeps (A := A) (throw e).
Proof. intros s. cbn. reflexivity. Qed.
Lemma keeps_abort {A} w : keeps (A := A) (abort w).
Proof. done. Qed.
Lemma keeps_gets {A} (f : S -> A) : keeps (gets f).
Proof. intros s. cbn. reflexivity. Qed.
Lemma keeps_modify (f : S -> S) : (forall s, R s (f s)) -> keeps (modify f).
Proof. intros H s. apply H. Qed.
Lemma keeps_catch {A} (c : M S A) h : keeps c -> (forall e, keeps (h e)) -> keeps (catch c h).
Proof.
  intros Hc Hh s. specialize (Hc s). unfold catch. destruct (c s) as [a s1|e s1| |]; [done| |done..].
  specialize (Hh e s1). destruct (h e s1) as [b s2|e2 s2| |]; [by transitivity s1..|done|by apply (idle_back s s1)].
Qed.
Lemma keeps_spin {A} : (forall s, idle s) -> keeps (A := A) spin.
Proof. intros H s. apply H. Qed.
End keeps.

(** A walk through binds, branches and matches. *)
Ltac keeps_walk tac :=
  repeat first
  [ tac | done
  | apply keeps_bind; [done..| |intros ?] | apply keeps_ret; done | apply keeps_throw; done | apply keeps_abort
  | apply keeps_gets; done | apply keeps_catch; [done..| |intros ?]
  | match goal with |- keeps _ _ (let _ := _ in _) => cbv zeta end
  | match goal with |- keeps _ _ (if ?b then _ else _) => destruct b end
  | match goal with |- keeps _ _ (match ?x with _ => _ end) => destruct x end ].

(** ** The commands *)
Inductive server_op {S G : Type} {sv : NewsServer S G} : forall A : Type, M S A -> Prop :=
| op_groupinfo n : server_op _ (sv_groupinfo n)
| op_getgroup n : server_op _ (sv_getgroup n)
| op_freegroup g : server_op _ (sv_freegroup g)
| op_article i a : server_op _ (sv_article i a)
| op_active : server_op _ sv_active
| op_groups : server_op _ sv_groups
| op_post a : server_op _ (sv_post a)
| op_setsize g f l : server_op _ (gr_setsize g f l)
| op_getsize g : server_op _ (gr_getsize g)
| op_getarticle g n : server_op _ (gr_getarticle g n)
| op_getover g n : server_op _ (gr_getover g n)
| op_printlistgroup g : server_op _ (gr_printlistgroup g)
| op_printoverdb g f l : server_op _ (gr_printoverdb g f l)
| op_printheaderdb g h f l : server_op _ (gr_printheaderdb g h f l).

(** The small steps keep the relation: output, input, counters, the position in the
    group, an operation of the server, and the loops that need fuel. *)
Class Calm {site : Site} {users : Users} {S G : Type} {sv : NewsServer S G}
    (R : ClientData S G -> ClientData S G -> Prop) (idle : ClientData S G -> Prop) := {
  calm_order :: PreOrder R;
  calm_idle s s' : R s s' -> idle s' -> idle s;
  calm_out x c : R c (put_out x c);
  calm_in x c : R c (put_in x c);
  calm_stat x c : R c (put_stat x c);
  calm_nbr n c : R c (put_nbr n c);
  calm_grp g c : R c (put_grp g c);
  calm_op A (c : M S A) : server_op A c -> keeps R idle (on_srvr c);
  calm_getfield f b a : keeps R idle (getfield f b a);
  calm_read ist a : a_read ist a = None -> keeps (A := Z) R idle spin;
  calm_last g i : keeps R idle (seek_last g i);
  calm_next g i : keeps R idle (seek_next g i);
  calm_copy ist : keeps R idle (copy_lines (Datatypes.S (length (s_rest ist))) ist []);
  calm_post f ng : keeps R idle (post_allowed f ng)
}.

Section calm.
Context {site : Site} {users : Users} {clock : Clock}.
Context {S G : Type} {sv : NewsServer S G}.
Context (R : ClientData S G -> ClientData S G -> Prop) (idle : ClientData S G -> Prop) {calm : Calm R idle}.
Implicit Types c : ClientData S G.

Lemma calm_bind {A B} (c : M (ClientData S G) A) (k : A -> M (ClientData S G) B) :
  keeps R idle c -> (forall a, keeps R idle (k a)) -> keeps R idle (bind c k).
Proof. apply keeps_bind; [apply calm_order|apply calm_idle]. Qed.
Lemma calm_catch {A} (c : M (ClientData S G) A) h :
  keeps R idle c -> (forall e, keeps R idle (h e)) -> keeps R idle (catch c h).
Proof. apply keeps_catch; [apply calm_order|apply calm_idle]. Qed.
Lemma calm_ret {A} (a : A) : keeps R idle (ret a).
Proof. apply keeps_ret, calm_order. Qed.
Lemma calm_throw {A} e : keeps (A := A) R idle (throw e).
Proof. apply keeps_throw, calm_order. Qed.
Lemma calm_gets {A} (f : ClientData S G -> A) : keeps R idle (gets f).
Proof. apply keeps_gets, calm_order. Qed.

Lemma calm_over_getfield f o fld full : keeps R idle (over_getfield f o fld full).
Proof.
  unfold over_getfield. generalize 0%nat. induction (f_over f) as [|[name ofull] l IH]; intros i;
    cbn [over_getfield_loop]; [apply calm_throw|].
  destruct (strcaseeq _ _); [|apply IH]. cbv zeta.
  repeat match goal with |- keeps _ _ (if ?b then _ else _) => destruct b end;
    first [apply calm_ret | apply keeps_abort].
Qed.
Lemma calm_say b : keeps R idle (say b).
Proof. apply keeps_modify. intros s. apply calm_out. Qed.
Lemma calm_reply b : keeps R idle (reply b).
Proof. apply calm_say. Qed.
Lemma calm_answer b r : keeps R idle (answer b r).
Proof. apply calm_bind; [apply calm_reply|intros; apply calm_ret]. Qed.
Lemma calm_matches f g : keeps R idle (matches_ f g).
Proof. unfold matches_. destruct (matches f g); [apply calm_ret|apply keeps_abort]. Qed.
Lemma calm_set_nbr n : keeps R idle (set_nbr n).
Proof. apply keeps_modify. intros s. apply calm_nbr. Qed.
Lemma calm_set_grp g : keeps R idle (modify (put_grp g)).
Proof. apply keeps_modify. intros s. apply calm_grp. Qed.
Lemma calm_set_in ist : keeps R idle (modify (put_in ist)).
Proof. apply keeps_modify. intros s. apply calm_in. Qed.
Lemma calm_count : keeps R idle count_article.
Proof. apply keeps_modify. intros s. apply calm_stat. Qed.

(** The walk with the steps above. *)
Ltac calm_step :=
  first
  [ match goal with
    | |- keeps _ _ (bind _ _) => apply calm_bind; [|intros ?]
    | |- keeps _ _ (ret _) => apply calm_ret
    | |- keeps _ _ (throw _) => apply calm_throw
    | |- keeps _ _ (abort _) => apply keeps_abort
    | |- keeps _ _ (gets _) => apply calm_gets
    | |- keeps _ _ pos_ => apply calm_gets
    | |- keeps _ _ ofmt => apply calm_gets
    | |- keeps _ _ (catch _ _) => apply calm_catch; [|intros ?]
    end
  | apply calm_answer | apply calm_reply | apply calm_say | apply calm_matches | apply calm_set_nbr
  | apply calm_set_grp | apply calm_set_in | apply calm_count | apply calm_getfield | apply calm_over_getfield
  | apply calm_op; constructor | apply calm_last | apply calm_next | apply calm_copy | apply calm_post
  | match goal with |- keeps _ _ (let _ := _ in _) => cbv zeta end
  | match goal with |- keeps _ _ (if ?b then _ else _) => destruct b eqn:? end
  | match goal with |- keeps _ _ (match ?x with _ => _ end) => destruct x eqn:? end ].
Ltac calm_walk := repeat calm_step.

Lemma calm_with_group txt k : (forall g, keeps R idle (k g)) -> keeps R idle (with_group txt k).
Proof. intros Hk. unfold with_group. calm_walk. apply Hk. Qed.
Lemma calm_with_number argv k : (forall g n, keeps R idle (k g n)) -> keeps R idle (with_number argv k).
Proof. intros Hk. unfold with_number. calm_walk. apply calm_with_group. intros g. calm_walk; apply Hk. Qed.
Lemma calm_particle cmnd n a : keeps R idle (nsh_particle cmnd n a).
Proof. unfold nsh_particle. calm_walk. Qed.
Lemma calm_article_failed e : keeps R idle (article_failed e).
Proof. unfold article_failed. calm_walk. Qed.
Lemma calm_print_groups line wanted gs : (forall gd, keeps R idle (wanted gd)) ->
  keeps R idle (print_groups line wanted gs).
Proof. intros Hw. induction gs as [|gd gs IH]; cbn [print_groups]; calm_walk; [apply Hw|apply IH..]. Qed.
Lemma calm_list_groups line wanted : (forall gd, keeps R idle (wanted gd)) -> keeps R idle (list_groups line wanted).
Proof. intros Hw. unfold list_groups. calm_walk. by apply calm_print_groups. Qed.
Lemma calm_filter_group f gd : keeps R idle (filter_group f gd).
Proof. unfold filter_group. calm_walk. Qed.

Lemma calm_ns_article argv : keeps R idle (ns_article argv).
Proof.
  unfold ns_article. calm_walk; [apply calm_with_number; intros g n; calm_walk; apply calm_particle| |].
  - apply calm_particle.
  - apply calm_article_failed.
Qed.
Lemma calm_ns_stat argv : keeps R idle (ns_stat argv).
Proof.
  unfold ns_stat. calm_walk; [apply calm_with_number; intros g n; calm_walk|]. apply calm_article_failed.
Qed.
Lemma calm_ns_date argv : keeps R idle (ns_date argv).
Proof. unfold ns_date. calm_walk. Qed.
Lemma calm_ns_help argv : keeps R idle (ns_help argv).
Proof. unfold ns_help. calm_walk. Qed.
Lemma calm_ns_lastnext argv : keeps R idle (ns_lastnext argv).
Proof. unfold ns_lastnext. calm_walk. apply calm_with_group. intros g. calm_walk. Qed.
Lemma calm_list_newsgroups : keeps R idle list_newsgroups.
Proof. unfold list_newsgroups. calm_walk. Qed.
Lemma calm_ns_list argv : keeps R idle (ns_list argv).
Proof.
  unfold ns_list. calm_walk; try (apply calm_list_groups; intros; apply calm_filter_group).
  apply calm_list_newsgroups.
Qed.
Lemma calm_ns_mode argv : keeps R idle (ns_mode argv).
Proof. unfold ns_mode. calm_walk. Qed.
Lemma calm_ns_newgroups argv : keeps R idle (ns_newgroups argv).
Proof.
  unfold ns_newgroups. calm_walk. apply calm_list_groups. intros gd. unfold filter_group_time. calm_walk. apply calm_filter_group.
Qed.
Lemma calm_ns_post argv : keeps R idle (ns_post argv).
Proof. unfold ns_post. calm_walk. by eapply calm_read. Qed.
Lemma calm_ns_xover argv : keeps R idle (ns_xover argv).
Proof. unfold ns_xover. calm_walk. apply calm_with_group. intros g. calm_walk. Qed.
Lemma calm_ns_xdebug argv : keeps R idle (ns_xdebug argv).
Proof. unfold ns_xdebug. calm_walk. Qed.
Lemma calm_ns_quit argv : keeps R idle (ns_quit argv).
Proof. unfold ns_quit. calm_walk. Qed.

(** The commands that select a group keep the relation when its name may be set. *)
Lemma calm_selectgroup group : (forall c, R c (put_name group c)) -> keeps R idle (selectgroup group).
Proof.
  intros Hn. unfold selectgroup. calm_walk; apply keeps_modify; intros s; [apply calm_stat|apply Hn].
Qed.
Lemma calm_ns_group argv : (length argv = 2%nat -> forall c, R c (put_name (arg 1 argv) c)) ->
  keeps R idle (ns_group argv).
Proof.
  intros Hn. unfold ns_group. destruct (Nat.eqb_spec (length argv) 2); calm_walk. by apply calm_selectgroup, Hn.
Qed.
Lemma calm_ns_listgroup argv : (length argv = 2%nat -> forall c, R c (put_name (arg 1 argv) c)) ->
  keeps R idle (ns_listgroup argv).
Proof.
  intros Hn. unfold ns_listgroup. calm_walk; [apply calm_selectgroup, Hn; by apply Nat.eqb_eq|].
  apply calm_with_group. intros g. calm_walk.
Qed.

Lemma calm_func f argv : f <> F_authinfo ->
  (f = F_group \/ f = F_listgroup -> length argv = 2%nat -> forall c, R c (put_name (arg 1 argv) c)) ->
  keeps R idle (run_func f argv).
Proof.
  intros Hf Hn. destruct f; try done; cbn [run_func];
    first [apply calm_ns_article | apply calm_ns_stat | apply calm_ns_date | apply calm_ns_help
    | apply calm_ns_lastnext | apply calm_ns_list | apply calm_ns_mode | apply calm_ns_newgroups | apply calm_ns_post
    | apply calm_ns_xover | apply calm_ns_xdebug | apply calm_ns_quit
    | apply calm_ns_group; apply Hn; by left | apply calm_ns_listgroup; apply Hn; by right].
Qed.
End calm.

(** ** Relations that say nothing about the server and its groups *)
Section calm_any.
Context {site : Site} {users : Users} {clock : Clock}.
Context {S G : Type} {sv : NewsServer S G}.
Context (R : ClientData S G -> ClientData S G -> Prop) `{!PreOrder R}.
Context (R_out : forall x c, R c (put_out x c)) (R_in : forall x c, R c (put_in x c))
  (R_stat : forall x c, R c (put_stat x c)) (R_nbr : forall n c, R c (put_nbr n c))
  (R_grp : forall g c, R c (put_grp g c)) (R_srvr : forall x c, R c (put_srvr x c)).
Abbreviation idle := (fun _ : ClientData S G => True).

Lemma any_bind {A B} (c : M (ClientData S G) A) (k : A -> M (ClientData S G) B) :
  keeps R idle c -> (forall a, keeps R idle (k a)) -> keeps R idle (bind c k).
Proof. by apply keeps_bind. Qed.

Lemma any_on_srvr {A} (c : M S A) : keeps R idle (on_srvr c).
Proof. intros s. unfold on_srvr. by destruct (c (srvr s)). Qed.

Lemma any_pure {A} (c : M (ClientData S G) A) : pure c -> keeps R idle c.
Proof.
  intros H s. specialize (H s). unfold may in H. destruct (c s) as [a s'|e s'| |]; [by subst| |done..].
  by destruct H as [-> _].
Qed.

Lemma any_over_getfield f o fld full : keeps R idle (over_getfield f o fld full).
Proof.
  unfold over_getfield. generalize 0%nat. induction (f_over f) as [|[name ofull] l IH]; intros i;
    cbn [over_getfield_loop]; [by apply keeps_throw|].
  destruct (strcaseeq _ _); [|apply IH]. cbv zeta.
  repeat match goal with |- keeps _ _ (if ?b then _ else _) => destruct b end;
    first [by apply keeps_ret | apply keeps_abort].
Qed.

Lemma any_found (o : bytes) i :
  keeps R idle (fm <- ofmt ;; aid <- over_getfield fm o (bs "Message-ID:") 0 ;; ret (Some (i : Z, aid))).
Proof.
  apply any_bind; [by apply keeps_gets|intros fm]. apply any_bind; [apply any_over_getfield|intros aid].
  by apply keeps_ret.
Qed.

Lemma any_last n g f : forall i, keeps R idle (last_loop n g i f).
Proof.
  induction n as [|n IH]; intros i; cbn [last_loop]; [done|]. destruct (_ <? _); [by apply keeps_ret|].
  apply any_bind; [apply any_on_srvr|]. intros [[|c o]|]; [apply IH|apply any_found|done].
Qed.
Lemma any_next n g l : forall i, keeps R idle (next_loop n g i l).
Proof.
  induction n as [|n IH]; intros i; cbn [next_loop]; [done|]. destruct (_ <? _); [by apply keeps_ret|].
  apply any_bind; [apply any_on_srvr|]. intros [[|c o]|]; [apply IH|apply any_found|done].
Qed.
Lemma any_copy n : forall ist strg, keeps R idle (copy_lines n ist strg).
Proof.
  induction n as [|n IH]; intros ist strg; cbn [copy_lines]; [done|].
  destruct (nlreadline ist strg true) as [l i]. destruct (negb _); [by apply keeps_ret|].
  apply any_bind; [by apply keeps_modify; intros s; apply R_out|intros ?; apply IH].
Qed.
Lemma any_post n f ng : forall i1 i2, keeps R idle (post_groups n f ng i1 i2).
Proof.
  induction n as [|n IH]; intros i1 i2; cbn [post_groups]; [done|].
  destruct (_ <? _); [by apply keeps_throw|]. cbv zeta. apply any_bind.
  { unfold matches_. by destruct (matches _ _); [apply keeps_ret|]. }
  intros m. destruct (_ <=? _); [by apply keeps_ret|]. destruct (_ =? _); [by apply keeps_ret|]. apply IH.
Qed.

Lemma calm_any : Calm R idle.
Proof.
  split; [done|done|done..| | | | | | |].
  - intros A c _. apply any_on_srvr.
  - intros. apply any_pure, pure_getfield.
  - done.
  - intros g i. unfold seek_last. cbv zeta. apply any_bind; [apply any_on_srvr|]. intros; apply any_last.
  - intros g i. unfold seek_next. cbv zeta. apply any_bind; [apply any_on_srvr|]. intros; apply any_next.
  - intros. apply any_copy.
  - intros. unfold post_allowed. apply any_post.
Qed.
End calm_any.
