(* ===== verification/NnrpdSafe.v ===== *)
(** * NnrpdSafe.v: what a client cannot do

    The commands a session runs are those the access entry allows, and without a
    successful authinfo, where that is asked for, the server is never used. *)
From S2P Require Import Prelude Text Article Matching GroupInfo OverviewFmt.
From S2P Require Import ServerList.
From S2P Require Import RServer RNews.
From S2P Require Import Container.
From S2P Require Import NVHash.
From S2P Require Import RSafe CServer.
From S2P Require Import NVArray.
From S2P Require Import CClient.
From S2P Require Import AccessList.
From S2P Require Import Config.
From S2P Require Import NnrpAuth.
From S2P Require Import Calendar.
From S2P Require Import ClientData.
From S2P Require Import Nnrp.
From S2P Require Import Nnrpd.
From S2P Require Import NnrpdKeeps.

(** ** The table of the commands *)
Definition commands_for (f : Z) : command_map :=
  let m := enableAll [] in
  let m := if Z.land f af_read =? 0 then disableRead m else m in
  let m := if Z.land f af_post =? 0 then disablePost m else m in
  if Z.land f af_debug =? 0 then disableDebug m else m.

(** What the flags of an entry allow. *)
Definition permitted (f : Z) (fn : nnrp_func) : bool :=
  match fn with
  | F_authinfo | F_date | F_help | F_quit => true
  | F_post => negb (Z.land f af_post =? 0)
  | F_xdebug => negb (Z.land f af_debug =? 0)
  | _ => negb (Z.land f af_read =? 0)
  end.
Definition open_to_all (fn : nnrp_func) : Prop := fn = F_authinfo \/ fn = F_quit \/ fn = F_help.

Lemma enable_again f : enableAll (commands_for f) = enableAll [].
Proof.
  unfold commands_for. destruct (Z.land f af_read =? 0), (Z.land f af_post =? 0), (Z.land f af_debug =? 0);
    vm_compute; reflexivity.
Qed.

Lemma table_set {S G} (c : ClientData S G) f : client_command_map c = commands_for f ->
  client_command_map (set_client_command_table c) = commands_for (access_flags (access_entry c)).
Proof. intros E. unfold set_client_command_table. cbn [client_command_map put_cmds]. by rewrite E, enable_again. Qed.

Lemma cm_find_in k m fn : cm_find k m = Some fn -> exists d, (k, (d, fn)) ∈ m.
Proof.
  unfold cm_find. intros H. apply fmap_Some in H as ([j [d fn']] & H & ->).
  apply find_some in H as [Hin Hk]. apply bool_decide_eq_true in Hk. cbn in Hk. subst j.
  exists d. by apply list_elem_of_In.
Qed.

(** Every entry of the table is permitted, and the three names mean what they say. *)
Definition entry_fine (f : Z) (x : nnrp_command_t) : bool :=
  permitted f (snd (snd x)) &&
  (negb (always_allowed (fst x)) || bool_decide (snd (snd x) ∈ [F_authinfo; F_quit; F_help])).
Lemma commands_fine f : forallb (entry_fine f) (commands_for f) = true.
Proof.
  unfold commands_for, entry_fine, permitted.
  destruct (Z.land f af_read =? 0), (Z.land f af_post =? 0), (Z.land f af_debug =? 0); vm_compute; reflexivity.
Qed.

Lemma commands_found f k fn : cm_find k (commands_for f) = Some fn ->
  permitted f fn = true /\ (always_allowed k = true -> open_to_all fn).
Proof.
  intros H. apply cm_find_in in H as [d H]. pose proof (commands_fine f) as Hf. rewrite forallb_forall in Hf.
  apply list_elem_of_In, Hf, andb_true_iff in H as [Hp Ha]. cbn [fst snd] in *. split; [done|]. intros E.
  rewrite E in Ha. apply bool_decide_eq_true in Ha. rewrite !elem_of_cons, elem_of_nil in Ha. unfold open_to_all. tauto.
Qed.

Lemma dispatch_run argv st f fn : dispatch_of argv st (commands_for f) = d_run fn ->
  permitted f fn = true /\ (st = AUTH_REQUIRED -> open_to_all fn).
Proof.
  unfold dispatch_of. destruct argv as [|cmd argv]; [done|]. destruct (_ =? _)%nat; [done|].
  destruct (bool_decide (st = AUTH_REQUIRED)) eqn:Est, (always_allowed cmd) eqn:Ea; cbn [andb negb]; try done;
    destruct (cm_find cmd (commands_for f)) eqn:E; try done; intros [= <-];
    apply commands_found in E as [Hp Ho]; (split; [done|]).
  - intros _. by apply Ho.
  - intros _. by apply Ho.
  - intros ->. by rewrite bool_decide_eq_true_2 in Est.
Qed.

(** ** A check that fails changes nothing *)
Section check.
Context {users : Users}.

Lemma field_pure n e : (exists x, field n e = Ret x e) \/ (exists w, field n e = Abort w).
Proof. unfold field, bind, gets. destruct (getField n (authentication e)); [left|right]; by eexists. Qed.
Lemma type_is_pure v e : (exists x, type_is v e = Ret x e) \/ (exists w, type_is v e = Abort w).
Proof. unfold type_is, bind, gets. destruct (typeEqual v (authentication e)); [left|right]; by eexists. Qed.
Lemma cryptcheck_pure k p e : (exists x, cryptcheck k p e = Ret x e) \/ (exists w, cryptcheck k p e = Abort w).
Proof. unfold cryptcheck. destruct (auto_cryptcheck k p); [left|right]; by eexists. Qed.

Lemma or_rules_pure f x e : (exists g, or_rules f x e = Ret g e) \/ (exists w, or_rules f x e = Abort w).
Proof. unfold or_rules. destruct (filter_or f (new_filter x)); [left|right]; by eexists. Qed.

Lemma grant_ends n e : (exists e', grant n e = Ret tt e') \/ (exists w, grant n e = Abort w).
Proof.
  unfold grant. rewrite (bind_ret get _ e e e eq_refl).
  repeat match goal with
  | |- context [bind (field ?n) ?k ?e] =>
      destruct (field_pure n e) as [[? E]|[? E]]; [rewrite (bind_ret _ k _ _ _ E)|right; unfold bind; rewrite E; by eexists];
      clear E
  | |- context [bind (or_rules ?f ?x) ?k ?e] =>
      destruct (or_rules_pure f x e) as [[? E]|[? E]]; [rewrite (bind_ret _ k _ _ _ E)|right; unfold bind; rewrite E; by eexists];
      clear E
  | |- context [bind (modify ?f) ?k ?e] => rewrite (bind_ret (modify f) k tt e (f e) eq_refl)
  end.
  left. by eexists.
Qed.

Lemma check_ends u p e : check_authentication u p e <> Spin.
Proof.
  unfold check_authentication, bind at 1, gets. destruct (bool_decide _); [done|].
  destruct (bool_decide _); [|destruct (bool_decide _); [|done]].
  - unfold check_auth_unix, bind at 1. destruct (type_is_pure (bs "unix:") e) as [[x ->]|[w ->]]; [|done].
    destruct (negb x); [done|]. destruct (getpwnam u) as [[|c pw]|]; try done.
    destruct (if bool_decide _ then _ else _) as [pass|]; [|done].
    unfold bind at 1. destruct (cryptcheck_pure p pass e) as [[y ->]|[w ->]]; [|done].
    destruct (negb y); [done|]. unfold bind. by destruct (grant_ends 1 e) as [[e' ->]|[w ->]].
  - unfold check_auth_file, bind at 1. destruct (type_is_pure (bs "file:") e) as [[x ->]|[w ->]]; [|done].
    destruct (negb x); [done|]. unfold bind at 1.
    destruct (field_pure 1 e) as [[y ->]|[w ->]]; [|done].
    destruct (seekfile y u) as [authv|]; [|done]. destruct (_ <? _)%nat; [done|].
    unfold bind at 1. destruct (cryptcheck_pure p (nth 1 authv []) e) as [[z ->]|[w ->]]; [|done].
    destruct (negb z); [done|]. unfold bind at 1, modify. unfold bind.
    match goal with |- context [grant 2 ?e1] => by destruct (grant_ends 2 e1) as [[e' ->]|[w ->]] end.
Qed.

Lemma grant_true (c : M AccessEntry unit) e e' : (c ;;; ret true) e = Ret false e' -> False.
Proof. unfold bind. by destruct (c e). Qed.

Lemma check_false u p e e' : check_authentication u p e = Ret false e' -> e' = e.
Proof.
  unfold check_authentication, bind at 1, gets. destruct (bool_decide _); [by intros [= <-]|].
  destruct (bool_decide _); [|destruct (bool_decide _); [|by intros [= <-]]].
  - unfold check_auth_unix, bind at 1. destruct (type_is_pure (bs "unix:") e) as [[x ->]|[w ->]]; [|done].
    destruct (negb x); [by intros [= <-]|]. destruct (getpwnam u) as [[|c pw]|]; try by intros [= <-].
    destruct (if bool_decide _ then _ else _) as [pass|]; [|by intros [= <-]].
    unfold bind at 1. destruct (cryptcheck_pure p pass e) as [[y ->]|[w ->]]; [|done].
    destruct (negb y); [by intros [= <-]|]. intros H. by apply grant_true in H.
  - unfold check_auth_file, bind at 1. destruct (type_is_pure (bs "file:") e) as [[x ->]|[w ->]]; [|done].
    destruct (negb x); [by intros [= <-]|]. unfold bind at 1.
    destruct (field_pure 1 e) as [[y ->]|[w ->]]; [|done].
    destruct (seekfile y u) as [authv|]; [|by intros [= <-]]. destruct (_ <? _)%nat; [by intros [= <-]|].
    unfold bind at 1. destruct (cryptcheck_pure p (nth 1 authv []) e) as [[z ->]|[w ->]]; [|done].
    destruct (negb z); [by intros [= <-]|]. unfold bind at 1, modify. intros H. by apply grant_true in H.
Qed.
End check.

(** ** Sessions *)
Section sessions.
Context {site : Site} {users : Users} {clock : Clock}.
Context {S G : Type} {sv : NewsServer S G}.
Implicit Types c : ClientData S G.

Definition same_rights c c' : Prop :=
  access_entry c' = access_entry c /\ client_command_map c' = client_command_map c /\ cd_auth c' = cd_auth c.
#[local] Instance same_rights_order : PreOrder same_rights.
Proof. split; [done|]. intros c1 c2 c3 (? & ? & ?) (? & ? & ?). unfold same_rights. intuition congruence. Qed.

Lemma run_rights fn argv c r c' : fn <> F_authinfo -> run_func fn argv c = Ret r c' -> same_rights c c'.
Proof.
  intros Hf E. pose proof (calm_func same_rights (fun _ => True) (calm := calm_any same_rights ltac:(done) ltac:(done)
    ltac:(done) ltac:(done) ltac:(done) ltac:(done)) fn argv Hf ltac:(done) c) as H. by rewrite E in H.
Qed.

Definition same_service c c' : Prop := srvr c' = srvr c /\ cd_pos c' = cd_pos c.
#[local] Instance same_service_order : PreOrder same_service.
Proof. split; [done|]. intros c1 c2 c3 [? ?] [? ?]. unfold same_service. split; congruence. Qed.

(** authinfo: nothing happens to the rights, or a login succeeds. *)
Definition logged_in c c' : Prop := exists u p,
  check_authentication u p (access_entry c) = Ret true (access_entry c') /\ auth_state (cd_auth c') = AUTH_OK /\
  forall f, client_command_map c = commands_for f ->
    client_command_map c' = commands_for (access_flags (access_entry c')).
Definition same_state c c' : Prop :=
  access_entry c' = access_entry c /\ client_command_map c' = client_command_map c /\
  auth_state (cd_auth c') = auth_state (cd_auth c).

Lemma authinfo_error_spec argv c :
  match authinfo_error argv c with Ret _ c' => same_service c c' /\ same_state c c' | _ => False end.
Proof.
  unfold authinfo_error. cbv zeta. destruct (_ && _); [by cbn|]. by destruct (_ && _).
Qed.

Lemma authinfo_spec argv c :
  match ns_authinfo argv c with
  | Ret _ c' => same_service c c' /\ (same_state c c' \/ logged_in c c')
  | Throw _ c' => same_service c c'
  | Abort _ => True
  | Spin => True
  end.
Proof.
  assert (match authinfo_error argv c with
          | Ret _ c' => same_service c c' /\ (same_state c c' \/ logged_in c c') | _ => False end) as Herr.
  { pose proof (authinfo_error_spec argv c) as H. destruct (authinfo_error argv c); try done.
    destruct H. split; [done|by left]. }
  unfold ns_authinfo. cbv zeta. destruct (negb _); [by destruct (authinfo_error argv c)|].
  destruct (_ <? _)%nat; [by cbn; split; [|left]|]. unfold bind at 1, gets.
  destruct (strcaseeq _ _); [by cbn; split; [|left]|].
  destruct (strcaseeq _ _); [|by destruct (authinfo_error argv c)].
  destruct (bool_decide _); [by cbn; split; [|left]|].
  unfold bind at 1, modify. unfold bind at 1, on_access. cbn [access_entry put_auth].
  destruct (check_authentication _ _ _) as [[] e'|x e'| |] eqn:E; try done; cbn [negb].
  - cbn -[set_client_command_table]. split; [done|]. right. eexists _, _. split_and!; [exact E|done|].
    intros f Hm. by eapply (table_set (put_auth _ _) f).
  - apply check_false in E as ->. by cbn; split; [|left].
Qed.

Lemma authinfo_ends argv c : ns_authinfo argv c <> Spin.
Proof.
  assert (authinfo_error argv c <> Spin) as Herr.
  { pose proof (authinfo_error_spec argv c). by destruct (authinfo_error argv c). }
  unfold ns_authinfo. cbv zeta. destruct (negb _); [done|]. destruct (_ <? _)%nat; [done|]. unfold bind at 1, gets.
  destruct (strcaseeq _ _); [done|]. destruct (strcaseeq _ _); [|done]. destruct (bool_decide _); [done|].
  unfold bind at 1, modify. unfold bind at 1, on_access. cbn [access_entry put_auth].
  pose proof (check_ends (auth_user (cd_auth c)) (arg 2 argv) (access_entry c)).
  by destruct (check_authentication _ _ _) as [[] e'|x e'| |].
Qed.

(** The states between the requests of the session that starts in [c0]. *)
Inductive reached c0 : ClientData S G -> Prop :=
| reached_start : reached c0 (set_client_command_table
    (put_auth (Auth [] [] (initial_auth (authentication (access_entry c0))) 0) c0))
| reached_out b c : reached c0 c -> reached c0 (put_out b c)
| reached_in ist c : reached c0 c -> reached c0 (put_in ist c)
| reached_intr l c : reached c0 c -> reached c0 (put_intr l c)
| reached_turn req errc c r c' : reached c0 c -> request req errc c = Ret r c' -> reached c0 c'.

Definition table_ok c : Prop := client_command_map c = commands_for (access_flags (access_entry c)).

Lemma request_cases req errc c :
  let argv := split_request (strip_end (cstr req)) in
  let d := dispatch_of argv (auth_state (cd_auth c)) (client_command_map c) in
  match request req errc c with
  | Ret _ c' => (exists b, c' = put_out b c) \/
      exists fn r b c1, d = d_run fn /\ run_func fn argv c = Ret r c1 /\ c' = put_out b c1
  | Throw e c' => exists fn, d = d_run fn /\ run_func fn argv c = Throw e c'
  | Abort _ => True
  | Spin => exists fn, d = d_run fn /\ run_func fn argv c = Spin
  end.
Proof.
  cbv zeta. unfold request, bind, gets. cbv zeta. set (argv := split_request (strip_end (cstr req))).
  assert (c = put_out (cd_out c) c) as Ec by (by destruct c).
  destruct (dispatch_of _ _ _); cbn; try by left; eexists.
  destruct (run_func f argv c) as [r c1|e c1| |] eqn:E; [|by eexists|done|by eexists].
  destruct (_ && _); cbn; right; exists f, r; [by eexists _, c1|].
  exists (cd_out c1), c1. by destruct c1.
Qed.

Lemma table_start c0 a : table_ok c0 \/ client_command_map c0 = enableAll [] ->
  table_ok (set_client_command_table (put_auth a c0)).
Proof.
  intros [H|H].
  - eapply (table_set (put_auth a c0)). exact H.
  - eapply (table_set (put_auth a c0) 7). cbn [client_command_map put_auth]. rewrite H. vm_compute. reflexivity.
Qed.

Lemma turn_table fn argv c r c' : table_ok c -> run_func fn argv c = Ret r c' -> table_ok c'.
Proof.
  intros Ht Er. destruct (decide (fn = F_authinfo)) as [->|Hne].
  - pose proof (authinfo_spec argv c) as Ha. cbn [run_func] in Er. rewrite Er in Ha.
    destruct Ha as [_ [(Ha & Hm & _)|(u & p & _ & _ & Hm)]]; unfold table_ok; [by rewrite Ha, Hm|by eapply Hm].
  - destruct (run_rights _ _ _ _ _ Hne Er) as (Ha & Hm & _). unfold table_ok. by rewrite Ha, Hm.
Qed.

Lemma reached_table c0 c : table_ok c0 \/ client_command_map c0 = enableAll [] -> reached c0 c -> table_ok c.
Proof.
  intros H0. induction 1 as [|b c _ IH|ist c _ IH|l c _ IH|req errc c r c' _ IH E]; [|done..|].
  - by apply table_start.
  - pose proof (request_cases req errc c) as H. cbv zeta in H. rewrite E in H.
    destruct H as [[b ->]|(fn & r1 & b & c1 & _ & Er & ->)]; [done|]. by apply (turn_table fn _ c _ c1 IH Er).
Qed.

(** The states the loop goes through are the reached ones. *)
Lemma loop_reached c0 : forall n errc c u c', reached c0 c -> nnrpd_loop n errc c = Ret u c' -> reached c0 c'.
Proof.
  induction n as [|n IH]; intros errc c u c' Hr; cbn [nnrpd_loop]; [done|].
  unfold bind at 1, gets. destruct (getline_buf 1024 (cd_in c)) as [req ist].
  unfold bind at 1, modify. apply (reached_in _ ist) in Hr. set (c1 := put_in ist c) in *.
  assert (exists i c2, next_interrupt c1 = Ret i c2 /\ reached c0 c2) as (i & c2 & Ei & Hr2).
  { unfold next_interrupt, bind, gets. destruct (cd_intr c1) as [|i l]; [by eexists _, _|].
    eexists _, _. split; [reflexivity|]. by apply reached_intr. }
  unfold bind at 1. rewrite Ei. destruct i as [[]|].
  1,2: intros [= <- <-]; by apply reached_out.
  destruct (negb (good ist)); [by intros [= <- <-]|]. unfold bind at 1.
  destruct (request req errc c2) as [r c3|e c3| |] eqn:Eq; try done.
  pose proof (reached_turn _ _ _ _ _ _ Hr2 Eq) as Hr3. destruct (snd r); [by intros [= <- <-]|].
  destruct (_ || _); [by apply IH|by intros [= <- <-]].
Qed.

(** C5: throughout a session the table of commands is that of the flags of the access
    entry, also after a login changed them.  A request runs a function only when the
    flags permit it: the commands for reading with [read], post with [post], xdebug with
    [debug].  While authentication is required it runs none but authinfo, quit and
    help. *)
Theorem commands_follow_flags ist intr s e c : let c0 := new_client ist intr s e in
  (forall u, nnrpd_session c0 = Ret u c -> access_flags e <> 0 -> reached c0 c) /\
  (reached c0 c ->
   client_command_map c = commands_for (access_flags (access_entry c)) /\
   forall req fn,
     dispatch_of (split_request req) (auth_state (cd_auth c)) (client_command_map c) = d_run fn ->
     permitted (access_flags (access_entry c)) fn = true /\
     (auth_state (cd_auth c) = AUTH_REQUIRED -> open_to_all fn)).
Proof.
  cbv zeta. set (c0 := new_client ist intr s e). split.
  - intros u E Hf. unfold nnrpd_session in E. unfold bind at 1, gets in E.
    change (access_entry c0) with e in E. destruct (access_flags e =? 0) eqn:Ef; [by apply Z.eqb_eq in Ef|].
    unfold bind at 1, modify, bind at 1, bind at 1, bind at 1, gets in E.
    unfold reply, say, modify in E. refine (loop_reached c0 _ _ _ _ _ _ E). apply reached_out, reached_start.
  - intros Hr. assert (table_ok c) as Ht by (apply (reached_table c0); [by right|done]). split; [exact Ht|].
    intros req fn. rewrite Ht. apply dispatch_run.
Qed.

(** ** No login, no service *)

(** The argument of a request [authinfo user] or [authinfo pass]. *)
Definition authinfo_arg (w : string) (argv : list bytes) : option bytes :=
  match argv with
  | [cmd; what; v] =>
      if bool_decide (cmd = bs "authinfo") && negb (511 <? length v)%nat && strcaseeq what (bs w) then Some v else None
  | _ => None
  end.
Definition words_of (req : bytes) : list bytes := split_request (strip_end (cstr req)).

(** [tries u ist u' p]: a client that gave the user [u] and will send [ist] gives the
    password [p] when the user it gave last is [u']. *)
Inductive tries (u : bytes) (ist : istream) (u' p : bytes) : Prop :=
| tries_now req ist' : getline_buf 1024 ist = (req, ist') -> good ist' = true ->
    authinfo_arg "pass" (words_of req) = Some p -> u <> [] -> u' = u -> tries u ist u' p
| tries_later req ist' : getline_buf 1024 ist = (req, ist') -> good ist' = true ->
    tries (default u (authinfo_arg "user" (words_of req))) ist' u' p -> tries u ist u' p.

(** Nobody is logged in: the server, the place and the rights are as in the beginning,
    and the client gave the user [u]. *)
Record barred s p e u c : Prop := {
  ba_srvr : srvr c = s; ba_pos : cd_pos c = p; ba_access : access_entry c = e;
  ba_state : auth_state (cd_auth c) = AUTH_REQUIRED; ba_table : table_ok c;
  ba_user : auth_user (cd_auth c) = u
}.

Lemma barred_same s p e u c c' : barred s p e u c -> srvr c' = srvr c -> cd_pos c' = cd_pos c ->
  access_entry c' = access_entry c -> cd_auth c' = cd_auth c -> client_command_map c' = client_command_map c ->
  barred s p e u c'.
Proof. intros [Hs Hp He Ha Ht Hu] E1 E2 E3 E4 E5. split; unfold table_ok in *; congruence. Qed.

Lemma strcaseeq_user_pass w : strcaseeq w (bs "user") = true -> strcaseeq w (bs "pass") = false.
Proof.
  destruct w as [|c w]; [done|]. unfold strcaseeq. cbn. intros H%bool_decide_eq_true. apply bool_decide_eq_false.
  intros E. rewrite E in H. discriminate.
Qed.

(** authinfo with a password that is rejected. *)
Lemma authinfo_rejected s p e u argv c : barred s p e u c -> head argv = Some (bs "authinfo") ->
  (forall pw, authinfo_arg "pass" argv = Some pw -> u <> [] -> check_authentication u pw e = Ret false e) ->
  wp (ns_authinfo argv) (fun _ c' => barred s p e (default u (authinfo_arg "user" argv)) c' /\ cd_in c' = cd_in c) c.
Proof.
  intros Hb Hh Hno. pose proof Hb as [Hs Hp He Ha Ht Hu].
  assert (forall t z, wp (answer t z) (fun _ c' => barred s p e u c' /\ cd_in c' = cd_in c) c) as Hans.
  { intros t z. split; [by apply (barred_same s p e u c)|done]. }
  assert (authinfo_arg "user" argv = None -> wp (authinfo_error argv)
    (fun _ c' => barred s p e (default u (authinfo_arg "user" argv)) c' /\ cd_in c' = cd_in c) c) as Herr.
  { intros ->. cbn [default]. unfold authinfo_error. cbv zeta. destruct (_ && _); [apply Hans|]. destruct (_ && _); apply Hans. }
  unfold ns_authinfo. cbv zeta. destruct (length argv =? 3)%nat eqn:El; cbn [negb].
  2: { apply Herr. destruct argv as [|? [|? [|? [|? ?]]]]; done. }
  destruct argv as [|cmd [|what [|v [|? ?]]]]; try done. injection Hh as ->.
  change (arg 2 _) with v. change (arg 1 _) with what. cbn [authinfo_arg] in *. rewrite bool_decide_eq_true_2 in * by done.
  cbn [andb] in *. destruct (511 <? length v)%nat; cbn [negb andb] in *; [apply Hans|].
  wstep. wstep. destruct (strcaseeq what (bs "user")) eqn:Eu.
  - wstep. wstep. split; [|done]. split; try done.
  - destruct (strcaseeq what (bs "pass")) eqn:Ep; [|by apply Herr]. rewrite Hu.
    case_bool_decide as Hne; [apply Hans|]. wstep. wstep. unfold wp at 1, bind at 1, on_access. cbn [access_entry put_auth].
    rewrite He, (Hno v) by done. cbn. split; [|done]. split; try done. unfold table_ok in *. cbn. congruence.
Qed.

Lemma commands_authinfo f : cm_find (bs "authinfo") (commands_for f) = Some F_authinfo.
Proof.
  unfold commands_for. destruct (Z.land f af_read =? 0), (Z.land f af_post =? 0), (Z.land f af_debug =? 0);
    vm_compute; reflexivity.
Qed.
Lemma only_authinfo f k : cm_find k (commands_for f) = Some F_authinfo -> k = bs "authinfo".
Proof.
  intros [d H]%cm_find_in. assert (forallb (fun x : nnrp_command_t => negb (bool_decide (snd (snd x) = F_authinfo)) ||
    bool_decide (fst x = bs "authinfo")) (commands_for f) = true) as Hf.
  { unfold commands_for. destruct (Z.land f af_read =? 0), (Z.land f af_post =? 0), (Z.land f af_debug =? 0);
      vm_compute; reflexivity. }
  rewrite forallb_forall in Hf. apply list_elem_of_In, Hf in H. cbn in H. by apply bool_decide_eq_true in H.
Qed.

(** Who sends authinfo gets to ns_authinfo, and nobody else does. *)
Lemma dispatch_authinfo argv st f v : authinfo_arg v argv <> None -> dispatch_of argv st (commands_for f) = d_run F_authinfo.
Proof.
  unfold authinfo_arg. destruct argv as [|cmd [|what [|a [|? ?]]]]; try done. case_bool_decide as E; [|done]. intros _. subst.
  unfold dispatch_of. cbn [length Nat.eqb]. change (always_allowed (bs "authinfo")) with true.
  rewrite andb_false_r. by rewrite commands_authinfo.
Qed.
Lemma dispatch_head argv st f : dispatch_of argv st (commands_for f) = d_run F_authinfo -> head argv = Some (bs "authinfo").
Proof.
  unfold dispatch_of. destruct argv as [|cmd argv]; [done|]. destruct (_ =? _)%nat; [done|]. destruct (_ && _); [done|].
  destruct (cm_find _ _) as [[]|] eqn:E; try done. by apply only_authinfo in E as ->.
Qed.

(** A request of a client whose password, if it gives one, is rejected. *)
Lemma barred_request s p e u req errc c : barred s p e u c ->
  (forall pw, authinfo_arg "pass" (words_of req) = Some pw -> u <> [] -> check_authentication u pw e = Ret false e) ->
  wp (request req errc) (fun _ c' =>
    barred s p e (default u (authinfo_arg "user" (words_of req))) c' /\ cd_in c' = cd_in c) c.
Proof.
  intros Hb Hno. pose proof Hb as [_ _ _ Ha Ht _]. unfold request. fold (words_of req). cbv zeta.
  set (argv := words_of req) in *. wstep. wstep. wstep. wstep. rewrite Ha, Ht.
  set (f := access_flags (access_entry c)).
  assert (forall b d, dispatch_of argv AUTH_REQUIRED (commands_for f) = d -> d <> d_run F_authinfo ->
    barred s p e (default u (authinfo_arg "user" argv)) (put_out b c) /\ cd_in (put_out b c) = cd_in c) as Hsame.
  { intros b d Ed Hd. destruct (authinfo_arg "user" argv) eqn:Eu; [by rewrite (dispatch_authinfo argv _ f "user") in Ed by congruence; subst|].
    split; [|done]. by apply (barred_same s p e u c). }
  assert (forall c' (r : Z), barred s p e (default u (authinfo_arg "user" argv)) c' /\ cd_in c' = cd_in c ->
    wp (a <- gets cd_auth ;;
      if (Z.land (LogStyle cfg) LogINN =? 0) && (auth_max_failures <=? auth_failures a) then
        reply (bs "400 " ++ package_version ++ bs ", service discontinued (max passwords retries)") ;;; ret (r, true)
      else ret (r, false)) (fun _ c' => barred s p e (default u (authinfo_arg "user" argv)) c' /\ cd_in c' = cd_in c) c') as Hend.
  { intros c' r [Hb' Hi]. wstep. wstep. destruct (_ && _); [|done]. wstep. split; [by eapply barred_same|done]. }
  destruct (dispatch_of argv AUTH_REQUIRED (commands_for f)) as [| | | |fn] eqn:Ed.
  - wstep. replace c with (put_out (cd_out c) c) by (by destruct c). by apply (Hsame _ d_nothing).
  - wstep. by apply (Hsame _ d_too_long).
  - wstep. by apply (Hsame _ d_auth).
  - wstep. by apply (Hsame _ d_unknown).
  - wstep. destruct (dispatch_run _ _ _ _ Ed) as [_ [-> |[-> | ->]]]; [done|..]; cbn [run_func].
    + eapply wp_mono; [apply (authinfo_rejected s p e u argv c Hb); [by eapply dispatch_head|done]|].
      intros r c'. by apply Hend.
    + apply Hend, (Hsame _ (d_run F_quit)); done.
    + apply Hend, (Hsame _ (d_run F_help)); done.
Qed.

Lemma getline_shrinks n ist req ist' : getline_buf n ist = (req, ist') -> good ist' = true ->
  (length (s_rest ist') < length (s_rest ist))%nat.
Proof.
  unfold getline_buf. destruct (good ist); cbn [negb]; [|intros [= <- <-]; by destruct (s_eof ist)].
  destruct (_ <=? _)%nat; [by intros [= <- <-]|].
  pose proof (skip_while_length (fun x => negb (bool_decide (x = LF))) (s_rest ist)) as Hl.
  destruct (skip_while _ _) as [|x r]; intros [= <- <-]; [done|]. cbn [s_rest length] in *. lia.
Qed.

Lemma barred_loop s p e : forall n errc u c, barred s p e u c -> (length (s_rest (cd_in c)) < n)%nat ->
  (forall u' pw, tries u (cd_in c) u' pw -> check_authentication u' pw e = Ret false e) ->
  wp (nnrpd_loop n errc) (fun _ c' => exists u', barred s p e u' c') c.
Proof.
  induction n as [|n IH]; intros errc u c Hb Hn Hno; [lia|]. cbn [nnrpd_loop].
  wstep. wstep. destruct (getline_buf 1024 (cd_in c)) as [req ist] eqn:Eg. wstep. wstep. wstep.
  assert (barred s p e u (put_in ist c)) as Hb1 by by apply (barred_same s p e u c).
  set (c1 := put_in ist c) in *.
  assert (wp next_interrupt (fun _ c' => barred s p e u c' /\ cd_in c' = ist) c1) as Hi.
  { unfold next_interrupt. wstep. wstep. destruct (cd_intr c1); wstep; [done|]. wstep. wstep.
    split; [by apply (barred_same s p e u c1)|done]. }
  eapply wp_mono; [exact Hi|]. cbv beta. intros i c2 [Hb2 Hi2].
  destruct i as [[]|]; [exists u; by apply (barred_same s p e u c2)..|].
  destruct (good ist) eqn:Egood; cbn [negb]; [|by exists u]. wstep.
  eapply wp_mono; [apply (barred_request s p e u req errc c2 Hb2)|].
  { intros pw Hp Hne. apply Hno. by eapply tries_now. }
  intros r c3 [Hb3 Hi3]. destruct (snd r); [by eexists|]. destruct (_ || _); [|by eexists].
  eapply IH; [exact Hb3| |].
  - rewrite Hi3, Hi2. pose proof (getline_shrinks _ _ _ _ Eg Egood). lia.
  - intros u' pw Ht. apply Hno. eapply tries_later; [exact Eg|done|]. by rewrite Hi3, Hi2 in Ht.
Qed.

(** C4: where authentication is required, a client each of whose passwords is rejected for
    the user it gave last gets nothing, whatever accounts the site has: its session
    ends (there is no way out by an exception or by undefined behaviour), the server is
    in the state it was in, no newsgroup and no article is selected, and the rights of
    the client are those of its entry, which still asks for authentication. *)
Theorem no_login_no_service ist intr s e :
  initial_auth (authentication e) = AUTH_REQUIRED ->
  (forall u pw, tries [] ist u pw -> check_authentication u pw e = Ret false e) ->
  wp nnrpd_session (fun _ c => srvr c = s /\ cd_pos c = Pos [] None (-1) /\ access_entry c = e /\
    (access_flags e <> 0 -> auth_state (cd_auth c) = AUTH_REQUIRED)) (new_client ist intr s e).
Proof.
  intros Ha Hno. unfold nnrpd_session. wstep. wstep. change (access_entry (new_client ist intr s e)) with e.
  destruct (access_flags e =? 0) eqn:Ef; [apply wp_modify; split_and!; try done; by apply Z.eqb_eq in Ef|].
  unfold reply, say. repeat wstep. eapply wp_mono; [apply (barred_loop s (Pos [] None (-1)) e _ _ [])|].
  - split; try done.
  - cbn. lia.
  - exact Hno.
  - by intros _ c [u []].
Qed.
End sessions.

(** ** Two sessions with the caching server *)
Section example.
#[local] Existing Instance good_os.
#[local] Instance ex_env : Env := {|
  nntp_hostname := bs "cache"; nntp_posting_host := []; env_pid := 77; env_tv_sec := 1000
|}.
#[local] Instance ex_users : Users := {|
  getpwnam _ := None; getspnam _ := None; crypt _ p := p; file_content _ := None; ulong_bytes := 8
|}.
#[local] Instance ex_clock : Clock := {| time_now := 1000000000; timezone := 0 |}.
#[local] Instance ex_site : Site := {|
  cfg := conf_init (bs "cache"); package_version := bs "NewsCache 1"; co_good _ := true
|}.
#[local] Instance ex_news : NewsServer cclient nat :=
  cserver_news (bs "/var/cache") (replicate sizeof_GroupInfo NUL) (ArrExt 0 0 0) 0.

Definition ex_srv : cclient :=
  CClient (CSrv (ex_rserver (Obj (new_container ∅) (HashExt 0 0))) (Spooler [] [] [] []) 100) [] ∅.
Definition ex_entry (auth : bytes) (flags : Z) : AccessEntry :=
  set_authentication (auth_set auth) (set_access_flags flags (new_access [])).
Definition ex_line (s : string) : bytes := bs s ++ [CR; LF].
Definition ex_input : istream := IStream (ex_line "help" ++ ex_line "post" ++ ex_line "quit") false false.

(** A site with the account of hugo, and a client that does not know his password. *)
#[local] Instance ex_accounts : Users := {|
  getpwnam u := if bool_decide (u = bs "hugo") then Some (bs "terces") else None;
  getspnam _ := None; crypt k _ := rev k; file_content _ := None; ulong_bytes := 8
|}.
Definition ex_guess : istream :=
  IStream (ex_line "authinfo user hugo" ++ ex_line "authinfo pass guess" ++ ex_line "group a.b" ++ ex_line "quit") false false.

(** The next line of the client. *)
Ltac next_try H :=
  let E := fresh in let Eg := fresh in
  destruct H as [? ? E Eg H ? ->|? ? E Eg H]; vm_compute in E; injection E as <- <-; try discriminate Eg; clear Eg;
  let t := type of H in let t' := eval vm_compute in t in change t' in H; try discriminate H.

Lemma ex_guess_tries u pw : tries [] ex_guess u pw -> u = bs "hugo" /\ pw = bs "guess".
Proof.
  intros H. next_try H. next_try H; [by injection H as <-|]. do 3 next_try H.
Qed.

Lemma no_login_no_service_witness :
  (exists w, check_authentication (bs "hugo") (bs "secret") (ex_entry (bs "unix") 7) = Abort w) /\
  check_authentication (bs "hugo") (bs "guess") (ex_entry (bs "unix") 7) = Ret false (ex_entry (bs "unix") 7) /\
  initial_auth (authentication (ex_entry (bs "unix") 7)) = AUTH_REQUIRED /\
  wp (nnrpd_session : M (ClientData cclient nat) unit) (fun _ c => srvr c = ex_srv /\ cd_pos c = Pos [] None (-1) /\
    access_entry c = ex_entry (bs "unix") 7 /\ (access_flags (ex_entry (bs "unix") 7) <> 0 -> auth_state (cd_auth c) = AUTH_REQUIRED))
    (new_client ex_guess [] ex_srv (ex_entry (bs "unix") 7)).
Proof.
  split; [eexists; vm_compute; reflexivity|]. split; [vm_compute; reflexivity|]. split; [reflexivity|].
  apply no_login_no_service; [reflexivity|].
  intros u pw [-> ->]%ex_guess_tries. vm_compute. reflexivity.
Defined.

Definition ex_end : ClientData cclient nat :=
  match nnrpd_session (new_client ex_input [] ex_srv (ex_entry (bs "unix:*:*:*:read") 1)) with
  | Ret _ c => c | _ => new_client ex_input [] ex_srv (ex_entry [] 0) end.

Lemma commands_follow_flags_witness :
  reached (new_client ex_input [] ex_srv (ex_entry (bs "unix:*:*:*:read") 1)) ex_end /\
  client_command_map ex_end = commands_for 1 /\
  dispatch_of (split_request (bs "post")) (auth_state (cd_auth ex_end)) (client_command_map ex_end) = d_unknown.
Proof.
  destruct (commands_follow_flags ex_input [] ex_srv (ex_entry (bs "unix:*:*:*:read") 1) ex_end) as [H1 H2].
  assert (reached (new_client ex_input [] ex_srv (ex_entry (bs "unix:*:*:*:read") 1)) ex_end) as Hr.
  { apply (H1 tt); [vm_compute; reflexivity|discriminate]. }
  split; [exact Hr|]. split; [apply (H2 Hr)|vm_compute; reflexivity].
Defined.
End example.
