(* ===== verification/Connect.v ===== *)
(** * Connect.v: a client connects

    The beginning of nnrpd in src/NewsCache.cc: the name of the client and that of the
    log, the TCP wrappers, and the caching server that is made for a client with
    access.  The rest of nnrpd is in Nnrpd.v. *)
From S2P Require Import Prelude Text Article Matching GroupInfo OverviewFmt.
From S2P Require Import ServerList.
From S2P Require Import AccessList.
From S2P Require Import Config.
From S2P Require Import NnrpAuth.
From S2P Require Import Calendar.
From S2P Require Import ClientData.
From S2P Require Import Nnrp.
From S2P Require Import Nnrpd.
From S2P Require Import CServer.
From S2P Require Import CClient.
From S2P Require Import NnrpdSafe.

(** Where the client is: on the standard input, on a descriptor without an address, or
    at an address, with its text and the name gethostbyaddr finds. *)
Inductive peer := OnStdin | NoAddress (fd : Z) | Peer (addr : Z) (ntoa : bytes) (host : option bytes).

(** [strncpy] into [client_name], with the terminator in its last place. *)
Definition client_name (p : peer) : bytes :=
  match p with
  | OnStdin => bs "stdin"
  | NoAddress fd => bs "fd#" ++ dec fd
  | Peer _ ntoa host => take (MAXHOSTNAMELEN - 1) (default ntoa host)
  end.
Definition client_logname (LogStyle : Z) (p : peer) : bytes :=
  match p with
  | Peer _ ntoa _ =>
      let n := if negb (Z.land LogStyle LogName =? 0) then client_name p else [] in
      if negb (Z.land LogStyle LogAddr =? 0)
      then n ++ (if bool_decide (n = []) then bs "[" else bs " [") ++ ntoa ++ bs "]" else n
  | _ => client_name p
  end.
(** What [nntp_posting_host] is then. *)
Definition posting_host (before : bytes) (p : peer) : bytes :=
  match p with Peer _ _ _ => client_name p | _ => before end.
(** [clt.sock.sin_addr]: without an address it holds what the memory held. *)
Definition sin_addr (memory : Z) (p : peer) : Z := match p with Peer a _ _ => a | _ => memory end.

(** What a connection comes to: a refusal with its text and the exit status, an
    exception, or a session. *)
Inductive connection (S G : Type) :=
| Refused (text : bytes) (status : Z)
| Failed (e : exn)
| Session (o : outcome (ClientData S G) unit).
Arguments Refused {S G} text status.
Arguments Failed {S G} e.
Arguments Session {S G} o.

Section connect.
Context {site : Site} {users : Users} {clock : Clock} {inet : Inet}.
Context {S G : Type} {sv : NewsServer S G}.

Definition no_permission : bytes := bs "502 You have no permission to talk.  Goodbye." ++ [LF].

(** hosts_ctl of libwrap, [None] without HAVE_LIBWRAP. *)
Definition wrapped (hosts_ctl : option (bytes -> bytes -> bool)) (p : peer) : bool :=
  match hosts_ctl, p with
  | Some allowed, Peer _ ntoa _ => allowed (client_name p) ntoa
  | _, _ => true
  end.

(** [make] is what the constructor of CServer and setttl give. *)
Definition connect_client (hosts_ctl : option (bytes -> bytes -> bool)) (before : ascii) (memory : Z) (p : peer)
    (make : exn + S) (ist : istream) (intr : list (option interrupt)) : connection S G :=
  if negb (wrapped hosts_ctl p) then Refused no_permission 0 else
  match client before (clnts cfg) (client_name p) (sin_addr memory p) ≫= (fun i => clnts cfg !! i) with
  | None => Refused no_permission 0
  | Some e =>
      if access_flags e =? 0 then Refused no_permission 0 else
      match make with
      | inl (SystemError _ _ | IOError _) => Refused (bs "400 " ++ package_version ++ bs ", service not available" ++ [CR; LF]) 1
      | inl x => Failed x
      | inr s => Session (nnrpd_session (new_client ist intr s e))
      end
  end.

(** ** Who gets a session *)
Lemma client_from_finds before i v name addr j : client_from before i v name addr = Some j ->
  exists e, v !! (j - i)%nat = Some e /\ (i <= j)%nat /\ (matchaddress before (ae_hostname e) name addr = true \/ ae_hostname e = []) /\
    forall k d, (k < j - i)%nat -> v !! k = Some d -> matchaddress before (ae_hostname d) name addr = false /\ ae_hostname d <> [].
Proof.
  revert i. induction v as [|e v IH]; intros i; cbn [client_from]; [done|].
  destruct (matchaddress before (ae_hostname e) name addr || bool_decide (ae_hostname e = [])) eqn:E.
  - intros [= <-]. exists e. rewrite Nat.sub_diag. split_and!; [done|lia| |intros; lia].
    apply orb_true_iff in E as [E|E]; [by left|right; by apply bool_decide_eq_true in E].
  - intros H. apply IH in H as (e' & E1 & Hle & Hm & Hno). exists e'.
    replace (j - i)%nat with (Datatypes.S (j - Datatypes.S i)) by lia. split_and!; [exact E1|lia|exact Hm|].
    apply orb_false_iff in E as [Ea Eb]. apply bool_decide_eq_false in Eb.
    intros [|k] d Hk Hd; [cbn in Hd; injection Hd as <-; by split|]. apply (Hno k); [lia|exact Hd].
Qed.

(** C3: a client gets a session with the rights of the first entry of the access list
    that matches its name or address or has no host, when that entry allows something
    and the TCP wrappers let it in; nobody else does, whatever the server. *)
Theorem session_by_first_entry hosts_ctl before memory p make ist intr o :
  connect_client hosts_ctl before memory p make ist intr = Session o ->
  wrapped hosts_ctl p = true /\
  exists s i e, make = inr s /\ o = nnrpd_session (new_client ist intr s e) /\ clnts cfg !! i = Some e /\
    access_flags e <> 0 /\
    (matchaddress before (ae_hostname e) (client_name p) (sin_addr memory p) = true \/ ae_hostname e = []) /\
    forall k d, (k < i)%nat -> clnts cfg !! k = Some d ->
      matchaddress before (ae_hostname d) (client_name p) (sin_addr memory p) = false /\ ae_hostname d <> [].
Proof.
  unfold connect_client. destruct (wrapped hosts_ctl p); cbn [negb]; [|done].
  destruct (client before (clnts cfg) (client_name p) (sin_addr memory p)) as [i|] eqn:Ec; cbn [mbind option_bind]; [|done].
  apply client_from_finds in Ec as (e & Ei & _ & Hm & Hno). rewrite Nat.sub_0_r in Ei, Hno. rewrite Ei.
  destruct (Z.eqb_spec (access_flags e) 0); [done|]. destruct make as [[]|s]; try done. intros [= <-]. split; [done|].
  exists s, i, e. by split_and!.
Qed.
End connect.

(** ** Two entries *)
Section example.
#[local] Existing Instance ex_env.
#[local] Existing Instance ex_users.
#[local] Existing Instance ex_clock.
#[local] Existing Instance ex_news.
(** Readers of the domain .test may read, machines of the network 10.0.0.0 may do all. *)
#[local] Instance two_site : Site := {|
  cfg := set_lists [set_access_flags 1 (new_access (bs ".test")); set_access_flags 7 (new_access (bs "10.0.0.0/255.0.0.0"))] []
           (conf_init (bs "cache"));
  package_version := bs "NewsCache 1"; co_good _ := true
|}.
#[local] Instance two_inet : Inet := {|
  inet_aton s := if bool_decide (s = bs "10.0.0.0") then Some 167772160
                 else if bool_decide (s = bs "255.0.0.0") then Some 4278190080 else None
|}.

Lemma session_by_first_entry_witness :
  connect_client None NUL 0 (Peer 167772161 (bs "10.0.0.1") (Some (bs "a.test"))) (inr ex_srv) ex_input [] =
    Session (nnrpd_session (new_client ex_input [] ex_srv (set_access_flags 1 (new_access (bs ".test"))))) /\
  wrapped None (Peer 167772161 (bs "10.0.0.1") (Some (bs "a.test"))) = true.
Proof.
  assert (connect_client None NUL 0 (Peer 167772161 (bs "10.0.0.1") (Some (bs "a.test"))) (inr ex_srv) ex_input [] =
    Session (nnrpd_session (new_client ex_input [] ex_srv (set_access_flags 1 (new_access (bs ".test")))))) as E by reflexivity.
  split; [exact E|]. exact (proj1 (session_by_first_entry None NUL 0 _ _ _ _ _ E)).
Defined.

(** On the standard input the address is what the memory held: it decides whether the
    client has the rights of the network. *)
Lemma stdin_by_memory :
  connect_client None NUL 0 OnStdin (inr ex_srv) ex_input [] = Refused no_permission 0 /\
  connect_client None NUL 167772161 OnStdin (inr ex_srv) ex_input [] =
    Session (nnrpd_session (new_client ex_input [] ex_srv (set_access_flags 7 (new_access (bs "10.0.0.0/255.0.0.0"))))).
Proof. split; reflexivity. Qed.
End example.
