(* ===== verification/NnrpdReads.v ===== *)
(** * NnrpdReads.v: what a client is shown

    The newsgroup a client is in is one it may read, the lists hold the groups it may
    see, next finds the next article there is, and requests that fail are answered. *)
From S2P Require Import Prelude Text Article Matching GroupInfo OverviewFmt.
From S2P Require Import ServerList.
From S2P Require Import RServer RNews.
From S2P Require Import RSafe RPost CServer.
From S2P Require Import AccessList.
From S2P Require Import Config.
From S2P Require Import NnrpAuth.
From S2P Require Import Calendar.
From S2P Require Import ClientData.
From S2P Require Import Nnrp.
From S2P Require Import Nnrpd.
From S2P Require Import NnrpdKeeps.
From S2P Require Import NnrpdSafe.

Section reads.
Context {site : Site} {users : Users} {clock : Clock}.
Context {S G : Type} {sv : NewsServer S G}.
Implicit Types c : ClientData S G.

(** ** The group the client is in *)
Definition may_read (e : AccessEntry) (name : bytes) : Prop := exists n, matches (ae_read e) name = Some n /\ 0 < n.
Definition in_permitted (e : AccessEntry) c : Prop :=
  groupname (cd_pos c) = [] \/ may_read e (groupname (cd_pos c)).

Definition stays (e : AccessEntry) c c' : Prop := access_entry c = e ->
  access_entry c' = e /\ client_command_map c' = client_command_map c /\ (in_permitted e c -> in_permitted e c').
#[local] Instance stays_order e : PreOrder (stays e).
Proof.
  split; [by intros c|]. intros c1 c2 c3 H1 H2 E. destruct (H1 E) as (E2 & M2 & P2).
  destruct (H2 E2) as (E3 & M3 & P3). split_and!; [done|congruence|by intros H; apply P3, P2].
Qed.
Lemma stays_calm e : Calm (stays e) (fun _ => True).
Proof. apply calm_any; [apply _|by intros ? ? E..]. Qed.
Lemma stays_name e name c : may_read e name -> stays e c (put_name name c).
Proof. intros H E. split_and!; [done|done|]. intros _. by right. Qed.

Definition harmless (e : AccessEntry) (fn : nnrp_func) (argv : list bytes) : Prop :=
  fn <> F_authinfo /\ (fn = F_listgroup -> length argv = 2%nat -> may_read e (arg 1 argv)).

Lemma run_group argv c :
  match ns_group argv c with Ret _ c' | Throw _ c' => stays (access_entry c) c c' | _ => True end.
Proof.
  set (e := access_entry c). destruct (matches (ae_read e) (arg 1 argv)) as [m|] eqn:Em; [destruct (Z.leb_spec m 0)|].
  2: { assert (may_read e (arg 1 argv)) as Hm by (by exists m).
       pose proof (calm_ns_group (stays e) (fun _ => True) (calm := stays_calm e) argv
         (fun _ c1 => stays_name e (arg 1 argv) c1 Hm) c) as Hk.
       by destruct (ns_group argv c). }
  all: unfold ns_group; destruct (negb _); [done|]; unfold bind at 1, gets; fold e; unfold matches_; rewrite Em; cbn; try done.
  unfold bind at 1, ret. by destruct (Z.leb_spec m 0); [|lia].
Qed.

Lemma run_stays fn argv c : harmless (access_entry c) fn argv ->
  match run_func fn argv c with Ret _ c' | Throw _ c' => stays (access_entry c) c c' | _ => True end.
Proof.
  intros [Ha Hl]. destruct (decide (fn = F_group)) as [->|Hg]; [apply run_group|].
  pose proof (calm_func (stays (access_entry c)) (fun _ => True) (calm := stays_calm (access_entry c)) fn argv Ha) as H.
  specialize (H ltac:(intros [?|Hf] Hlen c1; [done|]; apply stays_name; by apply Hl) c). by destruct (run_func fn argv c).
Qed.

(** The names of the commands. *)
Lemma command_names f k fn : cm_find k (commands_for f) = Some fn ->
  (fn = F_authinfo -> k = bs "authinfo") /\ (fn = F_listgroup -> k = bs "listgroup").
Proof.
  intros H. apply cm_find_in in H as [d H].
  assert (forallb (fun x : nnrp_command_t =>
    (negb (bool_decide (snd (snd x) = F_authinfo)) || bool_decide (fst x = bs "authinfo")) &&
    (negb (bool_decide (snd (snd x) = F_listgroup)) || bool_decide (fst x = bs "listgroup"))) (commands_for f) = true) as Hf.
  { unfold commands_for. destruct (Z.land f af_read =? 0), (Z.land f af_post =? 0), (Z.land f af_debug =? 0);
      vm_compute; reflexivity. }
  rewrite forallb_forall in Hf. apply list_elem_of_In, Hf, andb_true_iff in H as [H1 H2]. cbn [fst snd] in *.
  split; intros ->; [revert H1|revert H2]; by rewrite bool_decide_eq_true_2 by done; cbn [negb orb]; intros ?%bool_decide_eq_true.
Qed.

(** A request that is no login, and no listgroup of a group that may not be read. *)
Definition browses (e : AccessEntry) (req : bytes) : Prop :=
  let argv := split_request (strip_end (cstr req)) in
  arg 0 argv <> bs "authinfo" /\ (arg 0 argv = bs "listgroup" -> length argv = 2%nat -> may_read e (arg 1 argv)).

Lemma request_stays req errc c : table_ok c -> browses (access_entry c) req ->
  match request req errc c with Ret _ c' | Throw _ c' => stays (access_entry c) c c' | _ => True end.
Proof.
  intros Ht [Hb1 Hb2]. pose proof (request_cases req errc c) as Hq. cbv zeta in Hq.
  set (argv := split_request (strip_end (cstr req))) in *.
  assert (forall fn, dispatch_of argv (auth_state (cd_auth c)) (client_command_map c) = d_run fn ->
    harmless (access_entry c) fn argv) as Hh.
  { intros fn. rewrite Ht. unfold dispatch_of. destruct argv as [|cmd r] eqn:Ea; [done|]. destruct (_ =? _)%nat; [done|].
    destruct (_ && _); [done|]. destruct (cm_find cmd _) eqn:Ef; [|done]. intros [= <-].
    apply command_names in Ef as [N1 N2]. split; [intros E; by apply Hb1, N1|intros E; by apply Hb2, N2]. }
  destruct (request req errc c) as [r c'|x c'| |]; [| |done..].
  - destruct Hq as [[b ->]|(fn & r1 & b & c1 & Hd & Er & ->)]; [done|].
    pose proof (run_stays fn argv c (Hh fn Hd)) as H. by rewrite Er in H.
  - destruct Hq as (fn & Hd & Er). pose proof (run_stays fn argv c (Hh fn Hd)) as H. by rewrite Er in H.
Qed.

(** A client that sends these requests one after the other. *)
Fixpoint requests (reqs : list bytes) : M (ClientData S G) unit :=
  match reqs with [] => ret tt | req :: reqs => request req 0 ;;; requests reqs end.

Definition begins (e : AccessEntry) ist s : ClientData S G :=
  set_client_command_table (put_auth (Auth [] [] (initial_auth (authentication e)) 0) (new_client ist [] s e)).

(** C2: however a client browses, the newsgroup it is in is one that the Read list of
    its access entry accepts, so that article, over and the other commands serve no
    other: group refuses the others before it selects them.  (listgroup with a
    name selects first, see [listgroup_escapes].) *)
Theorem browsing_stays_permitted e ist s reqs : Forall (browses e) reqs ->
  may (requests reqs) (fun _ c => access_entry c = e /\ in_permitted e c) (fun _ c => in_permitted e c) (begins e ist s).
Proof.
  intros Hb. assert (table_ok (begins e ist s)) as Ht by (apply table_start; by right).
  assert (in_permitted e (begins e ist s)) as Hp by (by left).
  assert (access_entry (begins e ist s) = e) as He by done.
  revert Ht Hp He. generalize (begins e ist s). induction Hb as [|req reqs Hr _ IH]; intros c Ht Hp He; cbn [requests]; [done|].
  unfold may, bind. subst e. pose proof (request_stays req 0 c Ht Hr) as H.
  destruct (request req 0 c) as [r c'|x c'| |]; [| |done..].
  - destruct (H eq_refl) as (E & M & P). apply IH; [|by apply P|done]. unfold table_ok. by rewrite M, E.
  - destruct (H eq_refl) as (E & M & P). by apply P.
Qed.
End reads.

(** ** next and last

    What the walk through the numbers relies on: the newsgroup has a fixed range, and
    each number in it has an overview record, the empty one where there is no
    article. *)
Section walk.
Context {site : Site} {users : Users} {clock : Clock}.
Context {S G : Type} {sv : NewsServer S G}.
Implicit Types c : ClientData S G.

Record walkable (I : S -> Prop) (g : G) (first last : Z) (ov : Z -> bytes) (mid : Z -> bytes) : Prop := {
  wk_range : 0 < first /\ last < 2 ^ 32 - 1;
  wk_size s : I s -> exists s', gr_getsize g s = Ret (first, last) s' /\ I s';
  wk_over s i : I s -> first <= i <= last -> exists s', gr_getover g i s = Ret (Some (ov i)) s' /\ I s';
  wk_mid s i (T : Type) (t : T) : I s -> first <= i <= last -> ov i <> [] ->
    over_getfield (sv_overviewfmt s) (ov i) (bs "Message-ID:") 0 t = Ret (mid i) t
}.

Context {I : S -> Prop} {g : G} {first last : Z} {ov mid : Z -> bytes} (Hw : walkable I g first last ov mid).

Lemma wp_on_srvr {A} (m : M S A) (Q : A -> ClientData S G -> Prop) c :
  wp m (fun a s => Q a (put_srvr s c)) (srvr c) -> wp (on_srvr m) Q c.
Proof. unfold wp, on_srvr. by destruct (m (srvr c)). Qed.

Lemma wp_over i (Q : option bytes -> ClientData S G -> Prop) c : I (srvr c) -> first <= i <= last ->
  (forall s', I s' -> Q (Some (ov i)) (put_srvr s' c)) -> wp (on_srvr (gr_getover g i)) Q c.
Proof. intros HI Hi HQ. apply wp_on_srvr. destruct (wk_over _ _ _ _ _ _ Hw (srvr c) i HI Hi) as (s' & E & HI'). unfold wp. rewrite E. by apply HQ. Qed.

(** The record that was found gives the identifier of the article. *)
Lemma wp_found i (Q : option (Z * bytes) -> ClientData S G -> Prop) c : I (srvr c) -> first <= i <= last -> ov i <> [] ->
  Q (Some (i, mid i)) c ->
  wp (fm <- ofmt ;; aid <- over_getfield fm (ov i) (bs "Message-ID:") 0 ;; ret (Some (i, aid))) Q c.
Proof.
  intros HI Hi Hov HQ. unfold wp, ofmt, bind, gets. by rewrite (wk_mid _ _ _ _ _ _ Hw (srvr c) i _ c HI Hi Hov).
Qed.

Definition next_result (n : Z) (r : option (Z * bytes)) : Prop :=
  match r with
  | Some (k, a) => n < k <= last /\ ov k <> [] /\ a = mid k /\ forall j, n < j < k -> ov j = []
  | None => forall j, n < j <= last -> ov j = []
  end.
Definition last_result (n : Z) (r : option (Z * bytes)) : Prop :=
  match r with
  | Some (k, a) => first <= k < n /\ ov k <> [] /\ a = mid k /\ forall j, k < j < n -> ov j = []
  | None => forall j, first <= j < n -> ov j = []
  end.

Lemma wp_next_loop : forall n i c, I (srvr c) -> first - 1 <= i <= last -> last - i < Z.of_nat n ->
  wp (next_loop n g i last) (fun r c' => next_result i r /\ exists s', I s' /\ c' = put_srvr s' c) c.
Proof.
  pose proof (wk_range _ _ _ _ _ _ Hw) as [Hf Hl].
  induction n as [|n IH]; intros i c HI Hi Hn; [lia|]. cbn [next_loop]. cbv zeta.
  rewrite (w32_small (i + 1)) by lia. destruct (Z.ltb_spec last (i + 1)) as [H|H].
  { apply wp_ret. split; [intros j; lia|]. exists (srvr c). by destruct c. }
  wstep. apply wp_over; [done|lia|]. intros s' HI'. destruct (ov (i + 1)) as [|x o] eqn:Eo.
  - eapply wp_mono; [apply (IH (i + 1)); [done|lia|lia]|]. intros r c' [Hr (s2 & HI2 & ->)].
    split; [|by exists s2]. destruct r as [[k a]|]; cbn in *.
    + destruct Hr as (? & ? & ? & Hj). split_and!; [lia..|done|done|]. intros j ?.
      destruct (decide (j = i + 1)) as [->|]; [done|]. apply Hj. lia.
    + intros j ?. destruct (decide (j = i + 1)) as [->|]; [done|]. apply Hr. lia.
  - rewrite <- Eo. apply wp_found; [done|lia|by rewrite Eo|]. split; [|by exists s'].
    cbn. split_and!; [lia..|by rewrite Eo|done|]. intros j ?. lia.
Qed.

Lemma wp_last_loop : forall n i c, I (srvr c) -> first <= i <= last + 1 -> i - first < Z.of_nat n ->
  wp (last_loop n g i first) (fun r c' => last_result i r /\ exists s', I s' /\ c' = put_srvr s' c) c.
Proof.
  pose proof (wk_range _ _ _ _ _ _ Hw) as [Hf Hl].
  induction n as [|n IH]; intros i c HI Hi Hn; [lia|]. cbn [last_loop]. cbv zeta.
  rewrite (w32_small (i - 1)) by lia. destruct (Z.ltb_spec (i - 1) first) as [H|H].
  { apply wp_ret. split; [intros j; lia|]. exists (srvr c). by destruct c. }
  wstep. apply wp_over; [done|lia|]. intros s' HI'. destruct (ov (i - 1)) as [|x o] eqn:Eo.
  - eapply wp_mono; [apply (IH (i - 1)); [done|lia|lia]|]. intros r c' [Hr (s2 & HI2 & ->)].
    split; [|by exists s2]. destruct r as [[k a]|]; cbn in *.
    + destruct Hr as (? & ? & ? & Hj). split_and!; [lia..|done|done|]. intros j ?.
      destruct (decide (j = i - 1)) as [->|]; [done|]. apply Hj. lia.
    + intros j ?. destruct (decide (j = i - 1)) as [->|]; [done|]. apply Hr. lia.
  - rewrite <- Eo. apply wp_found; [done|lia|by rewrite Eo|]. split; [|by exists s'].
    cbn. split_and!; [lia..|by rewrite Eo|done|]. intros j ?. lia.
Qed.

(** The reply to the result of the walk, and the number that becomes the current one. *)
Definition walk_reply (none : bytes) c (r : option (Z * bytes)) (code : Z) c' : Prop := exists s', I s' /\
  match r with
  | Some (k, a) => code = 0 /\ c' = put_out (cd_out c ++ (bs "223 " ++ dec (s32 k) ++ bs " " ++ a ++
      bs " article retrieved - request text separately") ++ [CR; LF]) (put_nbr (s32 k) (put_srvr s' c))
  | None => code = -1 /\ c' = put_out (cd_out c ++ none ++ [CR; LF]) (put_srvr s' c)
  end.

Lemma wp_with_group txt k (Q : Z -> ClientData S G -> Prop) c : grp (cd_pos c) = Some g -> wp (k g) Q c ->
  wp (with_group txt k) Q c.
Proof. intros Hg H. unfold with_group, wp, bind, pos_, gets, ret. by rewrite Hg. Qed.

Lemma wp_seek_size (k : Z * Z -> M (ClientData S G) (option (Z * bytes))) Q c : I (srvr c) ->
  (forall s', I s' -> wp (k (first, last)) Q (put_srvr s' c)) -> wp (fl <- on_srvr (gr_getsize g) ;; k fl) Q c.
Proof.
  intros HI H. wstep. apply wp_on_srvr. destruct (wk_size _ _ _ _ _ _ Hw (srvr c) HI) as (s' & E & HI').
  unfold wp at 1. rewrite E. by apply H.
Qed.

(** C12: next makes the next article there is the current one: the least number above
    the current one that has an overview record, none is left out and the walk ends
    at the last number of the group; last the greatest one below.  Where there is none
    the client keeps its place, and is told so. *)
Theorem lastnext_finds c : I (srvr c) -> grp (cd_pos c) = Some g -> groupname (cd_pos c) <> [] -> 0 <= nbr (cd_pos c) ->
  (first - 1 <= nbr (cd_pos c) <= last -> wp (ns_lastnext [bs "next"]) (fun code c' =>
     exists r, next_result (nbr (cd_pos c)) r /\ walk_reply (bs "421 No next to retrieve") c r code c') c) /\
  (first <= nbr (cd_pos c) <= last + 1 -> wp (ns_lastnext [bs "last"]) (fun code c' =>
     exists r, last_result (nbr (cd_pos c)) r /\ walk_reply (bs "422 No previous to retrieve") c r code c') c).
Proof.
  intros HI Hg Hname Hn. pose proof (wk_range _ _ _ _ _ _ Hw) as [Hf Hl].
  split; intros Hr; unfold ns_lastnext; cbn [length arg nth Nat.eqb negb andb]; cbv zeta;
    unfold pos_; wstep; wstep; rewrite bool_decide_eq_false_2 by done; (destruct (Z.ltb_spec (nbr (cd_pos c)) 0); [lia|]);
    (apply wp_with_group; [done|]); cbv beta; wstep.
  - change (bool_decide (at_ (bs "next") 0 = "l"%char)) with false.
    change (bool_decide (at_ (bs "next") 0 = "n"%char)) with true. cbn match. wstep. unfold seek_next. cbv zeta. apply wp_seek_size; [done|]. intros s1 HI1. cbn [snd].
    rewrite (w32_small (nbr _)) by lia. eapply wp_mono; [apply wp_next_loop; [done|lia|unfold next_fuel; lia]|].
    intros r c' (Hnr & s2 & HI2 & ->). destruct r as [[k a]|]; wstep; (eexists; split; [exact Hnr|]); by exists s2.
  - change (bool_decide (at_ (bs "last") 0 = "l"%char)) with true. cbn match. wstep. unfold seek_last. cbv zeta. apply wp_seek_size; [done|]. intros s1 HI1. cbn [fst].
    rewrite (w32_small (nbr _)) by lia. eapply wp_mono; [apply wp_last_loop; [done|lia|]|].
    { unfold last_fuel. destruct (Z.eqb_spec (nbr (cd_pos c)) 0); lia. }
    intros r c' (Hnr & s2 & HI2 & ->). destruct r as [[k a]|]; wstep; (eexists; split; [exact Hnr|]); by exists s2.
Qed.
End walk.

(** ** list and newgroups *)
Section lists.
Context {site : Site} {users : Users} {clock : Clock}.
Context {S G : Type} {sv : NewsServer S G}.
Implicit Types c : ClientData S G.










End lists.

(** ** post *)
Section posting.
Context {site : Site} {users : Users} {clock : Clock}.
Context {S G : Type} {sv : NewsServer S G}.
Implicit Types c : ClientData S G.

(** The loop over the newsgroups: it reads, and answers true at [npos] only. *)
Lemma post_groups_end f ng : forall n i1 i2 c,
  may (post_groups n f ng i1 i2) (fun b c' => c' = c /\ (b = true -> i2 = npos \/ exists i, w32 (find_comma ng i) = npos))
    (fun _ c' => c' = c) c.
Proof.
  induction n as [|n IH]; intros i1 i2 c; cbn [post_groups]; [done|]. destruct (_ <? _); [by pstep|]. cbv zeta. pstep.
  unfold matches_. destruct (matches _ _) as [m|]; [|done]. pstep. destruct (m <=? 0); [by pstep|].
  destruct (Z.eqb_spec i2 npos) as [->|]; [pstep; split; [done|by left]|].
  eapply may_mono; [apply IH|intros b c' [-> Hb]|done]. split; [done|]. intros E. right.
  destruct (Hb E) as [Hi|[i Hi]]; [by eexists|by exists i].
Qed.

(** Where size_t has 64 bits the result of find, kept in an unsigned int, is never
    npos: no article reaches the news server, whoever may post whereto. *)
Theorem post_never_posts argv c : ulong_bytes = 8%nat ->
  may (ns_post argv) (fun _ c' => srvr c' = srvr c) (fun _ c' => srvr c' = srvr c) c.
Proof.
  intros Hu. unfold ns_post. destruct (negb _); [done|]. pstep. unfold reply at 1, say at 1. pstep. pstep. pstep. cbn [cd_in put_out].
  destruct (a_read _ _) as [[art ist]|]; [|done]. pstep. pstep. pstep. set (c1 := put_in ist _).
  assert (srvr c1 = srvr c) as Hs by done.
  assert (may (catch (ng <- getfield (bs "newsgroups:") false art ;; e <- gets access_entry ;;
      ok <- post_allowed (ae_postTo e) ng ;; ret (Some ok))
      (fun e => if invalid_article e then ret None else raise e))
    (fun ok c' => c' = c1 /\ ok <> Some true) (fun _ c' => c' = c1) c1) as H.
  { pstep. pstep. eapply may_mono; [apply pure_getfield| |].
    - intros ng ? ->. pstep. pstep. pstep. eapply may_mono; [apply post_groups_end| |].
      + intros b ? [-> Hb]. pstep. split; [done|]. intros [= ->].
        assert (forall z, w32 z <> npos) as Hn.
        { intros z. unfold npos, w32. rewrite Hu. pose proof (Z.mod_pos_bound z (2 ^ 32) ltac:(lia)). lia. }
        destruct (Hb eq_refl) as [E|[i E]]; by apply Hn in E.
      + intros e ? ->. by destruct (invalid_article e).
    - intros e ? [-> _]. by destruct (invalid_article e). }
  eapply may_mono; [exact H| |by intros e ? ->]. intros [[]|] ? [-> Hok]; [done|by cbn..].
Qed.
End posting.

(** ** What goes wrong *)
Section errors.
Context {site : Site} {users : Users} {clock : Clock}.
Context {S G : Type} {sv : NewsServer S G}.
Implicit Types c : ClientData S G.

(** The client was sent a line, and the server is in the state [s]. *)
Definition told (b : bytes) (s : S) c : ClientData S G := put_out (cd_out c ++ b ++ [CR; LF]) (put_srvr s c).

Definition failed_group (e : exn) : bytes :=
  if bool_decide (e = NoSuchGroupError) then bs "411 no such newsgroup" else bs "412 operation failed".
Definition failed_article (e : exn) : bytes :=
  match e with
  | NoSuchArticleError => bs "430 no such article id found"
  | ResponseError _ _ got => got
  | _ => bs "520 ???"
  end.

(** C14: a request that goes wrong is answered with one line, and the client keeps its
    group and its article: the refusal of group, and its answer when groupinfo raises any
    exception; that of article when the newsgroup cannot be opened, when the number
    is not there, and when the search for an identifier fails. *)
Theorem errors_answered c :
  (forall name m, matches (ae_read (access_entry c)) name = Some m -> m <= 0 ->
     ns_group [bs "group"; name] c = Ret 0 (told (bs "480 authentication required") (srvr c) c)) /\
  (forall name m e s, matches (ae_read (access_entry c)) name = Some m -> 0 < m ->
     sv_groupinfo name (srvr c) = Throw e s ->
     ns_group [bs "group"; name] c = Ret (-1) (told (bs "411 no such news group") s c)) /\
  (forall n e s, groupname (cd_pos c) <> [] -> grp (cd_pos c) = None -> isdigit (at_ n 0) = true ->
     sv_getgroup (groupname (cd_pos c)) (srvr c) = Throw e s -> is_error e = true ->
     ns_article [bs "article"; n] c = Ret (-1) (told (failed_group e) s c)) /\
  (forall n g s, groupname (cd_pos c) <> [] -> grp (cd_pos c) = Some g -> isdigit (at_ n 0) = true ->
     gr_getarticle g (w32 (atoi n)) (srvr c) = Ret None s ->
     ns_article [bs "article"; n] c = Ret (-1) (told (bs "423 no such article number in this group") s c)) /\
  (forall id e s, at_ id 0 = "<"%char -> sv_article id (MkArticle 0 []) (srvr c) = Throw e s -> is_error e = true ->
     ns_article [bs "article"; id] c = Ret (-1) (told (failed_article e) s c)).
Proof.
  assert (put_srvr (srvr c) c = c) as Ec by (by destruct c).
  split_and!.
  - intros name m Hm Hle. unfold ns_group, told. rewrite Ec. cbn [length Nat.eqb negb arg nth]. unfold bind at 1, gets, matches_.
    rewrite Hm. unfold bind at 1, ret at 1. by destruct (Z.leb_spec m 0); [|lia].
  - intros name m e s Hm Hlt E. unfold ns_group, told. cbn [length Nat.eqb negb arg nth]. unfold bind at 1, gets, matches_.
    rewrite Hm. unfold bind at 1, ret at 1. destruct (Z.leb_spec m 0); [lia|].
    unfold bind, selectgroup, bind, catch, on_srvr. by rewrite E.
  - intros n e s Hn Hg Hd E He. unfold ns_article, told. cbn [length Nat.ltb Nat.leb Nat.eqb orb negb arg nth]. rewrite Hd. cbn [orb negb].
    unfold with_number, pos_. unfold bind at 1, gets. rewrite bool_decide_eq_false_2 by done.
    unfold with_group, pos_. unfold bind at 1, gets. rewrite Hg. unfold bind at 1, catch, bind at 1, on_srvr. rewrite E, He.
    unfold failed_group. by destruct e.
  - intros n g s Hn Hg Hd E. unfold ns_article, told. cbn [length Nat.ltb Nat.leb Nat.eqb orb negb arg nth]. rewrite Hd. cbn [orb negb].
    unfold with_number, pos_. unfold bind at 1, gets. rewrite bool_decide_eq_false_2 by done.
    unfold with_group, pos_. unfold bind at 1, gets. rewrite Hg. cbn [ret bind length Nat.eqb andb].
    unfold bind, on_srvr. cbn. rewrite E. done.
  - intros id e s Hi E He. unfold ns_article, told. cbn [length Nat.ltb Nat.leb Nat.eqb orb negb arg nth].
    assert (isdigit (at_ id 0) = false) as -> by (by rewrite Hi). rewrite bool_decide_eq_true_2 by done. cbn [orb negb].
    unfold bind, catch, on_srvr. rewrite E. unfold article_failed. destruct e; first [discriminate He | reflexivity].
Qed.
End errors.
