(* ===== verification/LocalGroup.v ===== *)
(** * LocalGroup.v: the commands next and last on a newsgroup of the database

    The newsgroups of the class NVNewsgroup are walkable, so that next and last of the
    news readers find the articles the database holds. *)
From S2P Require Import Prelude Memory Text Matching ServerList Container GroupInfo Article OverviewFmt RServer.
From S2P Require Import Heap Alloc ContainerSpec.
From S2P Require Import RNews RNewsgroup.
From S2P Require Import NVlist.
From S2P Require Import NVHash.
From S2P Require Import ActiveDB DbLaws.
From S2P Require Import CServer.
From S2P Require Import NVArray.
From S2P Require Import ArrayLaws.
From S2P Require Import ArrayMap.
From S2P Require Import NVNewsgroup.
From S2P Require Import NgLaws.
From S2P Require Import CNewsgroup.
From S2P Require Import AccessList.
From S2P Require Import Config.
From S2P Require Import NnrpAuth.
From S2P Require Import Calendar.
From S2P Require Import ClientData.
From S2P Require Import CClient.
From S2P Require Import Nnrp.
From S2P Require Import Nnrpd.
From S2P Require Import NnrpdReads.

(** The overview line a record has, the empty one where there is none. *)
Definition over_line (f : Z) (recs : list (option bytes)) (k : Z) : bytes :=
  match at_index f recs k with Some d => cstr (drop 1 d) | None => [] end.

Section local.
Context {os : Os} {Hos : OsOk os} {env : Env}.
Variables (spooldir : bytes) (agroup : GroupInfo) (junk : array_ext) (junk1 : Z).
#[local] Instance local_news : NewsServer cclient nat := cserver_news spooldir agroup junk junk1.
Variables (i : nat) (f : Z) (recs : list (option bytes)) (fm : OverviewFmt) (mid : Z -> bytes).

(** The object [i] is a newsgroup with these records. *)
Definition local_group (s : cclient) : Prop :=
  exists g, cl_groups s !! i = Some (Some (NGroup g)) /\ ngroup f recs g /\ ready 1 0 g /\
    rs_fmt (cs_rs (cl_server s)) = fm.

(** An operation of the newsgroup that leaves the records as they are. *)
Lemma local_op {A} (c : M (ngw (rserver adb)) A) cc r a s g : cl_groups s !! i = Some (Some (NGroup g)) ->
  rs_fmt (cs_rs (cl_server s)) = fm ->
  wp c (fun x w => x = a /\ w_srv w = cs_rs (cl_server s) /\ ngroup f recs (w_ng w) /\ ready 1 0 (w_ng w))
    (NgW (cs_rs (cl_server s)) g) ->
  exists s', dispatch_group i c cc r s = Ret a s' /\ local_group s'.
Proof.
  intros Hi Hfm H. apply wp_inv in H as (x & w & E & -> & Hs & Hg & Hr).
  unfold dispatch_group, the_object, bind at 1, bind at 1, gets. rewrite Hi. cbn [ret]. unfold with_srv. rewrite E.
  cbn. eexists. split; [reflexivity|]. exists (w_ng w). cbn [cl_groups cl_server cs_rs]. split_and!; [|done|done|].
  - apply list_lookup_insert_eq. by eapply lookup_lt_Some.
  - by rewrite Hs.
Qed.

Lemma wp_nv_getsize g (Q : Z * Z -> NVNewsgroup -> Prop) : ngroup f recs g -> 0 < f -> f + len recs < 2 ^ 32 ->
  Q (f, f + len recs - 1) g -> wp nv_getsize Q g.
Proof.
  intros (bl & t & es & Hn & Hh) Hf Hl HQ. pose proof (Forall2_length _ _ _ Hh) as Hlen.
  unfold nv_getsize. apply wp_on_arr. mstep. apply wp_gets. unfold id. mstep.
  rewrite (na_ext _ _ _ _ _ Hn). cbn [arrfst arrlst members]. rewrite Hlen, !w32_small by lia. by destruct g.
Qed.

Hypothesis range : 0 < f /\ f + len recs < 2 ^ 32.
Hypothesis overs : forall k d, at_index f recs k = Some d -> exists t x, d = elem_of t x /\ over_type t.
Hypothesis mids : forall k (T : Type) (t : T), f <= k < f + len recs -> over_line f recs k <> [] ->
  over_getfield fm (over_line f recs k) (bs "Message-ID:") 0 t = Ret (mid k) t.

(** A newsgroup of the database is walkable: its range stays, and getover gives the
    lines it holds. *)
Lemma local_walkable : walkable local_group i f (f + len recs - 1) (over_line f recs) mid.
Proof.
  split; [lia|..].
  - intros s (g & Hi & Hg & Hr & Hfm). apply (local_op _ _ _ (f, f + len recs - 1) s g Hi Hfm).
    apply wp_on_ng. cbn [w_ng]. apply wp_nv_getsize; [done|lia|lia|done].
  - intros s k (g & Hi & Hg & Hr & Hfm) Hk. apply (local_op _ _ _ (Some (over_line f recs k)) s g Hi Hfm).
    mstep. unfold fmt. apply wp_gets. mstep. apply wp_on_ng. cbn [w_ng w_srv].
    eapply (wp_nv_getover _ _ _ _ 0 0); [exact Hg|exact Hr|intros d; apply overs|].
    intros s' Hg' Hl' Hm'. mstep. cbn [w_ng w_srv]. split_and!; [done|done|exact Hg'|].
    eapply ready_after; [exact Hr|exact Hl'|cbn [with_arr nv_arr]; lia].
  - intros s k T t (g & Hi & Hg & Hr & Hfm) Hk Hne. cbn [sv_overviewfmt local_news cserver_news]. rewrite Hfm.
    apply mids; [lia|done].
Qed.
End local.
