(* ===== verification/Session.v ===== *)
(** * Session.v: sessions

    Runs of the commands on the caching server and on a newsgroup of the database:
    the theorems on what a client is shown at work, and one session from the first line
    to the last. *)
From S2P Require Import Prelude Memory Text Matching ServerList Container GroupInfo Article OverviewFmt RServer.
From S2P Require Import Heap Alloc ContainerSpec.
From S2P Require Import RNews RNewsgroup.
From S2P Require Import NVlist.
From S2P Require Import NVHash.
From S2P Require Import ActiveDB DbLaws.
From S2P Require Import RSafe RTalk CServer.
From S2P Require Import NVArray.
From S2P Require Import ArrayLaws.
From S2P Require Import ArrayMap.
From S2P Require Import NVNewsgroup.
From S2P Require Import NgLaws.
From S2P Require Import NgSize.
From S2P Require Import CNewsgroup.
From S2P Require Import CacheHit.
From S2P Require Import AccessList.
From S2P Require Import Config.
From S2P Require Import NnrpAuth.
From S2P Require Import Calendar.
From S2P Require Import ClientData.
From S2P Require Import CClient.
From S2P Require Import Nnrp.
From S2P Require Import Nnrpd.
From S2P Require Import NnrpdSafe.
From S2P Require Import NnrpdReads.
From S2P Require Import LocalGroup.

Section sessions.
#[local] Existing Instance good_os.
#[local] Existing Instance ex_env.
#[local] Existing Instance ex_users.
#[local] Existing Instance ex_clock.
#[local] Existing Instance ex_site.
#[local] Existing Instance ex_news.
#[local] Opaque ex_array.

(** ** next in a newsgroup of three numbers, one of which has a record *)
Definition ex_line7 : bytes :=
  bs "7" ++ [TAB] ++ bs "subject" ++ [TAB] ++ bs "me" ++ [TAB] ++ bs "today" ++ [TAB] ++ bs "<7@x>" ++ [TAB; TAB; TAB; TAB].
Definition ex_ng7 : NVNewsgroup := match nv_setover ex_line7 ex_ng with Ret _ g => g | _ => ex_ng end.
Definition ex_recs7 : list (option bytes) := [None; None; Some (elem_of t_overview ex_line7)].

Lemma ex_ng7_ok : ngroup 5 ex_recs7 ex_ng7 /\ ready 1 0 ex_ng7.
Proof.
  destruct (ex_ng_ok (len ex_line7 + 2 ^ 19)) as [Hg Hr]; [vm_compute; discriminate|].
  assert (wp (nv_setover ex_line7) (fun _ g => ngroup 5 ex_recs7 g /\ ready 1 0 g) ex_ng) as H.
  { eapply (wp_nv_setover _ _ _ 1); [exact Hg|eapply ready_after; [exact Hr|apply same_locks_refl|lia]|].
    intros s' Hg' Hl' Hm'. split; [exact Hg'|]. split.
    - eapply Alloc.lock_ok_same; [apply Hr|exact Hl'].
    - cbn [with_arr nv_arr]. rewrite (sl_sp _ _ Hl'). pose proof (rd_places _ _ _ Hr). lia.
    - cbn [with_arr nv_arr]. pose proof (rd_room _ _ _ Hr). lia. }
  unfold ex_ng7. apply wp_inv in H as (u & g & -> & H). exact H.
Qed.

Definition ex_state7 : cclient := CClient (cl_server ex_srv) [Some (NGroup ex_ng7)] ∅.
Definition ex_reader : AccessEntry := set_filters (new_filter (bs "*")) (new_filter (bs "comp.*,!comp.secret*"))
  (new_filter (bs "*")) (set_access_flags 7 (new_access [])).
(** A client that is in the group at the number 5. *)
Definition ex_at5 : ClientData cclient nat :=
  put_pos (Pos (bs "comp.x") (Some 0%nat) 5) (new_client (IStream [] false false) [] ex_state7 ex_reader).

Lemma ex_walkable : walkable (local_group 0 5 ex_recs7 (rs_fmt (cs_rs (cl_server ex_srv)))) 0%nat 5 7
  (over_line 5 ex_recs7) (fun _ => bs "<7@x>").
Proof.
  apply (local_walkable (bs "/var/cache") (replicate sizeof_GroupInfo NUL) (ArrExt 0 0 0) 0); [done| |].
  - intros k d. unfold at_index. destruct (5 <=? k); [|done]. destruct (Z.to_nat (k - 5)) as [|[|[|j]]]; [done..| |done].
    intros [= <-]. exists t_overview, ex_line7. split; [done|by left].
  - intros k T t Hk. assert (k = 5 \/ k = 6 \/ k = 7) as [-> |[-> | ->]] by (cbn in Hk; lia); [done..|].
    intros _. vm_compute. reflexivity.
Qed.

Lemma lastnext_finds_witness : wp (ns_lastnext [bs "next"]) (fun code c => code = 0 /\ nbr (cd_pos c) = 7) ex_at5.
Proof.
  destruct (lastnext_finds ex_walkable ex_at5) as [H _]; [|reflexivity|discriminate|discriminate|].
  - exists ex_ng7. split; [reflexivity|]. destruct ex_ng7_ok as [Hg Hr]. exact (conj Hg (conj Hr eq_refl)).
  - eapply wp_mono; [apply H; split; discriminate|]. intros code c (r & Hr & s' & _ & Hc).
    destruct r as [[k a]|]; cbn in Hr.
    + destruct Hr as ([H1 H2] & Hne & _). destruct Hc as [-> ->]. split; [reflexivity|].
      assert (k = 6 \/ k = 7) as [-> | ->] by (cbn in *; lia); [destruct Hne; reflexivity|reflexivity].
    + exfalso. specialize (Hr 7 ltac:(cbn; lia)). vm_compute in Hr. discriminate.
Defined.

(** ** A news server with a group the client may not read *)
Definition sent_lines (ls : list string) : bytes := concat ((fun l => bs l ++ [CR; LF]) <$> ls).
Definition ex_greeting : list string :=
  ["200 hello"; "200 reader"; "215 format"; "Subject:"; "From:"; "Date:"; "Message-ID:"; "References:"; "Bytes:";
   "Lines:"; "Xref:full"; "."]%string.
Definition ex_origin : MPListEntry := set_nums 600 F_CACHED (nntpflags ex_server) 3 ex_server.
Definition ex_cache (replies : list string) : cclient :=
  CClient (CSrv (set_entries [ex_origin] (ex_state [sent_lines (ex_greeting ++ replies)])) (Spooler [] [] [] []) 100) [] ∅.
Definition ex_client (reqs : list string) (replies : list string) : ClientData cclient nat :=
  new_client (IStream (sent_lines reqs) false false) [] (ex_cache replies) ex_reader.

(** What the client was sent, and the group it is in. *)
Definition seen {A} (o : outcome (ClientData cclient nat) A) : option (bytes * bytes) :=
  match o with Ret _ c => Some (cd_out c, groupname (cd_pos c)) | _ => None end.

Definition ex_secret : list string :=
  ["211 3 1 3 comp.secret"; "220 2 <2@x> article"; "Message-ID: <2@x>"; ""; "the secret"; "."]%string.

(** The refusal of listgroup leaves the client in the group, and article serves it. *)
Theorem listgroup_escapes : ~ may_read ex_reader (bs "comp.secret") /\
  seen (requests [bs "listgroup comp.secret"; bs "article 2"] (begins ex_reader (IStream [] false false) (ex_cache ex_secret))) =
  Some (sent_lines ["480 authentication required"; "220 2 <2@x> article retrieved - head and body follow";
          "Message-ID: <2@x>"; ""; "the secret"; "."]%string, bs "comp.secret").
Proof.
  split.
  - intros (n & E & Hn). vm_compute in E. injection E as <-. discriminate.
  - vm_compute. reflexivity.
Qed.

(** group refuses the group at once, and nothing is asked of the news server. *)
Lemma browsing_stays_permitted_witness :
  may (requests [bs "group comp.secret"; bs "article 2"; bs "listgroup comp.x"; bs "next"; bs "quit"])
    (fun _ c => in_permitted ex_reader c) (fun _ c => in_permitted ex_reader c)
    (begins ex_reader (IStream [] false false) (ex_cache ["211 3 1 3 comp.x"; "211 list"; "1"; "2"; "."]%string)).
Proof.
  eapply may_mono; [apply browsing_stays_permitted| |].
  - repeat (apply List.Forall_cons; [split; [vm_compute; discriminate|]|]); [..|apply List.Forall_nil].
    + vm_compute. discriminate.
    + vm_compute. discriminate.
    + intros _ _. exists 6. split; [vm_compute; reflexivity|reflexivity].
    + vm_compute. discriminate.
    + vm_compute. discriminate.
  - intros u c [_ H]. exact H.
  - intros x c H. exact H.
Defined.




(** ** An article that is asked for three times *)
Definition fetched_lines : list string := ["Message-ID: <6@x>"; "Subject: six"; ""; "body"]%string.
Definition ex_six : Article := MkArticle 6 (sent_lines fetched_lines).
Definition ex_source : rserver (obj hash_ext) :=
  cs_rs (cl_server (ex_cache ("211 3 5 7 comp.x" :: "220 6 <6@x> article" :: fetched_lines ++ ["."%string]))).
Definition value {S A} (o : outcome S A) : option A := match o with Ret a _ => Some a | _ => None end.
Lemma value_inv {S A} (o : outcome S A) a : value o = Some a -> exists s, o = Ret a s.
Proof. destruct o as [b s| | |]; try done. intros [= <-]. by exists s. Qed.

Lemma fetched_once_witness : exists srv', delivers (NgW ex_source ex_ng) 6 ex_six srv' /\
  wp (again 3 6) (fun l w => l = [Some ex_six; Some ex_six; Some ex_six] /\ w_srv w = srv') (NgW ex_source ex_ng).
Proof.
  assert (value (c_article (bs "comp.x") 6 (MkArticle 0 []) ex_source) = Some ex_six) as H by (vm_compute; reflexivity).
  apply value_inv in H as [srv' E]. exists srv'. split; [exact E|].
  destruct (ex_ng_ok (len (a_text ex_six) + 2 ^ 19)) as [Hg Hr]; [vm_compute; discriminate|].
  eapply wp_mono; [apply (fetched_once 5 [None; None; None] 6 ex_six (a_text ex_six) srv' 2 (NgW ex_source ex_ng) Hg ex_untyped Hr);
    [reflexivity|left; reflexivity|exact E|reflexivity|reflexivity|left; split; [vm_compute; discriminate|reflexivity]]|].
  intros l w (Hl & Hs & _). exact (conj Hl Hs).
Defined.

(** ** Errors: a group that is barred, and one no news server knows *)
Definition thrown {S A} (o : outcome S A) : bool := match o with Throw _ _ => true | _ => false end.
Lemma thrown_inv {S A} (o : outcome S A) : thrown o = true -> exists e s, o = Throw e s.
Proof. destruct o as [|e s| |]; try done. by exists e, s. Qed.

Definition ex_lost : ClientData cclient nat := new_client (IStream [] false false) [] ex_srv ex_reader.
Lemma errors_answered_witness :
  ns_group [bs "group"; bs "comp.secret"] ex_lost =
    Ret 0 (told (bs "480 authentication required") (srvr ex_lost) ex_lost) /\
  exists s, ns_group [bs "group"; bs "comp.x"] ex_lost = Ret (-1) (told (bs "411 no such news group") s ex_lost).
Proof.
  destruct (errors_answered ex_lost) as (H1 & H2 & _). split.
  - apply (H1 _ (-12)); [vm_compute; reflexivity|discriminate].
  - assert (thrown (sv_groupinfo (bs "comp.x") (srvr ex_lost)) = true) as H by (vm_compute; reflexivity).
    apply thrown_inv in H as (e & s & E). exists s. apply (H2 _ 6 e s); [vm_compute; reflexivity|reflexivity|exact E].
Defined.

(** ** A session, from the greeting to the farewell *)
Example reader_session :
  seen (nnrpd_session (ex_client
    ["group comp.x"; "article 2"; "over 1-3"; "next"; "last"; "xhdr Subject 1-3"; "group comp.secret"; "slave"; "quit"]%string
    ["211 3 1 3 comp.x"; "220 2 <2@x> article"; "Message-ID: <2@x>"; "Subject: two"; ""; "body"; "."]%string)) =
  Some (sent_lines
    ["200 NewsCache 1, accepting NNRP commands"; "211 3 1 3 comp.x group selected";
     "220 2 <2@x> article retrieved - head and body follow"; "Message-ID: <2@x>"; "Subject: two"; ""; "body"; ".";
     "224 Overview information follows"]%string ++
    bs "2" ++ [TAB] ++ bs "two" ++ [TAB; TAB; TAB] ++ bs "<2@x>" ++ [TAB; TAB] ++ bs "41" ++ [TAB; TAB; CR; LF] ++
    sent_lines ["."; "421 No next to retrieve"; "422 No previous to retrieve"; "221 [1-3]"; "2 two"; ".";
     "480 authentication required"; "500 What?"; "205 Good bye"]%string, bs "comp.x").
Proof. vm_compute. reflexivity. Qed.
End sessions.
