(* ===== verification/Logger.v ===== *)
(** * Logger.v: the log

    src/NVClasses-0.9.1/Logger.{h,cc}: texts are collected in a buffer, and every
    line that is complete goes to the log with the priority the logger has then.  The
    buffer [l_buf] holds the bytes before the terminator, [bufsz] is the size of its
    memory; [None] is [exit(26)], when there is no memory.  The log of the system and
    the log file get the same lines ([l_log]), the file with the time in front. *)
From S2P Require Import Prelude Memory Text.
From S2P Require Import Calendar.

Definition Emergency : Z := 0.
Definition Alert : Z := 1.
Definition Critical : Z := 2.
Definition LogError : Z := 3.
Definition Warning : Z := 4.
Definition Notice : Z := 5.
Definition Info : Z := 6.
Definition Debug : Z := 7.

Record Logger := MkLogger { l_priority : Z; l_buf : bytes; bufsz : Z; l_log : list (Z * bytes) }.

Definition not_lf (c : ascii) : bool := negb (bool_decide (c = LF)).

(** What << is applied to. *)
Inductive log_op := LStr (s : bytes) | LChar (c : ascii) | LUInt (i : Z) | LInt (i : Z) | LPriority (p : Z).

Section logger.
(** Whether malloc and realloc find that many bytes. *)
Variable memory : Z -> bool.

(** [(sz + 0x1000) & ~0xfff], an int. *)
Definition round_up (sz : Z) : Z := Z.land (s32 (sz + 4096)) (Z.lnot 4095).

(** bufresize: the size, 0 when there is no memory. *)
Definition bufresize (sz : Z) (l : Logger) : Z * Logger :=
  let nsz := round_up sz in
  if nsz =? bufsz l then (bufsz l, l)
  else if memory nsz then (nsz, MkLogger (l_priority l) (l_buf l) nsz (l_log l))
  else (0, MkLogger (l_priority l) [] 0 (l_log l)).

Definition append (s : bytes) (l : Logger) : option Logger :=
  let '(sz, l) := bufresize (s32 (Z.of_nat (length (l_buf l)) + Z.of_nat (length s) + 1)) l in
  if sz =? 0 then None else Some (MkLogger (l_priority l) (l_buf l ++ s) (bufsz l) (l_log l)).

(** print: a line goes to the log, and the rest of the buffer moves to its start. *)
Fixpoint print_loop (fuel : nat) (p : Z) (buf : bytes) (log : list (Z * bytes)) : bytes * list (Z * bytes) :=
  match fuel with
  | O => (buf, log)
  | S fuel =>
      match skip_while not_lf buf with
      | [] => (buf, log)
      | _ :: rest => print_loop fuel p rest (log ++ [(p, take_while not_lf buf)])
      end
  end.
Definition print (l : Logger) : Logger :=
  let '(buf, log) := print_loop (S (length (l_buf l))) (l_priority l) (l_buf l) (l_log l) in
  MkLogger (l_priority l) buf (bufsz l) log.

Definition write (s : bytes) (l : Logger) : option Logger := print <$> append (cstr s) l.

Definition priority (p : Z) (l : Logger) : option Logger :=
  let l := MkLogger p (l_buf l) (bufsz l) (l_log l) in
  match last (l_buf l) with
  | Some c => if bool_decide (c = LF) then Some l else write [LF] l
  | None => Some l
  end.

(** The constructor: a buffer of 4096 bytes. *)
Definition new_logger : option Logger :=
  let '(sz, l) := bufresize 1 (MkLogger Debug [] 0 []) in if sz =? 0 then None else Some l.

Definition log_step (o : log_op) (l : Logger) : option Logger :=
  match o with
  | LStr s => write s l
  | LChar c => write [c] l
  | LUInt i => write (dec (w32 i)) l
  | LInt i => write (dec (s32 i)) l
  | LPriority p => priority p l
  end.
Fixpoint log_run (os : list log_op) (l : Logger) : option Logger :=
  match os with [] => Some l | o :: os => log_step o l ≫= log_run os end.

Lemma log_run_app os1 os2 l : log_run (os1 ++ os2) l = log_run os1 l ≫= log_run os2.
Proof. revert l. induction os1 as [|o os1 IH]; intros l; cbn [app log_run]; [done|]. destruct (log_step o l); [apply IH|done]. Qed.
End logger.

(** The line of the log file; [tm_mon] counts from 0. *)
Definition pad0 (n : nat) (z : Z) : bytes := replicate (n - length (dec z)) "0"%char ++ dec z.
Definition stamp (t : tm) (p : Z) : bytes :=
  dec p ++ bs " " ++ pad0 4 (1900 + tm_year t) ++ bs "/" ++ pad0 2 (tm_mon t) ++ bs "/" ++ pad0 2 (tm_mday t) ++
  bs " " ++ pad0 2 (tm_hour t) ++ bs ":" ++ pad0 2 (tm_min t) ++ bs ":" ++ pad0 2 (tm_sec t) ++ bs " ".
Definition file_line (t : tm) (x : Z * bytes) : bytes := stamp t (fst x) ++ snd x ++ [LF].

(** ** What is logged *)

(** The reference: the lines of a text that are complete, and what is behind them. *)
Fixpoint split_lines (s : bytes) : list bytes * bytes :=
  match s with
  | [] => ([], [])
  | c :: r =>
      let '(ls, rest) := split_lines r in
      if bool_decide (c = LF) then ([] :: ls, rest)
      else match ls with [] => ([], c :: rest) | x :: ls => ((c :: x) :: ls, rest) end
  end.

Lemma not_lf_spec c : not_lf c = true /\ c <> LF \/ not_lf c = false /\ c = LF.
Proof. unfold not_lf. case_bool_decide; cbn [negb]; [right|left]; done. Qed.

Lemma split_lines_lf s : split_lines (LF :: s) = ([] :: (split_lines s).1, (split_lines s).2).
Proof. cbn [split_lines]. by destruct (split_lines s). Qed.
Lemma split_lines_char c s : c <> LF ->
  split_lines (c :: s) = match (split_lines s).1 with
                         | [] => ([], c :: (split_lines s).2)
                         | x :: ls => ((c :: x) :: ls, (split_lines s).2)
                         end.
Proof. intros H. cbn [split_lines]. destruct (split_lines s) as [[] ?]; (rewrite bool_decide_eq_false_2; [done|exact H]). Qed.

Lemma split_lines_rest s : (LF ∉ (split_lines s).2) /\ (length (split_lines s).2 <= length s)%nat.
Proof.
  induction s as [|c s [IH1 IH2]]; [split; [apply not_elem_of_nil|done]|].
  destruct (decide (c = LF)) as [->|Hc]; [rewrite split_lines_lf|rewrite (split_lines_char _ _ Hc)]; cbn [snd length].
  { split; [done|lia]. }
  destruct (split_lines s).1; cbn [snd length]; (split; [|lia]); [by apply not_elem_of_cons|done].
Qed.

Lemma split_lines_app a b :
  split_lines (a ++ b) = ((split_lines a).1 ++ (split_lines ((split_lines a).2 ++ b)).1,
                          (split_lines ((split_lines a).2 ++ b)).2).
Proof.
  induction a as [|c a IH]; cbn [app]; [apply surjective_pairing|].
  destruct (decide (c = LF)) as [->|Hc].
  { rewrite !split_lines_lf. by rewrite IH. }
  rewrite !(split_lines_char _ _ Hc). rewrite IH. cbn [fst snd].
  destruct (split_lines a).1 as [|x la]; cbn [fst snd app]; [|done].
  rewrite (split_lines_char _ _ Hc). by destruct (split_lines (_ ++ b)).1.
Qed.

Lemma split_lines_none s : LF ∉ s -> split_lines s = ([], s).
Proof.
  induction s as [|c s IH]; [done|]. intros [H1 H2]%not_elem_of_cons. rewrite split_lines_char by done. by rewrite IH.
Qed.

Lemma split_lines_end s : LF ∉ s -> split_lines (s ++ [LF]) = ([s], []).
Proof.
  induction s as [|c s IH]; [done|]. intros [H1 H2]%not_elem_of_cons. cbn [app]. rewrite split_lines_char by done.
  by rewrite IH.
Qed.

(** The lines and the rest are the text. *)
Definition unlines (ls : list bytes) : bytes := concat (map (fun l => l ++ [LF]) ls).
Lemma split_unlines s : unlines (split_lines s).1 ++ (split_lines s).2 = s /\ Forall (fun l => LF ∉ l) (split_lines s).1.
Proof.
  induction s as [|c s [IH1 IH2]]; [by split|]. destruct (decide (c = LF)) as [->|Hc].
  - rewrite split_lines_lf. cbn [fst snd]. unfold unlines in *. cbn [map concat]. cbn [app]. rewrite IH1.
    split; [done|]. apply Forall_cons_2; [apply not_elem_of_nil|done].
  - rewrite (split_lines_char _ _ Hc). destruct (split_lines s) as [[|x ls] rest]; cbn [fst snd] in *; unfold unlines in *.
    + cbn [map concat app] in *. by rewrite IH1.
    + cbn [map concat app] in *. rewrite IH1. split; [done|]. apply Forall_cons in IH2 as [? ?].
      apply Forall_cons_2; [by apply not_elem_of_cons|done].
Qed.

Lemma split_lines_unlines ls : Forall (fun l => LF ∉ l) ls -> (split_lines (unlines ls)).1 = ls.
Proof.
  induction 1 as [|l ls Hl _ IH]; [done|]. unfold unlines in *. cbn [map concat].
  rewrite split_lines_app, (split_lines_end l Hl). cbn [fst snd app]. by rewrite IH.
Qed.

Lemma skip_lf s : match skip_while not_lf s with
                  | [] => LF ∉ s
                  | c :: r => split_lines s = (take_while not_lf s :: (split_lines r).1, (split_lines r).2) /\
                      (length r < length s)%nat
                  end.
Proof.
  induction s as [|c s IH]; cbn [skip_while take_while]; [apply not_elem_of_nil|].
  destruct (not_lf_spec c) as [[-> Hc]|[-> ->]]; [|rewrite split_lines_lf; split; [done|cbn [length]; lia]].
  destruct (skip_while not_lf s) as [|d r]; [by apply not_elem_of_cons|].
  rewrite (split_lines_char _ _ Hc). destruct IH as [-> ?]. split; [done|cbn [length]; lia].
Qed.

(** The loop takes all complete lines, whatever the fuel beyond the length. *)
Lemma print_loop_spec p fuel : forall buf log, (length buf < fuel)%nat ->
  print_loop fuel p buf log = ((split_lines buf).2, log ++ map (pair p) (split_lines buf).1).
Proof.
  induction fuel as [|fuel IH]; intros buf log Hf; [lia|]. cbn [print_loop].
  pose proof (skip_lf buf) as H. destruct (skip_while not_lf buf) as [|c r].
  { rewrite (split_lines_none buf) by done. cbn [fst snd map]. by rewrite app_nil_r. }
  destruct H as [-> H]. rewrite IH by lia. cbn [fst snd map]. by rewrite <- app_assoc.
Qed.

(** What an operation appends, and the messages: a priority and what is put behind it. *)
Definition op_text (o : log_op) : bytes :=
  match o with
  | LStr s => cstr s | LChar c => cstr [c] | LUInt i => cstr (dec (w32 i)) | LInt i => cstr (dec (s32 i))
  | LPriority _ => []
  end.
Definition is_text (o : log_op) : Prop := match o with LPriority _ => False | _ => True end.
Definition text_of (os : list log_op) : bytes := concat (map op_text os).
Definition ops_of (ms : list (Z * list log_op)) : list log_op :=
  concat (map (fun m => LPriority (fst m) :: snd m) ms).

(** The lines in the log, when [pending] was not ended before these messages; and what
    the last of them leaves pending. *)
Definition flushed (p : Z) (pending : bytes) : list (Z * bytes) :=
  match pending with [] => [] | _ => [(p, pending)] end.
Fixpoint logged (pending : bytes) (ms : list (Z * list log_op)) : list (Z * bytes) * bytes :=
  match ms with
  | [] => ([], pending)
  | (p, os) :: ms =>
      let '(ls, rest) := split_lines (text_of os) in
      let '(more, last) := logged rest ms in
      (flushed p pending ++ map (pair p) ls ++ more, last)
  end.

Definition logger_ok (l : Logger) : Prop := (LF ∉ l_buf l) /\ Z.of_nat (length (l_buf l)) < bufsz l.
Definition log_limit : Z := 2 ^ 31 - 4098.

Section logging.
Variable memory : Z -> bool.
Hypothesis memory_ok : forall n, 0 < n < 2 ^ 31 -> memory n = true.

Lemma round_up_bounds sz : 0 <= sz < log_limit + 1 -> sz < round_up sz < 2 ^ 31.
Proof.
  unfold log_limit, round_up. intros H. replace (s32 (sz + 4096)) with (sz + 4096).
  2:{ unfold s32. rewrite Z.mod_small; lia. }
  change 4095 with (Z.ones 12). rewrite <- Z.ldiff_land. rewrite Z.ldiff_ones_r by lia.
  rewrite Z.shiftl_mul_pow2 by lia. rewrite Z.shiftr_div_pow2 by lia. change (2 ^ 12) with 4096.
  pose proof (Z.div_mod (sz + 4096) 4096 ltac:(lia)). pose proof (Z.mod_pos_bound (sz + 4096) 4096 ltac:(lia)). lia.
Qed.

Lemma append_ok s l : Z.of_nat (length (l_buf l)) + Z.of_nat (length s) < log_limit ->
  exists sz, append memory s l = Some (MkLogger (l_priority l) (l_buf l ++ s) sz (l_log l)) /\
    Z.of_nat (length (l_buf l ++ s)) < sz.
Proof.
  intros H. unfold append, bufresize. rewrite length_app. set (n := s32 _).
  assert (n = Z.of_nat (length (l_buf l)) + Z.of_nat (length s) + 1) as En.
  { unfold n, s32, log_limit in *. rewrite Z.mod_small; lia. }
  pose proof (round_up_bounds n ltac:(unfold log_limit in *; lia)) as Hr. destruct (Z.eqb_spec (round_up n) (bufsz l)) as [E|].
  - rewrite <- E. destruct (Z.eqb_spec (round_up n) 0); [lia|]. eexists. split; [done|cbn [bufsz]; lia].
  - rewrite memory_ok by lia. destruct (Z.eqb_spec (round_up n) 0); [lia|]. eexists. split; [done|cbn [bufsz]; lia].
Qed.

(** A text: its complete lines are logged with what was pending in front, the rest
    stays.  The buffer is larger than what it holds. *)
Lemma write_ok s l : Z.of_nat (length (l_buf l)) + Z.of_nat (length (cstr s)) < log_limit ->
  exists sz, write memory s l = Some (MkLogger (l_priority l) (split_lines (l_buf l ++ cstr s)).2 sz
      (l_log l ++ map (pair (l_priority l)) (split_lines (l_buf l ++ cstr s)).1)) /\
    logger_ok (MkLogger (l_priority l) (split_lines (l_buf l ++ cstr s)).2 sz
      (l_log l ++ map (pair (l_priority l)) (split_lines (l_buf l ++ cstr s)).1)).
Proof.
  intros H. destruct (append_ok (cstr s) l H) as (sz & E & Hs). exists sz. unfold write. rewrite E. cbn [fmap option_fmap option_map].
  unfold print. cbn [l_priority l_buf bufsz l_log]. rewrite print_loop_spec by lia. split; [done|].
  destruct (split_lines_rest (l_buf l ++ cstr s)) as [H1 H2]. split; [done|]. cbn [l_buf bufsz]. lia.
Qed.

Lemma priority_ok p l : logger_ok l -> Z.of_nat (length (l_buf l)) + 1 < log_limit ->
  exists sz, priority memory p l = Some (MkLogger p [] sz (l_log l ++ flushed p (l_buf l))) /\ 0 < sz.
Proof.
  intros [Hl Hs] H. unfold priority. cbn [l_buf].
  destruct (last (l_buf l)) as [c|] eqn:E.
  - apply last_Some in E as [b E]. rewrite bool_decide_eq_false_2.
    2:{ intros ->. apply Hl. rewrite E. apply elem_of_app. right. by apply list_elem_of_singleton. }
    destruct (write_ok [LF] (MkLogger p (l_buf l) (bufsz l) (l_log l)) H) as (sz & Ew & _ & Hok).
    cbn [l_priority l_buf bufsz l_log] in Ew, Hok. change (cstr [LF]) with [LF] in Ew, Hok.
    rewrite (split_lines_end (l_buf l)) in Ew, Hok by done. exists sz. rewrite Ew. rewrite E. split; [|exact Hok].
    by destruct b.
  - apply last_None in E. exists (bufsz l). rewrite E in Hs |- *. cbn [flushed length] in *. rewrite app_nil_r. by split; [|lia].
Qed.
Lemma texts_logged os : Forall is_text os -> forall l, logger_ok l ->
  Z.of_nat (length (l_buf l)) + Z.of_nat (length (text_of os)) < log_limit ->
  exists sz, let sl := split_lines (l_buf l ++ text_of os) in
    let l' := MkLogger (l_priority l) sl.2 sz (l_log l ++ map (pair (l_priority l)) sl.1) in
    log_run memory os l = Some l' /\ logger_ok l'.
Proof.
  induction 1 as [|o os Ho _ IH]; intros l Hl Hb; cbn [log_run].
  - exists (bufsz l). destruct Hl as [Hl Hs]. change (text_of []) with (@nil ascii). rewrite app_nil_r.
    rewrite split_lines_none by done. cbn [fst snd map]. rewrite app_nil_r. by destruct l.
  - change (text_of (o :: os)) with (op_text o ++ text_of os) in *. rewrite length_app in Hb.
    assert (exists s, log_step memory o l = write memory s l /\ op_text o = cstr s) as (s & -> & Et) by (destruct o; [by eexists|by eexists|by eexists|by eexists|destruct Ho]).
    rewrite Et in *. destruct (write_ok s l ltac:(lia)) as (sz & -> & Hok). cbn [mbind option_bind].
    destruct (split_lines_rest (l_buf l ++ cstr s)) as [_ Hle]. rewrite length_app in Hle.
    destruct (IH _ Hok ltac:(cbn [l_buf]; lia)) as (sz' & E & Hok'). cbn [l_priority l_buf l_log] in E, Hok'.
    exists sz'. cbn zeta. rewrite (app_assoc (l_buf l)). rewrite (split_lines_app (l_buf l ++ cstr s)). cbn [fst snd].
    rewrite map_app. rewrite (app_assoc (l_log l)). by split.
Qed.

Definition texts (ms : list (Z * list log_op)) : bytes := concat (map (fun m => text_of (snd m)) ms).

Lemma messages_logged ms : Forall (fun m => Forall is_text (snd m)) ms -> forall l, logger_ok l ->
  Z.of_nat (length (l_buf l)) + Z.of_nat (length (texts ms)) + 1 < log_limit ->
  exists l', log_run memory (ops_of ms) l = Some l' /\ logger_ok l' /\
    l_log l' = l_log l ++ (logged (l_buf l) ms).1 /\ l_buf l' = (logged (l_buf l) ms).2.
Proof.
  induction 1 as [|[p os] ms Ho _ IH]; intros l Hl Hb.
  - exists l. cbn [logged fst snd]. rewrite app_nil_r. by split_and!.
  - cbn [snd] in Ho. change (texts ((p, os) :: ms)) with (text_of os ++ texts ms) in Hb. rewrite length_app in Hb.
    change (ops_of ((p, os) :: ms)) with (LPriority p :: os ++ ops_of ms). cbn [log_run log_step].
    destruct (priority_ok p l Hl ltac:(lia)) as (sz & -> & Hs). cbn [mbind option_bind].
    rewrite log_run_app. set (l1 := MkLogger p [] sz _).
    assert (logger_ok l1) as Hl1 by (split; [apply not_elem_of_nil|exact Hs]).
    destruct (texts_logged os Ho l1 Hl1 ltac:(cbn; lia)) as (sz' & -> & Hok). cbn [mbind option_bind].
    destruct (split_lines_rest (text_of os)) as [_ Hle].
    destruct (IH _ Hok ltac:(cbn [l_buf l1 app]; lia)) as (l' & E & Hl' & El & Eb). exists l'. split_and!; [exact E|exact Hl'| |].
    all: (rewrite ?El); (rewrite ?Eb); cbn [l_buf l_log l_priority l1 app logged]; destruct (split_lines (text_of os)) as [ls rest];
      cbn [fst snd]; destruct (logged rest ms) as [more end']; cbn [fst snd]; rewrite <- ?app_assoc; done.
Qed.

(** Messages that end with a line feed leave nothing pending. *)
Definition ended (m : Z * list log_op) : Prop := forall c, last (text_of (snd m)) = Some c -> c = LF.
Definition lines_of (m : Z * list log_op) : list (Z * bytes) := map (pair (fst m)) (split_lines (text_of (snd m))).1.

Lemma split_lines_ended s : (forall c, last s = Some c -> c = LF) -> (split_lines s).2 = [].
Proof.
  induction s as [|c s IH]; [done|]. intros H. destruct (decide (c = LF)) as [->|Hc].
  - rewrite split_lines_lf. cbn [snd]. apply IH. intros d Hd. apply H. destruct s; [done|exact Hd].
  - rewrite (split_lines_char _ _ Hc). destruct s as [|d s]; [by specialize (H c eq_refl)|].
    pose proof (IH H) as E. destruct (split_lines (d :: s)) as [[|x ls] rest] eqn:Es; cbn [fst snd] in *; [|done].
    exfalso. subst rest. assert (forall t, split_lines t = ([], []) -> t = []) as Hnil.
    { intros [|e t]; [done|]. destruct (decide (e = LF)) as [->|He]; [by rewrite split_lines_lf|].
      rewrite (split_lines_char _ _ He). by destruct (split_lines t).1. }
    by apply Hnil in Es.
Qed.

Lemma logged_ended ms : Forall ended ms -> logged [] ms = (concat (map lines_of ms), []).
Proof.
  induction 1 as [|[p os] ms Hm _ IH]; [done|]. cbn [logged map concat]. unfold lines_of at 1. cbn [fst snd].
  pose proof (split_lines_ended _ Hm) as E. cbn [snd] in E. destruct (split_lines (text_of os)) as [ls rest].
  cbn [fst snd] in *. subst rest. by rewrite IH.
Qed.

(** C28: nothing that is written to the log is lost, and the buffer never overflows:
    however a message is put together from strings, characters and numbers, its
    complete lines are logged with its priority, in order, and where every message ends
    with a line feed these are all the log has.  What a message leaves without a line
    feed is a line of its own, before those of the message that follows and with the
    priority of that message, not with its own. *)
Theorem log_complete ms : Forall (fun m => Forall is_text (snd m)) ms -> Z.of_nat (length (texts ms)) + 1 < log_limit ->
  exists l0 l, new_logger memory = Some l0 /\ log_run memory (ops_of ms) l0 = Some l /\
    Z.of_nat (length (l_buf l)) < bufsz l /\
    (Forall ended ms -> l_log l = concat (map lines_of ms) /\ l_buf l = []) /\
    l_log l = (logged [] ms).1 /\ l_buf l = (logged [] ms).2.
Proof.
  intros Hm Hb. eexists. assert (new_logger memory = Some (MkLogger Debug [] 4096 [])) as E.
  { unfold new_logger, bufresize. change (round_up 1) with 4096. cbn [bufsz Z.eqb]. by rewrite memory_ok. }
  destruct (messages_logged ms Hm (MkLogger Debug [] 4096 []) ltac:(by split; [apply not_elem_of_nil|])
    ltac:(cbn [l_buf length]; lia)) as (l & Er & [_ Hs] & El & Eb). cbn [l_buf l_log app] in El, Eb.
  exists l. split_and!; try done. intros He. rewrite El, Eb. by rewrite (logged_ended _ He).
Qed.
End logging.

(** Two messages that are ended, of a few pieces and of two lines; and one between them
    that is not: it is logged with the priority of the last one. *)
Definition ex_messages : list (Z * list log_op) :=
  [(LogError, [LStr (bs "accept failed: "); LInt (-1); LChar LF]);
   (Debug, [LStr (bs "one" ++ [LF] ++ bs "tw"); LStr (bs "o" ++ [LF])])].
Definition ex_unended : list (Z * list log_op) :=
  [(LogError, [LStr (bs "error parsing .artX")]); (Debug, [LStr (bs "next" ++ [LF])])].
Lemma log_complete_witness :
  (exists l0 l, new_logger (fun _ => true) = Some l0 /\ log_run (fun _ => true) (ops_of ex_messages) l0 = Some l /\
     l_log l = [(LogError, bs "accept failed: -1"); (Debug, bs "one"); (Debug, bs "two")]) /\
  (exists l0 l, new_logger (fun _ => true) = Some l0 /\ log_run (fun _ => true) (ops_of ex_unended) l0 = Some l /\
     l_log l = [(Debug, bs "error parsing .artX"); (Debug, bs "next")]).
Proof.
  split.
  - destruct (log_complete (fun _ => true) ltac:(done) ex_messages) as (l0 & l & E0 & E & _ & H & _).
    + repeat (apply Forall_cons_2; [cbn [snd]; repeat (apply Forall_cons_2; [exact I|]); apply Forall_nil_2|]). apply Forall_nil_2.
    + vm_compute. reflexivity.
    + exists l0, l. split; [exact E0|]. split; [exact E|]. destruct H as [El _].
      * repeat (apply Forall_cons_2; [intros c Hc; vm_compute in Hc; by injection Hc as <-|]). apply Forall_nil_2.
      * rewrite El. vm_compute. reflexivity.
  - destruct (log_complete (fun _ => true) ltac:(done) ex_unended) as (l0 & l & E0 & E & _ & _ & El & _).
    + repeat (apply Forall_cons_2; [cbn [snd]; repeat (apply Forall_cons_2; [exact I|]); apply Forall_nil_2|]). apply Forall_nil_2.
    + vm_compute. reflexivity.
    + exists l0, l. split; [exact E0|]. split; [exact E|]. rewrite El. vm_compute. reflexivity.
Defined.

(** The month in a log file is one too small: January is 00. *)
Lemma stamp_january : stamp (Tm 126 0 31 12 0 0) Notice = bs "5 2026/00/31 12:00:00 ".
Proof. reflexivity. Qed.
