(* ===== verification/Exceptions.v ===== *)
(** * Exceptions.v: the classes of exceptions and the handlers of a child of nntpd

    src/NVClasses-0.9.1/Error.h, src/NServer-0.9.1/NSError.h, SyntaxError of Lexer.h and
    InvalidArticleError of Article.h; the handlers around nnrpd in src/NewsCache.cc.
    The type [exn] of Prelude.v has the exceptions as the functions raise them; here
    they are objects of their classes, with what print writes to the log. *)
From S2P Require Import Prelude Text GroupInfo.
From S2P Require Import Logger.

(** The classes; [cSockerr] is that of the socket++ library, [cOther] anything else. *)
Inductive error_class :=
| cError | cSystemError | cIOError | cAssertionError | cSyntaxError
| cNSError | cNoSuchFieldError | cInvalidArticleError | cNoNewsServerError | cNoSuchGroupError | cNoSuchArticleError
| cDuplicateArticleError | cNotAllowedError | cPostingFailedError | cUsageError | cResponseError
| cSockerr | cOther.
#[export] Instance error_class_eq_dec : EqDecision error_class.
Proof. solve_decision. Defined.

Definition base (c : error_class) : option error_class :=
  match c with
  | cError | cSockerr | cOther => None
  | cSystemError | cAssertionError | cSyntaxError | cNSError => Some cError
  | cIOError => Some cSystemError
  | _ => Some cNSError
  end.
(** A class and its bases; there are at most two above a class. *)
Definition ancestors (c : error_class) : list error_class :=
  c :: match base c with
       | None => []
       | Some b => b :: match base b with None => [] | Some b' => [b'] end
       end.

(** An object: its class and the members.  [e_line] is whatever the member holds. *)
Record error := MkError {
  e_class : error_class; e_text : bytes; e_file : bytes; e_function : bytes; e_line : Z; e_errno : Z;
  e_command : bytes; e_expected : bytes; e_got : bytes
}.
(** The constructors with a text and a place, and the one of ResponseError, which
    leaves the place alone. *)
Definition error_at (c : error_class) (txt file function : bytes) (line errno : Z) : error :=
  MkError c txt file function line errno [] [] [].
Definition response_error (command exp got : bytes) (line : Z) : error :=
  MkError cResponseError (bs "unknown") [] [] line (-1) command exp got.

(** The object an [exn] stands for, thrown at a place; [txt] is the text of the
    exceptions that do not carry one in the model. *)
Definition object_of (txt file function : bytes) (line : Z) (e : exn) : error :=
  match e with
  | Error t => error_at cError (bs t) file function line (-1)
  | SystemError t n => error_at cSystemError (bs t) file function line n
  | IOError t => error_at cIOError (bs t) file function line (-1)
  | AssertionError t => error_at cAssertionError (bs t) file function line (-1)
  | SyntaxError t => error_at cSyntaxError (bs t) file function line (-1)
  | NSError t => error_at cNSError (bs t) file function line (-1)
  | NoSuchFieldError t => error_at cNoSuchFieldError t file function line (-1)
  | InvalidArticleError t => error_at cInvalidArticleError (bs t) file function line (-1)
  | NoNewsServerError => error_at cNoNewsServerError txt file function line (-1)
  | NoSuchGroupError => error_at cNoSuchGroupError txt file function line (-1)
  | NoSuchArticleError => error_at cNoSuchArticleError txt file function line (-1)
  | DuplicateArticleError => error_at cDuplicateArticleError txt file function line (-1)
  | NotAllowedError => error_at cNotAllowedError txt file function line (-1)
  | PostingFailedError => error_at cPostingFailedError txt file function line (-1)
  | UsageError => error_at cUsageError txt file function line (-1)
  | ResponseError c x g => response_error c x g line
  | CharPtr _ | StdException _ => error_at cOther [] file function line (-1)
  end.

Section print.
Variable strerror : Z -> bytes.

Definition place (e : error) : bytes :=
  bs " File: " ++ e_file e ++ bs " Function: " ++ e_function e ++ bs " Line: " ++ dec (s32 (e_line e)).
Definition described (e : error) : bytes := place e ++ bs " Desc: " ++ e_text e.
Definition with_errno (e : error) : bytes :=
  described e ++ bs " ErrStr(" ++ dec (s32 (e_errno e)) ++ bs "): " ++ strerror (e_errno e).

(** print of each class. *)
Definition print_Error (e : error) : bytes := bs "Exception!" ++ described e ++ [LF].
Definition print_SystemError (e : error) : bytes := bs "Exception!" ++ bs " Type: System" ++ with_errno e ++ [LF].
Definition print_IOError (e : error) : bytes := bs "Exception!" ++ bs " Type: IO" ++ with_errno e ++ [LF].
Definition print_AssertionError (e : error) : bytes := bs "Exception!" ++ bs " Type: Assertion" ++ described e ++ [LF].
Definition print_SyntaxError (e : error) : bytes := bs "Exception!" ++ [LF] ++ bs "  Type: Syntax" ++ [LF] ++ bs "  Desc: " ++ e_text e ++ [LF].
Definition print_NSError (e : error) : bytes := bs "Exception! " ++ bs " Type: NServer" ++ described e ++ [LF].
Definition print_NoSuchFieldError (e : error) : bytes := bs "Exception!" ++ bs " Type: NotFound" ++ described e ++ [LF].
Definition print_InvalidArticleError (e : error) : bytes := bs "Exception!" ++ [LF] ++ bs "  Type: InvalidArticle" ++ [LF] ++ bs "  Desc: " ++ e_text e ++ [LF].
Definition print_NoNewsServerError (e : error) : bytes := bs "Exception!" ++ bs " Type: NoNewsServer" ++ described e ++ [LF].
Definition print_NoSuchGroupError (e : error) : bytes := bs "Exception!" ++ bs " Type: NoSuchGroup" ++ described e ++ [LF].
Definition print_NoSuchArticleError (e : error) : bytes := bs "Exception!" ++ bs " Type: NoSuchArticle" ++ described e ++ [LF].
Definition print_DuplicateArticleError (e : error) : bytes := bs "Exception!" ++ bs " Type: DuplicateArticle" ++ described e ++ [LF].
Definition print_NotAllowedError (e : error) : bytes := bs "Exception!" ++ bs " Type: NoSuchArticle" ++ described e ++ [LF].
Definition print_PostingFailedError (e : error) : bytes := bs "Exception!" ++ bs " Type: PostingFailedError" ++ described e ++ [LF].
Definition print_UsageError (e : error) : bytes := bs "Exception!" ++ bs " Type: Usage" ++ described e ++ [LF].
Definition print_ResponseError (e : error) : bytes :=
  bs "Exception!" ++ bs " Type: Response" ++ place e ++ bs " Cmd : " ++ e_command e ++ bs " Exp : " ++ e_expected e ++
  bs " Got : " ++ e_got e ++ [LF].

(** print of the part of the object that belongs to a class. *)
Definition print_as (k : error_class) : error -> bytes :=
  match k with
  | cError => print_Error
  | cSystemError => print_SystemError
  | cIOError => print_IOError
  | cAssertionError => print_AssertionError
  | cSyntaxError => print_SyntaxError
  | cNSError => print_NSError
  | cNoSuchFieldError => print_NoSuchFieldError
  | cInvalidArticleError => print_InvalidArticleError
  | cNoNewsServerError => print_NoNewsServerError
  | cNoSuchGroupError => print_NoSuchGroupError
  | cNoSuchArticleError => print_NoSuchArticleError
  | cDuplicateArticleError => print_DuplicateArticleError
  | cNotAllowedError => print_NotAllowedError
  | cPostingFailedError => print_PostingFailedError
  | cUsageError => print_UsageError
  | cResponseError => print_ResponseError
  | cSockerr | cOther => fun _ => []
  end.

(** ** The handlers of the child of nntpd, in their order *)
Definition catch_clauses : list (error_class * bytes) :=
  [(cSockerr, bs "sockbuf "); (cUsageError, bs "UsageError "); (cNotAllowedError, bs "NotAllowdError ");
   (cNoSuchArticleError, bs "NoSuchArticleError "); (cDuplicateArticleError, bs "DuplicateArticleError ");
   (cNoSuchGroupError, bs "NoSuchGroupError "); (cNoNewsServerError, bs "NoNewsServerError ");
   (cNoSuchFieldError, bs "NoSuchFieldError "); (cNSError, bs "NSError "); (cAssertionError, bs "AssertionError ");
   (cIOError, bs "IOError "); (cSystemError, bs "SystemError "); (cError, bs "Error ")].

(** The first clause whose class the object has; [None] is the clause for the rest. *)
Definition clause_for (c : error_class) : option (error_class * bytes) :=
  List.find (fun k => bool_decide (fst k ∈ ancestors c)) catch_clauses.

(** What the clause writes to the log.  The object is caught by value: print is that
    of the class of the clause.  [sock] is what is printed of a sockerr. *)
Definition caught (sock : bytes) (e : error) : list log_op :=
  [LPriority LogError; LStr (bs "nnrpd caught ")] ++
  match clause_for (e_class e) with
  | Some (cSockerr, w) => [LStr w; LStr (sock ++ [LF])]
  | Some (k, w) => [LStr w; LStr (print_as k e)]
  | None => [LStr (bs "unknown!!"); LStr [LF]]
  end.

(** What a session leaves in the log of its child, which then exits with status 0. *)
Definition child_log {S A} (txt file function : bytes) (line : Z) (o : outcome S A) : list log_op :=
  match o with Throw e _ => caught [] (object_of txt file function line e) | _ => [] end.
End print.

(** ** What the log says *)

(** The texts of an object and of the system that go into a report do not have [c]:
    C strings have no zero, and most have no line feed. *)
Definition lacks (c : ascii) (s : bytes) : Prop := c ∉ s.
Record texts_lack (c : ascii) (strerror : Z -> bytes) (e : error) : Prop := {
  tl_text : lacks c (e_text e); tl_file : lacks c (e_file e); tl_function : lacks c (e_function e);
  tl_strerror : lacks c (strerror (e_errno e))
}.

(** What the report of an exception says. *)
Definition report (strerror : Z -> bytes) (sock : bytes) (e : error) : bytes :=
  bs "nnrpd caught " ++
  match clause_for (e_class e) with
  | Some (k, w) => w ++ (if bool_decide (k = cSockerr) then sock ++ [LF] else print_as strerror k e)
  | None => bs "unknown!!" ++ [LF]
  end.

Lemma lacks_app c a b : lacks c a -> lacks c b -> lacks c (a ++ b).
Proof. unfold lacks. intros Ha Hb [H|H]%elem_of_app; auto. Qed.

Lemma lacks_digits c : c = NUL \/ c = LF -> forall fuel z acc, lacks c acc -> lacks c (digits fuel z acc).
Proof.
  intros Hc. induction fuel as [|fuel IH]; intros x acc H; cbn [digits]; [done|].
  assert (lacks c (cz (48 + x mod 10) :: acc)) as H'.
  { apply not_elem_of_cons. split; [|done]. pose proof (Z.mod_pos_bound x 10 ltac:(lia)) as Hm. generalize dependent (x mod 10).
    intros m Hm. assert (m = 0 \/ m = 1 \/ m = 2 \/ m = 3 \/ m = 4 \/ m = 5 \/ m = 6 \/ m = 7 \/ m = 8 \/ m = 9) as Hd by lia.
    destruct Hc as [->| ->]; by (repeat destruct Hd as [->|Hd]; [..|subst m]). }
  destruct (x / 10 =? 0); [done|]. by apply IH.
Qed.
Lemma lacks_dec c z : c = NUL \/ c = LF -> lacks c (dec z).
Proof.
  intros Hc. unfold dec. destruct (z <? 0); [apply not_elem_of_cons; split; [by destruct Hc as [->| ->]|]|];
    apply lacks_digits; try done; apply not_elem_of_nil.
Qed.

(** A constant text. *)
Lemma lacks_const c s : c = NUL \/ c = LF -> bool_decide (NUL ∉ s) && bool_decide (LF ∉ s) = true -> lacks c s.
Proof. intros [->| ->] [H1 H2]%andb_true_iff; by eapply bool_decide_eq_true_1. Qed.
Create HintDb lacks.
#[export] Hint Resolve lacks_app lacks_dec tl_text tl_file tl_function tl_strerror : lacks.
#[export] Hint Extern 5 (lacks _ (bs _)) => apply lacks_const; [assumption|vm_compute; reflexivity] : lacks.
#[export] Hint Extern 5 (lacks _ (_ :: _)) => apply lacks_const; [assumption|vm_compute; reflexivity] : lacks.

Section reports.
Variable strerror : Z -> bytes.

Lemma lacks_described c e : c = NUL \/ c = LF -> texts_lack c strerror e -> lacks c (described e).
Proof. intros Hc H. unfold described, place. eauto 12 with lacks. Qed.
Lemma lacks_with_errno c e : c = NUL \/ c = LF -> texts_lack c strerror e -> lacks c (with_errno strerror e).
Proof. intros Hc H. pose proof (lacks_described c e Hc H). unfold with_errno. eauto 12 with lacks. Qed.
#[local] Hint Resolve lacks_described lacks_with_errno : lacks.

(** The classes of the clauses print a text that ends its line. *)
Lemma clause_prints k w e : (k, w) ∈ catch_clauses -> k <> cSockerr -> exists body, print_as strerror k e = body ++ [LF] /\
  forall c, c = NUL \/ c = LF -> texts_lack c strerror e -> lacks c w /\ lacks c body.
Proof.
  intros Hk Hs. unfold catch_clauses in Hk. rewrite list_elem_of_In in Hk. cbn [In] in Hk.
  repeat destruct Hk as [[= <- <-]|Hk]; try done; cbn [print_as];
    unfold print_Error, print_SystemError, print_IOError, print_AssertionError, print_NSError, print_NoSuchFieldError,
      print_NoNewsServerError, print_NoSuchGroupError, print_NoSuchArticleError, print_DuplicateArticleError,
      print_NotAllowedError, print_UsageError; eexists;
    (split; [rewrite !app_assoc; reflexivity|]); intros c Hc He; split; eauto 12 with lacks.
Qed.

(** The operations on the log write the report. *)
Lemma caught_text sock e : texts_lack NUL strerror e -> lacks NUL sock -> exists body,
  text_of (caught strerror sock e) = report strerror sock e /\ report strerror sock e = body ++ [LF] /\
  (texts_lack LF strerror e -> lacks LF sock -> lacks LF body).
Proof.
  intros He Hsock. assert (exists w body, (forall c, c = NUL \/ c = LF -> texts_lack c strerror e -> lacks c sock ->
      lacks c w /\ lacks c body) /\ report strerror sock e = bs "nnrpd caught " ++ w ++ body ++ [LF] /\
      caught strerror sock e = [LPriority LogError; LStr (bs "nnrpd caught "); LStr w; LStr (body ++ [LF])]) as (w & body & Hb & -> & ->).
  { unfold caught, report. destruct (clause_for (e_class e)) as [[k w]|] eqn:E.
    - apply find_some in E as [Hin%list_elem_of_In _]. destruct (decide (k = cSockerr)) as [->|Hk].
      + exists w, sock. split_and!; [|done..]. intros c Hc _ Hs. split; [|done].
        unfold catch_clauses in Hin. rewrite list_elem_of_In in Hin. cbn [In] in Hin.
        destruct Hin as [[= <-]|Hin]; [eauto with lacks|by repeat destruct Hin as [[= ]|Hin]].
      + destruct (clause_prints k w e Hin Hk) as (body & Ep & Hb). rewrite bool_decide_eq_false_2 by done.
        exists w, body. rewrite Ep. split_and!; [by auto|done|]. destruct k; try done; by rewrite Ep.
    - exists (bs "unknown!!"), []. split_and!; [|done..]. intros c Hc _ _. split; [eauto with lacks|apply not_elem_of_nil]. }
  destruct (Hb NUL ltac:(by left) He Hsock) as [Hw Hbody].
  exists (bs "nnrpd caught " ++ w ++ body). split_and!; [|by rewrite <- !app_assoc|].
  - unfold text_of. cbn [map op_text concat app]. rewrite !cstr_all, app_nil_r; [done| |exact Hw|].
    + apply (lacks_app NUL); [exact Hbody|by intros ?%list_elem_of_singleton].
    + apply (lacks_const NUL); [by left|vm_compute; reflexivity].
  - intros H1 H2. destruct (Hb LF ltac:(by right) H1 H2). apply lacks_app; [|by apply lacks_app].
    apply lacks_const; [by right|vm_compute; reflexivity].
Qed.

Variable memory : Z -> bool.
Hypothesis memory_ok : forall n, 0 < n < 2 ^ 31 -> memory n = true.

(** The clause that is run is the one for the class of the object or, when there is
    none, for its nearest base that has one. *)
Lemma clause_nearest c : match clause_for c with
  | Some (k, w) => (k, w) ∈ catch_clauses /\ k ∈ ancestors c /\
      Forall (fun x => bool_decide (fst x ∈ ancestors c) = true -> fst x ∈ ancestors k) catch_clauses
  | None => Forall (fun x => bool_decide (fst x ∈ ancestors c) = false) catch_clauses
  end.
Proof.
  destruct (clause_for c) as [[k w]|] eqn:E.
  - pose proof (find_some _ _ E) as [Hin Hk]. apply bool_decide_eq_true in Hk. split_and!; [by apply list_elem_of_In|done|].
    destruct c; vm_compute in E; try discriminate E; injection E as <- <-; unfold catch_clauses;
      repeat (apply Forall_cons_2; [intros Hb; first [by vm_compute in Hb | by apply (bool_decide_eq_true_1 _)]|]); apply Forall_nil_2.
  - destruct c; vm_compute in E; try discriminate E; vm_compute; repeat (apply List.Forall_cons; [done|]); apply List.Forall_nil.
Qed.

(** C29: a child of nntpd reports every exception that ends its session in the log,
    with the priority of an error: the lines that are logged are together the report,
    which names the clause that catches the exception and has what print of its class
    says; nothing of it stays in the buffer.  The clause is that of the class of the
    exception or of the nearest base that has one, whatever the order of the clauses.
    The report is one line when the texts of the exception have no line feed. *)
Theorem child_reports sock e l : logger_ok l -> texts_lack NUL strerror e -> lacks NUL sock ->
  Z.of_nat (length (l_buf l)) + Z.of_nat (length (text_of (caught strerror sock e))) + 1 < log_limit ->
  exists l' lines, log_run memory (caught strerror sock e) l = Some l' /\
    l_log l' = l_log l ++ flushed LogError (l_buf l) ++ map (pair LogError) lines /\ l_buf l' = [] /\
    unlines lines = report strerror sock e /\ Forall (fun x => LF ∉ x) lines /\
    (texts_lack LF strerror e -> lacks LF sock -> length lines = 1%nat) /\
    match clause_for (e_class e) with
    | Some (k, w) => k ∈ ancestors (e_class e) /\
        (forall x, x ∈ catch_clauses -> fst x ∈ ancestors (e_class e) -> fst x ∈ ancestors k)
    | None => forall x, x ∈ catch_clauses -> fst x ∉ ancestors (e_class e)
    end.
Proof.
  intros Hl He Hsock Hsz. destruct (caught_text sock e He Hsock) as (body & Et & Er & Hone).
  assert (exists ops, caught strerror sock e = LPriority LogError :: ops /\ Forall is_text ops) as (ops & Ec & Hops).
  { unfold caught. eexists. split; [reflexivity|]. cbn [app]. by destruct (clause_for _) as [[[] ?]|]; repeat constructor. }
  rewrite Ec in *. change (text_of (LPriority LogError :: ops)) with (text_of ops) in Et, Hsz.
  destruct (messages_logged memory memory_ok [(LogError, ops)] ltac:(by apply Forall_cons_2) l Hl) as (l' & Erun & _ & El & Eb).
  { unfold texts. cbn [map snd concat]. rewrite app_nil_r. lia. }
  unfold ops_of in Erun. cbn [map fst snd concat] in Erun. rewrite app_nil_r in Erun.
  exists l', (split_lines (report strerror sock e)).1. cbn [logged] in El, Eb. rewrite Et in El, Eb.
  destruct (split_unlines (report strerror sock e)) as [Hu Hlf].
  assert ((split_lines (report strerror sock e)).2 = []) as E2.
  { apply split_lines_ended. intros c. rewrite Er, last_snoc. by intros [= <-]. }
  destruct (split_lines (report strerror sock e)) as [ls rest] eqn:Es. cbn [fst snd] in *.
  rewrite E2 in Es, Eb, Hu. rewrite app_nil_r in El, Hu. split_and!; try done.
  - intros H1 H2. pose proof (split_lines_end body (Hone H1 H2)) as E. rewrite <- Er, Es in E. by injection E as ->.
  - pose proof (clause_nearest (e_class e)) as Hn. destruct (clause_for (e_class e)) as [[k w]|].
    + destruct Hn as (_ & Hk & Hnear). rewrite Forall_forall in Hnear. split; [done|]. intros x Hx Ha.
      apply (Hnear x Hx). by apply bool_decide_eq_true.
    + rewrite Forall_forall in Hn. intros x Hx. specialize (Hn x Hx). by apply bool_decide_eq_false in Hn.
Qed.
End reports.

(** The text of selectgroup for a name that is too long ends its line itself: its report
    is two lines, the second of them empty. *)
Definition ex_error : error :=
  object_of [] (bs "NServer.cc") (bs "selectgroup") 497
    (AssertionError (ln "RServer::selectgroup: name of newsgroup too long")).
Lemma child_reports_witness : exists l',
  log_run (fun _ => true) (caught (fun _ => bs "Cannot allocate memory") [] ex_error) (MkLogger Debug (bs "pend") 4096 []) = Some l' /\
  l_log l' = [(LogError, bs "pend");
    (LogError, bs "nnrpd caught AssertionError Exception! Type: Assertion File: NServer.cc Function: selectgroup Line: 497 Desc: RServer::selectgroup: name of newsgroup too long");
    (LogError, [])].
Proof.
  destruct (child_reports (fun _ => bs "Cannot allocate memory") (fun _ => true) ltac:(done) [] ex_error (MkLogger Debug (bs "pend") 4096 []))
    as (l' & lines & E & El & _ & Eu & Hlf & _).
  - split; [by notin|reflexivity].
  - split; apply (bool_decide_eq_true_1 _); vm_compute; reflexivity.
  - apply not_elem_of_nil.
  - vm_compute. reflexivity.
  - exists l'. split; [exact E|]. rewrite El. cbn [l_log l_buf app].
    assert (lines = (split_lines (report (fun _ => bs "Cannot allocate memory") [] ex_error)).1) as ->.
    { rewrite <- Eu. symmetry. apply split_lines_unlines. exact Hlf. }
    vm_compute. reflexivity.
Defined.

(** A ResponseError is caught as an NSError: what was expected and what the news server
    answered are not in the line. *)
Lemma response_not_reported strerror command exp got line :
  caught strerror [] (response_error command exp got line) = caught strerror [] (response_error [] [] [] line).
Proof. reflexivity. Qed.

(** print of NotAllowedError calls itself NoSuchArticle. *)
Lemma not_allowed_prints strerror e : print_as strerror cNotAllowedError e = print_as strerror cNoSuchArticleError e.
Proof. reflexivity. Qed.
