(* ===== verification/Process.v ===== *)
(** * Process.v: what the programs do before they do their work

    A program is a sequence of effects on the process and its output that ends with a
    value, with exit, or with a crash (an exception that nobody catches, a null
    pointer).  setugid of src/setugid.cc, the priority, the configuration and the start
    of nntpd and its loop around accept in src/NewsCache.cc, getsaltchar of
    src/crypt.cc.  The messages for the log are left out. *)
From S2P Require Import Prelude Text.
From S2P Require Import Config.
From S2P Require Import Nntpd.

Inductive effect :=
| Out (s : bytes) | Err (s : bytes)
| SetGid (g : Z) | SetUid (u : Z) | SetNice (n : Z) | Chdir (dir : bytes) | SetSid | CloseStd
| Bind (addr port : Z) | WritePid (file : bytes) | Listen.
Inductive result (A : Type) := Go (a : A) | Exit (status : Z) | Crash (why : string).
Arguments Go {A} a.
Arguments Exit {A} status.
Arguments Crash {A} why.

Definition prog (A : Type) : Type := list effect * result A.
Definition go {A} (a : A) : prog A := ([], Go a).
Definition act (e : effect) : prog unit := ([e], Go tt).
Definition exit {A} (status : Z) : prog A := ([], Exit status).
Definition crash {A} (why : string) : prog A := ([], Crash why).
Definition then_ {A B} (p : prog A) (k : A -> prog B) : prog B :=
  match snd p with
  | Go a => (fst p ++ fst (k a), snd (k a))
  | Exit z => (fst p, Exit z)
  | Crash w => (fst p, Crash w)
  end.
Declare Scope proc_scope.
Delimit Scope proc_scope with proc.
Notation "x <-- p ; k" := (then_ p (fun x => k)) (at level 100, p at next level, right associativity) : proc_scope.
Notation "p >>> k" := (then_ p (fun _ => k)) (at level 60, k at level 60, right associativity) : proc_scope.
Open Scope proc_scope.

(** The message on cerr, and the status. *)
Definition die {A} (msg : bytes) (status : Z) : prog A := act (Err msg) >>> exit status.

(** The system: the users and groups, what its calls answer, the files, and what the
    program was built with.  [getpriority] is [None] when it fails. *)
Inductive fork_result := ForkFails | ForkChild | ForkParent.
Class System := {
  getuid : Z;
  group_id : bytes -> option Z; user_id : bytes -> option Z;
  setregid_ok : Z -> bool; setreuid_ok : Z -> bool; strerror : Z -> bytes; sys_errno : Z;
  getpriority : option Z;
  chdir_ok : bytes -> bool; socket_ok : bool; bind_ok : Z -> Z -> bool; fork : fork_result; setsid_ok : bool;
  conf_file : bytes -> option bytes; fqdn : bytes;
  PACKAGE : bytes; VERSION : bytes; SYSCONFDIR : bytes; ConfigurationOptions : list bytes
}.
Definition CONF_UIDROOT : Z := 0.

Section process.
Context {sys : System}.

(** ** The user and the group *)
Definition setugid (uname gname : bytes) : prog unit :=
  match gname with
  | [] => go tt
  | _ =>
      match group_id gname with
      | None => die (bs "Cannot get grent for " ++ gname ++ [LF] ++ bs "Please set the Groupname in newscache.conf" ++ [LF]) 1
      | Some g =>
          if setregid_ok g then act (SetGid g)
          else die (bs "Cannot set effective groupid to " ++ dec g ++ bs ": " ++ strerror sys_errno ++ [LF]) 1
      end
  end >>>
  match uname with
  | [] => go tt
  | _ =>
      match user_id uname with
      | None => die (bs "Cannot get pwent for " ++ uname ++ [LF] ++ bs "Please set the Username in newscache.conf" ++ [LF]) 1
      | Some u =>
          if setreuid_ok u then act (SetUid u)
          else die (bs "Cannot set effective userid to " ++ dec u ++ bs ": " ++ strerror sys_errno ++ [LF]) 1
      end
  end.

(** setreuid and setregid set the real and the effective id. *)
Record ids := Ids { ruid : Z; euid : Z; rgid : Z; egid : Z }.
Definition id_step (i : ids) (e : effect) : ids :=
  match e with
  | SetGid g => Ids (ruid i) (euid i) g g
  | SetUid u => Ids u u (rgid i) (egid i)
  | _ => i
  end.
Definition ids_after (i : ids) (es : list effect) : ids := fold_left id_step es i.

(** Signed arithmetic on int is undefined out of its range. *)
Definition is_int (z : Z) : bool := (- 2 ^ 31 <=? z) && (z <? 2 ^ 31).

(** ** The priority

    getpriority gives -1 when it fails; the test is made on the sum. *)
Definition set_nice (c : Config) : prog unit :=
  let nice := c_int c NiceServer + default (-1) getpriority in
  if negb (is_int nice) then crash "signed overflow" else
  if (nice =? -1) && bool_decide (getpriority = None) then go tt else act (SetNice nice).

(** ** The configuration

    [Cfg.read(file)] within its handlers. *)
Definition read_config (file : bytes) : prog Config :=
  match conf_file file with
  | None => die (bs "unexpected EOF in " ++ file ++ [LF]) 2
  | Some text =>
      match conf_read (conf_init fqdn) (lex_open text) with
      | Ret c _ => go c
      | Throw (IOError _) _ => die (bs "unexpected EOF in " ++ file ++ [LF]) 2
      | Throw (SyntaxError txt) l => die (file ++ bs ":" ++ dec (l_line l) ++ bs ": " ++ bs txt ++ [LF]) 2
      | Throw _ _ => crash "exception not caught"
      | Abort w => crash w
      | Spin => crash "loop without end"
      end
  end.
Definition default_config : bytes := SYSCONFDIR ++ bs "/newscache.conf".

(** ** nntpd: from the socket to listen *)
Context {resolver : Resolver}.
Definition nntpd_start (c : Config) : prog unit :=
  set_nice c >>>
  if negb socket_ok then exit 1 else
  match listen_address c with
  | NullPointer => crash "null pointer"
  | HostError => exit 1
  | Addr a port =>
      if negb (bind_ok a port) then exit 1 else
      act (Bind a port) >>> act (WritePid (c_strg c PidFile)) >>>
      setugid (c_strg c Username) (c_strg c Groupname) >>> act Listen
  end.
End process.

(** What accept gives: errno, the descriptor, and whether [Xsignal] was set by then. *)
Record accepted := Accepted { a_errno : Z; a_fd : Z; a_signal : bool }.
Definition EINTR : Z := 4.

(** The loop around accept, up to a client: its descriptor and the calls that are
    left, [None] when the calls are used up. *)
Fixpoint accept_client (calls : list accepted) : option (result Z * list accepted) :=
  match calls with
  | [] => None
  | a :: calls =>
      if a_signal a then Some (Exit 0, calls)
      else if a_errno a =? EINTR then accept_client calls
      else if a_fd a <? 0 then accept_client calls
      else Some (Go (a_fd a), calls)
  end.

(** ** Signals *)
Inductive signal := SIGALRM | SIGHUP | SIGINT | SIGPIPE | SIGTERM | SIGUSR1 | SIGUSR2 | SIGCHLD.
Inductive handler := h_catchsigalarm | h_catchsighup | h_catchsignal | h_ignore | h_sigchld.

Definition handler_of (s : signal) : handler :=
  match s with
  | SIGALRM => h_catchsigalarm | SIGHUP => h_catchsighup
  | SIGINT | SIGPIPE | SIGTERM => h_catchsignal
  | SIGUSR1 | SIGUSR2 => h_ignore | SIGCHLD => h_sigchld
  end.

(** What the handlers change; sigchld has its place in Nntpd.v.  catchsighup reads the file outside of any handler of
    exceptions. *)
Record globals := Globals { Xsignal : Z; clientTimeoutReached : bool; Cfg : Config }.
Definition reread {sys : System} (file : bytes) : prog Config :=
  match conf_file file with
  | None => crash "IOError not caught"
  | Some text =>
      match conf_read (conf_init fqdn) (lex_open text) with
      | Ret c _ => go c
      | Throw _ _ => crash "exception not caught"
      | Abort w => crash w
      | Spin => crash "loop without end"
      end
  end.
Definition deliver {sys : System} (num : signal -> Z) (file : bytes) (s : signal) (g : globals) : prog globals :=
  match handler_of s with
  | h_catchsigalarm => go (Globals (Xsignal g) true (Cfg g))
  | h_catchsighup => c <-- reread file ; go (Globals (Xsignal g) (clientTimeoutReached g) c)
  | h_catchsignal => go (Globals (num s) (clientTimeoutReached g) (Cfg g))
  | h_ignore | h_sigchld => go g
  end.

(** ** The salt of the crypt program

    [r] is what rand makes of 64. *)
Definition getsaltchar (r : Z) : ascii :=
  if r <? 26 then cz (zc "a"%char + r) else
  let r := r - 26 in
  if r <? 26 then cz (zc "A"%char + r) else
  let r := r - 26 in
  if r <? 10 then cz (zc "0"%char + r)
  else if r <? 1 then "."%char else "/"%char.

(** ** Programs that come to their work *)
Lemma then_go {A B} (p : prog A) (k : A -> prog B) es b : then_ p k = (es, Go b) ->
  exists es1 a es2, p = (es1, Go a) /\ k a = (es2, Go b) /\ es = es1 ++ es2.
Proof.
  destruct p as [es1 [a| |]]; cbn [then_ fst snd]; [|done|done]. intros [= <- E].
  exists es1, a, (fst (k a)). split_and!; [done| |done]. rewrite <- E. by destruct (k a).
Qed.
Lemma act_go e es u : act e = (es, Go u) -> es = [e].
Proof. by intros [= <-]. Qed.
Lemma go_go {A} (a b : A) es : go a = (es, Go b) -> es = [] /\ a = b.
Proof. by intros [= <- <-]. Qed.
Lemma die_go {A} msg z es (a : A) : die msg z = (es, Go a) -> False.
Proof. done. Qed.

(** Takes an equation [program = (effects, Go value)] apart. *)
Ltac go_inv H :=
  match type of H with
  | then_ _ _ = (_, Go _) =>
      let es1 := fresh "es" in let a := fresh "a" in let es2 := fresh "es" in
      let H1 := fresh H in
      apply then_go in H as (es1 & a & es2 & H1 & H & ->); go_inv H1; go_inv H
  | act _ = (_, Go _) => apply act_go in H as ->
  | go _ = (_, Go _) => apply go_go in H as [-> H]; try (injection H as H); try subst
  | die _ _ = (_, Go _) => by apply die_go in H
  | exit _ = (_, Go _) => discriminate H
  | crash _ = (_, Go _) => discriminate H
  | (if ?b then _ else _) = (_, Go _) => let E := fresh "E" in destruct b eqn:E; go_inv H
  | _ => idtac
  end.

Lemma ids_after_app i es1 es2 : ids_after i (es1 ++ es2) = ids_after (ids_after i es1) es2.
Proof. apply fold_left_app. Qed.

Section process_facts.
Context {sys : System} {resolver : Resolver}.

(** When setugid returns, the ids that were asked for are those of the process. *)
Lemma setugid_ids uname gname es u : setugid uname gname = (es, Go u) ->
  Forall (fun e => match e with SetUid _ | SetGid _ => True | _ => False end) es /\
  (uname <> [] -> gname <> [] -> exists uid gid, user_id uname = Some uid /\ group_id gname = Some gid /\
     forall i, ids_after i es = Ids uid uid gid gid).
Proof.
  unfold setugid. intros H. apply then_go in H as (es1 & [] & es2 & H1 & H2 & ->). split.
  - apply Forall_app. split.
    + destruct gname; [go_inv H1; by apply Forall_nil_2|]. destruct (group_id _); [|by go_inv H1].
      go_inv H1; by repeat constructor.
    + destruct uname; [go_inv H2; by apply Forall_nil_2|]. destruct (user_id _); [|by go_inv H2].
      go_inv H2; by repeat constructor.
  - intros Hu Hg. destruct gname as [|]; [done|]. destruct uname; [done|].
    destruct (group_id _) as [gid|]; [|by go_inv H1]. destruct (user_id _) as [uid|]; [|by go_inv H2].
    go_inv H1. go_inv H2. exists uid, gid. by split_and!.
Qed.

(** Reading the configuration has no other effect than a message. *)
Lemma read_config_go file es c : read_config file = (es, Go c) -> es = [].
Proof.
  unfold read_config. intros H. destruct (conf_file file); [|by go_inv H].
  destruct (conf_read _ _) as [? ?|[] ?| |]; by go_inv H.
Qed.

(** nntpd listens when it has the ids, and not before. *)
Lemma nntpd_start_ids c es u : nntpd_start c = (es, Go u) -> c_strg c Username <> [] -> c_strg c Groupname <> [] ->
  exists pre uid gid, es = pre ++ [Listen] /\ (Listen ∉ pre) /\
    user_id (c_strg c Username) = Some uid /\ group_id (c_strg c Groupname) = Some gid /\
    forall i, ids_after i pre = Ids uid uid gid gid.
Proof.
  unfold nntpd_start. intros H Hu Hg. apply then_go in H as (es1 & a1 & es2 & H1 & H & ->).
  assert (Listen ∉ es1) as Hl1.
  { unfold set_nice in H1. go_inv H1; [apply not_elem_of_nil|]. by intros ?%list_elem_of_singleton. }
  destruct (negb socket_ok); [by go_inv H|]. destruct (listen_address c) as [a p| |]; [|by go_inv H|by go_inv H].
  destruct (negb (bind_ok a p)); [by go_inv H|].
  apply then_go in H as (es3 & a3 & es4 & H3 & H & ->). go_inv H3.
  apply then_go in H as (es3 & a5 & es5 & H5 & H & ->). go_inv H5.
  apply then_go in H as (es3 & a4 & es6 & H4 & H & ->). go_inv H.
  destruct (setugid_ids _ _ _ _ H4) as [Hf Hi]. destruct (Hi Hu Hg) as (uid & gid & E1 & E2 & Hids).
  exists (es1 ++ [Bind a p] ++ [WritePid (c_strg c PidFile)] ++ es3), uid, gid. split_and!; [by rewrite <- !app_assoc| |done|done|].
  - rewrite !not_elem_of_app. split_and!; [done| | |]; [by intros ?%list_elem_of_singleton..|].
    intros Hin. rewrite Forall_forall in Hf. exact (Hf _ Hin).
  - intros i. rewrite !ids_after_app. apply Hids.
Qed.
End process_facts.

(** A signal ends the loop around accept, whatever failed before, with status 0. *)
Lemma signal_ends_accept calls a rest : Forall (fun x => a_signal x = false /\ (a_errno x = EINTR \/ a_fd x < 0)) calls ->
  a_signal a = true -> accept_client (calls ++ a :: rest) = Some (Exit 0, rest).
Proof.
  intros H Ha. induction H as [|x calls [Hs He] _ IH]; cbn [app accept_client]; [by rewrite Ha|].
  rewrite Hs. destruct (Z.eqb_spec (a_errno x) EINTR); [done|]. destruct He as [|He]; [done|].
  apply Z.ltb_lt in He. by rewrite He.
Qed.

(** SIGHUP without a configuration file ends the program by an exception. *)
Lemma sighup_without_file {sys : System} num file g : conf_file file = None ->
  deliver num file SIGHUP g = ([], Crash "IOError not caught").
Proof. intros H. unfold deliver, reread. cbn [handler_of]. by rewrite H. Qed.
