(* ===== verification/Programs.v ===== *)
(** * Programs.v: main of NewsCache, NewsCacheClean and updatenews

    src/NewsCache.cc, src/NewsCacheClean.cc and src/updatenews.cc from the command line
    to the work of the program.  The options are the list getopt_long gives;
    [extra] tells that there are arguments behind them. *)
From S2P Require Import Prelude Text Matching ServerList.
From S2P Require Import AccessList.
From S2P Require Import Config.
From S2P Require Import Clean.
From S2P Require Import Updatenews.
From S2P Require Import Nntpd.
From S2P Require Import Process.
From Stdlib Require Import Sorting.Sorted.

Section programs.
Context {sys : System} {resolver : Resolver}.
Variable cmnd : bytes.
Definition lines (l : list string) : bytes := concat (map (fun s => bs s ++ [LF]) l).

Definition version : bytes := PACKAGE ++ bs " " ++ VERSION ++ [LF].

(** ** NewsCache *)
Definition newscache_usage : bytes := lines
  ["       -h, --help"; "              Show summary of options."; "";
   "       -v, --version"; "              Show version of program."; "";
   "       -f --fqdn"; "              Print what newscache thinks is the fully qualified domain  name."; "";
   "       -c --configuration config-file"; "";
   "       -i --inetd"; "              newscache is used with inetd and read from stdin."; "";
   "       -d --debug"; "              Do not detach."; "";
   "       -p --print-parameter"; "              Print current parameter settings."; "";
   "       -o --configurtion-options"; "              Print all options specified in the configure phase."]%string.

Record nc_opts := NcOpts { config_file : bytes; opt_inetd : bool; opt_debug : bool; opt_print_para : bool; opt_config_options : bool }.

Fixpoint nc_options (opts : list (ascii * bytes)) (o : nc_opts) (aerr : bool) : prog (nc_opts * bool) :=
  match opts with
  | [] => go (o, aerr)
  | (c, optarg) :: opts =>
      if bool_decide (c = "v"%char) then act (Out version) >>> exit 0
      else if bool_decide (c = "f"%char) then act (Out (fqdn ++ [LF])) >>> exit 0
      else if bool_decide (c = "h"%char) then
        act (Out (bs "Usage: " ++ cmnd ++ bs " [options]" ++ [LF] ++ newscache_usage)) >>> exit 0
      else if bool_decide (c = "c"%char) then
        nc_options opts (NcOpts optarg (opt_inetd o) (opt_debug o) (opt_print_para o) (opt_config_options o)) aerr
      else if bool_decide (c = "i"%char) then
        nc_options opts (NcOpts (config_file o) true (opt_debug o) (opt_print_para o) (opt_config_options o)) aerr
      else if bool_decide (c = "d"%char) then
        nc_options opts (NcOpts (config_file o) (opt_inetd o) true (opt_print_para o) (opt_config_options o)) aerr
      else if bool_decide (c = "p"%char) then
        nc_options opts (NcOpts (config_file o) (opt_inetd o) (opt_debug o) true (opt_config_options o)) aerr
      else if bool_decide (c = "o"%char) then
        nc_options opts (NcOpts (config_file o) (opt_inetd o) (opt_debug o) (opt_print_para o) true) aerr
      else nc_options opts o true
  end.

Definition usage_error {A} (usage : bytes) : prog A := die (bs "Usage: " ++ cmnd ++ bs " [options]" ++ [LF] ++ usage) 1.

(** What main comes to: nnrpd on the standard input, or the loop of nntpd; with the
    host name it uses. *)
Inductive served := ServeInetd (c : Config) (nntp_hostname : bytes) | ServeDaemon (c : Config) (nntp_hostname : bytes).

Definition detach (debug : bool) : prog unit :=
  if debug then go tt else
  match fork with
  | ForkFails => act (Err (bs "cannot fork" ++ [LF]))
  | ForkParent => exit 0
  | ForkChild => if negb setsid_ok then act (Err (bs "setsid failed" ++ [LF])) >>> exit 1 else act SetSid >>> act CloseStd
  end.

Definition newscache_main (opts : list (ascii * bytes)) (extra : bool) : prog served :=
  r <-- nc_options opts (NcOpts default_config false false false false) false ;
  let '(o, aerr) := r in
  if aerr || extra then usage_error newscache_usage else
  c <-- read_config (config_file o) ;
  if opt_print_para o then
    act (Out (bs "# This output is generated with newscache -p" ++ [LF])) >>> act (Out (print_config c)) >>> exit 0
  else if opt_config_options o then
    act (Out (concat (map (fun x => x ++ bs " ") ConfigurationOptions) ++ [LF])) >>> exit 0
  else if opt_inetd o || match ServerType c with inetd => true | standalone => false end then
    (if getuid =? CONF_UIDROOT then setugid (c_strg c Username) (c_strg c Groupname) else go tt) >>>
    go (ServeInetd c (c_strg c Hostname))
  else
    detach (opt_debug o) >>> nntpd_start c >>> go (ServeDaemon c (c_strg c Hostname)).

(** ** NewsCacheClean *)
Definition clean_usage : bytes := lines
  ["       -h, --help"; "              Show summary of options."; "";
   "       -v, --version"; "              Show version of program."; "";
   "       -c --configuration config-file"; "";
   "       -s --statistic"; "              Show statistic informations."; "";
   "       -p --print-purgetable"; "              Print the sorted purge table."; "";
   "       -t --try"; "              Try, not really removing files."]%string.

Record clean_opts := CleanOpts { conffile : bytes; o_stat : bool; try_flag : bool; p_flag : bool }.
Fixpoint clean_options (opts : list (ascii * bytes)) (o : clean_opts) (aerr : bool) : prog (clean_opts * bool) :=
  match opts with
  | [] => go (o, aerr)
  | (c, optarg) :: opts =>
      if bool_decide (c = "v"%char) then act (Out version) >>> exit 0
      else if bool_decide (c = "h"%char) then act (Out (bs "Usage: " ++ cmnd ++ [LF] ++ clean_usage ++ [LF])) >>> exit 0
      else if bool_decide (c = "c"%char) then clean_options opts (CleanOpts optarg (o_stat o) (try_flag o) (p_flag o)) aerr
      else if bool_decide (c = "s"%char) then clean_options opts (CleanOpts (conffile o) true (try_flag o) (p_flag o)) aerr
      else if bool_decide (c = "t"%char) then clean_options opts (CleanOpts (conffile o) (o_stat o) true (p_flag o)) aerr
      else if bool_decide (c = "p"%char) then clean_options opts (CleanOpts (conffile o) (o_stat o) (try_flag o) true) aerr
      else clean_options opts o true
  end.

(** Entry::print *)
Definition print_entry (e : Entry) : bytes := Path e ++ bs " " ++ dec (atime e) ++ bs " " ++ dec (blocks e) ++ bs " " ++ [LF].
Definition purge_line : bytes := bs "---------------- Purge table ----------------" ++ [LF].

(** The files main removed, and _blocks. *)
Record cleaned := Cleaned { removed : list Entry; blocks_left : Z }.

(** main; [root] is the spool directory, [sort] is std::sort with sort_entries. *)
Definition clean_main (root : node) (sort : list Entry -> list Entry) (unlink_ok rmdir_ok : bytes -> bool)
    (opts : list (ascii * bytes)) (extra : bool) : prog cleaned :=
  r <-- clean_options opts (CleanOpts default_config false false false) false ;
  let '(o, aerr) := r in
  if aerr || extra then usage_error clean_usage else
  c <-- read_config (conffile o) ;
  set_nice c >>>
  (if negb (chdir_ok (c_strg c SpoolDirectory)) then exit 1 else act (Chdir (c_strg c SpoolDirectory))) >>>
  (if getuid =? CONF_UIDROOT then setugid (c_strg c Username) (c_strg c Groupname) else go tt) >>>
  let found := clean root (bs ".") root in
  let es := sort found in
  (if p_flag o then act (Out (purge_line ++ concat (map print_entry es) ++ purge_line)) else go tt) >>>
  (if negb (try_flag o) && negb (is_int (max_blocks c)) then crash "signed overflow" else go tt) >>>
  let '(gone, n, st) := if try_flag o then ([], total found, no_statistic)
                        else remove_elements unlink_ok rmdir_ok (max_blocks c) es (total found) no_statistic in
  (if o_stat o then act (Out (print_statistic st)) else go tt) >>>
  go (Cleaned gone n).

(** ** updatenews *)
Definition updatenews_usage : bytes := lines
  ["       -h, --help"; "              Show summary of options."; "";
   "       -v, --version"; "              Show version of program."; "";
   "       -c --configuration config-file"; ""; "       -a --active"; "";
   "       -g --group"; "              Prefetch articles."; "";
   "       -o --over"; "              Prefetch overview database."; "";
   "       -l --lock-groups"; "              Lock newsgroup, when prefetching."; "";
   "       -w --workers"; "              Prefetch # newsgroups at once."]%string.

(** main, up to the call of update: the flags and the configuration. *)
Definition updatenews_main (opts : list (ascii * bytes)) (extra : bool) : prog (Z * Config) :=
  match parse_options opts 0 false None false with
  | print_version => act (Out version) >>> exit 0
  | print_help => act (Out (bs "Usage: " ++ cmnd ++ [LF] ++ updatenews_usage ++ [LF])) >>> exit 0
  | print_usage => usage_error updatenews_usage
  | run_with flags conf =>
      if extra then usage_error updatenews_usage else
      c <-- read_config (default default_config conf) ;
      let c := set_lists (clnts c) (map update_entry (srvrs c)) c in
      (if getuid =? CONF_UIDROOT then setugid (c_strg c Username) (c_strg c Groupname) else go tt) >>>
      go (flags, c)
  end.
End programs.

(** ** Whose rights the programs use *)
Section rights.
Context {sys : System} {resolver : Resolver}.
Variable cmnd : bytes.

(** The ids of the user and the group of the configuration, from any ids before. *)
Definition dropped (c : Config) (es : list effect) : Prop :=
  exists uid gid, user_id (c_strg c Username) = Some uid /\ group_id (c_strg c Groupname) = Some gid /\
    forall i, ids_after i es = Ids uid uid gid gid.

Lemma dropped_app c es1 es2 : dropped c es2 -> dropped c (es1 ++ es2).
Proof. intros (u & g & E1 & E2 & H). exists u, g. split_and!; [done|done|]. intros i. by rewrite ids_after_app. Qed.

Lemma dropped_before c es1 es2 : dropped c es1 -> Forall (fun e => match e with SetUid _ | SetGid _ => False | _ => True end) es2 ->
  dropped c (es1 ++ es2).
Proof.
  intros (u & g & E1 & E2 & H) Hf. exists u, g. split_and!; [done|done|]. intros i. rewrite ids_after_app. rewrite H.
  clear -Hf. induction Hf as [|e es He _ IH]; [done|]. by destruct e.
Qed.

(** [if (getuid() == CONF_UIDROOT) setugid(...)] *)
Lemma root_drops c es u : getuid = CONF_UIDROOT -> c_strg c Username <> [] -> c_strg c Groupname <> [] ->
  (if getuid =? CONF_UIDROOT then setugid (c_strg c Username) (c_strg c Groupname) else go tt) = (es, Go u) -> dropped c es.
Proof.
  intros Hr Hu Hg H. rewrite Hr in H. cbn match in H. by destruct (setugid_ids _ _ _ _ H) as [_ Hi]; apply Hi.
Qed.

Lemma nc_options_go opts o aerr es r : nc_options cmnd opts o aerr = (es, Go r) -> es = [].
Proof.
  revert o aerr. induction opts as [|[c a] opts IH]; intros o aerr H; cbn [nc_options] in H; [by go_inv H|].
  repeat (case_match; [first [by go_inv H | by eapply IH]|]). by eapply IH.
Qed.
Lemma detach_go debug es u : detach debug = (es, Go u) -> Listen ∉ es.
Proof.
  unfold detach. intros H. destruct debug; [go_inv H; apply not_elem_of_nil|]. destruct fork; [| |by go_inv H].
  - go_inv H. by intros ?%list_elem_of_singleton.
  - go_inv H. cbn [app]. rewrite !not_elem_of_cons. split_and!; [done|done|apply not_elem_of_nil].
Qed.

Definition served_config (m : served) : Config := match m with ServeInetd c _ | ServeDaemon c _ => c end.

(** C16: NewsCache serves nobody with the rights of root: when a user and a group are
    configured, all ids of the process are theirs before nntpd listens (its socket is
    bound before), and under inetd before nnrpd talks to the client, when the program
    was started by root. *)
Theorem served_unprivileged opts extra es m : newscache_main cmnd opts extra = (es, Go m) ->
  c_strg (served_config m) Username <> [] -> c_strg (served_config m) Groupname <> [] ->
  match m with
  | ServeInetd c _ => getuid = CONF_UIDROOT -> dropped c es
  | ServeDaemon c _ => dropped c es /\ exists pre, es = pre ++ [Listen] /\ (Listen ∉ pre) /\ dropped c pre
  end.
Proof.
  unfold newscache_main. intros H Hu Hg. apply then_go in H as (es1 & [o aerr] & es2 & H1 & H & ->).
  destruct (aerr || extra); [by unfold usage_error in H; go_inv H|].
  apply then_go in H as (es3 & c & es4 & H3 & H & ->). apply read_config_go in H3 as ->.
  destruct (opt_print_para o); [by go_inv H|]. destruct (opt_config_options o); [by go_inv H|].
  destruct (_ || _).
  - apply then_go in H as (es5 & u & es6 & H5 & H & ->). apply go_go in H as [-> <-]. cbn [served_config] in *.
    intros Hr. apply dropped_app. rewrite app_nil_r. by eapply root_drops.
  - apply then_go in H as (es5 & u & es6 & H5 & H & ->). apply then_go in H as (es7 & u7 & es8 & H7 & H & ->).
    apply go_go in H as [-> <-]. cbn [served_config] in *. rewrite app_nil_r.
    destruct (nntpd_start_ids _ _ _ H7 Hu Hg) as (pre & uid & gid & -> & Hl & E1 & E2 & Hi).
    assert (dropped c pre) as Hd by (exists uid, gid; by split_and!).
    split; [do 3 apply dropped_app; apply dropped_before; [done|by repeat constructor]|].
    exists (es1 ++ [] ++ es5 ++ pre). split; [by rewrite <- !app_assoc|]. split; [|by do 3 apply dropped_app].
    rewrite (nc_options_go _ _ _ _ _ H1). cbn [app]. rewrite not_elem_of_app. split; [|done]. by eapply detach_go.
Qed.

(** ** A run of NewsCacheClean *)
Variables (root : node) (sort : list Entry -> list Entry) (unlink_ok rmdir_ok : bytes -> bool).
Hypothesis sort_perm : forall es, sort es ≡ₚ es.
Hypothesis sort_sorted : forall es, sorted_entries (sort es).
Hypothesis unlink_works : forall p, unlink_ok p = true.

Lemma clean_options_go opts o aerr es r : clean_options cmnd opts o aerr = (es, Go r) -> es = [].
Proof.
  revert o aerr. induction opts as [|[c a] opts IH]; intros o aerr H; cbn [clean_options] in H; [by go_inv H|].
  repeat (case_match; [first [by go_inv H | by eapply IH]|]). by eapply IH.
Qed.

(** C17: a run of NewsCacheClean that gets to its work has the options and the
    configuration it was given, is in the spool directory, and leaves the files it
    should: with --try all of them; otherwise the outdated ones are gone, and of the
    others the least recently used ones, no more than needed for twice SpoolSize
    blocks.  Started by root it has the ids of the configured user and group. *)
Theorem clean_main_cleans opts extra es r : let found := clean root (bs ".") root in sizes_ok found ->
  clean_main cmnd root sort unlink_ok rmdir_ok opts extra = (es, Go r) ->
  exists o c kept,
    clean_options cmnd opts (CleanOpts default_config false false false) false = ([], Go (o, false)) /\ extra = false /\
    read_config (conffile o) = ([], Go c) /\ Chdir (c_strg c SpoolDirectory) ∈ es /\
    found ≡ₚ removed r ++ kept /\ blocks_left r = total kept /\
    (if try_flag o then removed r = [] else
       (total kept <= max_blocks c \/ kept = []) /\ Forall (fun e => atime e <> 0) kept /\
       (forall pre e suf, removed r = pre ++ e :: suf -> atime e <> 0 -> max_blocks c < total found - total pre) /\
       (forall e k, e ∈ removed r -> atime e <> 0 -> k ∈ kept -> atime e <= atime k)) /\
    (getuid = CONF_UIDROOT -> c_strg c Username <> [] -> c_strg c Groupname <> [] -> dropped c es).
Proof.
  intros found Hs. unfold clean_main. intros H. apply then_go in H as (es1 & [o aerr] & es2 & H1 & H & ->).
  pose proof (clean_options_go _ _ _ _ _ H1) as ->.
  destruct (aerr || extra) eqn:Ex; [by unfold usage_error in H; go_inv H|]. apply orb_false_iff in Ex as [-> ->].
  apply then_go in H as (es3 & c & es4 & H3 & H & ->). pose proof (read_config_go _ _ _ H3) as ->.
  apply then_go in H as (es5 & u5 & es6 & H5 & H & ->). apply then_go in H as (es7 & u7 & es8 & H7 & H & ->).
  destruct (negb (chdir_ok _)); [by go_inv H7|]. apply act_go in H7 as ->.
  apply then_go in H as (es9 & u9 & es10 & H9 & H & ->). fold found in H.
  apply then_go in H as (es11 & u11 & es12 & H11 & H & ->).
  apply then_go in H as (es15 & u15 & es16 & H15 & H & ->).
  assert (es15 = []) as -> by (destruct (_ && _) in H15; by go_inv H15). cbn [app].
  destruct (remove_purges unlink_ok rmdir_ok (max_blocks c) unlink_works (sort found) (total found) no_statistic
    (sort_sorted found) ltac:(unfold sizes_ok; by rewrite sort_perm)) as (gone & kept & st & Er & [Ha Ho Hen Hm Hold]).
  rewrite Er in H. rewrite sort_perm in Ha.
  assert (total found = total gone + total kept) as Et by (rewrite <- blocks_app; by rewrite <- Ha).
  assert (Forall (fun e => match e with SetUid _ | SetGid _ => False | _ => True end) es11) as H11f.
  { destruct (p_flag o); go_inv H11; by repeat constructor. }
  destruct (try_flag o) eqn:Etry; apply then_go in H as (es13 & u13 & es14 & H13 & H & ->); apply go_go in H as [-> <-];
    (assert (Forall (fun e => match e with SetUid _ | SetGid _ => False | _ => True end) es13) as H13f
      by (destruct (o_stat o); go_inv H13; by repeat constructor));
    (exists o, c); [exists found|exists kept]; rewrite Etry; cbn [removed blocks_left app].
  all: (split; [exact H1|]); (split; [done|]); (split; [exact H3|]);
    (split; [apply list_elem_of_In, in_or_app; right; by left|]).
  - split_and!; [done|done|done|]. intros Hr Hu Hg. apply dropped_app, (dropped_app _ [_]).
    apply dropped_before; [by eapply root_drops|]. rewrite app_nil_r. by apply Forall_app_2.
  - split_and!; [done|lia|destruct Hen; [left; lia|by right]|done|done|done|]. intros Hr Hu Hg. apply dropped_app, (dropped_app _ [_]).
    apply dropped_before; [by eapply root_drops|]. rewrite app_nil_r. by apply Forall_app_2.
Qed.
End rights.

(** ** A host *)
Lemma go_check {A} (p : prog A) (P : list effect -> A -> Prop) :
  match p with (es, Go a) => P es a | _ => False end -> exists es a, p = (es, Go a) /\ P es a.
Proof. destruct p as [es [a| |]]; [|done|done]. intros H. by exists es, a. Qed.

Definition ex_conf : bytes := lines
  ["ConfigVersion 5"; "# a small cache"; "Username news"; "Groupname newsgrp"; "SpoolSize 50"; "CachePort #1119"]%string.
Definition ex_system : System := {|
  getuid := 0;
  group_id g := if bool_decide (g = bs "newsgrp") then Some 13 else None;
  user_id u := if bool_decide (u = bs "news") then Some 9 else None;
  setregid_ok _ := true; setreuid_ok _ := true; strerror _ := bs "error"; sys_errno := 1;
  getpriority := Some 0; chdir_ok _ := true; socket_ok := true; bind_ok _ _ := true; fork := ForkChild; setsid_ok := true;
  conf_file f := if bool_decide (f = bs "/etc/newscache.conf") then Some ex_conf else None; fqdn := bs "cache";
  PACKAGE := bs "NewsCache"; VERSION := bs "1"; SYSCONFDIR := bs "/etc"; ConfigurationOptions := []
|}.
Definition ex_resolver : Resolver := {| inet_addr _ := None; gethostbyname _ := None; getservbyname _ := Some 119 |}.

Lemma served_unprivileged_witness : exists es m, newscache_main (sys := ex_system) (resolver := ex_resolver) (bs "newscache") [] false = (es, Go m) /\
  dropped (sys := ex_system) (served_config m) es /\ Bind 0 1119 ∈ es.
Proof.
  destruct (go_check (newscache_main (sys := ex_system) (resolver := ex_resolver) (bs "newscache") [] false)
    (fun es m => (c_strg (served_config m) Username <> [] /\ c_strg (served_config m) Groupname <> []) /\
       match m with ServeDaemon _ _ => In (Bind 0 1119) es | _ => False end)) as (es & m & E & [Hu Hg] & Hm).
  { vm_compute. split; [split; discriminate|]. tauto. }
  exists es, m. split; [exact E|]. pose proof (served_unprivileged (bs "newscache") [] false es m E Hu Hg) as H.
  destruct m; [destruct Hm|]. destruct H as [H _]. split; [exact H|by apply list_elem_of_In].
Defined.

(** std::sort, as insertion. *)
Fixpoint insert_entry (e : Entry) (l : list Entry) : list Entry :=
  match l with [] => [e] | x :: r => if sort_entries x e then x :: insert_entry e r else e :: l end.
Definition insertion_sort (l : list Entry) : list Entry := foldr insert_entry [] l.
Lemma insert_perm e l : insert_entry e l ≡ₚ e :: l.
Proof. induction l as [|x r IH]; cbn [insert_entry]; [done|]. destruct (sort_entries x e); [|done]. rewrite IH. by apply perm_swap. Qed.
Lemma insertion_perm l : insertion_sort l ≡ₚ l.
Proof. induction l as [|e l IH]; [done|]. unfold insertion_sort in *. cbn [foldr]. rewrite insert_perm. by rewrite IH. Qed.
Lemma insertion_sorted l : sorted_entries (insertion_sort l).
Proof.
  induction l as [|e l IH]; [apply SSorted_nil|]. unfold insertion_sort in *. cbn [foldr]. revert IH.
  generalize (foldr insert_entry [] l). clear l. intros l. unfold sorted_entries, sort_entries.
  induction l as [|x r IHr]; intros H; cbn [insert_entry]; [by repeat constructor|].
  apply StronglySorted_inv in H as [Hr Hx]. unfold sort_entries at 1. destruct (Z.ltb_spec (atime x) (atime e)) as [Hlt|Hge].
  - apply SSorted_cons; [by apply IHr|]. rewrite insert_perm. apply Forall_cons. split; [apply Z.ltb_ge; lia|done].
  - apply SSorted_cons; [by apply SSorted_cons|]. apply Forall_cons. split; [by apply Z.ltb_ge|].
    rewrite Forall_forall in Hx |- *. intros y Hy. specialize (Hx y Hy). apply Z.ltb_ge in Hx. apply Z.ltb_ge. lia.
Qed.

Lemma clean_main_cleans_witness : exists es r kept c,
  clean_main (sys := ex_system) (bs "newscacheclean") ex_spool insertion_sort (fun _ => true) (fun _ => true)
    [("s"%char, [])] false = (es, Go r) /\
  clean ex_spool (bs ".") ex_spool ≡ₚ removed r ++ kept /\ (total kept <= max_blocks c \/ kept = []) /\
  dropped (sys := ex_system) c es.
Proof.
  destruct ex_sorted_ok as (_ & _ & Hs).
  destruct (go_check (clean_main (sys := ex_system) (bs "newscacheclean") ex_spool insertion_sort (fun _ => true) (fun _ => true)
    [("s"%char, [])] false) (fun _ _ => True)) as (es & r & E & _); [vm_compute; exact I|].
  destruct (clean_main_cleans (sys := ex_system) (bs "newscacheclean") ex_spool insertion_sort (fun _ => true) (fun _ => true)
    insertion_perm insertion_sorted ltac:(done) [("s"%char, [])] false es r Hs E)
    as (o & c & kept & H1 & _ & H3 & _ & Hp & _ & Hr & Hd).
  exists es, r, kept, c. split; [exact E|]. split; [exact Hp|]. injection H1 as <-. cbn [try_flag] in Hr. destruct Hr as [Hr _].
  split; [exact Hr|]. cbn [conffile] in H3.
  assert (match read_config (sys := ex_system) (bs "/etc/newscache.conf") with
          | (_, Go c) => c_strg c Username <> [] /\ c_strg c Groupname <> [] | _ => False end) as Hc.
  { vm_compute. split; discriminate. }
  change (read_config (sys := ex_system) (bs "/etc/newscache.conf") = ([], Go c)) in H3. rewrite H3 in Hc. destruct Hc as [Hu Hg].
  exact (Hd eq_refl Hu Hg).
Defined.

(** With --try --statistic nothing is counted: the counters are those of the removal. *)
Lemma try_counts_nothing : exists es r,
  clean_main (sys := ex_system) (bs "newscacheclean") ex_spool insertion_sort (fun _ => true) (fun _ => true)
    [("s"%char, []); ("t"%char, [])] false = (es, Go r) /\ last es = Some (Out (print_statistic no_statistic)) /\ blocks_left r = 370.
Proof.
  destruct (go_check (clean_main (sys := ex_system) (bs "newscacheclean") ex_spool insertion_sort (fun _ => true) (fun _ => true)
    [("s"%char, []); ("t"%char, [])] false)
    (fun es r => last es = Some (Out (print_statistic no_statistic)) /\ blocks_left r = 370)) as (es & r & E & H).
  { vm_compute. split; reflexivity. }
  exists es, r. split; [exact E|exact H].
Qed.

(** A priority that cannot be read is noticed only when NiceServer is 0. *)
Lemma failed_getpriority (sys : System) c : getpriority = None -> c_int c NiceServer = 5 -> set_nice c = act (SetNice 4).
Proof. intros H Hn. unfold set_nice. rewrite H. rewrite Hn. reflexivity. Qed.

(** '.' is never part of a salt. *)
Lemma no_dot_salt : Forall (fun r => getsaltchar (Z.of_nat r) <> "."%char) (seq 0 64).
Proof. vm_compute. repeat (apply Forall_cons_2; [discriminate|]). apply Forall_nil_2. Qed.
